(* ===== verification/_CoqProject ===== *)
-Q . S2P
Prelude.v
Alloc.v
Quota.v
Mem.v
MemFacts.v
MemNuma.v
MemProps.v
Lpm.v
LpmFacts.v
LpmAcct.v
LpmAdd.v
LpmDel.v
LpmLookup.v
LpmTable.v
Fib.v
FibFacts.v
FibProps.v
Driver.v
DriverFacts.v
DriverProps.v
Hash.v
Neigh.v
NeighProps.v
Forward.v
ForwardProps.v
Tables.v
Netlink.v
NetlinkWire.v
NetlinkProps.v
Os.v
Plane.v
PlaneProps.v
Tun.v
Main.v
MainProps.v
Rings.v
Thread.v
ThreadTables.v
ThreadSafe.v
ThreadProps.v
ThreadLife.v
Kdma.v
KdmaProps.v
Sg.v
HwRegs.v
Hw.v
HwLogic.v
Eeprom.v
Nvm.v
NvmFacts.v
Checksum.v
NvmRead.v
Common.v
RegCard.v
Init.v
InitProps.v
CommonProps.v
Ixgbe82599.v
IxgbeProps.v
HwSafe.v
HwSafeProps.v
NvmDemo.v
Kmain.v
Fops.v
KLogic.v
Kirq.v
KmainProps.v
KirqProps.v
KmainDemo.v
Klife.v
KlifeProps.v
Kprobe.v
Kdevice.v
Lists.v
ListsProps.v
HlistProps.v
Options.v
OptionsProps.v
