(* ===== verification/Prelude.v ===== *)
(** * ixmap: a verification development

    ixmap is a user-space packet forwarder for Intel 82599 network cards.  A
    kernel module (src/kmod) gives a process access to the card's registers,
    interrupts and DMA; a library (src/lib) programs the card and runs the
    descriptor rings; and the forwarder (src/src) routes packets between ports,
    with routes and neighbours taken from the kernel and with everything it does
    not handle passed to the kernel through TAP devices.  Each core runs one
    thread, which owns a pool of packet buffers, a receive and a transmit ring on
    every port, and its own routing tables in memory from its own allocator.

    ** The parts, and the files that model them

    The library and the forwarder:

    - Memory (src/lib/memory.c): a buddy allocator whose nodes are linked objects
      from libnuma.  [Mem] has the pointer code and relates it to a binary tree,
      [MemFacts] shows the tree to be a correct allocator, [MemNuma] what a call
      needs of libnuma, which may refuse memory, [MemProps] states the
      properties.  [Alloc] is what the allocator promises to its clients, as a
      pair of classes; [Quota] is a second allocator that meets it and can be
      made to fail at a chosen call.
    - Routing table (src/src/lpm.c): a table of 2^16 nodes with 256-way tables
      below.  [Lpm] has the code, with the functions of [struct lpm_table] and the
      allocator as methods of [LpmOps]; [LpmFacts] the routes a table holds;
      [LpmAcct] the interface [LpmSpec] and the bookkeeping of memory and
      reference counts; [LpmAdd], [LpmDel], [LpmLookup] the operations; [LpmTable]
      the whole table.  [Fib] (src/src/fib.c) has the routes and meets [LpmSpec];
      [FibFacts] and [FibProps] have the properties.
    - Neighbours: [Hash] (src/src/hash.c) has the hash table over an interface
      [HashOps] with laws [HashSpec], [Neigh] (src/src/neigh.c) the client that
      meets it, [NeighProps] the properties.
    - Lists (src/src/linux/list.h): [Lists] has the intrusive lists as pointers in
      a memory, [ListsProps] the doubly linked ones and [HlistProps] the chains,
      each with a specification on sequences.  The tables above use a chain as the
      sequence of its members.
    - Rings (src/lib/driver.c): [Driver] has the code, [DriverFacts] the ring as a
      queue, [DriverProps] a core's ports, application and card as a transition
      system; [Rings] what is left of its invariant when a buffer is released
      twice.
    - Forwarding (src/src/forward.c): [Forward] works on the tables of [Fib] and
      [Neigh], the rings of [Driver] and a memory of bytes; [ForwardProps].
    - Notifications (src/src/netlink.c): [Netlink] parses them from bytes and
      applies them to the tables; [NetlinkWire] is their encoding; [Tables] has
      several tables in the memory of one allocator; [NetlinkProps].
    - The worker thread (src/src/thread.c): [Thread] has its tables and its event
      loop; [ThreadTables], [ThreadSafe], [ThreadProps], [ThreadLife].
    - Set-up: [Os] is the monad in which code acquires and gives back resources,
      with a small program logic.  [Plane] (src/lib/ixmap.c) opens devices and
      sets up rings, buffers and ports; [PlaneProps].  [Init] (src/lib/rxinit.c,
      src/lib/txinit.c, register access of src/lib/ixmap.c) programs a port;
      [InitProps].  [Tun] (src/src/iftap.c, src/src/epoll.c, and the descriptors of
      src/src/thread.c) has TAP devices and event descriptors.  [Main]
      (src/src/main.c) is the main program from the options on, [MainProps];
      [Options] the command line, [OptionsProps].

    The kernel module:

    - The card: [Hw] (src/kmod/ixmap_type.h, ixmap_common.h) has the driver's
      data, the class [Device] of cards and the monad of code that accesses one;
      [HwRegs] the registers; [HwLogic] a logic of total correctness; [RegCard]
      the cards whose configuration registers hold what is written to them.
    - EEPROM (src/kmod/ixmap_eeprom.c): [Eeprom] has the code, [Nvm] the chip and
      the semaphores as documented, a class of cards; [NvmFacts], [NvmRead] (reads
      return the word stored), [Checksum]; [NvmDemo] is a card of this kind.
    - Hardware code: [Common] (ixmap_common.c), [Ixgbe82599] (ixmap_82599.c,
      ixmap_phy.c); [CommonProps], [IxgbeProps]; [HwSafe], [HwSafeProps] on any
      card at all.
    - DMA areas (src/kmod/ixmap_dma.c): [Kdma], [KdmaProps]; [Sg] has the tables of
      page chunks.
    - Devices and interrupts (src/kmod/ixmap_main.c): [Kmain], in a monad over the
      adapter, the card and the resources of the system, with the logic [KLogic];
      [Fops] (src/kmod/ixmap_fops.c) is what a program may ask for.  [Kirq],
      [KmainProps], [KirqProps] are about interrupts, [Klife], [KlifeProps],
      [Kprobe], [Kdevice] about the life of a device, [KmainDemo] has a device
      for witnesses.

    ** How the code is represented

    Functions and types keep the names they have in C as far as they can; a
    loop or a block that is a function of its own here carries a name of its own.
    An integer is a [Z] with the conversions of its width written out where they
    can matter ([u8] to [u64], [s32], [not32]).  A pointer that is only read
    through is a [view], the bytes from an address on.  Structures are records;
    objects that the code links by pointers are kept in a [gmap] from addresses
    where aliasing matters (allocator nodes, route and neighbour entries, lists).
    Every function that can go wrong returns an [option]: [None] is undefined
    behaviour - a dangling pointer, an index out of bounds, something given back
    twice - and never an error that the code reports, which is a value as in C.
    That a call is [Some] is therefore part of what the theorems say.  In [Hw] and
    [Kmain] a third outcome is a loop that has used up its bound.

    Code that is not in the repository is a parameter: libnuma in [Mem], the
    allocator in all its clients, the answers of the operating system in [Os], the
    table of pages as the IOMMU leaves it in [Kdma], the card in [DriverProps] and in all files
    about registers, what arrives on descriptors and which events come in
    [Thread].

    Recursion is structural or, where it is not, bounded by fuel: [MEM_DEPTH] is 33
    in [Mem], one more than the number of times a 32-bit size can be halved; the
    depth of [_lpm_add] is given by the length of the address; the loops over
    lists and sections in the EEPROM have 65536 rounds, after which an index of 16
    bits repeats; the second reset of the 82599 is the last; the attempts to get
    interrupt vectors are at most as many as the vectors; a loop over a list has a
    round per entry; and the characters of the command line bound the options.
    The theorems show that the bounds are not reached, or for which EEPROMs the
    loop of the source does not end either.

    ** What is proved

    - Allocator: in every state that a client can reach while libnuma has not
      refused memory for a node, objects do not overlap and stay in the arena, every
      permitted call completes, freeing everything restores the initial tree;
      allocation is first-fit buddy allocation and fails only when no block is large
      enough.  A call that libnuma refuses memory may leave objects that overlap.
    - Routing: lookup is longest-prefix match, adding and deleting act on the list
      of routes as they should, and memory and reference counts are exact; a FIB
      refines a list of routes over any run.
    - Neighbours: a table refines a finite map over any run, and releases all.
    - Lists: any run of the operations on pointers is a run on sequences, without
      an access to memory that is not there.
    - Rings: each packet buffer has at most one owner and none is lost, in every
      reachable state of a core, with the card free to write descriptors back at
      any time and an application that sends and releases only what it holds;
      packets arrive in order; what is queued carries the right address and length.
    - Forwarding: the handlers decide as a specification of routing over abstract
      routes and neighbours does, and the incremental checksum is exact.
    - Notifications: any sequence of them, encoded as bytes with anything in the
      fields the code does not read, does to the tables what it means as long as
      memory lasts; parsing ends for any bytes.
    - Worker thread: nothing it does is undefined, for any events and packets, any
      notifications and an allocator that does not run out of memory; its tables are
      those the kernel has announced; when it is told to end it gives
      back all it holds but one descriptor.
    - Set-up: the rings of a core are disjoint, each buffer is in the share of one
      port, what results is an initial state of the transition system of the rings, the registers of a programmed port
      describe exactly these rings, the command line is read as meant, and the
      main program gives back all it acquired, whatever the system refuses and
      when.
    - EEPROM: on a card that behaves as documented, either way of reading returns
      the stored word and gives back the semaphores, and the checksum is validated
      exactly when it is right.
    - Hardware code: on any card, whatever its registers hold, no function has
      undefined behaviour; on a card whose registers hold what is written, stopping
      leaves it quiet, addresses are read back, commands stay within the mailbox.
    - Kernel module: from probing through requests and interrupts to removing, on
      any card and whatever the kernel refuses, nothing is used that is not there and
      everything is given back, for requests that are [proper] and a kernel that pins
      all pages of a request or none; a device is open once at a time; each queue has
      its own interrupt, which signals the very descriptor attached last.
    - DMA areas: the list stays sorted and disjoint as long as no area encloses
      another; mapping and unmapping are inverse and lose nothing; a table of chunks
      describes exactly the pages.

    The conditions of these theorems are the ones the code needs.  Where the code
    goes wrong outside of them, a theorem shows it: overlap after a failed
    allocation ([MemProps]), double free and dangling entries when memory runs out
    ([FibProps]), the freed slot of a queued packet and the wrapping TTL
    ([ForwardProps]), address truncation ([DriverProps]), overlapping rings and the
    wrong affinity mask ([PlaneProps]), leaks and unchecked errors ([MainProps]),
    enclosing areas, pages that are missing and merged entries ([KdmaProps]), ignored
    changes ([NeighProps]), batches of
    events that are never finished ([ThreadProps]), an EEPROM whose checksum is
    never computed ([Checksum]), an index past the queues and interrupts that are
    missing ([KirqProps]), devices left enabled and registers unmapped
    ([Kdevice]).

    ** What is not modelled

    The registration of the module itself and the handlers for bus errors, which
    only call the kernel or return a constant; the loops of list.h over containing
    structures, which are the modelled ones plus a constant offset.  Memory barriers, logging
    and debug output have no counterpart.  The threads of the forwarder share
    nothing but the card, so each is modelled by itself.

    This file holds what all the others share: machine integers, views, arrays,
    and lemmas and tactics on them. *)

From stdpp Require Import prelude fin_maps gmap list sorting.
From Stdlib Require Import ZArith Lia Btauto.

#[global] Open Scope Z_scope.

(** ** Machine integers

    A [w]-bit unsigned integer is a [Z] in [0, 2^w).  [uN] is the conversion
    C performs on assignment to an unsigned type of that width. *)

Definition u8 (x : Z) : Z := x mod 2 ^ 8.
Definition u16 (x : Z) : Z := x mod 2 ^ 16.
Definition u32 (x : Z) : Z := x mod 2 ^ 32.
Definition u64 (x : Z) : Z := x mod 2 ^ 64.

(** The value a [w]-bit pattern has as a two's complement integer: C's
    conversion to [int] on the platforms the program supports. *)
Definition s32 (x : Z) : Z :=
  let y := u32 x in if y <? 2 ^ 31 then y else y - 2 ^ 32.

(** [~m] on a 32-bit unsigned integer. *)
Definition not32 (m : Z) : Z := Z.lxor m (2 ^ 32 - 1).

(** ** Memory views

    A [void *] that the code only reads from is the function giving the byte
    at each offset: reading past the object an address points into yields
    whatever bytes follow it, which a view leaves arbitrary. *)

Definition view := nat -> Z.

Definition view_of (l : list Z) : view := fun i => default 0 (l !! i).

Definition is_byte (x : Z) : Prop := 0 <= x < 256.
Definition view_ok (v : view) : Prop := forall i, is_byte (v i).

(** Little-endian 32-bit load (x86) and [ntohl], the byte swap. *)
Definition load32 (v : view) (word : nat) : Z :=
  v (4 * word)%nat + v (4 * word + 1)%nat * 2 ^ 8
  + v (4 * word + 2)%nat * 2 ^ 16 + v (4 * word + 3)%nat * 2 ^ 24.

Definition byte_at (x : Z) (k : Z) : Z := Z.land (Z.shiftr x (8 * k)) 255.

Definition ntohl (x : Z) : Z :=
  Z.lor (Z.lor (Z.shiftl (byte_at x 0) 24) (Z.shiftl (byte_at x 1) 16))
        (Z.lor (Z.shiftl (byte_at x 2) 8) (byte_at x 3)).

Definition load64 (v : view) (word : nat) : Z :=
  load32 v (2 * word) + load32 v (2 * word + 1) * 2 ^ 32.

(** [memcpy(dst, src, n)] out of a readable object. *)
Definition copy_bytes (src : view) (n : nat) : list Z := src <$> seq 0 n.

(** Address families, and the bytes an address has. *)
Definition AF_INET : Z := 2.
Definition AF_INET6 : Z := 10.

(** The [switch] on the address family: how many bytes are copied. *)
Definition family_bytes (family : Z) : option nat :=
  if family =? AF_INET then Some 4%nat
  else if family =? AF_INET6 then Some 16%nat
  else None.

(** ** Bit-level arithmetic *)

Lemma testbit_small x n i : 0 <= x < 2 ^ n -> n <= i -> Z.testbit x i = false.
Proof.
  intros Hx Hi. assert (0 <= n) by (destruct (Z.leb_spec 0 n); [done|rewrite Z.pow_neg_r in Hx; lia]).
  apply Z.testbit_false; [lia|]. rewrite Z.div_small; [done|].
  split; [lia|]. apply Z.lt_le_trans with (2 ^ n); [lia|apply Z.pow_le_mono_r; lia].
Qed.

(** Masking off the low [k] bits of a [w]-bit integer. *)
Lemma land_not w x k :
  0 <= x < 2 ^ w -> 0 <= k <= w -> Z.land x (Z.lxor (2 ^ k - 1) (2 ^ w - 1)) = x / 2 ^ k * 2 ^ k.
Proof.
  intros Hx Hk. rewrite !Z.sub_1_r, <- !Z.ones_equiv.
  rewrite <- Z.shiftr_div_pow2, <- Z.shiftl_mul_pow2 by lia.
  apply Z.bits_inj'. intros i Hi. rewrite Z.land_spec, Z.lxor_spec, Z.shiftl_spec by lia.
  destruct (Z.ltb_spec i k).
  - rewrite Z.ones_spec_low, Z.ones_spec_low, (Z.testbit_neg_r _ (i - k)) by lia.
    by rewrite andb_false_r.
  - rewrite (Z.ones_spec_high k), Z.shiftr_spec by lia. replace (i - k + k) with i by lia.
    destruct (Z.ltb_spec i w).
    + rewrite Z.ones_spec_low by lia. by rewrite andb_true_r.
    + rewrite (testbit_small x w) by lia. done.
Qed.

Lemma land_not32 x k :
  0 <= x < 2 ^ 32 -> 0 <= k <= 32 -> Z.land x (not32 (2 ^ k - 1)) = x / 2 ^ k * 2 ^ k.
Proof. apply land_not. Qed.

(** Or-ing bits into the low [n] bits that a shift left free is addition. *)
Lemma lor_low a b n : 0 <= n -> 0 <= b < 2 ^ n -> Z.lor (a * 2 ^ n) b = a * 2 ^ n + b.
Proof.
  intros Hn Hb. rewrite <- Z.shiftl_mul_pow2 by lia. symmetry.
  rewrite Z.add_nocarry_lxor; [apply Z.lxor_lor|];
    (apply Z.bits_inj'; intros i Hi; rewrite Z.land_spec, Z.shiftl_spec, Z.bits_0 by lia;
     destruct (Z.ltb_spec i n);
     [rewrite (Z.testbit_neg_r _ (i - n)) by lia; done
     |rewrite (testbit_small b n) by lia; by rewrite andb_false_r]).
Qed.

Lemma lor_bound a b n : 0 <= a < 2 ^ n -> 0 <= b < 2 ^ n -> 0 <= Z.lor a b < 2 ^ n.
Proof.
  intros Ha Hb. assert (0 <= n) by (destruct (Z.leb_spec 0 n); [done|rewrite Z.pow_neg_r in Ha; lia]).
  assert (Z.lor a b = Z.lor a b mod 2 ^ n) as ->; [|apply Z.mod_pos_bound; lia].
  rewrite <- Z.land_ones, Z.land_lor_distr_l, !Z.land_ones, !Z.mod_small by lia. done.
Qed.

Lemma land_ones_mod a n : 0 <= n -> Z.land a (Z.shiftl 1 n - 1) = a mod 2 ^ n.
Proof.
  intros Hn. rewrite Z.shiftl_mul_pow2 by lia. rewrite Z.mul_1_l, Z.sub_1_r, <- Z.ones_equiv.
  by apply Z.land_ones.
Qed.

Lemma ntohl_load32 v w :
  view_ok v ->
  ntohl (load32 v w) = ((v (4 * w)%nat * 256 + v (4 * w + 1)%nat) * 256 + v (4 * w + 2)%nat) * 256
                       + v (4 * w + 3)%nat.
Proof.
  intros Hv. unfold ntohl, load32.
  pose proof (Hv (4 * w)%nat) as H0. pose proof (Hv (4 * w + 1)%nat) as H1.
  pose proof (Hv (4 * w + 2)%nat) as H2. pose proof (Hv (4 * w + 3)%nat) as H3.
  unfold is_byte in *. generalize dependent (v (4 * w)%nat). intros b0 H0.
  generalize dependent (v (4 * w + 1)%nat). intros b1 H1.
  generalize dependent (v (4 * w + 2)%nat). intros b2 H2.
  generalize dependent (v (4 * w + 3)%nat). intros b3 H3.
  set (x := b0 + _ + _ + _).
  assert (byte_at x 0 = b0 /\ byte_at x 1 = b1 /\ byte_at x 2 = b2 /\ byte_at x 3 = b3)
    as (-> & -> & -> & ->).
  { unfold byte_at, x. change 255 with (Z.shiftl 1 8 - 1). rewrite !land_ones_mod by lia.
    rewrite !Z.shiftr_div_pow2 by lia. split_and!; cbn; Z.to_euclidean_division_equations; lia. }
  rewrite !Z.shiftl_mul_pow2 by lia.
  rewrite (lor_low b2 b3 8) by lia.
  replace (b0 * 2 ^ 24) with (b0 * 2 ^ 8 * 2 ^ 16) by lia.
  assert (Z.lor (b0 * 2 ^ 8 * 2 ^ 16) (b1 * 2 ^ 16) = (b0 * 2 ^ 8 + b1) * 2 ^ 16) as ->.
  { rewrite <- !(Z.shiftl_mul_pow2 _ 16), <- Z.shiftl_lor by lia. by rewrite lor_low by lia. }
  rewrite lor_low by lia. lia.
Qed.

(** ** Byte strings *)

Lemma bytes_ok l : Forall is_byte l -> view_ok (view_of l).
Proof.
  intros Hl i. unfold view_of. destruct (l !! i) as [x|] eqn:E; [|by vm_compute].
  cbn. by eapply Forall_lookup_1 in E.
Qed.

Lemma copy_length v n : length (copy_bytes v n) = n.
Proof. unfold copy_bytes. by rewrite length_fmap, length_seq. Qed.

Lemma copy_view v n i : (i < n)%nat -> view_of (copy_bytes v n) i = v i.
Proof.
  intros Hi. unfold view_of, copy_bytes. rewrite list_lookup_fmap, lookup_seq_lt by done. done.
Qed.

Lemma copy_copy v n : copy_bytes (view_of (copy_bytes v n)) n = copy_bytes v n.
Proof.
  apply list_fmap_ext. intros i x Hx. apply lookup_seq in Hx as [-> Hi]. by apply copy_view.
Qed.

Lemma copy_bytes_eq v v' n : copy_bytes v n = copy_bytes v' n <-> forall i, (i < n)%nat -> v i = v' i.
Proof.
  split.
  - intros E i Hi. rewrite <- (copy_view v n i Hi), <- (copy_view v' n i Hi). by rewrite E.
  - intros E. apply list_fmap_ext. intros i x Hx. apply lookup_seq in Hx as [-> Hi]. by apply E.
Qed.

Lemma copy_ok v n : view_ok v -> Forall is_byte (copy_bytes v n).
Proof. intros Hv. apply Forall_fmap, Forall_true. intros i. apply Hv. Qed.

Lemma load32_inj v v' w :
  view_ok v -> view_ok v' -> load32 v w = load32 v' w <->
  forall i, (4 * w <= i < 4 * w + 4)%nat -> v i = v' i.
Proof.
  intros Hv Hv'. unfold load32. split.
  - intros E i Hi. pose proof (Hv (4 * w)%nat) as a0. pose proof (Hv (4 * w + 1)%nat) as a1.
    pose proof (Hv (4 * w + 2)%nat) as a2. pose proof (Hv (4 * w + 3)%nat) as a3.
    pose proof (Hv' (4 * w)%nat) as b0. pose proof (Hv' (4 * w + 1)%nat) as b1.
    pose proof (Hv' (4 * w + 2)%nat) as b2. pose proof (Hv' (4 * w + 3)%nat) as b3. unfold is_byte in *.
    assert (i = 4 * w \/ i = 4 * w + 1 \/ i = 4 * w + 2 \/ i = 4 * w + 3)%nat
      as [->|[->|[->| ->]]] by lia; lia.
  - intros E. rewrite !E by lia. done.
Qed.

Lemma load32_range v w : view_ok v -> 0 <= load32 v w < 2 ^ 32.
Proof.
  intros Hv. unfold load32. pose proof (Hv (4 * w)%nat). pose proof (Hv (4 * w + 1)%nat).
  pose proof (Hv (4 * w + 2)%nat). pose proof (Hv (4 * w + 3)%nat). unfold is_byte in *. lia.
Qed.

Lemma load64_inj v v' w :
  view_ok v -> view_ok v' -> load64 v w = load64 v' w <->
  forall i, (8 * w <= i < 8 * w + 8)%nat -> v i = v' i.
Proof.
  intros Hv Hv'. unfold load64.
  pose proof (load32_range v (2 * w) Hv). pose proof (load32_range v (2 * w + 1) Hv).
  pose proof (load32_range v' (2 * w) Hv'). pose proof (load32_range v' (2 * w + 1) Hv').
  pose proof (load32_inj v v' (2 * w) Hv Hv') as Hlo. pose proof (load32_inj v v' (2 * w + 1) Hv Hv') as Hhi.
  split.
  - intros E i Hi. destruct (decide (i < 8 * w + 4)%nat); [apply Hlo|apply Hhi]; lia.
  - intros E. rewrite (proj2 Hlo), (proj2 Hhi); [done| |]; intros i Hi; apply E; lia.
Qed.

(** ** Arrays

    Access by index; [None] is an access out of range. *)

Definition store {A} (l : list A) (i : Z) (x : A) : option (list A) :=
  if (0 <=? i) && (i <? Z.of_nat (length l)) then Some (<[Z.to_nat i := x]> l) else None.

Definition load {A} (l : list A) (i : Z) : option A :=
  if 0 <=? i then l !! Z.to_nat i else None.

Lemma load_lookup {A} (l : list A) i : 0 <= i -> load l i = l !! Z.to_nat i.
Proof. intros H. unfold load. by rewrite (proj2 (Z.leb_le 0 i)). Qed.

Lemma load_some {A} (l : list A) i : 0 <= i < Z.of_nat (length l) -> is_Some (load l i).
Proof. intros H. rewrite load_lookup by lia. apply lookup_lt_is_Some_2. lia. Qed.

Lemma load_range {A} (l : list A) i x : load l i = Some x -> 0 <= i < Z.of_nat (length l).
Proof.
  unfold load. destruct (Z.leb_spec 0 i); [|done]. intros H1%lookup_lt_Some. lia.
Qed.

Lemma store_some {A} (l : list A) i x :
  0 <= i < Z.of_nat (length l) -> store l i x = Some (<[Z.to_nat i := x]> l).
Proof. intros H. unfold store. by rewrite (proj2 (Z.leb_le 0 i)), (proj2 (Z.ltb_lt i _)) by lia. Qed.

Lemma load_store {A} (l : list A) i x j l' :
  store l i x = Some l' -> load l' j = if decide (j = i) then Some x else load l j.
Proof.
  unfold store. destruct (Z.leb_spec 0 i); [|done]. destruct (Z.ltb_spec i (Z.of_nat (length l))); [|done].
  cbn. intros [= <-]. unfold load. case_decide as E.
  - subst j. rewrite (proj2 (Z.leb_le 0 i)) by lia. apply list_lookup_insert_eq. lia.
  - destruct (Z.leb_spec 0 j); [|done]. apply list_lookup_insert_ne. lia.
Qed.

Lemma store_length {A} (l : list A) i x l' : store l i x = Some l' -> length l' = length l.
Proof. unfold store. case_match; [|done]. intros [= <-]. apply length_insert. Qed.

(** ** Automation *)

(** [set_solver] on the hypotheses that speak of sets or elements only: the
    proofs about heaps carry many others, which it would unfold. *)
Ltac keep_sets :=
  repeat match goal with
  | H : ?T |- _ =>
      lazymatch T with
      | _ ∈ _ => fail
      | _ ⊆ _ => fail
      | _ ## _ => fail
      | not _ => fail
      | @eq Z _ _ => fail
      | @eq (gset _) _ _ => fail
      | _ => clear H
      end
  end.

Ltac sets := keep_sets; set_solver.

(** Reduce the option monad after a rewrite has fixed its head. *)
Ltac opt := cbn [mbind option_bind mret option_ret fmap option_fmap option_map].

