(* ===== verification/Alloc.v ===== *)
(** * The allocator interface

    What [ixmap_mem_alloc] / [ixmap_mem_free] (src/lib/memory.c, exported by
    src/lib/include/ixmap.h) promise to the routing stack.  [Mem.v] models the
    buddy allocator and discharges this interface; the tables of the stack
    ([Fib.v], [Neigh.v]) are proved against it.

    [None] is undefined behaviour: a dangling pointer was dereferenced. *)

From stdpp Require Import prelude fin_maps gmap.
From S2P Require Import Prelude.

Class Allocator (A : Type) := {
  (** [al_alloc size a]: the address, or [None] when memory is exhausted. *)
  al_alloc : Z -> A -> option (option Z * A);
  al_free : Z -> A -> option A
}.

(** Largest request the interface covers: every structure of the stack is far
    smaller, and the 32-bit size arithmetic of the allocator cannot wrap. *)
Definition max_request : Z := 2 ^ 31.

(** [al_inv a L]: in state [a] the live objects are those of [L], a map from
    address to capacity. *)
Class AllocatorSpec (A : Type) `{Allocator A} := {
  al_inv : A -> gmap Z Z -> Prop;
  al_alloc_spec : forall a L n,
    al_inv a L -> 0 < n <= max_request ->
    exists r a', al_alloc n a = Some (r, a') /\
      match r with
      | None => al_inv a' L
      | Some x => L !! x = None /\ exists c, n <= c /\ al_inv a' (<[x := c]> L)
      end;
  al_free_spec : forall a L x c,
    al_inv a L -> L !! x = Some c ->
    exists a', al_free x a = Some a' /\ al_inv a' (delete x L);
  al_disjoint : forall a L x y c d,
    al_inv a L -> L !! x = Some c -> L !! y = Some d -> x <> y ->
    x + c <= y \/ y + d <= x
}.
