(* ===== verification/Quota.v ===== *)
(** * An allocator with a quota

    An allocator that hands out ascending addresses and fails after a number of
    calls.  It meets [AllocatorSpec]; freeing what is not live is undefined.  It
    makes the tables run out of memory at a chosen call, and is cheap to run. *)

From stdpp Require Import prelude fin_maps gmap list.
From S2P Require Import Prelude Alloc.

Record quota := Quota { q_next : Z; q_left : nat; q_live : gmap Z Z }.

#[export] Instance quota_allocator : Allocator quota := {
  al_alloc n a :=
    match q_left a with
    | O => Some (None, a)
    | S k => Some (Some (q_next a), Quota (q_next a + n) k (<[q_next a := n]> (q_live a)))
    end;
  al_free x a :=
    match q_live a !! x with
    | None => None
    | Some _ => Some (Quota (q_next a) (q_left a) (delete x (q_live a)))
    end
}.

Definition quota_inv (a : quota) (L : gmap Z Z) : Prop :=
  q_live a = L /\
  (forall x c, L !! x = Some c -> 0 < c /\ x + c <= q_next a) /\
  (forall x y c d, L !! x = Some c -> L !! y = Some d -> x <> y -> x + c <= y \/ y + d <= x).

#[export] Instance quota_allocator_spec : AllocatorSpec quota.
Proof.
  refine {| al_inv := quota_inv |}.
  - intros a L n (<- & Hb & Hd) Hn. cbn. destruct (q_left a) as [|k].
    { eexists _, _. split; [done|]. by split_and!. }
    eexists _, _. split; [done|]. cbn.
    assert (q_live a !! q_next a = None) as Hx.
    { destruct (q_live a !! q_next a) eqn:E; [|done]. apply Hb in E. lia. }
    split; [done|]. exists n. split; [lia|]. split_and!; [done| |].
    + intros x c [[<- <-]|[_ Hc]]%lookup_insert_Some; cbn; [lia|]. apply Hb in Hc. lia.
    + intros x y c d [[<- <-]|[_ Hc]]%lookup_insert_Some [[<- <-]|[_ Hc']]%lookup_insert_Some Hne;
        [done|apply Hb in Hc'; lia|apply Hb in Hc; lia|eauto].
  - intros a L x c (<- & Hb & Hd) Hx. cbn. rewrite Hx. eexists. split; [done|]. split_and!; [done| |].
    + intros y d [_ Hy]%lookup_delete_Some. cbn. eauto.
    + intros y z d e [_ Hy]%lookup_delete_Some [_ Hz]%lookup_delete_Some. eauto.
  - intros a L x y c d (_ & _ & Hd). eauto.
Defined.

(** ** Without a quota *)

(** The same allocator when it never runs out. *)
Record bump := Bump { b_next : Z; b_live : gmap Z Z }.

Definition one_more (a : bump) : quota := Quota (b_next a) 1 (b_live a).
Definition forget (q : quota) : bump := Bump (q_next q) (q_live q).

#[export] Instance bump_allocator : Allocator bump := {
  al_alloc n a := '(r, q) ← al_alloc n (one_more a); Some (r, forget q);
  al_free x a := q ← al_free x (one_more a); Some (forget q)
}.

#[export] Instance bump_allocator_spec : AllocatorSpec bump.
Proof.
  refine {| al_inv := fun a => quota_inv (one_more a) |}.
  - intros a L n Ha Hn. destruct (@al_alloc_spec quota _ quota_allocator_spec (one_more a) L n Ha Hn) as (r & q & E & Hr).
    cbn [al_alloc bump_allocator]. rewrite E. cbn. exists r, (forget q). split; [done|]. by destruct r.
  - intros a L x c Ha Hx. destruct (@al_free_spec quota _ quota_allocator_spec (one_more a) L x c Ha Hx) as (q & E & Hq).
    cbn [al_free bump_allocator]. rewrite E. cbn. exists (forget q). by split.
  - intros a L x y c d Ha. exact (@al_disjoint quota _ quota_allocator_spec (one_more a) L x y c d Ha).
Defined.

Lemma bump_total n (a a' : bump) : al_alloc n a <> Some (None, a').
Proof. done. Qed.
