(* ===== verification/Mem.v ===== *)
(** * The buddy allocator (src/lib/memory.c)

    [struct ixmap_mnode] objects live in a heap handed out by
    [numa_alloc_onnode] and point to each other through [child] and [parent];
    the arena they manage carries, in the first cache line of every block
    handed out, a header word holding the block's node.  The model keeps that
    pointer structure.  [shape] is the abstract binary tree; [rep] relates a
    heap to it, the lemmas on the heap show that the pointer code computes
    [salloc] and [sfree], and the block-level theorems are proved on shapes. *)

From stdpp Require Import prelude fin_maps gmap list.
From S2P Require Import Prelude Alloc.

(** ** Data *)

Record mnode := Mnode {
  child0 : option Z;
  child1 : option Z;
  parent : option Z;
  allocated : Z;
  index : Z;
  msize : Z;
  mptr : Z
}.

(** [clock] counts the calls made to [numa_alloc_onnode], so that two calls on
    the same heap may have different outcomes. *)
Record mem := Mem {
  clock : nat;
  nodes : gmap Z mnode;
  hdr : gmap Z Z
}.

Definition set_nodes (f : gmap Z mnode -> gmap Z mnode) (m : mem) : mem :=
  Mem (clock m) (f (nodes m)) (hdr m).

Definition set_child (i : Z) (c : option Z) (n : mnode) : mnode :=
  if i =? 0
  then Mnode c (child1 n) (parent n) (allocated n) (index n) (msize n) (mptr n)
  else Mnode (child0 n) c (parent n) (allocated n) (index n) (msize n) (mptr n).

Definition get_child (i : Z) (n : mnode) : option Z :=
  if i =? 0 then child0 n else child1 n.

Definition set_allocated (b : Z) (n : mnode) : mnode :=
  Mnode (child0 n) (child1 n) (parent n) b (index n) (msize n) (mptr n).

(** [ALIGN(x, a)] for an [unsigned int] [x]. *)
Definition ALIGN (x a : Z) : Z := Z.land (u32 (x + (a - 1))) (not32 (a - 1)).

Definition L1_CACHE_BYTES : Z := Z.shiftl 1 6.

(** Recursion depth of the tree walks: a node's 32-bit [size] halves at each
    level and requests are positive, so 33 levels are never exceeded
    ([mem_alloc_heap], [mem_free_heap]). *)
Definition MEM_DEPTH : nat := 33.

Section Mem.

(** [numa_alloc_onnode(sizeof(struct ixmap_mnode), ...)] of libnuma: the
    address of fresh memory or [NULL]. *)
Context (numa : nat -> gmap Z mnode -> option Z).

Definition ixmap_mnode_alloc (par : option Z) (ptr size idx : Z) (m : mem)
  : option Z * mem :=
  match numa (clock m) (nodes m) with
  | None => (None, Mem (S (clock m)) (nodes m) (hdr m))
  | Some p =>
      (Some p, Mem (S (clock m))
                   (<[p := Mnode None None par 0 idx size ptr]> (nodes m)) (hdr m))
  end.

Definition ixmap_mnode_release (p : Z) (m : mem) : option mem :=
  n ← nodes m !! p;
  m1 ← match parent n with
       | None => Some m
       | Some q =>
           pn ← nodes m !! q;
           Some (set_nodes <[q := set_child (index n) None pn]> m)
       end;
  Some (set_nodes (delete p) m1).

Definition ixmap_mem_init (ptr size : Z) (m : mem) : option Z * mem :=
  ixmap_mnode_alloc None ptr size 0 m.

(** The loop that splits an unallocated node in two: [true] when both children
    were made, [false] after the clean-up of [err_alloc_child]. *)
Definition mnode_split (p : Z) (m : mem) : option (bool * mem) :=
  n ← nodes m !! p;
  let size_new := Z.shiftr (msize n) 1 in
  let '(c0, m1) := ixmap_mnode_alloc (Some p) (mptr n + size_new * 0) size_new 0 m in
  n1 ← nodes m1 !! p;
  let m2 := set_nodes <[p := set_child 0 c0 n1]> m1 in
  match c0 with
  | None => Some (false, m2)
  | Some q0 =>
      let '(c1, m3) := ixmap_mnode_alloc (Some p) (mptr n + size_new * 1) size_new 1 m2 in
      n3 ← nodes m3 !! p;
      let m4 := set_nodes <[p := set_child 1 c1 n3]> m3 in
      match c1 with
      | Some _ => Some (true, m4)
      | None => m5 ← ixmap_mnode_release q0 m4; Some (false, m5)
      end
  end.

Fixpoint _ixmap_mem_alloc (fuel : nat) (node : option Z) (size : Z) (m : mem)
  : option (option Z * mem) :=
  match fuel with
  | O => None
  | S fuel =>
    match node with
    | None => Some (None, m)
    | Some p =>
      n ← nodes m !! p;
      '(ret, m') ←
        (if Z.shiftr (msize n) 1 <? size then
           Some (if (allocated n =? 0) && (size <=? msize n) then Some p else None, m)
         else
           '(ok, m1) ← (if allocated n =? 0 then mnode_split p m else Some (true, m));
           if ok : bool then
             n1 ← nodes m1 !! p;
             '(r0, m2) ← _ixmap_mem_alloc fuel (child0 n1) size m1;
             match r0 with
             | Some q => Some (Some q, m2)
             | None =>
                 n2 ← nodes m2 !! p;
                 _ixmap_mem_alloc fuel (child1 n2) size m2
             end
           else Some (None, m1));
      match ret with
      | None => Some (None, m')
      | Some q =>
          n' ← nodes m' !! p;
          Some (Some q, set_nodes <[p := set_allocated 1 n']> m')
      end
    end
  end.

Definition ixmap_mem_alloc (root : Z) (size : Z) (m : mem) : option (option Z * mem) :=
  '(ret, m1) ← _ixmap_mem_alloc MEM_DEPTH (Some root)
                 (u32 (ALIGN size L1_CACHE_BYTES + ALIGN 8 L1_CACHE_BYTES)) m;
  match ret with
  | None => Some (None, m1)
  | Some q =>
      n ← nodes m1 !! q;
      Some (Some (mptr n + ALIGN 8 L1_CACHE_BYTES),
            Mem (clock m1) (nodes m1) (<[mptr n := q]> (hdr m1)))
  end.

End Mem.

Fixpoint _ixmap_mem_free (fuel : nat) (p : Z) (m : mem) : option mem :=
  match fuel with
  | O => None
  | S fuel =>
      n ← nodes m !! p;
      let m1 := set_nodes <[p := set_allocated 0 n]> m in
      match parent n with
      | None => Some m1
      | Some q =>
          pn ← nodes m1 !! q;
          buddy ← get_child (if index n =? 0 then 1 else 0) pn;
          b ← nodes m1 !! buddy;
          if allocated b =? 0 then
            m2 ← ixmap_mnode_release buddy m1;
            m3 ← ixmap_mnode_release p m2;
            _ixmap_mem_free fuel q m3
          else Some m1
      end
  end.

Definition ixmap_mem_free (addr : Z) (m : mem) : option mem :=
  node ← hdr m !! (addr - ALIGN 8 L1_CACHE_BYTES);
  _ixmap_mem_free MEM_DEPTH node m.

Fixpoint _ixmap_mem_destroy (fuel : nat) (p : Z) (m : mem) : option mem :=
  match fuel with
  | O => None
  | S fuel =>
      n ← nodes m !! p;
      m1 ← match child0 n with
           | Some c => _ixmap_mem_destroy fuel c m
           | None => Some m
           end;
      n1 ← nodes m1 !! p;
      m2 ← match child1 n1 with
           | Some c => _ixmap_mem_destroy fuel c m1
           | None => Some m1
           end;
      ixmap_mnode_release p m2
  end.

Definition ixmap_mem_destroy (p : Z) (m : mem) : option mem :=
  _ixmap_mem_destroy MEM_DEPTH p m.

(** ** Abstract trees *)

(** A node is free, handed out (remembering its heap object), or split. *)
Inductive shape :=
| Fr
| Us (q : Z)
| Sp (l r : shape).

Definition is_free (s : shape) : bool := match s with Fr => true | _ => false end.

(** Blocks handed out: (start, size, node). *)
Fixpoint blocks (sz ad : Z) (s : shape) : list (Z * Z * Z) :=
  match s with
  | Fr => []
  | Us q => [(ad, sz, q)]
  | Sp l r => blocks (Z.shiftr sz 1) ad l ++ blocks (Z.shiftr sz 1) (ad + Z.shiftr sz 1) r
  end.

(** Maximal free blocks: (start, size). *)
Fixpoint frees (sz ad : Z) (s : shape) : list (Z * Z) :=
  match s with
  | Fr => [(ad, sz)]
  | Us _ => []
  | Sp l r => frees (Z.shiftr sz 1) ad l ++ frees (Z.shiftr sz 1) (ad + Z.shiftr sz 1) r
  end.

(** First-fit, left to right, splitting down to the smallest block that holds
    the request; [q] names the node of the block found. *)
Fixpoint salloc (fuel : nat) (q sz ad req : Z) (s : shape) : option (Z * Z * shape) :=
  match fuel with
  | O => None
  | S fuel =>
    if Z.shiftr sz 1 <? req then
      match s with
      | Fr => if req <=? sz then Some (ad, sz, Us q) else None
      | _ => None
      end
    else
      let half := Z.shiftr sz 1 in
      let go l r :=
        match salloc fuel q half ad req l with
        | Some (a, b, l') => Some (a, b, Sp l' r)
        | None =>
            match salloc fuel q half (ad + half) req r with
            | Some (a, b, r') => Some (a, b, Sp l r')
            | None => None
            end
        end in
      match s with
      | Fr => go Fr Fr
      | Us _ => None
      | Sp l r => go l r
      end
  end.

(** Freeing merges a pair of free buddies, upwards. *)
Fixpoint sfree (q : Z) (s : shape) : shape :=
  match s with
  | Fr => Fr
  | Us q' => if decide (q = q') then Fr else s
  | Sp l r =>
      let l' := sfree q l in
      let r' := sfree q r in
      if is_free l' && is_free r' then Fr else Sp l' r'
  end.

(** No split node has two free children: free buddies are always merged. *)
Fixpoint merged (s : shape) : Prop :=
  match s with
  | Sp l r => is_free l && is_free r = false /\ merged l /\ merged r
  | _ => True
  end.

(** ** Representation

    [rep h p par idx sz ad s F]: the node at [p] (child number [idx] of [par])
    roots a tree of shape [s] over the [sz] bytes at [ad]; [F] is the set of
    its nodes. *)
Inductive rep (h : gmap Z mnode)
  : Z -> option Z -> Z -> Z -> Z -> shape -> gset Z -> Prop :=
| rep_free p par idx sz ad :
    h !! p = Some (Mnode None None par 0 idx sz ad) ->
    rep h p par idx sz ad Fr {[p]}
| rep_used p par idx sz ad :
    h !! p = Some (Mnode None None par 1 idx sz ad) ->
    rep h p par idx sz ad (Us p) {[p]}
| rep_split p par idx sz ad pl pr l r Fl Rr :
    h !! p = Some (Mnode (Some pl) (Some pr) par 1 idx sz ad) ->
    rep h pl (Some p) 0 (Z.shiftr sz 1) ad l Fl ->
    rep h pr (Some p) 1 (Z.shiftr sz 1) (ad + Z.shiftr sz 1) r Rr ->
    p ∉ Fl -> p ∉ Rr -> Fl ## Rr ->
    rep h p par idx sz ad (Sp l r) ({[p]} ∪ Fl ∪ Rr).

(** ** Heap lemmas *)

(** [simplify_map_eq] that also splits equations between node records. *)
Ltac node_eq :=
  simplify_map_eq;
  repeat match goal with
  | H : Mnode _ _ _ _ _ _ _ = Mnode _ _ _ _ _ _ _ |- _ => injection H as; subst
  end.

Lemma rep_root h p par idx sz ad s F : rep h p par idx sz ad s F -> p ∈ F.
Proof. destruct 1; sets. Qed.

Lemma rep_dom h p par idx sz ad s F q :
  rep h p par idx sz ad s F -> q ∈ F -> is_Some (h !! q).
Proof.
  induction 1; intros Hq; [apply elem_of_singleton in Hq as ->; eauto..|].
  rewrite !elem_of_union, elem_of_singleton in Hq. naive_solver.
Qed.

Lemma rep_frame h h' p par idx sz ad s F :
  rep h p par idx sz ad s F -> (forall q, q ∈ F -> h' !! q = h !! q) ->
  rep h' p par idx sz ad s F.
Proof.
  induction 1 as [p par idx sz ad E|p par idx sz ad E
                 |p par idx sz ad pl pr l r Fl Rr E HL IHL HR IHR ? ? ?]; intros Hf.
  - apply rep_free. rewrite Hf by sets. done.
  - apply rep_used. rewrite Hf by sets. done.
  - apply rep_split with pl pr; auto; [by rewrite Hf by sets| |].
    + apply IHL. intros q Hq. apply Hf. sets.
    + apply IHR. intros q Hq. apply Hf. sets.
Qed.

(** The record a represented node has: only [allocated] and the children
    depend on the shape. *)
Lemma rep_node h p par idx sz ad s F :
  rep h p par idx sz ad s F ->
  exists c0 c1, h !! p = Some (Mnode c0 c1 par (if is_free s then 0 else 1) idx sz ad).
Proof. destruct 1; eauto. Qed.

Section AllocHeap.

Context (numa : nat -> gmap Z mnode -> option Z).
Hypothesis numa_fresh : forall t h p, numa t h = Some p -> h !! p = None.
Hypothesis numa_total : forall t h, exists p, numa t h = Some p.

Lemma split_heap p par idx sz ad m :
  nodes m !! p = Some (Mnode None None par 0 idx sz ad) ->
  exists q0 q1 m', mnode_split numa p m = Some (true, m') /\ hdr m' = hdr m /\
    q0 <> q1 /\ nodes m !! q0 = None /\ nodes m !! q1 = None /\
    nodes m' !! p = Some (Mnode (Some q0) (Some q1) par 0 idx sz ad) /\
    nodes m' !! q0 = Some (Mnode None None (Some p) 0 0 (Z.shiftr sz 1) ad) /\
    nodes m' !! q1 = Some (Mnode None None (Some p) 0 1 (Z.shiftr sz 1) (ad + Z.shiftr sz 1)) /\
    (forall q, q <> p -> q <> q0 -> q <> q1 -> nodes m' !! q = nodes m !! q).
Proof.
  intros Hp. unfold mnode_split. rewrite Hp. cbn [mbind option_bind msize mptr].
  unfold ixmap_mnode_alloc at 1.
  destruct (numa_total (clock m) (nodes m)) as [q0 E0]. rewrite E0.
  pose proof (numa_fresh _ _ _ E0) as H0. cbn [nodes].
  rewrite lookup_insert_ne by congruence. rewrite Hp. opt.
  set (m2 := set_nodes _ _). unfold ixmap_mnode_alloc.
  destruct (numa_total (clock m2) (nodes m2)) as [q1 E1]. rewrite E1.
  pose proof (numa_fresh _ _ _ E1) as H1. subst m2. cbn [nodes set_nodes] in *.
  assert (q1 <> p /\ q1 <> q0) as [Hq1 Hq10].
  { split; intros ->; simplify_map_eq. }
  assert (p <> q0) by congruence.
  rewrite lookup_insert_ne, lookup_insert_eq by congruence. opt.
  eexists q0, q1, _. split_and!; [reflexivity|done|congruence|done| | | | |]; cbn.
  - by simplify_map_eq.
  - simplify_map_eq. done.
  - simplify_map_eq. f_equal. f_equal. lia.
  - simplify_map_eq. f_equal. f_equal; lia.
  - intros q ???. by rewrite !lookup_insert_ne by congruence.
Qed.

Lemma salloc_Fr_some fuel q sz ad req :
  1 <= req <= sz -> sz < 2 ^ Z.of_nat fuel -> is_Some (salloc fuel q sz ad req Fr).
Proof.
  revert sz ad. induction fuel as [|fuel IH]; intros sz ad Hr Hf.
  { change (2 ^ Z.of_nat 0) with 1 in Hf. lia. }
  rewrite Nat2Z.inj_succ, Z.pow_succ_r in Hf by lia.
  cbn [salloc]. rewrite Z.shiftr_div_pow2 by lia. change (2 ^ 1) with 2.
  destruct (Z.ltb_spec (sz / 2) req).
  - rewrite (proj2 (Z.leb_le _ _)) by lia. eauto.
  - destruct (IH (sz / 2) ad) as [[[a b] s'] ->]; [lia|apply Z.div_lt_upper_bound; lia|eauto].
Qed.

(** What an allocation may do to the heap: nodes are added, never taken away,
    and only nodes of the subtree change. *)
Definition heap_ext (m m' : mem) (F F' : gset Z) : Prop :=
  hdr m' = hdr m /\ F ⊆ F' /\
  (forall q, q ∈ F' -> q ∉ F -> nodes m !! q = None) /\
  (forall q, q ∉ F' -> nodes m' !! q = nodes m !! q).

Definition alloc_post (fuel : nat) (m : mem) (p : Z) (par : option Z) (idx sz ad : Z)
    (s : shape) (F : gset Z) (req : Z) (res : option (option Z * mem)) : Prop :=
  exists r m' F', res = Some (r, m') /\ heap_ext m m' F F' /\
    match r with
    | None => (forall q, salloc fuel q sz ad req s = None) /\
              rep (nodes m') p par idx sz ad s F'
    | Some q => exists a b s' n, salloc fuel q sz ad req s = Some (a, b, s') /\
              rep (nodes m') p par idx sz ad s' F' /\
              q ∈ F' /\ nodes m' !! q = Some n /\ mptr n = a /\ msize n = b
    end.

(** The two recursive calls, once the children exist. *)
Definition alloc_children (fuel : nat) (p req : Z) (m1 : mem) : option (option Z * mem) :=
  n1 ← nodes m1 !! p;
  '(r0, m2) ← _ixmap_mem_alloc numa fuel (child0 n1) req m1;
  match r0 with
  | Some q => Some (Some q, m2)
  | None => n2 ← nodes m2 !! p; _ixmap_mem_alloc numa fuel (child1 n2) req m2
  end.

Definition salloc_children (fuel : nat) (q sz ad req : Z) (l r : shape)
  : option (Z * Z * shape) :=
  let half := Z.shiftr sz 1 in
  match salloc fuel q half ad req l with
  | Some (a, b, l') => Some (a, b, Sp l' r)
  | None =>
      match salloc fuel q half (ad + half) req r with
      | Some (a, b, r') => Some (a, b, Sp l r')
      | None => None
      end
  end.

Lemma alloc_children_heap fuel p pl pr par al idx sz ad l r Fl Rr req m :
  (forall p par idx sz ad s F m, rep (nodes m) p par idx sz ad s F ->
     0 <= sz < 2 ^ Z.of_nat fuel ->
     alloc_post fuel m p par idx sz ad s F req (_ixmap_mem_alloc numa fuel (Some p) req m)) ->
  0 <= Z.shiftr sz 1 < 2 ^ Z.of_nat fuel ->
  nodes m !! p = Some (Mnode (Some pl) (Some pr) par al idx sz ad) ->
  rep (nodes m) pl (Some p) 0 (Z.shiftr sz 1) ad l Fl ->
  rep (nodes m) pr (Some p) 1 (Z.shiftr sz 1) (ad + Z.shiftr sz 1) r Rr ->
  p ∉ Fl -> p ∉ Rr -> Fl ## Rr ->
  exists ret m' Fl' Rr' l' r', alloc_children fuel p req m = Some (ret, m') /\
    heap_ext m m' (Fl ∪ Rr) (Fl' ∪ Rr') /\
    nodes m' !! p = Some (Mnode (Some pl) (Some pr) par al idx sz ad) /\
    rep (nodes m') pl (Some p) 0 (Z.shiftr sz 1) ad l' Fl' /\
    rep (nodes m') pr (Some p) 1 (Z.shiftr sz 1) (ad + Z.shiftr sz 1) r' Rr' /\
    p ∉ Fl' /\ p ∉ Rr' /\ Fl' ## Rr' /\
    match ret with
    | None => l' = l /\ r' = r /\ (forall q, salloc_children fuel q sz ad req l r = None)
    | Some q => exists a b n, salloc_children fuel q sz ad req l r = Some (a, b, Sp l' r') /\
        q ∈ Fl' ∪ Rr' /\ nodes m' !! q = Some n /\ mptr n = a /\ msize n = b
    end.
Proof.
  intros IH Hsz Hp HL HR HpL HpR Hdisj. unfold alloc_children. rewrite Hp.
  cbn [mbind option_bind child0].
  destruct (IH _ _ _ _ _ _ _ m HL Hsz) as (r0 & m2 & Fl' & -> & (Hh & Hsub & Hnew & Hfr) & Hr0).
  opt.
  assert (p ∉ Fl') as HpL'. { intros Hin. apply (Hnew p Hin) in HpL. congruence. }
  assert (Fl' ## Rr) as HdR.
  { intros q Hq Hq'. destruct (decide (q ∈ Fl)); [sets|].
    pose proof (rep_dom _ _ _ _ _ _ _ _ _ HR Hq') as [? ?]. rewrite (Hnew q) in *; done. }
  assert (rep (nodes m2) pr (Some p) 1 (Z.shiftr sz 1) (ad + Z.shiftr sz 1) r Rr) as HR2.
  { apply (rep_frame (nodes m)); [done|]. intros q Hq. apply Hfr. sets. }
  assert (nodes m2 !! p = Some (Mnode (Some pl) (Some pr) par al idx sz ad)) as Hp2.
  { by rewrite Hfr. }
  destruct r0 as [q|].
  - destruct Hr0 as (a & b & l' & n & Ha & HL' & Hq & Hn & Hma & Hmb).
    exists (Some q), m2, Fl', Rr, l', r. split_and!; try done.
    + split_and!; [done|sets| |]; intros x Hx; [intros Hx'; apply Hnew|apply Hfr]; sets.
    + exists a, b, n. unfold salloc_children. rewrite Ha. split_and!; try done. sets.
  - destruct Hr0 as [Hnone HL']. rewrite Hp2. cbn [mbind option_bind child1].
    destruct (IH _ _ _ _ _ _ _ m2 HR2 Hsz)
      as (r1 & m3 & Rr' & -> & (Hh3 & Hsub3 & Hnew3 & Hfr3) & Hr1).
    assert (p ∉ Rr') as HpR'. { intros Hin. apply (Hnew3 p Hin) in HpR. congruence. }
    assert (Fl' ## Rr') as HdR'.
    { intros q Hq Hq'. destruct (decide (q ∈ Rr)); [sets|].
      pose proof (rep_dom _ _ _ _ _ _ _ _ _ HL' Hq) as [? ?]. rewrite (Hnew3 q) in *; done. }
    assert (rep (nodes m3) pl (Some p) 0 (Z.shiftr sz 1) ad l Fl') as HL3.
    { apply (rep_frame (nodes m2)); [done|]. intros q Hq. apply Hfr3. sets. }
    assert (heap_ext m m3 (Fl ∪ Rr) (Fl' ∪ Rr')) as Hext.
    { split_and!; [congruence|sets| |].
      - intros q Hq Hn. destruct (decide (q ∈ Fl')); [apply Hnew; sets|].
        rewrite <- Hfr by done. apply Hnew3; sets.
      - intros q Hq. rewrite Hfr3, Hfr by sets. done. }
    destruct r1 as [q|].
    + destruct Hr1 as (a & b & r' & n & Ha & HR' & Hq & Hn & Hma & Hmb).
      exists (Some q), m3, Fl', Rr', l, r'. split_and!; try done; [by rewrite Hfr3|].
      exists a, b, n. unfold salloc_children. rewrite (Hnone q), Ha. split_and!; try done. sets.
    + destruct Hr1 as [Hnone' HR']. exists None, m3, Fl', Rr', l, r.
      split_and!; try done; [by rewrite Hfr3|].
      intros q. unfold salloc_children. by rewrite (Hnone q), (Hnone' q).
Qed.

Lemma alloc_unfold fuel p req m :
  _ixmap_mem_alloc numa (S fuel) (Some p) req m =
  (n ← nodes m !! p;
   '(ret, m') ←
     (if Z.shiftr (msize n) 1 <? req then
        Some (if (allocated n =? 0) && (req <=? msize n) then Some p else None, m)
      else
        '(ok, m1) ← (if allocated n =? 0 then mnode_split numa p m else Some (true, m));
        if ok : bool then alloc_children fuel p req m1 else Some (None, m1));
   match ret with
   | None => Some (None, m')
   | Some q => n' ← nodes m' !! p; Some (Some q, set_nodes <[p := set_allocated 1 n']> m')
   end).
Proof. reflexivity. Qed.

Lemma salloc_split_unfold fuel q sz ad req l r :
  req <= Z.shiftr sz 1 ->
  salloc (S fuel) q sz ad req (Sp l r) = salloc_children fuel q sz ad req l r.
Proof. intros H. cbn [salloc]. by rewrite (proj2 (Z.ltb_ge _ _) H). Qed.

Lemma salloc_free_unfold fuel q sz ad req :
  req <= Z.shiftr sz 1 ->
  salloc (S fuel) q sz ad req Fr = salloc_children fuel q sz ad req Fr Fr.
Proof. intros H. cbn [salloc]. by rewrite (proj2 (Z.ltb_ge _ _) H). Qed.

(** The walk below a node whose children exist in [m1], [m1] being [m] plus
    possibly two fresh children. *)
Lemma alloc_below fuel p pl pr par al idx sz ad l r Fl Rr F req m m1 :
  (forall p par idx sz ad s F m, rep (nodes m) p par idx sz ad s F ->
     0 <= sz < 2 ^ Z.of_nat fuel ->
     alloc_post fuel m p par idx sz ad s F req (_ixmap_mem_alloc numa fuel (Some p) req m)) ->
  0 <= Z.shiftr sz 1 < 2 ^ Z.of_nat fuel ->
  nodes m1 !! p = Some (Mnode (Some pl) (Some pr) par al idx sz ad) ->
  rep (nodes m1) pl (Some p) 0 (Z.shiftr sz 1) ad l Fl ->
  rep (nodes m1) pr (Some p) 1 (Z.shiftr sz 1) (ad + Z.shiftr sz 1) r Rr ->
  p ∉ Fl -> p ∉ Rr -> Fl ## Rr ->
  heap_ext m m1 F ({[p]} ∪ Fl ∪ Rr) ->
  exists ret m', alloc_children fuel p req m1 = Some (ret, m') /\
    match ret with
    | None => (forall q, salloc_children fuel q sz ad req l r = None) /\
        (al = 1 -> exists F', heap_ext m m' F F' /\
                              rep (nodes m') p par idx sz ad (Sp l r) F')
    | Some q => exists n', nodes m' !! p = Some n' /\
        let m'' := set_nodes <[p := set_allocated 1 n']> m' in
        exists F' a b s' n, heap_ext m m'' F F' /\
          salloc_children fuel q sz ad req l r = Some (a, b, s') /\
          rep (nodes m'') p par idx sz ad s' F' /\
          q ∈ F' /\ nodes m'' !! q = Some n /\ mptr n = a /\ msize n = b
    end.
Proof.
  intros IH Hsz Hp HL HR HpL HpR Hdisj (Hh & Hsub & Hnew & Hfr).
  destruct (alloc_children_heap fuel p pl pr par al idx sz ad l r Fl Rr req m1
              IH Hsz Hp HL HR HpL HpR Hdisj)
    as (ret & m' & Fl' & Rr' & l' & r' & -> & (Hh' & Hsub' & Hnew' & Hfr') & Hp' & HL' & HR'
        & HpL' & HpR' & Hd' & Hret).
  assert (forall m2, hdr m2 = hdr m' ->
            (forall q, q <> p -> nodes m2 !! q = nodes m' !! q) ->
            heap_ext m m2 F ({[p]} ∪ Fl' ∪ Rr')) as Hext.
  { intros m2 Hhd Heq. split_and!; [congruence|sets| |].
    - intros q Hq Hn. destruct (decide (q ∈ {[p]} ∪ Fl ∪ Rr)); [by apply Hnew|].
      rewrite <- Hfr by done. apply Hnew'; sets.
    - intros q Hq. rewrite Heq, Hfr', Hfr by sets. done. }
  exists ret, m'. split; [done|]. destruct ret as [q|].
  - destruct Hret as (a & b & n & Ha & Hq & Hn & Hma & Hmb).
    eexists. split; [done|]. cbn zeta.
    assert (q <> p) by sets.
    exists ({[p]} ∪ Fl' ∪ Rr'), a, b, (Sp l' r'), n.
    split_and!; try done.
    + apply Hext; [done|]. intros x Hx. cbn. by rewrite lookup_insert_ne.
    + apply rep_split with pl pr; try done; cbn; [by rewrite lookup_insert_eq| |];
        (eapply rep_frame; [done|]; intros x Hx; rewrite lookup_insert_ne; [done|sets]).
    + sets.
    + cbn. by rewrite lookup_insert_ne.
  - destruct Hret as (-> & -> & Hnone). split; [done|]. intros ->.
    exists ({[p]} ∪ Fl' ∪ Rr'). split; [by apply Hext|]. by apply rep_split with pl pr.
Qed.

Lemma heap_ext_refl m F : heap_ext m m F F.
Proof. split_and!; naive_solver. Qed.

(** The walk of [_ixmap_mem_alloc] refines [salloc]. *)
Lemma alloc_heap fuel p par idx sz ad s F req m :
  rep (nodes m) p par idx sz ad s F -> 1 <= req -> (0 < fuel)%nat ->
  0 <= sz < 2 ^ Z.of_nat fuel ->
  alloc_post fuel m p par idx sz ad s F req (_ixmap_mem_alloc numa fuel (Some p) req m).
Proof.
  intros Hrep Hreq. revert p par idx sz ad s F m Hrep.
  induction fuel as [|fuel IH]; intros p par idx sz ad s F m Hrep Hfuel Hsz; [lia|].
  rewrite alloc_unfold. destruct (rep_node _ _ _ _ _ _ _ _ Hrep) as (c0 & c1 & Hp).
  rewrite Hp. opt. cbn [msize allocated].
  rewrite Nat2Z.inj_succ, Z.pow_succ_r in Hsz by lia.
  assert (0 <= Z.shiftr sz 1 < 2 ^ Z.of_nat fuel) as Hhalf.
  { rewrite Z.shiftr_div_pow2 by lia. change (2 ^ 1) with 2.
    split; [apply Z.div_pos|apply Z.div_lt_upper_bound]; lia. }
  destruct (Z.ltb_spec (Z.shiftr sz 1) req) as [Hlt|Hge].
  - opt. destruct (is_free s && (req <=? sz)) eqn:Hb.
    + apply andb_true_iff in Hb as [Hs Hle]. destruct s; try done.
      cbn [is_free]. rewrite Hle. cbn [Z.eqb andb]. rewrite Hp. opt.
      inversion Hrep; node_eq. unfold alloc_post.
      eexists (Some p), _, {[p]}. split; [done|]. split.
      { split_and!; [done|done|naive_solver|]. intros q Hq. cbn.
        rewrite lookup_insert_ne by sets. done. }
      exists ad, sz, (Us p). cbn [salloc].
      rewrite (proj2 (Z.ltb_lt _ _) Hlt), Hle. eexists. split_and!; [done| |sets|..].
      * apply rep_used. cbn. by rewrite lookup_insert_eq.
      * cbn. by rewrite lookup_insert_eq.
      * done.
      * done.
    + replace ((if is_free s then 0 else 1) =? 0) with (is_free s) by (by destruct s).
      rewrite Hb. exists None, m, F. split; [done|]. split; [apply heap_ext_refl|].
      split; [|done]. intros q. cbn [salloc]. rewrite (proj2 (Z.ltb_lt _ _) Hlt).
      destruct s; [|done..]. cbn in Hb. by rewrite Hb.
  - assert (0 < fuel)%nat by (destruct fuel; [change (2 ^ Z.of_nat 0) with 1 in Hhalf; lia|lia]).
    assert (forall p par idx sz ad s F m, rep (nodes m) p par idx sz ad s F ->
      0 <= sz < 2 ^ Z.of_nat fuel ->
      alloc_post fuel m p par idx sz ad s F req (_ixmap_mem_alloc numa fuel (Some p) req m))
      as IH' by eauto.
    clear IH. inversion Hrep as [? ? ? ? ? E|? ? ? ? ? E|? ? ? ? ? pl pr l r Fl Rr E HL HR ? ? ?];
      subst; cbn [is_free Z.eqb] in *; node_eq.
    + (* free: split, then the left child fits *)
      destruct (split_heap p par idx sz ad m Hp)
        as (q0 & q1 & m1 & -> & Hh & Hne & Hq0 & Hq1 & Hp1 & Hc0 & Hc1 & Hfr). opt.
      assert (p <> q0) by congruence. assert (p <> q1) by congruence.
      destruct (alloc_below fuel p q0 q1 par 0 idx sz ad Fr Fr {[q0]} {[q1]} {[p]} req m m1)
        as (ret & m' & -> & Hret); auto using rep_free; [sets|sets|sets| |].
      { refine (conj Hh (conj _ (conj _ _))); [sets| |]; intros q; [|intros; apply Hfr; sets].
        rewrite !elem_of_union, !elem_of_singleton. naive_solver. }
      opt. destruct ret as [q|].
      * destruct Hret as (n' & -> & F' & a & b & s' & n & Hext & Ha & Hrep' & Hq & Hn & Hma & Hmb).
        opt. eexists (Some q), _, F'. split; [done|]. split; [done|].
        exists a, b, s', n. rewrite salloc_free_unfold by done. done.
      * destruct Hret as [Hnone _]. exfalso.
        destruct (salloc_Fr_some fuel 0 (Z.shiftr sz 1) ad req) as [[[a b] s'] Hs]; [lia|lia|].
        specialize (Hnone 0). unfold salloc_children in Hnone. by rewrite Hs in Hnone.
    + (* handed out: both children are NULL *)
      opt. unfold alloc_children. rewrite Hp. opt. cbn [child0].
      destruct fuel as [|fuel]; [lia|]. cbn [_ixmap_mem_alloc]. opt. rewrite Hp. opt.
      exists None, m, {[p]}. split; [done|]. split; [apply heap_ext_refl|]. split; [|done].
      intros q. cbn [salloc]. by rewrite (proj2 (Z.ltb_ge _ _) Hge).
    + opt.
      destruct (alloc_below fuel p pl pr par 1 idx sz ad l r Fl Rr ({[p]} ∪ Fl ∪ Rr) req m m)
        as (ret & m' & -> & Hret); auto using heap_ext_refl.
      opt. destruct ret as [q|].
      * destruct Hret as (n' & -> & F' & a & b & s' & n & Hext & Ha & Hrep' & Hq & Hn & Hma & Hmb).
        opt. eexists (Some q), _, F'. split; [done|]. split; [done|].
        exists a, b, s', n. rewrite salloc_split_unfold by done. done.
      * destruct Hret as [Hnone HF]. destruct (HF eq_refl) as (F' & Hext & Hrep').
        exists None, m', F'. split; [done|]. split; [done|]. split; [|done].
        intros q. by rewrite salloc_split_unfold by done.
Qed.

End AllocHeap.

(** ** Freeing *)

(** Heap objects of the blocks handed out. *)
Fixpoint leaves (s : shape) : list Z :=
  match s with
  | Fr => []
  | Us q => [q]
  | Sp l r => leaves l ++ leaves r
  end.

Fixpoint depth (s : shape) : nat :=
  match s with
  | Sp l r => S (depth l `max` depth r)
  | _ => O
  end.

Lemma rep_leaves h p par idx sz ad s F q :
  rep h p par idx sz ad s F -> q ∈ leaves s -> q ∈ F.
Proof.
  induction 1; cbn [leaves]; intros Hq.
  - by apply elem_of_nil in Hq.
  - apply list_elem_of_singleton in Hq as ->. sets.
  - apply elem_of_app in Hq as [Hq|Hq]; [apply IHrep1 in Hq|apply IHrep2 in Hq]; sets.
Qed.

Lemma sfree_absent q s : merged s -> q ∉ leaves s -> sfree q s = s.
Proof.
  induction s as [|q'|l IHl r IHr]; cbn [merged sfree leaves]; [done| |].
  - intros _ Hq. rewrite decide_False; [done|]. intros ->. apply Hq. by left.
  - intros (Hm & Hl & Hr) Hq. rewrite elem_of_app in Hq.
    rewrite IHl, IHr by tauto. by rewrite Hm.
Qed.

(** One step of the walk up from a node [c] whose buddy is [b]. *)
Definition free_step (p c b : Z) (m : mem) (par : option Z) (idx sz ad : Z)
    (s' : shape) (F : gset Z) (buddy_free : bool) : Prop :=
  if buddy_free then
    exists m', hdr m' = hdr m /\
      (forall fuel, _ixmap_mem_free (S fuel) c m = _ixmap_mem_free fuel p m') /\
      rep (nodes m') p par idx sz ad (Us p) {[p]} /\
      nodes m' !! c = None /\ nodes m' !! b = None /\
      (forall q, q ≠ p -> q ≠ c -> q ≠ b -> nodes m' !! q = nodes m !! q)
  else
    exists m', hdr m' = hdr m /\
      (forall fuel, _ixmap_mem_free (S fuel) c m = Some m') /\
      rep (nodes m') p par idx sz ad s' F /\
      (forall q, q ≠ c -> nodes m' !! q = nodes m !! q).

Lemma free_step_left p pl pr par idx sz ad r Rr m :
  nodes m !! p = Some (Mnode (Some pl) (Some pr) par 1 idx sz ad) ->
  rep (nodes m) pl (Some p) 0 (Z.shiftr sz 1) ad (Us pl) {[pl]} ->
  rep (nodes m) pr (Some p) 1 (Z.shiftr sz 1) (ad + Z.shiftr sz 1) r Rr ->
  p ≠ pl -> p ∉ Rr -> pl ∉ Rr ->
  free_step p pl pr m par idx sz ad (Sp Fr r) ({[p]} ∪ {[pl]} ∪ Rr) (is_free r).
Proof.
  intros Hp HL HR Hne HpR HplR. pose proof (rep_root _ _ _ _ _ _ _ _ HR) as Hpr.
  assert (pl ≠ pr) by sets. assert (p ≠ pr) by sets.
  destruct (rep_node _ _ _ _ _ _ _ _ HR) as (c0 & c1 & Hb).
  inversion HL as [|? ? ? ? ? El|]; subst. unfold free_step. destruct (is_free r) eqn:Hr.
  - destruct r; try done. inversion HR as [? ? ? ? ? Er| |]; subst.
    eexists. split; [|split].
    2: { intros fuel. cbn [_ixmap_mem_free]. rewrite El. cbn.
         unfold ixmap_mnode_release. simplify_map_eq. reflexivity. }
    { done. }
    cbn. split_and!; [apply rep_used|..]; simplify_map_eq; try done.
    intros q ???. by simplify_map_eq.
  - eexists. split; [|split].
    2: { intros fuel. cbn [_ixmap_mem_free]. rewrite El. cbn.
         simplify_map_eq. reflexivity. }
    { done. }
    cbn. split; [|by intros; simplify_map_eq].
    apply rep_split with pl pr; try sets.
    + by simplify_map_eq.
    + apply rep_free. by simplify_map_eq.
    + eapply rep_frame; [done|]. intros q Hq. rewrite lookup_insert_ne; [done|sets].
Qed.

Lemma free_step_right p pl pr par idx sz ad l Fl m :
  nodes m !! p = Some (Mnode (Some pl) (Some pr) par 1 idx sz ad) ->
  rep (nodes m) pl (Some p) 0 (Z.shiftr sz 1) ad l Fl ->
  rep (nodes m) pr (Some p) 1 (Z.shiftr sz 1) (ad + Z.shiftr sz 1) (Us pr) {[pr]} ->
  p ≠ pr -> p ∉ Fl -> pr ∉ Fl ->
  free_step p pr pl m par idx sz ad (Sp l Fr) ({[p]} ∪ Fl ∪ {[pr]}) (is_free l).
Proof.
  intros Hp HL HR Hne HpL HprL. pose proof (rep_root _ _ _ _ _ _ _ _ HL) as Hpl.
  assert (pl ≠ pr) by sets. assert (p ≠ pl) by sets.
  destruct (rep_node _ _ _ _ _ _ _ _ HL) as (c0 & c1 & Hb).
  inversion HR as [|? ? ? ? ? Er|]; subst. unfold free_step. destruct (is_free l) eqn:Hl.
  - destruct l; try done. inversion HL as [? ? ? ? ? El| |]; subst.
    eexists. split; [|split].
    2: { intros fuel. cbn [_ixmap_mem_free]. rewrite Er. cbn.
         unfold ixmap_mnode_release. simplify_map_eq. reflexivity. }
    { done. }
    cbn. split_and!; [apply rep_used|..]; simplify_map_eq; try done.
    intros q ???. by simplify_map_eq.
  - eexists. split; [|split].
    2: { intros fuel. cbn [_ixmap_mem_free]. rewrite Er. cbn.
         simplify_map_eq. reflexivity. }
    { done. }
    cbn. split; [|by intros; simplify_map_eq].
    apply rep_split with pl pr; try sets.
    + by simplify_map_eq.
    + eapply rep_frame; [done|]. intros q Hq. rewrite lookup_insert_ne; [done|sets].
    + apply rep_free. by simplify_map_eq.
Qed.

(** Freeing leaf [q] of the tree at [p]: the walk either stops inside the tree,
    or arrives at [p] with the whole tree collapsed into it. *)
Definition free_post (q p : Z) (m : mem) (par : option Z) (idx sz ad : Z)
    (s : shape) (F : gset Z) : Prop :=
  exists m' F', hdr m' = hdr m /\ F' ⊆ F /\
    (forall x, x ∉ F -> nodes m' !! x = nodes m !! x) /\
    (forall x, x ∈ F -> x ∉ F' -> nodes m' !! x = None) /\
    if is_free (sfree q s) then
      rep (nodes m') p par idx sz ad (Us p) F' /\
      exists k, (k <= depth s)%nat /\
        forall fuel, _ixmap_mem_free (k + fuel) q m = _ixmap_mem_free fuel p m'
    else
      rep (nodes m') p par idx sz ad (sfree q s) F' /\
      forall fuel, (depth s <= fuel)%nat -> _ixmap_mem_free fuel q m = Some m'.

Lemma rep_used_inv h p par idx sz ad q F :
  rep h p par idx sz ad (Us q) F -> F = {[p]} /\ q = p.
Proof. by inversion 1. Qed.

(** Splits off the first four conjuncts of [free_post]'s body only. *)
Ltac conj5 := split; [|split; [|split; [|split]]].

(** The walk from a leaf below the left child. *)
Lemma free_post_left q p pl pr par idx sz ad l r Fl Rr m :
  nodes m !! p = Some (Mnode (Some pl) (Some pr) par 1 idx sz ad) ->
  rep (nodes m) pl (Some p) 0 (Z.shiftr sz 1) ad l Fl ->
  rep (nodes m) pr (Some p) 1 (Z.shiftr sz 1) (ad + Z.shiftr sz 1) r Rr ->
  p ∉ Fl -> p ∉ Rr -> Fl ## Rr -> merged (Sp l r) -> q ∈ leaves l ->
  free_post q pl m (Some p) 0 (Z.shiftr sz 1) ad l Fl ->
  free_post q p m par idx sz ad (Sp l r) ({[p]} ∪ Fl ∪ Rr).
Proof.
  intros E HL HR HpL HpR Hd (Hmm & Hml & Hmr) Hq IH.
  pose proof (rep_root _ _ _ _ _ _ _ _ HL) as Hpl.
  pose proof (rep_root _ _ _ _ _ _ _ _ HR) as Hpr.
  assert (q ∉ leaves r) as Hqr.
  { intros Hqr. apply (rep_leaves _ _ _ _ _ _ _ _ _ HL) in Hq.
    apply (rep_leaves _ _ _ _ _ _ _ _ _ HR) in Hqr. sets. }
  destruct (IH) as (m1 & F1 & Hh & Hsub & Hfr & Hgone & Hcase).
  assert (nodes m1 !! p = Some (Mnode (Some pl) (Some pr) par 1 idx sz ad)) as Hp1
    by (by rewrite Hfr).
  assert (rep (nodes m1) pr (Some p) 1 (Z.shiftr sz 1) (ad + Z.shiftr sz 1) r Rr) as HR1.
  { apply (rep_frame (nodes m)); [done|]. intros x Hx. apply Hfr. sets. }
  unfold free_post. cbn [sfree depth]. rewrite (sfree_absent q r) by done.
  destruct (is_free (sfree q l)) eqn:Hl; cbn [andb].
  * destruct Hcase as [Hu (k & Hk & Hrun)].
    destruct (rep_used_inv _ _ _ _ _ _ _ _ Hu) as [-> _].
    pose proof (free_step_left p pl pr par idx sz ad r Rr m1 Hp1 Hu HR1) as Hst.
    unfold free_step in Hst.
    destruct (sfree q l); try done.
    destruct (is_free r) eqn:Hr; cbn [is_free andb] in *.
    -- destruct Hst as (m2 & Hh2 & Hrun2 & Hu2 & Hc & Hb & Hfr2); [sets..|].
       destruct r; try done. inversion HR; subst.
       exists m2, {[p]}. conj5; [congruence|sets| | |].
       ++ intros x Hx. rewrite Hfr2, Hfr by sets. done.
       ++ intros x Hx Hx'. destruct (decide (x = pl)) as [->|]; [done|].
          destruct (decide (x = pr)) as [->|]; [done|].
          rewrite Hfr2 by sets. apply Hgone; sets.
       ++ split; [done|]. exists (S k). split; [lia|]. intros fuel.
          replace (S k + fuel)%nat with (k + S fuel)%nat by lia. by rewrite Hrun, Hrun2.
    -- destruct Hst as (m2 & Hh2 & Hrun2 & Hu2 & Hfr2); [sets..|].
       exists m2, ({[p]} ∪ {[pl]} ∪ Rr). conj5; [congruence|sets| | |].
       ++ intros x Hx. rewrite Hfr2, Hfr by sets. done.
       ++ intros x Hx Hx'. rewrite Hfr2 by sets. apply Hgone; sets.
       ++ split; [done|]. intros fuel Hf.
          replace fuel with (k + S (fuel - S k))%nat by lia. by rewrite Hrun, Hrun2.
  * destruct Hcase as [HL1 Hrun]. exists m1, ({[p]} ∪ F1 ∪ Rr).
    cbn [is_free]. conj5; [done|sets| | |].
    -- intros x Hx. apply Hfr. sets.
    -- intros x Hx Hx'. apply Hgone; sets.
    -- split; [apply rep_split with pl pr; try done; sets|].
       intros fuel Hf. apply Hrun. lia.
Qed.

(** The walk from a leaf below the right child. *)
Lemma free_post_right q p pl pr par idx sz ad l r Fl Rr m :
  nodes m !! p = Some (Mnode (Some pl) (Some pr) par 1 idx sz ad) ->
  rep (nodes m) pl (Some p) 0 (Z.shiftr sz 1) ad l Fl ->
  rep (nodes m) pr (Some p) 1 (Z.shiftr sz 1) (ad + Z.shiftr sz 1) r Rr ->
  p ∉ Fl -> p ∉ Rr -> Fl ## Rr -> merged (Sp l r) -> q ∈ leaves r ->
  free_post q pr m (Some p) 1 (Z.shiftr sz 1) (ad + Z.shiftr sz 1) r Rr ->
  free_post q p m par idx sz ad (Sp l r) ({[p]} ∪ Fl ∪ Rr).
Proof.
  intros E HL HR HpL HpR Hd (Hmm & Hml & Hmr) Hq IH.
  pose proof (rep_root _ _ _ _ _ _ _ _ HL) as Hpl.
  pose proof (rep_root _ _ _ _ _ _ _ _ HR) as Hpr.
  assert (q ∉ leaves l) as Hql.
  { intros Hql. apply (rep_leaves _ _ _ _ _ _ _ _ _ HL) in Hql.
    apply (rep_leaves _ _ _ _ _ _ _ _ _ HR) in Hq. sets. }
  destruct (IH) as (m1 & F1 & Hh & Hsub & Hfr & Hgone & Hcase).
  assert (nodes m1 !! p = Some (Mnode (Some pl) (Some pr) par 1 idx sz ad)) as Hp1
    by (by rewrite Hfr).
  assert (rep (nodes m1) pl (Some p) 0 (Z.shiftr sz 1) ad l Fl) as HL1.
  { apply (rep_frame (nodes m)); [done|]. intros x Hx. apply Hfr. sets. }
  unfold free_post. cbn [sfree depth]. rewrite (sfree_absent q l) by done.
  destruct (is_free (sfree q r)) eqn:Hr.
  * destruct Hcase as [Hu (k & Hk & Hrun)].
    destruct (rep_used_inv _ _ _ _ _ _ _ _ Hu) as [-> _].
    pose proof (free_step_right p pl pr par idx sz ad l Fl m1 Hp1 HL1 Hu) as Hst.
    unfold free_step in Hst.
    destruct (sfree q r); try done.
    destruct (is_free l) eqn:Hl; cbn [is_free andb] in *.
    -- destruct Hst as (m2 & Hh2 & Hrun2 & Hu2 & Hc & Hb & Hfr2); [sets..|].
       destruct l; try done. inversion HL; subst.
       exists m2, {[p]}. conj5; [congruence|sets| | |].
       ++ intros x Hx. rewrite Hfr2, Hfr by sets. done.
       ++ intros x Hx Hx'. destruct (decide (x = pr)) as [->|]; [done|].
          destruct (decide (x = pl)) as [->|]; [done|].
          rewrite Hfr2 by sets. apply Hgone; sets.
       ++ split; [done|]. exists (S k). split; [lia|]. intros fuel.
          replace (S k + fuel)%nat with (k + S fuel)%nat by lia. by rewrite Hrun, Hrun2.
    -- destruct Hst as (m2 & Hh2 & Hrun2 & Hu2 & Hfr2); [sets..|].
       exists m2, ({[p]} ∪ Fl ∪ {[pr]}). conj5; [congruence|sets| | |].
       ++ intros x Hx. rewrite Hfr2, Hfr by sets. done.
       ++ intros x Hx Hx'. rewrite Hfr2 by sets. apply Hgone; sets.
       ++ split; [done|]. intros fuel Hf.
          replace fuel with (k + S (fuel - S k))%nat by lia. by rewrite Hrun, Hrun2.
  * destruct Hcase as [HR1 Hrun]. exists m1, ({[p]} ∪ Fl ∪ F1).
    rewrite andb_false_r. cbn [is_free]. conj5; [done|sets| | |].
    -- intros x Hx. apply Hfr. sets.
    -- intros x Hx Hx'. apply Hgone; sets.
    -- split; [apply rep_split with pl pr; try done; sets|].
       intros fuel Hf. apply Hrun. lia.
Qed.

Lemma free_heap q p par idx sz ad s F m :
  rep (nodes m) p par idx sz ad s F -> merged s -> q ∈ leaves s ->
  free_post q p m par idx sz ad s F.
Proof.
  intros Hrep. remember (nodes m) as h eqn:Eh.
  induction Hrep as [|p par idx sz ad E|p par idx sz ad pl pr l r Fl Rr E HL IHL HR IHR HpL HpR Hd];
    subst h; cbn [merged leaves]; intros Hm Hq.
  - by apply elem_of_nil in Hq.
  - apply list_elem_of_singleton in Hq as ->. exists m, {[p]}. cbn [sfree].
    rewrite decide_True by done. conj5; try done.
    split; [by apply rep_used|]. exists O. split; [lia|]. done.
  - pose proof Hm as (_ & Hml & Hmr).
    apply elem_of_app in Hq as [Hq|Hq]; [eapply free_post_left|eapply free_post_right]; eauto.
Qed.
