(* ===== verification/MemFacts.v ===== *)
(** * The buddy allocator: block-level theorems

    The heap lemmas of [Mem.v] reduce the pointer code to [salloc] and [sfree]
    on trees; here those are shown correct as an allocator (blocks lie inside
    the arena, never overlap, are the smallest that fit, merge back), the
    results are lifted to [ixmap_mem_alloc] / [ixmap_mem_free], and the
    interface of [Alloc.v] is discharged. *)

From stdpp Require Import prelude fin_maps gmap list.
From S2P Require Import Prelude Alloc Mem.

Notation half sz := (Z.shiftr sz 1).

Lemma half_bounds sz : 0 <= sz -> 0 <= half sz /\ 2 * half sz <= sz /\ sz <= 2 * half sz + 1.
Proof.
  intros H. rewrite Z.shiftr_div_pow2 by lia. change (2 ^ 1) with 2.
  pose proof (Z.div_mod sz 2). pose proof (Z.mod_pos_bound sz 2). lia.
Qed.

(** Every node of the tree has at least one byte. *)
Fixpoint fits (sz : Z) (s : shape) : Prop :=
  1 <= sz /\
  match s with
  | Sp l r => fits (half sz) l /\ fits (half sz) r
  | _ => True
  end.

Lemma fits_pos sz s : fits sz s -> 1 <= sz.
Proof. by destruct s; intros [? _]. Qed.

Lemma depth_fits n sz s : fits sz s -> sz < 2 ^ Z.of_nat n -> (depth s < n)%nat.
Proof.
  revert n sz. induction s as [| |l IHl r IHr]; intros n sz Hf Hn.
  1,2: pose proof (fits_pos _ _ Hf); destruct n; [change (2 ^ Z.of_nat 0) with 1 in Hn|]; cbn; lia.
  destruct Hf as (H1 & Hl & Hr). destruct n as [|n]; [change (2 ^ Z.of_nat 0) with 1 in Hn; lia|].
  rewrite Nat2Z.inj_succ, Z.pow_succ_r in Hn by lia. pose proof (half_bounds sz).
  specialize (IHl n _ Hl). specialize (IHr n _ Hr). cbn [depth]. lia.
Qed.

(** ** Where the blocks are *)

Lemma blocks_bounds sz ad s a b q :
  fits sz s -> (a, b, q) ∈ blocks sz ad s -> ad <= a /\ a + b <= ad + sz /\ 1 <= b.
Proof.
  revert sz ad. induction s as [|q'|l IHl r IHr]; cbn [blocks]; intros sz ad Hf Hin.
  - by apply elem_of_nil in Hin.
  - apply list_elem_of_singleton in Hin. simplify_eq. destruct Hf. lia.
  - destruct Hf as (H1 & Hl & Hr). pose proof (half_bounds sz).
    apply elem_of_app in Hin as [Hin|Hin].
    + apply IHl in Hin; [lia|done].
    + apply IHr in Hin; [lia|done].
Qed.

Lemma blocks_disjoint sz ad s a b q a' b' q' :
  fits sz s -> (a, b, q) ∈ blocks sz ad s -> (a', b', q') ∈ blocks sz ad s ->
  (a, b, q) = (a', b', q') \/ a + b <= a' \/ a' + b' <= a.
Proof.
  revert sz ad. induction s as [|q0|l IHl r IHr]; cbn [blocks]; intros sz ad Hf H1 H2.
  - by apply elem_of_nil in H1.
  - apply list_elem_of_singleton in H1, H2. left. congruence.
  - destruct Hf as (? & Hl & Hr).
    apply elem_of_app in H1 as [H1|H1], H2 as [H2|H2]; eauto;
      [pose proof (blocks_bounds _ _ _ _ _ _ Hl H1); pose proof (blocks_bounds _ _ _ _ _ _ Hr H2)
      |pose proof (blocks_bounds _ _ _ _ _ _ Hr H1); pose proof (blocks_bounds _ _ _ _ _ _ Hl H2)];
      lia.
Qed.

Lemma blocks_starts_NoDup sz ad s : fits sz s -> NoDup ((fun x => x.1.1) <$> blocks sz ad s).
Proof.
  revert sz ad. induction s as [|q0|l IHl r IHr]; cbn [blocks]; intros sz ad Hf.
  - constructor.
  - apply NoDup_singleton.
  - destruct Hf as (? & Hl & Hr). rewrite fmap_app. apply NoDup_app. split_and!; auto.
    intros x [[[a b] q] [-> H1]]%list_elem_of_fmap [[[a' b'] q'] [E H2]]%list_elem_of_fmap.
    cbn in E. subst a'.
    pose proof (blocks_bounds _ _ _ _ _ _ Hl H1). pose proof (blocks_bounds _ _ _ _ _ _ Hr H2). lia.
Qed.

Lemma blocks_leaves sz ad s a b q : (a, b, q) ∈ blocks sz ad s -> q ∈ leaves s.
Proof.
  revert sz ad. induction s as [|q0|l IHl r IHr]; cbn [blocks leaves]; intros sz ad H.
  - by apply elem_of_nil in H.
  - apply list_elem_of_singleton in H. simplify_eq. by left.
  - apply elem_of_app in H as [H|H]; apply elem_of_app; eauto.
Qed.

Lemma leaves_block sz ad s q : q ∈ leaves s -> exists a b, (a, b, q) ∈ blocks sz ad s.
Proof.
  revert sz ad. induction s as [|q0|l IHl r IHr]; cbn [blocks leaves]; intros sz ad H.
  - by apply elem_of_nil in H.
  - apply list_elem_of_singleton in H. subst. exists ad, sz. by left.
  - setoid_rewrite elem_of_app. apply elem_of_app in H as [H|H].
    + destruct (IHl (half sz) ad H) as (a & b & ?). eauto.
    + destruct (IHr (half sz) (ad + half sz) H) as (a & b & ?). eauto.
Qed.

(** ** Allocation *)

(** The split that [salloc] makes of a free node is that of [Sp Fr Fr]. *)
Lemma salloc_cases fuel q sz ad req s a b s' :
  salloc (S fuel) q sz ad req s = Some (a, b, s') ->
  (s = Fr /\ half sz < req <= sz /\ (a, b, s') = (ad, sz, Us q)) \/
  (exists l r, (s = Sp l r \/ (s = Fr /\ l = Fr /\ r = Fr)) /\ req <= half sz /\
     ((exists l', salloc fuel q (half sz) ad req l = Some (a, b, l') /\ s' = Sp l' r) \/
      (exists r', salloc fuel q (half sz) ad req l = None /\
         salloc fuel q (half sz) (ad + half sz) req r = Some (a, b, r') /\ s' = Sp l r'))).
Proof.
  cbn [salloc]. destruct (Z.ltb_spec (half sz) req) as [Hlt|Hge].
  - destruct s; try done. destruct (Z.leb_spec req sz); [|done]. intros [= <- <- <-]. auto with lia.
  - intros H. right. destruct s as [|q0|l r]; [exists Fr, Fr|done|exists l, r].
    all: split; [naive_solver|split; [lia|]].
    all: destruct (salloc fuel q (half sz) ad req _) as [[[a1 b1] l1]|]; [naive_solver|].
    all: destruct (salloc fuel q (half sz) _ req _) as [[[a1 b1] l1]|]; naive_solver.
Qed.

Lemma salloc_spec fuel q sz ad req s a b s' :
  salloc fuel q sz ad req s = Some (a, b, s') -> 1 <= req -> fits sz s -> merged s ->
  blocks sz ad s' ≡ₚ (a, b, q) :: blocks sz ad s /\
  req <= b /\ half b < req /\ fits sz s' /\ merged s' /\ is_free s' = false.
Proof.
  revert sz ad s a b s'. induction fuel as [|fuel IH]; intros sz ad s a b s' Hs Hreq Hf Hm; [done|].
  apply salloc_cases in Hs as [(-> & Hr & ?)|(l & r & Hlr & Hge & Hc)].
  { simplify_eq. split_and!; try done; lia. }
  assert (fits (half sz) l /\ fits (half sz) r /\ merged l /\ merged r /\
          blocks sz ad s = blocks (half sz) ad l ++ blocks (half sz) (ad + half sz) r)
    as (Hfl & Hfr & Hml & Hmr & ->).
  { destruct Hlr as [->|(-> & -> & ->)]; cbn in Hf, Hm |- *; split_and!; try done; try tauto; lia. }
  pose proof (fits_pos _ _ Hf).
  destruct Hc as [(l' & Hl & ->)|(r' & _ & Hr & ->)].
  - destruct (IH _ _ _ _ _ _ Hl Hreq Hfl Hml) as (Hp & ? & ? & ? & ? & Hn).
    cbn [blocks fits merged is_free]. rewrite Hp, Hn. split_and!; done.
  - destruct (IH _ _ _ _ _ _ Hr Hreq Hfr Hmr) as (Hp & ? & ? & ? & ? & Hn).
    cbn [blocks fits merged is_free]. rewrite Hp, Hn, andb_false_r. split_and!; try done.
    by rewrite <- Permutation_middle.
Qed.

Lemma frees_le sz ad s a b : fits sz s -> (a, b) ∈ frees sz ad s -> b <= sz.
Proof.
  revert sz ad. induction s as [| |l IHl r IHr]; cbn [frees]; intros sz ad Hf Hin.
  - apply list_elem_of_singleton in Hin. simplify_eq. lia.
  - by apply elem_of_nil in Hin.
  - destruct Hf as (? & Hl & Hr). pose proof (half_bounds sz).
    apply elem_of_app in Hin as [Hin|Hin]; [apply IHl in Hin|apply IHr in Hin]; auto; lia.
Qed.

(** A request fails only when no free block can hold it. *)
Lemma salloc_complete fuel q sz ad req s a b :
  1 <= req -> fits sz s -> sz < 2 ^ Z.of_nat fuel ->
  (a, b) ∈ frees sz ad s -> req <= b -> is_Some (salloc fuel q sz ad req s).
Proof.
  intros Hreq. revert fuel sz ad. induction s as [|q0|l IHl r IHr]; intros fuel sz ad Hf Hsz Hin Hb.
  - cbn in Hin. apply list_elem_of_singleton in Hin. simplify_eq. apply salloc_Fr_some; lia.
  - by apply elem_of_nil in Hin.
  - pose proof (fits_pos _ _ Hf). destruct Hf as (H1 & Hl & Hr). cbn [frees] in Hin.
    pose proof (half_bounds sz) as Hh.
    destruct fuel as [|fuel]; [change (2 ^ Z.of_nat 0) with 1 in Hsz; lia|].
    rewrite Nat2Z.inj_succ, Z.pow_succ_r in Hsz by lia.
    assert (b <= half sz) as Hbh.
    { apply elem_of_app in Hin as [Hin|Hin];
        [exact (frees_le _ _ _ _ _ Hl Hin)|exact (frees_le _ _ _ _ _ Hr Hin)]. }
    rewrite salloc_split_unfold by lia. unfold salloc_children.
    destruct (salloc fuel q (half sz) ad req l) as [[[a1 b1] l1]|] eqn:El; [eauto|].
    apply elem_of_app in Hin as [Hin|Hin].
    + destruct (IHl fuel (half sz) ad) as [x Hx]; first [done|lia|congruence].
    + destruct (IHr fuel (half sz) (ad + half sz)) as [[[a1 b1] r1] ->]; first [done|lia|eauto].
Qed.

(** Blocks found lie in what was free. *)
Lemma salloc_from_free fuel q sz ad req s a b s' :
  salloc fuel q sz ad req s = Some (a, b, s') -> 1 <= req -> fits sz s ->
  exists fa fb, (fa, fb) ∈ frees sz ad s /\ fa <= a /\ a + b <= fa + fb.
Proof.
  revert sz ad s a b s'. induction fuel as [|fuel IH]; intros sz ad s a b s' Hs Hreq Hf; [done|].
  apply salloc_cases in Hs as [(-> & Hr & ?)|(l & r & Hlr & Hge & Hc)].
  { simplify_eq. exists ad, sz. split; [by left|lia]. }
  pose proof (fits_pos _ _ Hf). pose proof (half_bounds sz).
  destruct Hlr as [->|(-> & -> & ->)].
  - destruct Hf as (_ & Hfl & Hfr). cbn [frees]. setoid_rewrite elem_of_app.
    destruct Hc as [(l' & Hl & ->)|(r' & _ & Hr & ->)].
    + destruct (IH _ _ _ _ _ _ Hl) as (fa & fb & ? & ?); try done. exists fa, fb. tauto.
    + destruct (IH _ _ _ _ _ _ Hr) as (fa & fb & ? & ?); try done. exists fa, fb. tauto.
  - exists ad, sz. split; [by left|].
    assert (fits (half sz) Fr) by (split; [lia|done]).
    destruct Hc as [(l' & Hl & ->)|(r' & _ & Hr & ->)].
    + destruct (IH _ _ _ _ _ _ Hl) as (fa & fb & Hin & ?); try done.
      apply list_elem_of_singleton in Hin. simplify_eq. lia.
    + destruct (IH _ _ _ _ _ _ Hr) as (fa & fb & Hin & ?); try done.
      apply list_elem_of_singleton in Hin. simplify_eq. lia.
Qed.

(** ** Freeing *)

Lemma sfree_blocks q sz ad s :
  blocks sz ad (sfree q s) = filter (fun x => x.2 ≠ q) (blocks sz ad s).
Proof.
  revert sz ad. induction s as [|q0|l IHl r IHr]; intros sz ad; cbn [sfree blocks]; [done| |].
  - case_decide as Hq; cbn [blocks].
    + subst. rewrite filter_cons_False by (cbn; tauto). done.
    + rewrite filter_cons_True by (cbn; congruence). done.
  - rewrite filter_app, <- IHl, <- IHr.
    destruct (sfree q l), (sfree q r); cbn [is_free andb blocks]; done.
Qed.

Lemma sfree_merged q s : merged s -> merged (sfree q s).
Proof.
  induction s as [|q0|l IHl r IHr]; cbn [sfree merged]; [done|by case_decide|].
  intros (H & Hl & Hr). destruct (is_free (sfree q l) && is_free (sfree q r)) eqn:E; cbn; auto.
Qed.

Lemma sfree_fits q sz s : fits sz s -> fits sz (sfree q s).
Proof.
  revert sz. induction s as [|q0|l IHl r IHr]; intros sz Hf; cbn [sfree]; [done| |].
  - case_decide; done.
  - destruct Hf as (? & Hl & Hr). case_match; cbn; auto.
Qed.

(** Freeing a block just handed out restores the tree. *)
Lemma sfree_salloc fuel q sz ad req s a b s' :
  salloc fuel q sz ad req s = Some (a, b, s') -> merged s -> q ∉ leaves s -> sfree q s' = s.
Proof.
  revert sz ad s a b s'. induction fuel as [|fuel IH]; intros sz ad s a b s' Hs Hm Hq; [done|].
  apply salloc_cases in Hs as [(-> & _ & ?)|(l & r & Hlr & _ & Hc)].
  { simplify_eq. cbn. by rewrite decide_True. }
  assert (merged l /\ merged r /\ q ∉ leaves l /\ q ∉ leaves r) as (Hml & Hmr & Hql & Hqr).
  { destruct Hlr as [->|(-> & -> & ->)]; cbn in *; [rewrite elem_of_app in Hq; tauto|done]. }
  assert (sfree q s' = if is_free l && is_free r then Fr else Sp l r) as ->.
  { destruct Hc as [(l' & Hl & ->)|(r' & _ & Hr & ->)]; cbn [sfree].
    - by rewrite (IH _ _ _ _ _ _ Hl), (sfree_absent q r).
    - by rewrite (IH _ _ _ _ _ _ Hr), (sfree_absent q l). }
  destruct Hlr as [->|(-> & -> & ->)]; [|done]. destruct Hm as [-> _]. done.
Qed.

(** ** Request sizes *)

Lemma ALIGN_64 x : 0 <= x -> x + 63 < 2 ^ 32 -> ALIGN x L1_CACHE_BYTES = (x + 63) / 64 * 64.
Proof.
  intros H0 H1. unfold ALIGN, u32. change (L1_CACHE_BYTES - 1) with (2 ^ 6 - 1).
  rewrite Z.mod_small by lia. by rewrite land_not32 by lia.
Qed.

Lemma land_high_zero x : 0 <= x < 63 -> Z.land x (not32 (L1_CACHE_BYTES - 1)) = 0.
Proof.
  intros H. change (L1_CACHE_BYTES - 1) with (2 ^ 6 - 1). rewrite land_not32 by lia.
  by rewrite Z.div_small by lia.
Qed.

Lemma ALIGN_header : ALIGN 8 L1_CACHE_BYTES = 64.
Proof. reflexivity. Qed.

(** Bytes asked of the tree for an object of [size] bytes: its cache lines and
    one for the header. *)
Definition request (size : Z) : Z := u32 (ALIGN size L1_CACHE_BYTES + ALIGN 8 L1_CACHE_BYTES).

Lemma request_small size :
  0 < size <= max_request -> request size = (size + 63) / 64 * 64 + 64 /\ size + 64 <= request size.
Proof.
  unfold max_request. intros H. unfold request. rewrite ALIGN_header, ALIGN_64 by lia.
  assert (size <= (size + 63) / 64 * 64 <= size + 63).
  { pose proof (Z.div_mod (size + 63) 64). pose proof (Z.mod_pos_bound (size + 63) 64). lia. }
  unfold u32. rewrite Z.mod_small by lia. lia.
Qed.

(** ** The allocator's invariant *)

Section MemInv.

Context (numa : nat -> gmap Z mnode -> option Z).
Hypothesis numa_fresh : forall t h p, numa t h = Some p -> h !! p = None.
Hypothesis numa_total : forall t h, exists p, numa t h = Some p.
(** The arena of [ixmap_mem_init (AD, SZ)] and its root node. *)
Context (root SZ AD : Z).

(** The nodes of the heap are exactly those of the tree [s], which is merged,
    and the header word of every block handed out names the block's node. *)
Record mem_inv (m : mem) (s : shape) : Prop := {
  mi_rep : rep (nodes m) root None 0 SZ AD s (dom (nodes m));
  mi_merged : merged s;
  mi_fits : fits SZ s;
  mi_size : SZ < 2 ^ 32;
  mi_hdr : forall a b q, (a, b, q) ∈ blocks SZ AD s -> hdr m !! a = Some q
}.

Lemma heap_ext_dom m m' F' :
  heap_ext m m' (dom (nodes m)) F' -> (forall x, x ∈ F' -> is_Some (nodes m' !! x)) ->
  F' = dom (nodes m').
Proof.
  intros (_ & Hsub & _ & Hfr) Hin. apply leibniz_equiv. intros x. split.
  - intros Hx. apply elem_of_dom. auto.
  - intros Hx. destruct (decide (x ∈ F')) as [|Hn]; [done|].
    apply elem_of_dom in Hx. rewrite (Hfr x Hn) in Hx. apply elem_of_dom in Hx. auto.
Qed.

Lemma mem_alloc_ok m s size :
  mem_inv m s -> 0 < size <= max_request ->
  exists r m', ixmap_mem_alloc numa root size m = Some (r, m') /\
    match r with
    | None => mem_inv m' s /\ forall a b, (a, b) ∈ frees SZ AD s -> b < request size
    | Some x => exists q b s', mem_inv m' s' /\
        salloc MEM_DEPTH q SZ AD (request size) s = Some (x - 64, b, s') /\
        blocks SZ AD s' ≡ₚ (x - 64, b, q) :: blocks SZ AD s /\
        request size <= b /\ half b < request size
    end.
Proof.
  intros [Hrep Hm Hf HSZ Hhd] Hsize. destruct (request_small size Hsize) as [_ Hreq].
  assert (1 <= request size) as Hreq1 by lia. pose proof (fits_pos _ _ Hf) as Hpos.
  destruct (alloc_heap numa numa_fresh numa_total MEM_DEPTH root None 0 SZ AD s _ (request size) m
              Hrep Hreq1) as (r & m' & F' & Hrun & Hext & Hr).
  { unfold MEM_DEPTH. lia. }
  { change (2 ^ Z.of_nat MEM_DEPTH) with (2 ^ 33). lia. }
  unfold ixmap_mem_alloc. fold (request size). rewrite Hrun. opt.
  destruct r as [q|].
  - destruct Hr as (a & b & s' & n & Hs & Hrep' & Hq & Hn & Hma & Hmb). rewrite Hn. opt.
    destruct (salloc_spec _ _ _ _ _ _ _ _ _ Hs Hreq1 Hf Hm) as (Hp & Hb & Hhb & Hf' & Hm' & _).
    eexists _, _. split; [done|]. exists q, b, s'. rewrite ALIGN_header, Hma.
    replace (a + 64 - 64) with a by lia. split; [|done]. split; try done; cbn [nodes hdr].
    + rewrite <- (heap_ext_dom m m' F') by (done || intros; eapply rep_dom; eauto). done.
    + intros a1 b1 q1 Hin. pose proof (blocks_starts_NoDup _ AD _ Hf') as Hnd.
      rewrite Hp in Hnd, Hin. cbn in Hnd. apply NoDup_cons in Hnd as [Hnd _].
      apply elem_of_cons in Hin as [|Hin]; [simplify_eq; by rewrite lookup_insert_eq|].
      rewrite lookup_insert_ne.
      * destruct Hext as [-> _]. eauto.
      * intros <-. apply Hnd. apply list_elem_of_fmap. by exists (a, b1, q1).
  - destruct Hr as [Hnone Hrep']. exists None, m'. split; [done|]. split.
    + split; try done; [|destruct Hext as [-> _]; done].
      rewrite <- (heap_ext_dom m m' F') by (done || intros; eapply rep_dom; eauto). done.
    + intros a b Hin. destruct (Z.ltb_spec b (request size)); [done|exfalso].
      destruct (salloc_complete MEM_DEPTH 0 SZ AD (request size) s a b) as [x Hx]; try done.
      { change (2 ^ Z.of_nat MEM_DEPTH) with (2 ^ 33). lia. }
      by rewrite Hnone in Hx.
Qed.

Lemma mem_free_ok m s a b q :
  mem_inv m s -> (a, b, q) ∈ blocks SZ AD s ->
  exists m', ixmap_mem_free (a + 64) m = Some m' /\ mem_inv m' (sfree q s).
Proof.
  clear numa_fresh numa_total numa.
  intros [Hrep Hm Hf HSZ Hhd] Hin. pose proof (blocks_leaves _ _ _ _ _ _ Hin) as Hq.
  unfold ixmap_mem_free. rewrite ALIGN_header. replace (a + 64 - 64) with a by lia.
  rewrite (Hhd _ _ _ Hin). opt.
  destruct (free_heap q root None 0 SZ AD s _ m Hrep Hm Hq)
    as (m1 & F1 & Hh & Hsub & Hfr & Hgone & Hcase).
  assert (depth s < 32)%nat as Hd by (apply (depth_fits 32 SZ); [done|exact HSZ]).
  assert (forall m2, hdr m2 = hdr m1 -> rep (nodes m2) root None 0 SZ AD (sfree q s) (dom (nodes m2)) ->
            mem_inv m2 (sfree q s)) as Hinv.
  { intros m2 H2 Hr2. split; try done; auto using sfree_merged, sfree_fits.
    intros a1 b1 q1. rewrite sfree_blocks, list_elem_of_filter, H2, Hh. intros [_ ?]. eauto. }
  assert (forall x, x ∈ dom (nodes m1) -> x ∈ F1) as Hdom.
  { intros x Hx. destruct (decide (x ∈ F1)); [done|]. exfalso. apply elem_of_dom in Hx.
    destruct (decide (x ∈ dom (nodes m))) as [Hx'|Hx']; [rewrite Hgone in Hx|rewrite Hfr in Hx];
      try done; try by destruct Hx.
    apply not_elem_of_dom in Hx'. rewrite Hx' in Hx. by destruct Hx. }
  destruct (is_free (sfree q s)) eqn:Hfree.
  - destruct Hcase as [Hu (k & Hk & Hrun)].
    replace MEM_DEPTH with (k + S (MEM_DEPTH - S k))%nat by (unfold MEM_DEPTH; lia).
    rewrite Hrun. destruct (rep_used_inv _ _ _ _ _ _ _ _ Hu) as [-> _].
    inversion Hu as [|? ? ? ? ? E|]; subst. cbn [_ixmap_mem_free]. rewrite E. opt. cbn [parent].
    eexists. split; [done|]. apply Hinv; [done|]. destruct (sfree q s); try done. cbn [set_nodes nodes].
    replace (dom _) with ({[root]} : gset Z).
    { apply rep_free. by rewrite lookup_insert_eq. }
    rewrite dom_insert_L. apply leibniz_equiv. set_solver.
  - destruct Hcase as [Hr Hrun]. exists m1. split; [apply Hrun; unfold MEM_DEPTH; lia|].
    apply Hinv; [done|]. replace (dom (nodes m1)) with F1; [done|].
    apply leibniz_equiv. intros x. split; [|auto]. intros Hx. apply elem_of_dom.
    eapply rep_dom; eauto.
Qed.

Lemma mem_init_ok m :
  nodes m = ∅ -> 1 <= SZ < 2 ^ 32 -> numa (clock m) ∅ = Some root ->
  exists m', ixmap_mem_init numa AD SZ m = (Some root, m') /\ mem_inv m' Fr.
Proof.
  intros Hm HSZ Hp. unfold ixmap_mem_init, ixmap_mnode_alloc. rewrite Hm, Hp.
  eexists. split; [done|]. split; cbn; try done; try lia.
  - rewrite dom_insert_L, dom_empty_L, (right_id_L ∅ (∪)). apply rep_free.
    by rewrite lookup_insert_eq.
  - intros a b q H. by apply elem_of_nil in H.
Qed.

(** Free buddies are always merged: with no block handed out, the arena is one
    free block again. *)
Lemma merged_empty s : merged s -> leaves s = [] -> s = Fr.
Proof.
  induction s as [|q|l IHl r IHr]; cbn; [done|done|].
  intros (H & Hl & Hr) [? ?]%app_eq_nil. rewrite IHl, IHr in H by done. done.
Qed.

(** ** The interface of [Alloc.v] *)

(** Live objects, by the address the client holds: the block less its header. *)
Definition buddy_inv (m : mem) (L : gmap Z Z) : Prop :=
  exists s, mem_inv m s /\
    forall x c, L !! x = Some c <-> exists q, (x - 64, c + 64, q) ∈ blocks SZ AD s.

#[export] Instance buddy_allocator : Allocator mem := {
  al_alloc := ixmap_mem_alloc numa root;
  al_free := ixmap_mem_free
}.

Lemma buddy_alloc_ok m L n :
  buddy_inv m L -> 0 < n <= max_request ->
  exists r m', ixmap_mem_alloc numa root n m = Some (r, m') /\
    match r with
    | None => buddy_inv m' L
    | Some x => L !! x = None /\ exists c, n <= c /\ buddy_inv m' (<[x := c]> L)
    end.
Proof.
  intros (s & Hinv & HL) Hn.
  destruct (mem_alloc_ok m s n Hinv Hn) as (r & m' & Hrun & Hr).
  exists r, m'. split; [done|]. destruct r as [x|]; [|exists s; tauto].
  destruct Hr as (q & b & s' & Hinv' & _ & Hp & Hb & _).
  destruct (request_small n Hn) as [_ Hreq].
  pose proof (blocks_starts_NoDup _ AD _ (mi_fits _ _ Hinv')) as Hnd.
  rewrite Hp in Hnd. cbn in Hnd. apply NoDup_cons in Hnd as [Hnd _].
  assert (L !! x = None) as Hx.
  { destruct (L !! x) as [c|] eqn:E; [exfalso|done]. apply HL in E as [q' Hq'].
    apply Hnd, list_elem_of_fmap. by exists (x - 64, c + 64, q'). }
  split; [done|]. exists (b - 64). split; [lia|]. exists s'. split; [done|].
  intros y c. setoid_rewrite Hp. setoid_rewrite elem_of_cons.
  destruct (decide (y = x)) as [->|Hne].
  - rewrite lookup_insert_eq. split.
    + intros [= <-]. exists q. left. f_equal. f_equal. lia.
    + intros [q' [E|Hq']]; [simplify_eq; f_equal; lia|].
      rewrite (proj2 (HL x c)) in Hx by eauto. done.
  - rewrite lookup_insert_ne, HL by done. split; [naive_solver|].
    intros [q' [E|Hq']]; [exfalso; simplify_eq; lia|eauto].
Qed.

Lemma rep_block_node h p par idx sz ad s F a b q :
  rep h p par idx sz ad s F -> (a, b, q) ∈ blocks sz ad s ->
  exists n, h !! q = Some n /\ mptr n = a /\ msize n = b.
Proof.
  induction 1; cbn [blocks]; intros Hin.
  - by apply elem_of_nil in Hin.
  - apply list_elem_of_singleton in Hin. simplify_eq. eauto.
  - apply elem_of_app in Hin as [Hin|Hin]; eauto.
Qed.

Lemma buddy_free_ok m L x c :
  buddy_inv m L -> L !! x = Some c ->
  exists m', ixmap_mem_free x m = Some m' /\ buddy_inv m' (delete x L).
Proof.
  clear numa_fresh numa_total numa.
  intros (s & Hinv & HL) Hx. pose proof Hx as Hx0. apply HL in Hx as [q Hq].
  destruct (mem_free_ok m s _ _ q Hinv Hq) as (m' & Hrun & Hinv').
  exists m'. split; [by replace x with (x - 64 + 64) by lia|]. exists (sfree q s). split; [done|].
  intros y d. setoid_rewrite sfree_blocks. setoid_rewrite list_elem_of_filter. cbn.
  destruct (decide (y = x)) as [->|Hne].
  - rewrite lookup_delete_eq. split; [done|]. intros (q' & Hne & Hq'). exfalso. apply Hne.
    apply (mi_hdr _ _ Hinv) in Hq, Hq'. congruence.
  - rewrite lookup_delete_ne, HL by done. split; [|naive_solver].
    intros [q' Hq']. exists q'. split; [|done]. intros ->. apply Hne.
    destruct (rep_block_node _ _ _ _ _ _ _ _ _ _ _ (mi_rep _ _ Hinv) Hq) as (n1 & H1 & H2 & _).
    destruct (rep_block_node _ _ _ _ _ _ _ _ _ _ _ (mi_rep _ _ Hinv) Hq') as (n2 & H3 & H4 & _).
    simplify_eq. lia.
Qed.

Lemma buddy_bounds m L x c :
  buddy_inv m L -> L !! x = Some c -> AD + 64 <= x /\ x + c <= AD + SZ.
Proof.
  intros (s & Hinv & HL) [q Hq]%HL. pose proof (blocks_bounds _ _ _ _ _ _ (mi_fits _ _ Hinv) Hq). lia.
Qed.

Lemma buddy_disjoint_ok m L x y c d :
  buddy_inv m L -> L !! x = Some c -> L !! y = Some d -> x <> y ->
  x + c <= y - 64 \/ y + d <= x - 64.
Proof.
  intros (s & Hinv & HL) [q Hq]%HL [q' Hq']%HL Hne.
  pose proof (blocks_disjoint _ _ _ _ _ _ _ _ _ (mi_fits _ _ Hinv) Hq Hq') as [E|E]; [|lia].
  simplify_eq. lia.
Qed.

#[export] Instance buddy_allocator_spec : AllocatorSpec mem.
Proof.
  refine {| al_inv := buddy_inv; al_alloc_spec := buddy_alloc_ok; al_free_spec := buddy_free_ok |}.
  intros a L x y c d Hinv Hx Hy Hne.
  destruct (buddy_disjoint_ok a L x y c d Hinv Hx Hy Hne); lia.
Defined.

End MemInv.

(** ** Tear-down *)

Definition parent_ok (h : gmap Z mnode) (par : option Z) (F : gset Z) : Prop :=
  match par with None => True | Some q => q ∉ F /\ is_Some (h !! q) end.

(** What is left of the heap when the tree at child [idx] of [par] is gone. *)
Definition destroyed (m m' : mem) (par : option Z) (idx : Z) (F : gset Z) : Prop :=
  hdr m' = hdr m /\ (forall x, x ∈ F -> nodes m' !! x = None) /\
  (forall x, x ∉ F -> Some x <> par -> nodes m' !! x = nodes m !! x) /\
  (forall q, par = Some q -> nodes m' !! q = set_child idx None <$> nodes m !! q).

Lemma release_leaf m p par idx c0 c1 al sz ad :
  nodes m !! p = Some (Mnode c0 c1 par al idx sz ad) -> parent_ok (nodes m) par {[p]} ->
  exists m', ixmap_mnode_release p m = Some m' /\ destroyed m m' par idx {[p]}.
Proof.
  intros Hp Hpar. unfold ixmap_mnode_release. rewrite Hp. opt. cbn [parent index].
  destruct par as [q|]; cbn in Hpar.
  - destruct Hpar as [Hq [n Hn]]. rewrite Hn. opt. eexists. split; [done|].
    apply not_elem_of_singleton in Hq. split; [done|]. cbn. split_and!.
    + intros x ->%elem_of_singleton. by simplify_map_eq.
    + intros x Hx%not_elem_of_singleton Hxq. by rewrite lookup_delete_ne, lookup_insert_ne by congruence.
    + intros q' [= <-]. rewrite lookup_delete_ne, lookup_insert_eq by congruence. by rewrite Hn.
  - opt. eexists. split; [done|]. split; [done|]. cbn. split_and!; [| |done].
    + intros x ->%elem_of_singleton. by simplify_map_eq.
    + intros x Hx%not_elem_of_singleton _. by rewrite lookup_delete_ne.
Qed.

Lemma destroy_heap fuel p par idx sz ad s F m :
  rep (nodes m) p par idx sz ad s F -> (depth s < fuel)%nat -> parent_ok (nodes m) par F ->
  exists m', _ixmap_mem_destroy fuel p m = Some m' /\ destroyed m m' par idx F.
Proof.
  revert fuel p par idx sz ad F m.
  induction s as [|q|l IHl r IHr]; intros fuel p par idx sz ad F m Hrep Hf Hpar;
    (destruct fuel as [|fuel]; [cbn in Hf; lia|]); cbn [_ixmap_mem_destroy];
    inversion Hrep as [? ? ? ? ? E|? ? ? ? ? E|? ? ? ? ? pl pr ? ? Fl Rr E HL HR HpL HpR Hd]; subst.
  1,2: rewrite E; opt; cbn [child0]; opt; rewrite E; opt; cbn [child1]; eapply release_leaf; eauto.
  rewrite E. opt. cbn [child0]. cbn [depth] in Hf.
  destruct (IHl fuel _ _ _ _ _ _ m HL) as (m1 & -> & Hh1 & Hg1 & Hf1 & Hp1); [lia|split; eauto|].
  opt. specialize (Hp1 p eq_refl). rewrite E in Hp1. cbn in Hp1. rewrite Hp1. opt. cbn [child1].
  assert (rep (nodes m1) pr (Some p) 1 (half sz) (ad + half sz) r Rr) as HR1.
  { eapply rep_frame; [done|]. intros q Hq. apply Hf1; [sets|intros [= ->]; sets]. }
  destruct (IHr fuel _ _ _ _ _ _ m1 HR1) as (m2 & -> & Hh2 & Hg2 & Hf2 & Hp2); [lia|split; eauto|].
  opt. specialize (Hp2 p eq_refl). rewrite Hp1 in Hp2. cbn in Hp2.
  assert (forall x, x ∉ {[p]} ∪ Fl ∪ Rr -> nodes m2 !! x = nodes m !! x) as Hout.
  { intros x Hx. rewrite Hf2, Hf1; [done|sets|intros [= ->]; sets|sets|intros [= ->]; sets]. }
  destruct (release_leaf m2 p par idx _ _ _ _ _ Hp2) as (m3 & -> & Hh3 & Hg3 & Hf3 & Hp3).
  { destruct par as [q|]; [|done]. destruct Hpar as [Hq Hs]. split; [sets|]. by rewrite Hout. }
  exists m3. split; [done|]. split_and!; [congruence| | |].
  - intros x Hx. destruct (decide (x = p)) as [->|Hne]; [apply Hg3; sets|].
    assert (Some x <> par) as Hxp by (intros <-; destruct Hpar; done).
    rewrite Hf3 by (done || sets). destruct (decide (x ∈ Rr)); [by apply Hg2|].
    rewrite Hf2 by (done || congruence). apply Hg1. sets.
  - intros x Hx Hxp. rewrite Hf3, Hout; sets || done.
  - intros q ->. rewrite (Hp3 q eq_refl), Hout; [done|]. by destruct Hpar.
Qed.
