(* ===== verification/MemNuma.v ===== *)
(** * The buddy allocator when libnuma may refuse

    [numa_alloc_onnode] may return NULL at any call.  Whatever it does, a call of
    [ixmap_mem_alloc] on an intact tree returns.  And a call depends only on what
    libnuma answers between its beginning and its end, as the number of calls of
    libnuma tells: as long as none of these is refused, it is a call with a
    libnuma that never refuses, to which [MemFacts] applies. *)

From stdpp Require Import prelude fin_maps gmap list.
From S2P Require Import Prelude Alloc Mem MemFacts.

(** A libnuma that never refuses: the address after the highest in use. *)
Definition numa_bump (t : nat) (h : gmap Z mnode) : option Z :=
  Some (1 + map_fold (fun k _ acc => Z.max k acc) 0 h).

Lemma numa_bump_fresh t h p : numa_bump t h = Some p -> h !! p = None.
Proof.
  intros [= <-]. set (f := fun (k : Z) (_ : mnode) (acc : Z) => Z.max k acc).
  assert (forall k n, h !! k = Some n -> k <= map_fold f 0 h) as Hle.
  { apply (map_fold_weak_ind (fun acc h => forall k n, h !! k = Some n -> k <= acc)).
    - intros k n Hk. by rewrite lookup_empty in Hk.
    - intros k n h' acc _ IH k' n'. unfold f. destruct (decide (k = k')) as [->|Hne]; [lia|].
      rewrite lookup_insert_ne by done. intros Hk%IH. lia. }
  destruct (h !! (1 + map_fold f 0 h)) as [n|] eqn:E; [|done]. apply Hle in E. lia.
Qed.

Lemma numa_bump_total t h : exists p, numa_bump t h = Some p.
Proof. eexists. reflexivity. Qed.

(** Of the calls of libnuma from number [a] to number [b], [b] not included, none
    is refused. *)
Definition grants (numa : nat -> gmap Z mnode -> option Z) (a b : nat) : Prop :=
  forall t h, (a <= t < b)%nat -> is_Some (numa t h).

(** ** A call returns *)

Section Returns.

Context (numa : nat -> gmap Z mnode -> option Z).
Hypothesis numa_fresh : forall t h p, numa t h = Some p -> h !! p = None.

(** Nodes that are there stay as they are, but for those in [F]. *)
Definition keeps (F : gset Z) (m m' : mem) : Prop :=
  forall q, q ∉ F -> is_Some (nodes m !! q) -> nodes m' !! q = nodes m !! q.

Lemma keeps_trans F G m1 m2 m3 :
  keeps F m1 m2 -> keeps G m2 m3 -> (forall q, q ∈ G -> is_Some (nodes m1 !! q) -> q ∈ F) -> keeps F m1 m3.
Proof.
  intros H12 H23 HG q Hq Hd. rewrite <- (H12 q Hq Hd). apply H23; [|by rewrite H12]. intros Hg. by apply Hq, HG.
Qed.

Lemma split_returns p par idx sz ad m :
  nodes m !! p = Some (Mnode None None par 0 idx sz ad) ->
  exists ok m', mnode_split numa p m = Some (ok, m') /\ keeps {[p]} m m' /\
    if ok : bool then
      exists q0 q1, q0 <> q1 /\ nodes m !! q0 = None /\ nodes m !! q1 = None /\
        nodes m' !! p = Some (Mnode (Some q0) (Some q1) par 0 idx sz ad) /\
        nodes m' !! q0 = Some (Mnode None None (Some p) 0 0 (Z.shiftr sz 1) ad) /\
        nodes m' !! q1 = Some (Mnode None None (Some p) 0 1 (Z.shiftr sz 1) (ad + Z.shiftr sz 1))
    else True.
Proof.
  intros Hp. unfold mnode_split. rewrite Hp. cbn [mbind option_bind msize mptr]. unfold ixmap_mnode_alloc at 1.
  destruct (numa (clock m) (nodes m)) as [q0|] eqn:E0.
  2:{ cbn [nodes]. rewrite Hp. opt. eexists false, _. split; [done|]. split; [|done].
      intros q Hq _. cbn. by rewrite lookup_insert_ne by sets. }
  pose proof (numa_fresh _ _ _ E0) as H0. cbn [nodes]. assert (p <> q0) as Hpq by congruence.
  rewrite lookup_insert_ne by congruence. rewrite Hp. opt. set (m2 := set_nodes _ _). unfold ixmap_mnode_alloc.
  destruct (numa (clock m2) (nodes m2)) as [q1|] eqn:E1; subst m2; cbn [nodes set_nodes] in *.
  - pose proof (numa_fresh _ _ _ E1) as H1. assert (q1 <> p /\ q1 <> q0) as [Hq1 Hq10] by (split; intros ->; simplify_map_eq).
    rewrite lookup_insert_ne, lookup_insert_eq by congruence. opt. eexists true, _. split; [done|]. split.
    + intros q Hq [n Hn]. cbn. assert (q <> p) by sets. by rewrite !lookup_insert_ne by (intros ->; simplify_map_eq).
    + exists q0, q1. split_and!; [congruence|done| | | |]; cbn.
      * by simplify_map_eq.
      * by simplify_map_eq.
      * simplify_map_eq. f_equal. f_equal. lia.
      * simplify_map_eq. f_equal. f_equal; lia.
  - rewrite lookup_insert_eq. opt. unfold ixmap_mnode_release. cbn [nodes set_nodes].
    rewrite !lookup_insert_ne, lookup_insert_eq by congruence. opt. cbn [parent]. rewrite lookup_insert_eq. opt.
    eexists false, _. split; [done|]. split; [|done].
    intros q Hq [n Hn]. cbn. assert (q <> p) by sets. assert (q <> q0) by congruence.
    by rewrite lookup_delete_ne, !lookup_insert_ne by congruence.
Qed.

Definition returns (F : gset Z) (m : mem) (res : option (option Z * mem)) : Prop :=
  exists r m', res = Some (r, m') /\ keeps F m m' /\ forall q, r = Some q -> is_Some (nodes m' !! q).

Lemma children_return fuel p pl pr par al idx sz ad l r Fl Rr req m :
  (forall p par idx sz ad s F m, rep (nodes m) p par idx sz ad s F -> 0 <= sz < 2 ^ Z.of_nat fuel ->
     returns F m (_ixmap_mem_alloc numa fuel (Some p) req m)) ->
  0 <= Z.shiftr sz 1 < 2 ^ Z.of_nat fuel ->
  nodes m !! p = Some (Mnode (Some pl) (Some pr) par al idx sz ad) ->
  rep (nodes m) pl (Some p) 0 (Z.shiftr sz 1) ad l Fl ->
  rep (nodes m) pr (Some p) 1 (Z.shiftr sz 1) (ad + Z.shiftr sz 1) r Rr ->
  p ∉ Fl -> p ∉ Rr -> Fl ## Rr ->
  returns (Fl ∪ Rr) m (alloc_children numa fuel p req m).
Proof.
  intros IH Hsz Hp HL HR HpL HpR Hd. unfold alloc_children. rewrite Hp. cbn [mbind option_bind child0].
  destruct (IH _ _ _ _ _ _ _ m HL Hsz) as (r0 & m2 & -> & K2 & Hr0). opt.
  destruct r0 as [q|]; [eexists _, m2; split; [done|]; split; [|done]; intros x Hx; apply K2; sets|].
  assert (nodes m2 !! p = Some (Mnode (Some pl) (Some pr) par al idx sz ad)) as Hp2 by (rewrite K2; eauto).
  rewrite Hp2. cbn [mbind option_bind child1].
  assert (rep (nodes m2) pr (Some p) 1 (Z.shiftr sz 1) (ad + Z.shiftr sz 1) r Rr) as HR2.
  { apply (rep_frame (nodes m)); [done|]. intros x Hx. apply K2; [sets|by eapply rep_dom]. }
  destruct (IH _ _ _ _ _ _ _ m2 HR2 Hsz) as (r1 & m3 & -> & K3 & Hr1).
  exists r1, m3. split; [done|]. split; [|done]. apply (keeps_trans _ Rr m m2 m3); [|done|sets].
  intros x Hx. apply K2. sets.
Qed.

(** Marking the node itself afterwards. *)
Lemma mark_returns F p m res :
  returns F m res -> p ∉ F -> is_Some (nodes m !! p) ->
  returns ({[p]} ∪ F) m
    ('(ret, m') ← res;
     match ret with
     | None => Some (None, m')
     | Some q => n' ← nodes m' !! p; Some (Some q, set_nodes <[p := set_allocated 1 n']> m')
     end).
Proof.
  intros (r & m' & -> & K & Hr) Hp Hpm. opt. destruct r as [q|].
  - assert (is_Some (nodes m' !! p)) as [n' Hn'] by (by rewrite K). rewrite Hn'. opt. eexists _, _. split; [done|]. split.
    + intros x Hx Hd. cbn. rewrite lookup_insert_ne by sets. apply K; [sets|done].
    + intros q' [= <-]. cbn. rewrite lookup_insert_is_Some. destruct (decide (p = q)); [by left|right; auto].
  - eexists None, m'. split; [done|]. split; [|done]. intros x Hx. apply K. sets.
Qed.

Lemma alloc_returns fuel p par idx sz ad s F req m :
  rep (nodes m) p par idx sz ad s F -> 1 <= req -> (0 < fuel)%nat -> 0 <= sz < 2 ^ Z.of_nat fuel ->
  returns F m (_ixmap_mem_alloc numa fuel (Some p) req m).
Proof.
  intros Hrep Hreq. revert p par idx sz ad s F m Hrep.
  induction fuel as [|fuel IH]; intros p par idx sz ad s F m Hrep Hfuel Hsz; [lia|].
  rewrite alloc_unfold. destruct (rep_node _ _ _ _ _ _ _ _ Hrep) as (c0 & c1 & Hp).
  rewrite Hp. opt. cbn [msize allocated]. rewrite Nat2Z.inj_succ, Z.pow_succ_r in Hsz by lia.
  assert (0 <= Z.shiftr sz 1 < 2 ^ Z.of_nat fuel) as Hhalf.
  { rewrite Z.shiftr_div_pow2 by lia. change (2 ^ 1) with 2.
    split; [apply Z.div_pos|apply Z.div_lt_upper_bound]; lia. }
  pose proof (rep_root _ _ _ _ _ _ _ _ Hrep) as HpF.
  destruct (Z.ltb_spec (Z.shiftr sz 1) req) as [Hlt|Hge].
  { opt. destruct (((if is_free s then 0 else 1) =? 0) && (req <=? sz)); [rewrite Hp; opt|]; (eexists _, _; split; [done|]; split; [|]).
    - intros x Hx _. cbn. by rewrite lookup_insert_ne by (intros ->; done).
    - intros q [= <-]. cbn. rewrite lookup_insert_eq. eauto.
    - done.
    - done. }
  assert (0 < fuel)%nat as Hf0 by (destruct fuel; [change (2 ^ Z.of_nat 0) with 1 in Hhalf; lia|lia]).
  assert (forall p par idx sz ad s F m, rep (nodes m) p par idx sz ad s F -> 0 <= sz < 2 ^ Z.of_nat fuel ->
    returns F m (_ixmap_mem_alloc numa fuel (Some p) req m)) as IH' by eauto.
  clear IH. inversion Hrep as [? ? ? ? ? E|? ? ? ? ? E|? ? ? ? ? pl pr l r Fl Rr E HL HR ? ? ?];
    subst; cbn [is_free Z.eqb] in *; node_eq.
  - destruct (split_returns p par idx sz ad m Hp) as (ok & m1 & -> & K1 & Hok). opt.
    destruct ok; [|by eexists None, m1].
    destruct Hok as (q0 & q1 & Hne & H0 & H1 & Hp1 & Hc0 & Hc1). assert (p <> q0 /\ p <> q1) as [? ?] by (split; congruence).
    pose proof (children_return fuel p q0 q1 par 0 idx sz ad Fr Fr {[q0]} {[q1]} req m1 IH' Hhalf Hp1
      (rep_free _ _ _ _ _ _ Hc0) (rep_free _ _ _ _ _ _ Hc1) ltac:(sets) ltac:(sets) ltac:(sets)) as Hch.
    destruct (mark_returns _ p m1 _ Hch ltac:(sets) ltac:(eauto)) as (r & m' & -> & K & Hr).
    exists r, m'. split; [done|]. split; [|done]. apply (keeps_trans _ _ m m1 m' K1 K).
    intros q. rewrite !elem_of_union, !elem_of_singleton. intros [->|[->| ->]]; [done| |]; rewrite ?H0, ?H1; by intros [].
  - opt. unfold alloc_children. rewrite Hp. opt. cbn [child0]. destruct fuel as [|fuel]; [lia|]. cbn [_ixmap_mem_alloc]. opt.
    rewrite Hp. opt. by eexists None, m.
  - opt. pose proof (children_return fuel p pl pr par 1 idx sz ad l r Fl Rr req m IH' Hhalf Hp HL HR) as Hch.
    rewrite <- (assoc_L (∪)). apply mark_returns; [by apply Hch|sets|eauto].
Qed.

End Returns.

(** ** A call depends on the answers it gets *)

(** [run numa m = Some (x, m')] implies the same for every libnuma that gives the
    same answers to the calls made in between. *)
Definition local {A} (run : (nat -> gmap Z mnode -> option Z) -> mem -> option (A * mem)) : Prop :=
  forall numa m x m', run numa m = Some (x, m') -> (clock m <= clock m')%nat /\
    forall numa', (forall t h, (clock m <= t < clock m')%nat -> numa' t h = numa t h) -> run numa' m = Some (x, m').

Lemma local_bind {A B} (f : (nat -> gmap Z mnode -> option Z) -> mem -> option (A * mem)) (g : A -> (nat -> gmap Z mnode -> option Z) -> mem -> option (B * mem)) :
  local f -> (forall x, local (g x)) -> local (fun numa m => '(x, m1) ← f numa m; g x numa m1).
Proof.
  intros Hf Hg numa m y m' Hrun. destruct (f numa m) as [[x m1]|] eqn:E1; [|done]. cbn in Hrun.
  destruct (Hf _ _ _ _ E1) as [L1 R1]. destruct (Hg _ _ _ _ _ Hrun) as [L2 R2]. split; [lia|].
  intros numa' Hn. rewrite (R1 numa') by (intros; apply Hn; lia). cbn. apply R2. intros. apply Hn. lia.
Qed.

(** Code that does not call libnuma. *)
Lemma local_keep {A} (f : mem -> option (A * mem)) :
  (forall m x m', f m = Some (x, m') -> clock m' = clock m) -> local (fun _ => f).
Proof. intros Hf numa m x m' E. split; [by rewrite (Hf _ _ _ E)|done]. Qed.

Lemma local_get {A} p (f : mnode -> (nat -> gmap Z mnode -> option Z) -> mem -> option (A * mem)) :
  (forall n, local (f n)) -> local (fun numa m => n ← nodes m !! p; f n numa m).
Proof.
  intros Hf numa m x m' E. destruct (nodes m !! p) as [n|] eqn:Ep; [|done]. cbn in E. destruct (Hf _ _ _ _ _ E) as [L R].
  split; [done|]. intros numa' Hn. cbn. by apply R.
Qed.

Lemma local_alloc par ptr size idx : local (fun numa m => Some (ixmap_mnode_alloc numa par ptr size idx m)).
Proof.
  intros numa m x m' [= E]. unfold ixmap_mnode_alloc in *.
  destruct (numa (clock m) (nodes m)) as [p|] eqn:En; injection E as <- <-; cbn [clock]; (split; [lia|]);
    intros numa' Hn; rewrite Hn by lia; by rewrite En.
Qed.

Lemma release_clock p m m' : ixmap_mnode_release p m = Some m' -> clock m' = clock m.
Proof.
  unfold ixmap_mnode_release. destruct (nodes m !! p) as [n|]; [|done]. cbn.
  destruct (parent n) as [q|]; cbn; [destruct (nodes m !! q); [|done]; cbn|]; by intros [= <-].
Qed.

Lemma local_ret {A} (x : A) : local (fun _ m => Some (x, m)).
Proof. apply local_keep. by intros m y m' [= _ <-]. Qed.

Lemma local_split p : local (fun numa m => mnode_split numa p m).
Proof.
  intros numa m x m' E. unfold mnode_split in E |- *. destruct (nodes m !! p) as [n|]; [|done]. opt.
  cbn [mbind option_bind] in E. destruct (ixmap_mnode_alloc numa _ _ _ _ m) as [c0 m1] eqn:E1.
  destruct (local_alloc _ _ _ _ numa m c0 m1 (f_equal Some E1)) as [L1 R1].
  destruct (nodes m1 !! p) as [n1|] eqn:Ep1; [|done]. cbn [mbind option_bind] in E. destruct c0 as [q0|].
  - set (m2 := set_nodes _ m1) in *. destruct (ixmap_mnode_alloc numa _ _ _ _ m2) as [c1 m3] eqn:E3.
    destruct (local_alloc _ _ _ _ numa m2 c1 m3 (f_equal Some E3)) as [L3 R3]. change (clock m2) with (clock m1) in L3, R3.
    destruct (nodes m3 !! p) as [n3|] eqn:Ep3; [|done]. cbn [mbind option_bind] in E.
    assert (clock m' = clock m3) as Hc.
    { destruct c1 as [q1|]; [by injection E as _ <-|].
      destruct (ixmap_mnode_release q0 _) as [m5|] eqn:Er; [|done]. injection E as _ <-. by apply release_clock in Er. }
    split; [lia|]. intros numa' Hn. pose proof (R1 numa' ltac:(intros; apply Hn; lia)) as [= ->]. rewrite Ep1. opt. fold m2.
    pose proof (R3 numa' ltac:(intros; apply Hn; lia)) as [= ->]. rewrite Ep3. opt. exact E.
  - injection E as <- <-. split; [done|]. intros numa' Hn. pose proof (R1 numa' Hn) as [= ->]. by rewrite Ep1.
Qed.

Lemma local_mem_alloc_ fuel node req : local (fun numa m => _ixmap_mem_alloc numa fuel node req m).
Proof.
  revert node. induction fuel as [|fuel IH]; intros node; [by intros numa m x m'|].
  destruct node as [p|]; [|apply local_ret]. cbn [_ixmap_mem_alloc]. apply (local_get p (fun n numa m => _)). intros n.
  apply (local_bind (fun numa m => _) (fun ret numa m' => _)).
  - destruct (Z.shiftr (msize n) 1 <? req); [apply local_ret|].
    apply (local_bind (fun numa m => _) (fun ok numa m1 => _)); [destruct (allocated n =? 0); [apply local_split|apply local_ret]|].
    intros [|]; [|apply local_ret]. apply (local_get p (fun n1 numa m1 => _)). intros n1.
    apply (local_bind (fun numa m => _) (fun r0 numa m2 => _)); [apply IH|]. intros [q|]; [apply local_ret|].
    apply (local_get p (fun n2 numa m2 => _)). intros n2. apply IH.
  - intros [q|]; [|apply local_ret]. apply (local_get p (fun n' numa m' => _)). intros n'.
    apply (local_keep (fun m' => Some (Some q, set_nodes <[p:=set_allocated 1 n']> m'))). by intros m x m' [= _ <-].
Qed.

Lemma local_mem_alloc root size : local (fun numa m => ixmap_mem_alloc numa root size m).
Proof.
  apply (local_bind (fun numa m => _) (fun ret numa m1 => _)); [apply local_mem_alloc_|]. intros [q|]; [|apply local_ret].
  apply (local_get q (fun n numa m1 => _)). intros n.
  apply (local_keep (fun m1 => Some (Some (mptr n + ALIGN 8 L1_CACHE_BYTES),
    Mem (clock m1) (nodes m1) (<[mptr n := q]> (hdr m1))))). by intros m x m' [= _ <-].
Qed.

Lemma free_clock fuel p m m' : _ixmap_mem_free fuel p m = Some m' -> clock m' = clock m.
Proof.
  revert p m. induction fuel as [|fuel IH]; intros p m; [done|]. cbn [_ixmap_mem_free].
  destruct (nodes m !! p) as [n|]; [|done]. cbn [mbind option_bind]. destruct (parent n) as [q|]; [|by intros [= <-]].
  destruct (nodes _ !! q) as [pn|]; [|done]. cbn [mbind option_bind].
  destruct (get_child _ pn) as [buddy|]; [|done]. cbn [mbind option_bind].
  destruct (nodes _ !! buddy) as [b|]; [|done]. cbn [mbind option_bind].
  destruct (allocated b =? 0); [|by intros [= <-]].
  destruct (ixmap_mnode_release buddy _) as [m2|] eqn:E2; [|done]. cbn [mbind option_bind].
  destruct (ixmap_mnode_release p m2) as [m3|] eqn:E3; [|done]. cbn [mbind option_bind].
  intros ->%IH. apply release_clock in E2, E3. by rewrite E3, E2.
Qed.

Lemma mem_free_clock x m m' : ixmap_mem_free x m = Some m' -> clock m' = clock m.
Proof.
  unfold ixmap_mem_free. destruct (hdr m !! _) as [q|]; [|done]. cbn [mbind option_bind]. apply free_clock.
Qed.

(** ** The libnuma that never refuses *)

(** [numa] for the calls from [a] to [b], and [numa_bump] for all others. *)
Definition patched (numa : nat -> gmap Z mnode -> option Z) (a b t : nat) (h : gmap Z mnode) : option Z :=
  if decide (a <= t < b)%nat then numa t h else numa_bump t h.

Lemma patched_fresh numa a b :
  (forall t h p, numa t h = Some p -> h !! p = None) -> forall t h p, patched numa a b t h = Some p -> h !! p = None.
Proof. intros Hf t h p. unfold patched. case_decide; [apply Hf|apply numa_bump_fresh]. Qed.

Lemma patched_total numa a b : grants numa a b -> forall t h, exists p, patched numa a b t h = Some p.
Proof. intros Hg t h. unfold patched. case_decide; [by apply Hg|apply numa_bump_total]. Qed.

Lemma patched_eq numa a b t h : (a <= t < b)%nat -> patched numa a b t h = numa t h.
Proof. intros Ht. unfold patched. by rewrite decide_True. Qed.

Section Granted.

Context (numa : nat -> gmap Z mnode -> option Z).
Hypothesis numa_fresh : forall t h p, numa t h = Some p -> h !! p = None.
Context (root SZ AD : Z).

(** Whatever libnuma answers, the call returns; if it refused nothing, as
    [mem_alloc_ok] says. *)
Lemma mem_alloc_granted m s size :
  mem_inv root SZ AD m s -> 0 < size <= max_request ->
  exists r m', ixmap_mem_alloc numa root size m = Some (r, m') /\
    (grants numa (clock m) (clock m') ->
     match r with
     | None => mem_inv root SZ AD m' s /\ forall a b, (a, b) ∈ frees SZ AD s -> b < request size
     | Some x => exists q b s', mem_inv root SZ AD m' s' /\
         salloc MEM_DEPTH q SZ AD (request size) s = Some (x - 64, b, s') /\
         blocks SZ AD s' ≡ₚ (x - 64, b, q) :: blocks SZ AD s /\
         request size <= b /\ half b < request size
     end).
Proof.
  intros Hinv Hsize. destruct (request_small size Hsize) as [_ Hreq].
  assert (exists r m', ixmap_mem_alloc numa root size m = Some (r, m')) as (r & m' & E).
  { unfold ixmap_mem_alloc. fold (request size). pose proof (fits_pos _ _ (mi_fits _ _ _ _ _ Hinv)).
    destruct (alloc_returns numa numa_fresh MEM_DEPTH root None 0 SZ AD s _ (request size) m (mi_rep _ _ _ _ _ Hinv))
      as (r & m1 & -> & _ & Hr); [lia|unfold MEM_DEPTH; lia| |].
    { change (2 ^ Z.of_nat MEM_DEPTH) with (2 ^ 33). pose proof (mi_size _ _ _ _ _ Hinv). lia. }
    opt. destruct r as [q|]; [|eauto]. destruct (Hr q eq_refl) as [n ->]. opt. eauto. }
  exists r, m'. split; [done|]. intros Hg. set (numa' := patched numa (clock m) (clock m')).
  destruct (mem_alloc_ok numa' (patched_fresh _ _ _ numa_fresh) (patched_total _ _ _ Hg) root SZ AD m s size Hinv Hsize)
    as (r1 & m1 & E1 & Hr).
  destruct (local_mem_alloc root size numa m r m' E) as [_ Hl]. rewrite (Hl numa') in E1.
  - by injection E1 as <- <-.
  - intros t h Ht. by apply patched_eq.
Qed.

Lemma buddy_alloc_granted m L n r m' :
  buddy_inv root SZ AD m L -> 0 < n <= max_request -> ixmap_mem_alloc numa root n m = Some (r, m') ->
  grants numa (clock m) (clock m') ->
  match r with
  | None => buddy_inv root SZ AD m' L
  | Some x => L !! x = None /\ exists c, n <= c /\ buddy_inv root SZ AD m' (<[x := c]> L)
  end.
Proof.
  intros Hinv Hn E Hg. set (numa' := patched numa (clock m) (clock m')).
  destruct (buddy_alloc_ok numa' (patched_fresh _ _ _ numa_fresh) (patched_total _ _ _ Hg) root SZ AD m L n Hinv Hn)
    as (r1 & m1 & E1 & Hr).
  destruct (local_mem_alloc root n numa m r m' E) as [_ Hl]. rewrite (Hl numa') in E1.
  - by injection E1 as <- <-.
  - intros t h Ht. by apply patched_eq.
Qed.

End Granted.
