(* ===== verification/MemProps.v ===== *)
(** * The buddy allocator: properties

    What a client of [ixmap_mem_alloc] / [ixmap_mem_free] gets, over whole runs
    of the allocator, and what goes wrong outside the conditions of those
    theorems. *)

From stdpp Require Import prelude fin_maps gmap list.
From S2P Require Import Prelude Alloc Mem MemFacts MemNuma.

(** A libnuma that grants a number of calls and then refuses all. *)
Definition numa_quota (k t : nat) (h : gmap Z mnode) : option Z := if (t <? k)%nat then numa_bump t h else None.

Lemma numa_quota_fresh k t h p : numa_quota k t h = Some p -> h !! p = None.
Proof. unfold numa_quota. destruct (t <? k)%nat; [apply numa_bump_fresh|done]. Qed.

Lemma numa_quota_grants k a b : (b <= k)%nat -> grants (numa_quota k) a b.
Proof. intros Hb t h Ht. unfold numa_quota. rewrite (proj2 (Nat.ltb_lt _ _)) by lia. by eexists. Qed.

(** ** Runs of a client

    States an allocator can be in, with the live objects (address, size asked
    for) of a client that frees only what it holds. *)
Inductive client (numa : nat -> gmap Z mnode -> option Z) (root SZ AD : Z)
  : mem -> gmap Z Z -> Prop :=
| cl_init m m' :
    nodes m = ∅ -> ixmap_mem_init numa AD SZ m = (Some root, m') ->
    client numa root SZ AD m' ∅
| cl_alloc m L n x m' :
    client numa root SZ AD m L -> 0 < n <= max_request ->
    ixmap_mem_alloc numa root n m = Some (Some x, m') ->
    client numa root SZ AD m' (<[x := n]> L)
| cl_alloc_fail m L n m' :
    client numa root SZ AD m L -> 0 < n <= max_request ->
    ixmap_mem_alloc numa root n m = Some (None, m') ->
    client numa root SZ AD m' L
| cl_free m L x n m' :
    client numa root SZ AD m L -> L !! x = Some n ->
    ixmap_mem_free x m = Some m' ->
    client numa root SZ AD m' (delete x L).

Section Client.

Context (numa : nat -> gmap Z mnode -> option Z).
Hypothesis numa_fresh : forall t h p, numa t h = Some p -> h !! p = None.
Context (root SZ AD : Z).
Hypothesis SZ_range : 1 <= SZ < 2 ^ 32.

(** Capacities [C] of the live objects [L]. *)
Definition covers (C L : gmap Z Z) : Prop :=
  forall x, match L !! x, C !! x with
            | Some n, Some c => n <= c
            | None, None => True
            | _, _ => False
            end.

Lemma covers_lookup C L x n : covers C L -> L !! x = Some n -> exists c, C !! x = Some c /\ n <= c.
Proof. intros H Hx. specialize (H x). rewrite Hx in H. destruct (C !! x); [eauto|done]. Qed.

Lemma covers_insert C L x n c : covers C L -> n <= c -> covers (<[x := c]> C) (<[x := n]> L).
Proof.
  intros H Hn y. destruct (decide (x = y)) as [->|Hne].
  - by rewrite !lookup_insert_eq.
  - rewrite !lookup_insert_ne by done. apply H.
Qed.

Lemma covers_delete C L x : covers C L -> covers (delete x C) (delete x L).
Proof.
  intros H y. destruct (decide (x = y)) as [->|Hne].
  - by rewrite !lookup_delete_eq.
  - rewrite !lookup_delete_ne by done. apply H.
Qed.

Lemma grants_less a b c : grants numa a c -> (b <= c)%nat -> grants numa a b.
Proof. intros Hg Hb t h Ht. apply Hg. lia. Qed.

Lemma grants_more a b c : grants numa a c -> (a <= b)%nat -> grants numa b c.
Proof. intros Hg Hb t h Ht. apply Hg. lia. Qed.

Lemma client_inv m L :
  client numa root SZ AD m L -> grants numa 0 (clock m) -> exists C, buddy_inv root SZ AD m C /\ covers C L.
Proof.
  assert (forall m n r m', ixmap_mem_alloc numa root n m = Some (r, m') -> grants numa 0 (clock m') ->
    grants numa 0 (clock m) /\ grants numa (clock m) (clock m')) as Hstep.
  { intros m0 n r m' E Hg. destruct (local_mem_alloc root n numa m0 r m' E) as [Hle _].
    split; [by eapply grants_less|]. eapply grants_more; [done|lia]. }
  induction 1 as [m m' Hm Hi|m L n x m' _ IH Hn Hr|m L n m' _ IH Hn Hr|m L x n m' _ IH Hx Hr]; intros Hg.
  - exists ∅. split; [|by intros x; rewrite !lookup_empty].
    assert (numa (clock m) ∅ = Some root) as Hroot.
    { revert Hi. unfold ixmap_mem_init, ixmap_mnode_alloc. rewrite Hm.
      destruct (numa (clock m) ∅); congruence. }
    destruct (mem_init_ok numa root SZ AD m Hm SZ_range Hroot) as (m1 & E & Hinv).
    simplify_eq. exists Fr. split; [congruence|]. intros x c. rewrite lookup_empty. split; [done|].
    intros [q Hq]. by apply elem_of_nil in Hq.
  - destruct (Hstep _ _ _ _ Hr Hg) as [H1 H2]. destruct (IH H1) as (C & Hinv & HC).
    pose proof (buddy_alloc_granted numa numa_fresh root SZ AD m C n _ _ Hinv Hn Hr H2) as (_ & c & Hc & Hinv').
    eauto using covers_insert.
  - destruct (Hstep _ _ _ _ Hr Hg) as [H1 H2]. destruct (IH H1) as (C & Hinv & HC).
    exists C. split; [|done]. exact (buddy_alloc_granted numa numa_fresh root SZ AD m C n _ _ Hinv Hn Hr H2).
  - destruct IH as (C & Hinv & HC); [by rewrite <- (mem_free_clock _ _ _ Hr)|].
    destruct (covers_lookup _ _ _ _ HC Hx) as (c & Hc & _).
    destruct (buddy_free_ok root SZ AD m C x c Hinv Hc) as (m1 & E & Hinv').
    rewrite Hr in E. simplify_eq. eauto using covers_delete.
Qed.

End Client.

(** C1: In every state a client can reach while libnuma has refused none of the
    nodes asked for so far, the live objects lie in the arena and do not overlap
    each other or another object's header; no call that the client may make next
    dereferences a dangling pointer or runs out of the recursion bound, even if
    libnuma refuses a node then; and once everything is freed the tree is again a
    single free root, so that no node and no byte of the arena is lost.  (After a
    refusal objects may overlap: [mem_overlap_after_numa_failure].) *)
Theorem mem_client_safe numa root SZ AD m L :
  (forall t h p, numa t h = Some p -> h !! p = None) ->
  1 <= SZ < 2 ^ 32 ->
  client numa root SZ AD m L -> grants numa 0 (clock m) ->
  (forall x n, L !! x = Some n -> AD + 64 <= x /\ x + n <= AD + SZ) /\
  (forall x n y k, L !! x = Some n -> L !! y = Some k -> x <> y ->
     x + n <= y - 64 \/ y + k <= x - 64) /\
  (forall n, 0 < n <= max_request -> is_Some (ixmap_mem_alloc numa root n m)) /\
  (forall x, is_Some (L !! x) -> is_Some (ixmap_mem_free x m)) /\
  (L = ∅ -> nodes m = {[root := Mnode None None None 0 0 SZ AD]}).
Proof.
  intros Hf HSZ Hc Hg. destruct (client_inv numa Hf root SZ AD HSZ m L Hc Hg) as (C & Hinv & HC).
  split_and!.
  - intros x n (c & Hx & Hn)%(covers_lookup _ _ _ _ HC).
    pose proof (buddy_bounds _ _ _ _ _ _ _ Hinv Hx). lia.
  - intros x n y k (c & Hx & Hn)%(covers_lookup _ _ _ _ HC) (d & Hy & Hk)%(covers_lookup _ _ _ _ HC) Hne.
    destruct (buddy_disjoint_ok _ _ _ _ _ _ _ _ _ Hinv Hx Hy Hne); lia.
  - intros n Hn. destruct Hinv as (s & Hinv & _).
    destruct (mem_alloc_granted numa Hf root SZ AD m s n Hinv Hn) as (r & m' & -> & _). eauto.
  - intros x [n (c & Hx & _)%(covers_lookup _ _ _ _ HC)].
    destruct (buddy_free_ok root SZ AD m C x c Hinv Hx) as (m' & -> & _). eauto.
  - intros ->. destruct Hinv as (s & Hinv & HL). destruct Hinv as [Hrep Hm Hfit _ _].
    assert (s = Fr) as ->.
    { apply merged_empty; [done|]. destruct (leaves s) as [|q l] eqn:E; [done|exfalso].
      destruct (leaves_block SZ AD s q) as (a & b & Hb); [rewrite E; by left|].
      assert (C !! (a + 64) = Some (b - 64)) as HCa.
      { apply HL. exists q. by replace (a + 64 - 64) with a by lia; replace (b - 64 + 64) with b by lia. }
      specialize (HC (a + 64)). by rewrite HCa, lookup_empty in HC. }
    inversion Hrep as [? ? ? ? ? E Hdom| |]; subst. apply map_eq. intros x.
    destruct (decide (x = root)) as [->|Hne]; [by rewrite lookup_singleton_eq|].
    rewrite lookup_singleton_ne by done. apply not_elem_of_dom.
    match goal with H : {[root]} = _ |- _ => rewrite <- H end. set_solver.
Qed.

(** A 1 MiB arena, before [ixmap_mem_init]; libnuma has 30 nodes to give. *)
Definition mem0 : mem := Mem 0 ∅ ∅.

Definition demo_init : mem := snd (ixmap_mem_init (numa_quota 30) 4096 1048576 mem0).

(** The state after a request that is expected to succeed. *)
Definition demo_alloc (n : Z) (m : mem) : option Z * mem :=
  default (None, m) (ixmap_mem_alloc (numa_quota 30) 1 n m).

Lemma mem_client_safe_witness :
  exists m, client (numa_quota 30) 1 1048576 4096 m {[12352 := 24; 4160 := 4096]} /\
    is_Some (ixmap_mem_free 4160 m) /\ is_Some (ixmap_mem_alloc (numa_quota 30) 1 1 m).
Proof.
  exists (snd (demo_alloc 24 (snd (demo_alloc 4096 demo_init)))).
  assert (client (numa_quota 30) 1 1048576 4096 (snd (demo_alloc 24 (snd (demo_alloc 4096 demo_init))))
            {[12352 := 24; 4160 := 4096]}) as Hc.
  { eapply (cl_alloc _ _ _ _ (snd (demo_alloc 4096 demo_init)) {[4160 := 4096]} 24 12352);
      [|by vm_compute|vm_compute; reflexivity].
    eapply (cl_alloc _ _ _ _ demo_init ∅ 4096 4160); [|by vm_compute|vm_compute; reflexivity].
    by apply (cl_init _ _ _ _ mem0). }
  split; [exact Hc|].
  destruct (mem_client_safe (numa_quota 30) 1 1048576 4096 _ {[12352 := 24; 4160 := 4096]}
           (numa_quota_fresh 30) ltac:(lia) Hc) as (_ & _ & Ha & Hf & _).
  - apply numa_quota_grants. vm_compute. lia.
  - split; [apply Hf; vm_compute; eauto|apply Ha; unfold max_request; lia].
Defined.


Lemma demo_init_inv : mem_inv 1 1048576 4096 demo_init Fr.
Proof.
  destruct (mem_init_ok (numa_quota 30) 1 1048576 4096 mem0) as (m' & E & Hinv); try done.
  unfold demo_init. by rewrite E.
Qed.


(** C17: Freeing what was just allocated gives the allocator's tree back
    exactly, every split made for the request is undone - when libnuma refused
    none of the nodes that the request asked it for. *)
Theorem mem_alloc_free_roundtrip numa root SZ AD m s size x m1 :
  (forall t h p, numa t h = Some p -> h !! p = None) ->
  mem_inv root SZ AD m s -> 0 < size <= max_request ->
  ixmap_mem_alloc numa root size m = Some (Some x, m1) -> grants numa (clock m) (clock m1) ->
  exists m2, ixmap_mem_free x m1 = Some m2 /\ mem_inv root SZ AD m2 s.
Proof.
  intros Hf Hinv Hsz Hrun Hg.
  destruct (mem_alloc_granted numa Hf root SZ AD m s size Hinv Hsz) as (r & m' & E & Hr).
  rewrite Hrun in E. simplify_eq. specialize (Hr Hg). destruct Hr as (q & b & s' & Hinv' & Hs & Hp & _).
  assert ((x - 64, b, q) ∈ blocks SZ AD s') as Hin by (rewrite Hp; by left).
  destruct (mem_free_ok root SZ AD _ s' _ b q Hinv' Hin) as (m2 & Hfree & Hinv2).
  replace (x - 64 + 64) with x in Hfree by lia. exists m2. split; [done|].
  rewrite (sfree_salloc _ _ _ _ _ _ _ _ _ Hs) in Hinv2; [done|apply Hinv|].
  intros Hq. destruct (leaves_block SZ AD s q Hq) as (a1 & b1 & H1).
  assert ((a1, b1, q) ∈ blocks SZ AD s') as H2 by (rewrite Hp; by right).
  destruct (rep_block_node _ _ _ _ _ _ _ _ _ _ _ (mi_rep _ _ _ _ _ Hinv') Hin) as (n1 & Hn1 & Ha & _).
  destruct (rep_block_node _ _ _ _ _ _ _ _ _ _ _ (mi_rep _ _ _ _ _ Hinv') H2) as (n2 & Hn2 & Ha2 & _).
  assert (a1 = x - 64) as -> by congruence.
  pose proof (blocks_starts_NoDup _ AD _ (mi_fits _ _ _ _ _ Hinv')) as Hnd.
  rewrite Hp in Hnd. apply NoDup_cons in Hnd as [Hnd _]. apply Hnd, list_elem_of_fmap.
  by exists (x - 64, b1, q).
Qed.

Lemma mem_alloc_free_roundtrip_witness :
  exists m2, ixmap_mem_free 4160 (snd (demo_alloc 24 demo_init)) = Some m2 /\
             mem_inv 1 1048576 4096 m2 Fr.
Proof.
  apply (mem_alloc_free_roundtrip (numa_quota 30) 1 1048576 4096 demo_init Fr 24 4160
           (snd (demo_alloc 24 demo_init)) (numa_quota_fresh 30) demo_init_inv).
  - unfold max_request. lia.
  - vm_compute. reflexivity.
  - apply numa_quota_grants. vm_compute. lia.
Defined.

(** [ixmap_mem_destroy] visits every node of the tree once and returns all
    of them to libnuma. *)
Theorem mem_destroy_releases_all root SZ AD m s :
  mem_inv root SZ AD m s ->
  exists m', ixmap_mem_destroy root m = Some m' /\ nodes m' = ∅.
Proof.
  intros [Hrep _ Hfit HSZ _].
  destruct (destroy_heap MEM_DEPTH root None 0 SZ AD s _ m Hrep) as (m' & Hrun & _ & Hgone & Hout & _).
  - assert (depth s < 32)%nat by (apply (depth_fits 32 SZ); done). unfold MEM_DEPTH. lia.
  - done.
  - exists m'. split; [done|]. apply map_eq. intros x. rewrite lookup_empty.
    destruct (decide (x ∈ dom (nodes m))) as [Hx|Hx]; [by apply Hgone|].
    rewrite Hout by done. by apply not_elem_of_dom.
Qed.

Lemma mem_destroy_releases_all_witness :
  exists m', ixmap_mem_destroy 1 demo_init = Some m' /\ nodes m' = ∅.
Proof. exact (mem_destroy_releases_all 1 1048576 4096 demo_init Fr demo_init_inv). Defined.

(** ** Outside those conditions *)

(** libnuma failing at calls number 3 and 4 only. *)
Definition numa_flaky (t : nat) (h : gmap Z mnode) : option Z :=
  if decide (t ∈ [3; 4]%nat) then None else numa_bump t h.

(** When [numa_alloc_onnode] fails below a node that was just split, the
    node keeps its two children while it is marked free: it can be handed out as
    a whole and its children, still linked, again.  Three requests in a 512-byte
    arena, the first of which fails, give two live objects that overlap. *)
Theorem mem_overlap_after_numa_failure :
  (forall t h p, numa_flaky t h = Some p -> h !! p = None) /\
  exists m0 m1 m2 m3 x y,
    ixmap_mem_init numa_flaky 4096 512 mem0 = (Some 1, m0) /\
    ixmap_mem_alloc numa_flaky 1 64 m0 = Some (None, m1) /\
    ixmap_mem_alloc numa_flaky 1 300 m1 = Some (Some x, m2) /\
    ixmap_mem_alloc numa_flaky 1 128 m2 = Some (Some y, m3) /\
    x <= y < x + 300.
Proof.
  split.
  - intros t h p. unfold numa_flaky. case_decide; [done|]. apply numa_bump_fresh.
  - eexists _, _, _, _, 4160, 4160. split_and!; try (vm_compute; reflexivity); lia.
Qed.

(** The 32-bit arithmetic on request sizes wraps: a request within 63 bytes
    of 4 GiB is treated as one of 64 bytes, so that the object returned has no
    usable byte, and the 64 sizes below it become a request for zero bytes, on
    which the recursion splits empty nodes for ever: no depth is enough. *)
Theorem mem_request_wraps numa root size m :
  (forall t h p, numa t h = Some p -> h !! p = None) ->
  (forall t h, exists p, numa t h = Some p) ->
  (2 ^ 32 - 63 <= size < 2 ^ 32 -> request size = 64) /\
  (2 ^ 32 - 127 <= size < 2 ^ 32 - 63 ->
   request size = 0 /\
   forall fuel par idx sz ad, 0 <= sz ->
     nodes m !! root = Some (Mnode None None par 0 idx sz ad) ->
     _ixmap_mem_alloc numa fuel (Some root) (request size) m = None).
Proof.
  intros Hf Ht. split.
  - intros Hs. unfold request. rewrite ALIGN_header. unfold ALIGN.
    assert (0 <= u32 (size + (L1_CACHE_BYTES - 1)) < 63) as Hu.
    { unfold u32. change (L1_CACHE_BYTES - 1) with 63.
      replace (size + 63) with (size + 63 - 2 ^ 32 + 1 * 2 ^ 32) by lia.
      rewrite Z.mod_add, Z.mod_small by lia. lia. }
    rewrite (land_high_zero _ Hu). reflexivity.
  - intros Hs. assert (request size = 0) as ->.
    { unfold request. rewrite ALIGN_header, ALIGN_64 by lia.
      replace ((size + 63) / 64) with (2 ^ 26 - 1); [reflexivity|].
      apply (Z.div_unique _ _ _ (size + 63 - 64 * (2 ^ 26 - 1))); lia. }
    split; [done|]. intros fuel. revert root m. induction fuel as [|fuel IH];
      intros p m par idx sz ad Hsz Hp; [done|].
    rewrite alloc_unfold, Hp. opt. cbn [msize allocated].
    pose proof (half_bounds sz Hsz) as Hh. rewrite (proj2 (Z.ltb_ge (half sz) 0)) by lia.
    change (0 =? 0) with true. cbn match.
    destruct (split_heap numa Hf Ht p par idx sz ad m Hp)
      as (q0 & q1 & m1 & -> & _ & _ & _ & _ & Hp1 & Hc0 & _). opt.
    unfold alloc_children. rewrite Hp1. opt. cbn [child0].
    rewrite (IH q0 m1 (Some p) 0 (half sz) ad) by (done || lia). done.
Qed.

Lemma mem_request_wraps_witness : request (2 ^ 32 - 1) = 64.
Proof.
  apply (mem_request_wraps numa_bump 1 (2 ^ 32 - 1) mem0 numa_bump_fresh numa_bump_total). lia.
Defined.
