(* ===== verification/Lpm.v ===== *)
(** * The longest-prefix-match table (src/src/lpm.c, src/src/lpm.h)

    A root array of 2^16 nodes and 256-way tables below it, allocated on
    demand.  A node's [head] is the hlist of the routes that end at its level,
    longest first; a route shorter than its level is entered in every node it
    covers.  Each hlist cell is an [lpm_entry] object holding a pointer to the
    route object, whose type the table does not know: it goes through the
    function pointers of [struct lpm_table], here the methods of [LpmOps].

    [None] is undefined behaviour throughout: a NULL or dangling pointer is
    dereferenced or an array index is out of range. *)

From stdpp Require Import prelude fin_maps gmap list.
From S2P Require Import Prelude.

(** ** Array access inside recursive definitions *)

(** [l[n]], read by [f]. *)
Definition with_nth {A B} (f : A -> option B) :=
  fix go (l : list A) (n : nat) : option B :=
    match l, n with
    | [], _ => None
    | x :: _, O => f x
    | _ :: l, S n => go l n
    end.

(** [l[n]], updated in place by [f], which also returns a result. *)
Definition upd_nth {A X} (f : A -> option (X * A)) :=
  fix go (l : list A) (n : nat) : option (X * list A) :=
    match l, n with
    | [], _ => None
    | x :: l, O => '(r, x') ← f x; Some (r, x' :: l)
    | x :: l, S n => '(r, l') ← go l n; Some (r, x :: l')
    end.

(** Every element in turn updated by [f], threading a state. *)
Definition upd_all {A W} (f : A -> W -> option (A * W)) :=
  fix go (l : list A) (w : W) : option (list A * W) :=
    match l with
    | [] => Some ([], w)
    | x :: l => '(x', w1) ← f x w; '(l', w2) ← go l w1; Some (x' :: l', w2)
    end.

(** ** Data *)

Definition TABLE_SIZE_16 : Z := Z.shiftl 1 16.
Definition TABLE_SIZE_8 : Z := Z.shiftl 1 8.

(** [sizeof] on the LP64 targets the library supports. *)
Definition sizeof_lpm_entry : Z := 24.
Definition sizeof_lpm_node : Z := 16.

(** An hlist cell, by its address; [le_ptr] is the route object. *)
Record lpm_entry := LpmEntry { le_addr : Z; le_ptr : Z }.

(** [next_table] with the address of the array. *)
Inductive lpm_node :=
| LpmNode (head : list lpm_entry) (next_table : option (Z * list lpm_node)).

Definition node_head (nd : lpm_node) : list lpm_entry := let 'LpmNode h _ := nd in h.
Definition node_next (nd : lpm_node) : option (Z * list lpm_node) := let 'LpmNode _ t := nd in t.
Definition set_head (h : list lpm_entry) (nd : lpm_node) : lpm_node := LpmNode h (node_next nd).

Definition hlist_empty {A} (l : list A) : bool := match l with [] => true | _ => false end.

(** The test of the clean-up loops over a table. *)
Definition node_unused (nd : lpm_node) : bool :=
  match node_next nd with Some _ => false | None => hlist_empty (node_head nd) end.

(** ** What the table calls

    The allocator and the function pointers of [struct lpm_table], over a state
    [W] that holds the allocator and the route objects. *)
Class LpmOps (W : Type) := {
  w_alloc : Z -> W -> option (option Z * W);
  w_free : Z -> W -> option W;
  entry_identify : Z -> Z -> Z -> W -> option Z;
  entry_compare : Z -> Z -> W -> option Z;
  entry_pull : Z -> W -> option W;
  entry_put : Z -> W -> option W
}.

(** ** Operations *)

Definition lpm_init_node : lpm_node := LpmNode [] None.

Definition lpm_init : list lpm_node := replicate (Z.to_nat TABLE_SIZE_16) lpm_init_node.

Definition lpm_index (prefix : view) (offset range : Z) : Z :=
  let shift := 32 - (offset mod 32 + range) in
  let word := Z.shiftr offset 5 in
  let mask := Z.shiftl 1 range - 1 in
  Z.land (Z.shiftr (ntohl (load32 prefix (Z.to_nat word))) shift) mask.

(** [head] of the deepest node on the way to [dst] that has routes. *)
Fixpoint _lpm_lookup (dst : view) (parent : lpm_node) (offset : Z)
  : option (option (list lpm_entry)) :=
  match parent with
  | LpmNode _ None => None
  | LpmNode _ (Some (_, tbl)) =>
      with_nth (fun node =>
        match node with
        | LpmNode hd (Some _) =>
            head ← _lpm_lookup dst node (offset + 8);
            Some (match head with
                  | Some h => Some h
                  | None => if hlist_empty hd then None else Some hd
                  end)
        | LpmNode hd None => Some (if hlist_empty hd then None else Some hd)
        end) tbl (Z.to_nat (lpm_index dst offset 8))
  end.

Definition lpm_lookup (table : list lpm_node) (dst : view) : option (option lpm_entry) :=
  node ← table !! Z.to_nat (lpm_index dst 0 16);
  hd ← match node_next node with
       | Some _ =>
           h ← _lpm_lookup dst node 16;
           Some (default (node_head node) h)
       | None => Some (node_head node)
       end;
  Some (head hd).

Section Ops.

Context {W : Type} `{LpmOps W}.

(** The scan of [lpm_entry_insert]: [None] inside when the route is already
    there, otherwise how many cells the new one goes behind ([prior]). *)
Fixpoint insert_scan (hd : list lpm_entry) (id prefix_len : Z) (pos prior : nat) (w : W)
  : option (option nat) :=
  match hd with
  | [] => Some (Some prior)
  | e :: hd =>
      ident ← entry_identify (le_ptr e) id prefix_len w;
      if ident =? 0 then Some None
      else
        cmp ← entry_compare (le_ptr e) prefix_len w;
        insert_scan hd id prefix_len (S pos) (if cmp =? 0 then prior else S pos) w
  end.

Definition lpm_entry_insert (hd : list lpm_entry) (id prefix_len : Z) (entry : lpm_entry) (w : W)
  : option (Z * list lpm_entry * W) :=
  scan ← insert_scan hd id prefix_len 0 0 w;
  match scan with
  | None => Some (-1, hd, w)
  | Some prior =>
      w1 ← entry_pull (le_ptr entry) w;
      Some (0, take prior hd ++ entry :: drop prior hd, w1)
  end.

Fixpoint lpm_entry_delete (hd : list lpm_entry) (id prefix_len : Z) (w : W)
  : option (Z * list lpm_entry * W) :=
  match hd with
  | [] => Some (-1, [], w)
  | e :: hd =>
      ident ← entry_identify (le_ptr e) id prefix_len w;
      if ident =? 0 then
        w1 ← entry_put (le_ptr e) w;
        w2 ← w_free (le_addr e) w1;
        Some (0, hd, w2)
      else
        '(r, hd', w1) ← lpm_entry_delete hd id prefix_len w;
        Some (r, e :: hd', w1)
  end.

Fixpoint lpm_entry_delete_all (hd : list lpm_entry) (w : W) : option W :=
  match hd with
  | [] => Some w
  | e :: hd =>
      w1 ← entry_put (le_ptr e) w;
      w2 ← w_free (le_addr e) w1;
      lpm_entry_delete_all hd w2
  end.

(** One iteration of the insertion loops: allocate a cell and link it in. *)
Definition add_cell (id prefix_len ptr : Z) (w : W) (node : lpm_node)
  : option ((Z * W) * lpm_node) :=
  '(a, w1) ← w_alloc sizeof_lpm_entry w;
  match a with
  | None => Some ((-1, w1), node)
  | Some addr =>
      '(ret, hd, w2) ← lpm_entry_insert (node_head node) id prefix_len (LpmEntry addr ptr) w1;
      if ret <? 0 then w3 ← w_free addr w2; Some ((-1, w3), node)
      else Some ((0, w2), set_head hd node)
  end.

(** The insertion loops over [node[index | i]]; also returns the number of
    iterations completed. *)
Fixpoint add_range (n : nat) (i index : Z) (id prefix_len ptr : Z) (tbl : list lpm_node) (w : W)
  : option (Z * Z * list lpm_node * W) :=
  match n with
  | O => Some (0, i, tbl, w)
  | S n =>
      '((ret, w1), tbl1) ← upd_nth (add_cell id prefix_len ptr w) tbl (Z.to_nat (Z.lor index i));
      if ret <? 0 then Some (-1, i, tbl1, w1)
      else add_range n (i + 1) index id prefix_len ptr tbl1 w1
  end.

Definition del_cell (id prefix_len : Z) (w : W) (node : lpm_node) : option ((Z * W) * lpm_node) :=
  '(ret, hd, w1) ← lpm_entry_delete (node_head node) id prefix_len w;
  Some ((ret, w1), set_head hd node).

(** The clean-up loop of [err_lpm_add_self], which ignores the results. *)
Fixpoint rollback (n : nat) (i index : Z) (id prefix_len : Z) (tbl : list lpm_node) (w : W)
  : option (list lpm_node * W) :=
  match n with
  | O => Some (tbl, w)
  | S n =>
      '((_, w1), tbl1) ← upd_nth (del_cell id prefix_len w) tbl (Z.to_nat (Z.lor index i));
      rollback n (i + 1) index id prefix_len tbl1 w1
  end.

(** The deletion loops, which stop at the first failure. *)
Fixpoint del_range (n : nat) (i index : Z) (id prefix_len : Z) (tbl : list lpm_node) (w : W)
  : option (Z * list lpm_node * W) :=
  match n with
  | O => Some (0, tbl, w)
  | S n =>
      '((ret, w1), tbl1) ← upd_nth (del_cell id prefix_len w) tbl (Z.to_nat (Z.lor index i));
      if ret <? 0 then Some (-1, tbl1, w1)
      else del_range n (i + 1) index id prefix_len tbl1 w1
  end.

(** [err_lpm_add:] and the end of [_lpm_delete]: a table in which nothing is
    left is freed. *)
Definition table_gc (head : list lpm_entry) (addr : Z) (tbl : list lpm_node) (w : W)
  : option (lpm_node * W) :=
  if forallb node_unused tbl then w1 ← w_free addr w; Some (LpmNode head None, w1)
  else Some (LpmNode head (Some (addr, tbl)), w).

(** [range] and [index & mask] of a prefix that ends [rem] bits into a table
    indexed by [bits] bits. *)
Definition span (bits rem : Z) : Z := Z.shiftl 1 (bits - rem).
Definition span_base (index range : Z) : Z := Z.land index (not32 (range - 1)).

(** The recursion descends 8 bits per level, so [prefix_len] is fuel enough
    ([add_fuel_enough] shows the bound is never met). *)
Fixpoint _lpm_add (fuel : nat) (prefix : view) (prefix_len id ptr : Z)
    (w : W) (parent : lpm_node) (offset : Z) : option ((Z * W) * lpm_node) :=
  match fuel with
  | O => None
  | S fuel =>
    '(t, w0) ← match node_next parent with
               | Some t => Some (Some t, w)
               | None =>
                   '(a, w0) ← w_alloc (sizeof_lpm_node * TABLE_SIZE_8) w;
                   Some (match a with
                         | Some addr => Some (addr, replicate (Z.to_nat TABLE_SIZE_8) lpm_init_node)
                         | None => None
                         end, w0)
               end;
    match t with
    | None => Some ((-1, w0), parent)
    | Some (addr, tbl) =>
      let index := lpm_index prefix offset 8 in
      '(ret, tbl2, w2) ←
        (if 8 <? u32 (prefix_len - offset) then
           '((ret, w1), tbl1) ←
             upd_nth (fun node => _lpm_add fuel prefix prefix_len id ptr w0 node (offset + 8))
                     tbl (Z.to_nat index);
           Some (ret, tbl1, w1)
         else
           let range := span 8 (u32 (prefix_len - offset)) in
           let index := span_base index range in
           '(ret, _, tbl1, w1) ← add_range (Z.to_nat range) 0 index id prefix_len ptr tbl w0;
           if ret <? 0 then
             (* entry_allocated is never incremented: nothing is undone *)
             '(tbl2, w2) ← rollback 0 0 index id prefix_len tbl1 w1;
             Some (-1, tbl2, w2)
           else Some (0, tbl1, w1));
      if ret <? 0 then
        '(nd, w3) ← table_gc (node_head parent) addr tbl2 w2;
        Some ((-1, w3), nd)
      else Some ((0, w2), LpmNode (node_head parent) (Some (addr, tbl2)))
    end
  end.

Definition lpm_add (prefix : view) (prefix_len id ptr : Z) (table : list lpm_node) (w : W)
  : option (Z * list lpm_node * W) :=
  let index := lpm_index prefix 0 16 in
  if 16 <? prefix_len then
    '((ret, w1), table1) ←
      upd_nth (fun node => _lpm_add (Z.to_nat prefix_len) prefix prefix_len id ptr w node 16)
              table (Z.to_nat index);
    Some (if ret <? 0 then -1 else 0, table1, w1)
  else
    let range := span 16 prefix_len in
    let index := span_base index range in
    '(ret, entry_allocated, table1, w1) ←
      add_range (Z.to_nat range) 0 index id prefix_len ptr table w;
    if ret <? 0 then
      '(table2, w2) ← rollback (Z.to_nat entry_allocated) 0 index id prefix_len table1 w1;
      Some (-1, table2, w2)
    else Some (0, table1, w1).

Fixpoint _lpm_delete (prefix : view) (prefix_len id : Z) (parent : lpm_node) (offset : Z) (w : W)
  : option ((Z * W) * lpm_node) :=
  match parent with
  | LpmNode hd None => Some ((-1, w), parent)
  | LpmNode hd (Some (addr, tbl)) =>
      let index := lpm_index prefix offset 8 in
      '(ret, tbl1, w1) ←
        (if 8 <? u32 (prefix_len - offset) then
           '((ret, w1), tbl1) ←
             upd_nth (fun node => _lpm_delete prefix prefix_len id node (offset + 8) w)
                     tbl (Z.to_nat index);
           Some (ret, tbl1, w1)
         else
           let range := span 8 (u32 (prefix_len - offset)) in
           del_range (Z.to_nat range) 0 (span_base index range) id prefix_len tbl w);
      if ret <? 0 then Some ((-1, w1), LpmNode hd (Some (addr, tbl1)))
      else '(nd, w2) ← table_gc hd addr tbl1 w1; Some ((0, w2), nd)
  end.

Definition lpm_delete (prefix : view) (prefix_len id : Z) (table : list lpm_node) (w : W)
  : option (Z * list lpm_node * W) :=
  let index := lpm_index prefix 0 16 in
  '(ret, table1, w1) ←
    (if 16 <? prefix_len then
       '((ret, w1), table1) ←
         upd_nth (fun node => _lpm_delete prefix prefix_len id node 16 w) table (Z.to_nat index);
       Some (ret, table1, w1)
     else
       let range := span 16 prefix_len in
       del_range (Z.to_nat range) 0 (span_base index range) id prefix_len table w);
  Some (if ret <? 0 then -1 else 0, table1, w1).

(** The loop body shared by [lpm_delete_all] and [_lpm_delete_all]: [f] is the
    recursive call. *)
Definition delete_all_node (f : lpm_node -> W -> option (lpm_node * W)) (node : lpm_node) (w : W)
  : option (lpm_node * W) :=
  '(nd, w1) ← f node w;
  if hlist_empty (node_head nd) then Some (nd, w1)
  else w2 ← lpm_entry_delete_all (node_head nd) w1; Some (set_head [] nd, w2).

Fixpoint _lpm_delete_all (parent : lpm_node) (w : W) : option (lpm_node * W) :=
  match parent with
  | LpmNode hd None => Some (parent, w)
  | LpmNode hd (Some (addr, tbl)) =>
      '(_, w1) ← upd_all (fun node w => delete_all_node _lpm_delete_all node w) tbl w;
      w2 ← w_free addr w1;
      Some (LpmNode hd None, w2)
  end.

Definition lpm_delete_all (table : list lpm_node) (w : W) : option (list lpm_node * W) :=
  upd_all (delete_all_node _lpm_delete_all) table w.

End Ops.

(** [lpm_traverse]: the heads handed to [entry_dump], in order. *)
Fixpoint dump_range (n : nat) (i index : Z) (tbl : list lpm_node) : option (list (list lpm_entry)) :=
  match n with
  | O => Some []
  | S n =>
      node ← tbl !! Z.to_nat (Z.lor index i);
      rest ← dump_range n (i + 1) index tbl;
      Some (if hlist_empty (node_head node) then rest else node_head node :: rest)
  end.

Fixpoint _lpm_traverse (prefix : view) (prefix_len : Z) (parent : lpm_node) (offset : Z)
  : option (Z * list (list lpm_entry)) :=
  match parent with
  | LpmNode _ None => Some (-1, [])
  | LpmNode _ (Some (_, tbl)) =>
      let index := lpm_index prefix offset 8 in
      if 8 <? u32 (prefix_len - offset) then
        '(_, out) ← with_nth (fun node => _lpm_traverse prefix prefix_len node (offset + 8))
                      tbl (Z.to_nat index);
        Some (0, out)
      else
        let range := span 8 (u32 (prefix_len - offset)) in
        out ← dump_range (Z.to_nat range) 0 (span_base index range) tbl;
        Some (0, out)
  end.

Definition lpm_traverse (prefix : view) (prefix_len : Z) (table : list lpm_node)
  : option (Z * list (list lpm_entry)) :=
  let index := lpm_index prefix 0 16 in
  if 16 <? prefix_len then
    node ← table !! Z.to_nat index;
    '(_, out) ← _lpm_traverse prefix prefix_len node 16;
    Some (0, out)
  else
    let range := span 16 prefix_len in
    out ← dump_range (Z.to_nat range) 0 (span_base index range) table;
    Some (0, out).
