(* ===== verification/LpmFacts.v ===== *)
(** * The longest-prefix-match table: functional correctness

    The table is compared with a list of routes.  [head_at] reads the routes of
    the node at an index path, [spec_head] computes from the list which routes
    that node should hold, in order; [table_rep] says they agree everywhere.
    [acct] accounts for memory: the objects the table owns are live, distinct
    and exactly those its cells and tables occupy, and the reference count of
    every route object is the number of cells that point to it. *)

From stdpp Require Import prelude fin_maps gmap list.
From S2P Require Import Prelude Alloc Lpm.

(** ** Indexes *)

Lemma lpm_index_byte v k : view_ok v -> lpm_index v (8 * Z.of_nat k) 8 = v k.
Proof.
  intros Hv. unfold lpm_index. rewrite land_ones_mod, (Z.shiftr_div_pow2 (8 * Z.of_nat k) 5) by lia.
  set (w := (k / 4)%nat). set (j := (k mod 4)%nat).
  pose proof (Nat.div_mod k 4 ltac:(lia)) as Ek. fold w j in Ek.
  assert (j < 4)%nat as Hj by (apply Nat.mod_upper_bound; lia).
  clearbody w j. subst k.
  replace ((8 * Z.of_nat (4 * w + j)) mod 32) with (8 * Z.of_nat j)
    by (apply Z.mod_unique with (Z.of_nat w); lia).
  replace (Z.to_nat (8 * Z.of_nat (4 * w + j) / 2 ^ 5)) with w.
  2: { replace (8 * Z.of_nat (4 * w + j)) with (8 * Z.of_nat j + Z.of_nat w * 2 ^ 5) by lia.
       rewrite Z.div_add, Z.div_small by lia. lia. }
  rewrite ntohl_load32 by done.
  pose proof (Hv (4 * w)%nat) as H0. pose proof (Hv (4 * w + 1)%nat) as H1.
  pose proof (Hv (4 * w + 2)%nat) as H2. pose proof (Hv (4 * w + 3)%nat) as H3. unfold is_byte in *.
  rewrite Z.shiftr_div_pow2 by lia.
  assert (j = 0 \/ j = 1 \/ j = 2 \/ j = 3)%nat as [E|[E|[E|E]]] by lia; rewrite E in *;
    rewrite ?Nat.add_0_r; cbn [Z.of_nat Z.mul Z.add Z.sub Z.opp Pos.mul Pos.add];
    Z.to_euclidean_division_equations; lia.
Qed.

Lemma lpm_index_root v : view_ok v -> lpm_index v 0 16 = v 0%nat * 256 + v 1%nat.
Proof.
  intros Hv. unfold lpm_index. rewrite land_ones_mod by lia.
  change (Z.to_nat (Z.shiftr 0 5)) with 0%nat. rewrite ntohl_load32, Z.shiftr_div_pow2 by (done || (vm_compute; done)).
  pose proof (Hv 0%nat). pose proof (Hv 1%nat). pose proof (Hv 2%nat). pose proof (Hv 3%nat).
  unfold is_byte in *. cbn [Nat.mul Nat.add]. change (32 - (0 mod 32 + 16)) with 16.
  change (2 ^ 16) with 65536. Z.to_euclidean_division_equations; lia.
Qed.

Lemma span_pow bits rem : 0 <= rem <= bits -> span bits rem = 2 ^ (bits - rem).
Proof. intros H. unfold span. rewrite Z.shiftl_mul_pow2 by lia. lia. Qed.

Lemma span_base_pow idx k :
  0 <= idx < 2 ^ 32 -> 0 <= k <= 32 -> span_base idx (2 ^ k) = idx / 2 ^ k * 2 ^ k.
Proof. apply land_not32. Qed.

(** ** Array access *)

Lemma with_nth_lookup {A B} (f : A -> option B) l n : with_nth f l n = l !! n ≫= f.
Proof. revert n. induction l as [|x l IH]; intros [|n]; cbn; [done|done|done|]. apply IH. Qed.

Lemma upd_nth_lookup {A X} (f : A -> option (X * A)) l n :
  upd_nth f l n = x ← l !! n; '(r, x') ← f x; Some (r, <[n := x']> l).
Proof.
  revert n. induction l as [|x l IH]; intros [|n]; cbn; [done|done| |].
  - by destruct (f x) as [[r x']|].
  - change (list_lookup n l) with (l !! n). rewrite IH. destruct (l !! n) as [y|]; [|done]. cbn.
    by destruct (f y) as [[r x']|].
Qed.

Lemma upd_nth_some {A X} (f : A -> option (X * A)) l n x r x' :
  l !! n = Some x -> f x = Some (r, x') -> upd_nth f l n = Some (r, <[n := x']> l).
Proof. intros Hn Hf. rewrite upd_nth_lookup, Hn. opt. by rewrite Hf. Qed.

(** ** Trees as maps from index paths to heads *)

Fixpoint head_path (nd : lpm_node) (p : list nat) : list lpm_entry :=
  match p with
  | [] => node_head nd
  | i :: p =>
      match node_next nd with
      | None => []
      | Some (_, tbl) => match tbl !! i with Some c => head_path c p | None => [] end
      end
  end.

Inductive wf_node : lpm_node -> Prop :=
| wf_leaf h : wf_node (LpmNode h None)
| wf_table h a tbl :
    length tbl = 256%nat -> (forall i c, tbl !! i = Some c -> wf_node c) ->
    wf_node (LpmNode h (Some (a, tbl))).

Lemma wf_init_node : wf_node lpm_init_node.
Proof. constructor. Qed.

Lemma wf_set_head h nd : wf_node nd -> wf_node (set_head h nd).
Proof. destruct 1; by constructor. Qed.

Lemma wf_insert h a tbl i c :
  wf_node (LpmNode h (Some (a, tbl))) -> wf_node c -> wf_node (LpmNode h (Some (a, <[i := c]> tbl))).
Proof.
  inversion 1; subst. intros Hc. constructor; [by rewrite length_insert|].
  intros j d. destruct (decide (i = j)) as [->|Hne].
  - intros Hd. destruct (decide (j < length tbl)%nat).
    + rewrite list_lookup_insert_eq in Hd by done. by simplify_eq.
    + rewrite list_insert_ge in Hd by lia. eauto.
  - rewrite list_lookup_insert_ne by done. eauto.
Qed.

Lemma wf_new_table h a : wf_node (LpmNode h (Some (a, replicate (Z.to_nat TABLE_SIZE_8) lpm_init_node))).
Proof.
  constructor; [by rewrite length_replicate|]. intros i c [-> _]%lookup_replicate. constructor.
Qed.

Lemma head_path_init p : head_path lpm_init_node p = [].
Proof. by destruct p. Qed.

(** The nodes of [_lpm_delete]'s last loop hold nothing. *)
Lemma node_unused_heads nd p : node_unused nd = true -> head_path nd p = [].
Proof.
  destruct nd as [h [[a t]|]]; unfold node_unused; cbn; [done|].
  destruct h; [|done]. intros _. by destruct p.
Qed.

(** ** Routes *)

Record route := Route { rt_pfx : view; rt_len : Z; rt_id : Z; rt_ptr : Z }.

(** Routes longer than the new one come before it; those of its own length
    after. *)
Fixpoint insert_route (r : route) (rs : list route) : list route :=
  match rs with
  | [] => [r]
  | r' :: rs' => if rt_len r <? rt_len r' then r' :: insert_route r rs' else r :: rs
  end.

Definition same_route (id len : Z) (r : route) : bool := (rt_id r =? id) && (rt_len r =? len).

Inductive desc_len : list route -> Prop :=
| desc_nil : desc_len []
| desc_cons r rs : (forall r', r' ∈ rs -> rt_len r' <= rt_len r) -> desc_len rs -> desc_len (r :: rs).

Lemma insert_route_elem r rs x : x ∈ insert_route r rs <-> x = r \/ x ∈ rs.
Proof.
  induction rs as [|y rs IH]; cbn [insert_route]; [by rewrite list_elem_of_singleton, elem_of_nil; tauto|].
  case_match; rewrite !elem_of_cons, ?IH, ?elem_of_cons; tauto.
Qed.

Lemma insert_route_desc r rs : desc_len rs -> desc_len (insert_route r rs).
Proof.
  induction 1 as [|y rs Hy Hrs IH]; cbn [insert_route].
  - constructor; [|constructor]. intros ? H. by apply elem_of_nil in H.
  - destruct (Z.ltb_spec (rt_len r) (rt_len y)).
    + constructor; [|done]. intros x [->|Hx]%insert_route_elem; [lia|auto].
    + constructor; [|by constructor]. intros x [->|Hx]%elem_of_cons; [lia|]. apply Hy in Hx. lia.
Qed.

Lemma insert_route_perm r rs : insert_route r rs ≡ₚ r :: rs.
Proof.
  induction rs as [|y rs IH]; cbn [insert_route]; [done|]. case_match; [|done].
  rewrite IH. by rewrite Permutation_swap.
Qed.

(** Does a route reach the node at path [p] below a node that has consumed [pos]
    bytes of the prefix, [rem > 0] bits of which are left? *)
Fixpoint hits (v : view) (pos : nat) (rem : Z) (p : list nat) : bool :=
  match p with
  | [] => false
  | i :: p =>
      if 8 <? rem then (Z.of_nat i =? v pos) && hits v (S pos) (rem - 8) p
      else match p with
           | [] => Z.of_nat i / 2 ^ (8 - rem) =? v pos / 2 ^ (8 - rem)
           | _ => false
           end
  end.

(** Index of the root node of a prefix. *)
Definition root_index (v : view) : Z := v 0%nat * 256 + v 1%nat.

Definition rhits (v : view) (len : Z) (i : nat) (p : list nat) : bool :=
  if 16 <? len then (Z.of_nat i =? root_index v) && hits v 2 (len - 16) p
  else match p with
       | [] => Z.of_nat i / 2 ^ (16 - len) =? root_index v / 2 ^ (16 - len)
       | _ => false
       end.

(** The routes the node at root index [i] and path [p] holds. *)
Fixpoint spec_head (R : list route) (i : nat) (p : list nat) : list route :=
  match R with
  | [] => []
  | r :: R =>
      if rhits (rt_pfx r) (rt_len r) i p then insert_route r (spec_head R i p) else spec_head R i p
  end.

Definition head_at (T : list lpm_node) (i : nat) (p : list nat) : list lpm_entry :=
  match T !! i with Some nd => head_path nd p | None => [] end.

Definition ptrs (h : list lpm_entry) : list Z := le_ptr <$> h.

(** A prefix the table accepts: bytes, and no longer than an IPv6 address. *)
Definition route_ok (r : route) : Prop := view_ok (rt_pfx r) /\ 0 <= rt_len r <= 128.

Record table_rep (T : list lpm_node) (R : list route) : Prop := {
  tr_len : length T = Z.to_nat TABLE_SIZE_16;
  tr_wf : forall i nd, T !! i = Some nd -> wf_node nd;
  tr_heads : forall i p, (i < Z.to_nat TABLE_SIZE_16)%nat ->
    ptrs (head_at T i p) = rt_ptr <$> spec_head R i p
}.

Lemma spec_head_desc R i p : desc_len (spec_head R i p).
Proof.
  induction R as [|r R IH]; cbn [spec_head]; [constructor|].
  case_match; auto using insert_route_desc.
Qed.

Lemma spec_head_elem R i p r :
  r ∈ spec_head R i p <-> r ∈ R /\ rhits (rt_pfx r) (rt_len r) i p = true.
Proof.
  induction R as [|x R IH]; cbn [spec_head]; [rewrite elem_of_nil; tauto|].
  rewrite elem_of_cons. destruct (rhits (rt_pfx x) (rt_len x) i p) eqn:E.
  - rewrite insert_route_elem, IH. naive_solver.
  - rewrite IH. naive_solver congruence.
Qed.

Lemma table_rep_init : table_rep lpm_init [].
Proof.
  split.
  - unfold lpm_init. by rewrite length_replicate.
  - intros i nd [-> _]%lookup_replicate. apply wf_init_node.
  - intros i p Hi. unfold head_at, lpm_init. rewrite lookup_replicate_2 by done.
    by rewrite head_path_init.
Qed.
