(* ===== verification/LpmAcct.v ===== *)
(** * The longest-prefix-match table: memory and reference counts

    The interface [LpmSpec] that the table's callbacks and allocator meet, and
    [acct], the bookkeeping invariant every operation of the table keeps. *)

From stdpp Require Import prelude fin_maps gmap list.
From S2P Require Import Prelude Alloc Lpm LpmFacts.

(** ** The interface *)

(** A route object as the table sees it. *)
Record obj := Obj { o_id : Z; o_len : Z; o_rc : Z }.

(** [w_inv w L O]: in state [w] the blocks at the addresses [L] are live and the
    route objects are those of [O], disjoint from [L].  [entry_put] on the last
    reference releases the object. *)
Class LpmSpec (W : Type) `{LpmOps W} := {
  w_inv : W -> gset Z -> gmap Z obj -> Prop;
  w_alloc_spec : forall w L O n,
    w_inv w L O -> 0 < n <= max_request ->
    exists r w', w_alloc n w = Some (r, w') /\
      match r with
      | None => w_inv w' L O
      | Some x => x ∉ L /\ w_inv w' ({[x]} ∪ L) O
      end;
  w_free_spec : forall w L O x,
    w_inv w L O -> x ∈ L -> exists w', w_free x w = Some w' /\ w_inv w' (L ∖ {[x]}) O;
  identify_spec : forall w L O p o id len,
    w_inv w L O -> O !! p = Some o ->
    entry_identify p id len w = Some (if (o_id o =? id) && (o_len o =? len) then 0 else 1);
  compare_spec : forall w L O p o len,
    w_inv w L O -> O !! p = Some o ->
    entry_compare p len w = Some (if len <? o_len o then 1 else 0);
  pull_spec : forall w L O p o,
    w_inv w L O -> O !! p = Some o -> 0 <= o_rc o -> o_rc o + 1 < 2 ^ 32 ->
    exists w', entry_pull p w = Some w' /\
      w_inv w' L (<[p := Obj (o_id o) (o_len o) (o_rc o + 1)]> O);
  put_spec : forall w L O p o,
    w_inv w L O -> O !! p = Some o -> 0 < o_rc o < 2 ^ 32 ->
    exists w', entry_put p w = Some w' /\
      w_inv w' L (if o_rc o =? 1 then delete p O
                  else <[p := Obj (o_id o) (o_len o) (o_rc o - 1)]> O)
}.

(** ** Footprints *)

(** What the table owns: cells, each with the object it points to, and arrays. *)
Inductive item :=
| IEnt (a p : Z)
| ITab (a : Z).

#[export] Instance item_eq_dec : EqDecision item.
Proof. solve_decision. Defined.

Definition item_addr (x : item) : Z := match x with IEnt a _ => a | ITab a => a end.

Definition is_ref (p : Z) (x : item) : Prop :=
  match x with IEnt _ p' => p' = p | ITab _ => False end.

#[export] Instance is_ref_dec p x : Decision (is_ref p x).
Proof. destruct x; cbn; apply _. Defined.

(** References to the object [p]. *)
Definition refs (p : Z) (l : list item) : Z := Z.of_nat (length (filter (is_ref p) l)).

Definition cell_item (e : lpm_entry) : item := IEnt (le_addr e) (le_ptr e).

Fixpoint fp (nd : lpm_node) : list item :=
  match nd with
  | LpmNode h t =>
      (cell_item <$> h) ++
      match t with None => [] | Some (a, tbl) => ITab a :: flat_map fp tbl end
  end.

Definition addrs (l : list item) : gset Z := list_to_set (item_addr <$> l).

#[export] Instance refs_perm p : Proper ((≡ₚ) ==> eq) (refs p).
Proof. intros l l' E. unfold refs. by rewrite E. Qed.

#[export] Instance addrs_perm : Proper ((≡ₚ) ==> eq) addrs.
Proof. intros l l' E. unfold addrs. apply list_to_set_perm_L. by rewrite E. Qed.

Lemma refs_cons p x l : refs p (x :: l) = (if decide (is_ref p x) then 1 else 0) + refs p l.
Proof.
  unfold refs. rewrite filter_cons. case_decide; cbn [length]; lia.
Qed.

Lemma refs_nonneg p l : 0 <= refs p l.
Proof. unfold refs. lia. Qed.

Lemma refs_pos p a l : IEnt a p ∈ l -> 0 < refs p l.
Proof.
  intros Hin. unfold refs. destruct (filter (is_ref p) l) eqn:E; [|cbn; lia].
  assert (IEnt a p ∈ filter (is_ref p) l) as H by (apply list_elem_of_filter; done).
  rewrite E in H. by apply elem_of_nil in H.
Qed.

(** Route objects by id and length; the counts follow from the footprint. *)
Notation catalog := (gmap Z (Z * Z)).

Definition objs (cat : catalog) (l : list item) : gmap Z obj :=
  map_imap (fun p c => Some (Obj c.1 c.2 (refs p l))) cat.

Lemma objs_lookup cat l p : objs cat l !! p = (fun c => Obj c.1 c.2 (refs p l)) <$> cat !! p.
Proof. unfold objs. rewrite map_lookup_imap. by destruct (cat !! p). Qed.

#[export] Instance objs_perm cat : Proper ((≡ₚ) ==> eq) (objs cat).
Proof. intros l l' E. apply map_eq. intros p. by rewrite !objs_lookup, (refs_perm p l l' E). Qed.

Section Acct.

Context {W : Type} `{LpmSpec W}.

(** [L0] are the live blocks that are not the table's. *)
Record acct (w : W) (L0 : gset Z) (cat : catalog) (l : list item) : Prop := {
  ac_inv : w_inv w (L0 ∪ addrs l) (objs cat l);
  ac_nodup : NoDup (item_addr <$> l);
  ac_fresh : L0 ## addrs l;
  ac_cat : forall a p, IEnt a p ∈ l -> is_Some (cat !! p)
}.

#[global] Instance acct_perm w L0 cat : Proper ((≡ₚ) ==> iff) (acct w L0 cat).
Proof.
  assert (forall l l', l ≡ₚ l' -> acct w L0 cat l -> acct w L0 cat l') as Hone.
  { intros l l' E [Hi Hn Hf Hc]. split.
    - by rewrite <- E.
    - by rewrite <- E.
    - by rewrite <- E.
    - intros a p. rewrite <- E. eauto. }
  intros l l' E. split; apply Hone; [done|by symmetry].
Qed.

#[global] Instance acct_cat_perm w L0 : Proper (eq ==> (≡ₚ) ==> iff) (acct w L0).
Proof. intros cat ? <-. apply acct_perm. Qed.

Lemma addrs_cons x l : addrs (x :: l) = {[item_addr x]} ∪ addrs l.
Proof. done. Qed.

(** A block just allocated belongs to the caller until it is linked in. *)
Lemma acct_alloc w L0 cat l n :
  acct w L0 cat l -> 0 < n <= max_request ->
  exists r w', w_alloc n w = Some (r, w') /\
    match r with
    | None => acct w' L0 cat l
    | Some x => x ∉ L0 /\ acct w' ({[x]} ∪ L0) cat l
    end.
Proof.
  intros [Hi Hn Hf Hc] Hsz. destruct (w_alloc_spec _ _ _ n Hi Hsz) as (r & w' & Hr & Hpost).
  exists r, w'. split; [done|]. destruct r as [x|]; [|by split].
  destruct Hpost as [Hx Hi']. split; [set_solver|]. split; try done; [|set_solver].
  by rewrite <- (assoc_L (∪)).
Qed.

Lemma acct_release w L0 cat l x :
  acct w ({[x]} ∪ L0) cat l -> x ∉ L0 ->
  exists w', w_free x w = Some w' /\ acct w' L0 cat l.
Proof.
  intros [Hi Hn Hf Hc] Hx. destruct (w_free_spec _ _ _ x Hi) as (w' & Hw & Hi'); [set_solver|].
  exists w'. split; [done|]. split; try done; [|set_solver].
  replace (L0 ∪ addrs l) with (({[x]} ∪ L0 ∪ addrs l) ∖ {[x]}); [done|].
  apply leibniz_equiv. set_solver.
Qed.

(** Linking in a block the caller holds: what [acct] needs of the new item. *)
Lemma acct_link w L0 cat l x it O :
  acct w ({[x]} ∪ L0) cat l -> x ∉ L0 -> item_addr it = x ->
  (forall a p, it = IEnt a p -> is_Some (cat !! p)) ->
  forall w', w_inv w' ({[x]} ∪ L0 ∪ addrs l) O -> objs cat (it :: l) = O ->
  acct w' L0 cat (it :: l).
Proof.
  intros [_ Hn Hf Hc] Hx Hit Hcat w' Hi HO. split.
  - rewrite addrs_cons, Hit, HO.
    replace (L0 ∪ ({[x]} ∪ addrs l)) with ({[x]} ∪ L0 ∪ addrs l) by (apply leibniz_equiv; set_solver).
    done.
  - cbn. apply NoDup_cons. split; [|done]. rewrite Hit. intros Hin.
    assert (x ∈ addrs l) by (by apply elem_of_list_to_set). set_solver.
  - rewrite addrs_cons, Hit. set_solver.
  - intros a p [Heq|Hin]%elem_of_cons; eauto.
Qed.

Lemma objs_table cat x l : objs cat (ITab x :: l) = objs cat l.
Proof.
  apply map_eq. intros p. rewrite !objs_lookup. destruct (cat !! p); [|done]. cbn.
  by rewrite refs_cons.
Qed.

(** A new array. *)
Lemma acct_table w L0 cat l x :
  acct w ({[x]} ∪ L0) cat l -> x ∉ L0 -> acct w L0 cat (ITab x :: l).
Proof.
  intros Ha Hx. eapply acct_link; [exact Ha|done|done|done|apply Ha|apply objs_table].
Qed.

(** A new cell: the object's count is raised. *)
Lemma acct_cell w L0 cat l x p c :
  acct w ({[x]} ∪ L0) cat l -> x ∉ L0 -> cat !! p = Some c -> refs p l + 1 < 2 ^ 32 ->
  exists w2, entry_pull p w = Some w2 /\ acct w2 L0 cat (IEnt x p :: l).
Proof.
  intros Ha Hx Hp Hrc.
  assert (objs cat l !! p = Some (Obj c.1 c.2 (refs p l))) as Ho by (by rewrite objs_lookup, Hp).
  destruct (pull_spec _ _ _ _ _ (ac_inv _ _ _ _ Ha) Ho) as (w2 & Hw2 & Hi2);
    [apply refs_nonneg|done|].
  exists w2. split; [done|].
  eapply acct_link; [exact Ha|done|done|intros ? ? [= _ <-]; eauto|exact Hi2|].
  apply map_eq. intros q. rewrite objs_lookup, refs_cons. destruct (decide (p = q)) as [<-|Hne].
  - rewrite lookup_insert_eq, Hp. cbn. rewrite decide_True by done. f_equal. f_equal. lia.
  - rewrite lookup_insert_ne, objs_lookup by done. destruct (cat !! q); [|done]. cbn.
    by rewrite decide_False.
Qed.

(** The catalog once a reference to [p] is gone, [l] being what remains. *)
Definition drop_ref (p : Z) (l : list item) (cat : catalog) : catalog :=
  if refs p l =? 0 then delete p cat else cat.

Lemma acct_put w L0 cat l x p :
  acct w L0 cat (IEnt x p :: l) -> refs p (IEnt x p :: l) < 2 ^ 32 ->
  exists w1 w2, entry_put p w = Some w1 /\ w_free x w1 = Some w2 /\
    acct w2 L0 (drop_ref p l cat) l.
Proof.
  intros [Hi Hn Hf Hc] Hlt. destruct (Hc x p) as [c Hp]; [by left|].
  rewrite refs_cons in Hlt. cbn in Hlt. rewrite decide_True in Hlt by done.
  pose proof (refs_nonneg p l).
  assert (objs cat (IEnt x p :: l) !! p = Some (Obj c.1 c.2 (1 + refs p l))) as Ho.
  { rewrite objs_lookup, Hp, refs_cons. cbn. by rewrite decide_True. }
  destruct (put_spec _ _ _ _ _ Hi Ho) as (w1 & Hw1 & Hi1); [cbn; lia|].
  cbn in Hn. apply NoDup_cons in Hn as [Hx Hn]. rewrite addrs_cons in Hi1, Hf. cbn in Hi1, Hf.
  destruct (w_free_spec _ _ _ x Hi1) as (w2 & Hw2 & Hi2); [set_solver|].
  assert (x ∉ addrs l) as Hxl by (unfold addrs; by rewrite elem_of_list_to_set).
  exists w1, w2. split_and!; [done|done|]. split.
  - replace ((L0 ∪ ({[x]} ∪ addrs l)) ∖ {[x]}) with (L0 ∪ addrs l) in Hi2
      by (apply leibniz_equiv; set_solver).
    match type of Hi2 with w_inv _ _ ?O => replace (objs (drop_ref p l cat) l) with O; [done|] end.
    unfold drop_ref. apply map_eq. intros q. destruct (Z.eqb_spec (refs p l) 0) as [E|E].
    + cbn [o_rc]. rewrite (proj2 (Z.eqb_eq (1 + refs p l) 1)) by lia.
      destruct (decide (p = q)) as [<-|Hne].
      * by rewrite objs_lookup, !lookup_delete_eq.
      * rewrite objs_lookup, !lookup_delete_ne, objs_lookup by done. destruct (cat !! q); [|done].
        cbn. rewrite refs_cons. cbn. by rewrite decide_False.
    + cbn [o_rc]. rewrite (proj2 (Z.eqb_neq (1 + refs p l) 1)) by lia.
      destruct (decide (p = q)) as [<-|Hne].
      * rewrite lookup_insert_eq, objs_lookup, Hp. cbn. f_equal. f_equal. lia.
      * rewrite lookup_insert_ne, !objs_lookup by done. destruct (cat !! q); [|done].
        cbn. rewrite refs_cons. cbn. by rewrite decide_False.
  - done.
  - set_solver.
  - intros a q Hin. unfold drop_ref. destruct (Hc a q) as [d Hd]; [by right|].
    destruct (Z.eqb_spec (refs p l) 0) as [E|E]; [|eauto]. pose proof (refs_pos q a l Hin).
    rewrite lookup_delete_ne; [eauto|]. intros ->. lia.
Qed.

Lemma acct_free_table w L0 cat l x :
  acct w L0 cat (ITab x :: l) -> exists w', w_free x w = Some w' /\ acct w' L0 cat l.
Proof.
  intros [Hi Hn Hf Hc]. cbn in Hn. apply NoDup_cons in Hn as [Hx Hn].
  rewrite addrs_cons in Hi, Hf. cbn in Hi, Hf.
  assert (x ∉ addrs l) as Hxl by (unfold addrs; by rewrite elem_of_list_to_set).
  destruct (w_free_spec _ _ _ x Hi) as (w' & Hw & Hi'); [set_solver|].
  exists w'. split; [done|]. split; [|done|set_solver|].
  - replace ((L0 ∪ ({[x]} ∪ addrs l)) ∖ {[x]}) with (L0 ∪ addrs l) in Hi'
      by (apply leibniz_equiv; set_solver).
    by rewrite objs_table in Hi'.
  - intros a p Hin. apply (Hc a). by right.
Qed.

Lemma acct_identify w L0 cat l p c id len :
  acct w L0 cat l -> cat !! p = Some c ->
  entry_identify p id len w = Some (if (c.1 =? id) && (c.2 =? len) then 0 else 1).
Proof.
  intros [Hi _ _ _] Hp. rewrite (identify_spec w _ _ p (Obj c.1 c.2 (refs p l)) id len Hi); [done|].
  by rewrite objs_lookup, Hp.
Qed.

Lemma acct_compare w L0 cat l p c len :
  acct w L0 cat l -> cat !! p = Some c ->
  entry_compare p len w = Some (if len <? c.2 then 1 else 0).
Proof.
  intros [Hi _ _ _] Hp. rewrite (compare_spec w _ _ p (Obj c.1 c.2 (refs p l)) len Hi); [done|].
  by rewrite objs_lookup, Hp.
Qed.

End Acct.
