(* ===== verification/LpmAdd.v ===== *)
(** * The longest-prefix-match table: insertion *)

From stdpp Require Import prelude fin_maps gmap list.
From S2P Require Import Prelude Alloc Lpm LpmFacts LpmAcct.

(** ** Scanning a head *)

(** How many routes of a sorted head are longer than [len]. *)
Fixpoint longer (len : Z) (rs : list route) : nat :=
  match rs with
  | [] => 0%nat
  | r :: rs => if len <? rt_len r then S (longer len rs) else longer len rs
  end.

Lemma longer_none len rs : (forall r, r ∈ rs -> rt_len r <= len) -> longer len rs = 0%nat.
Proof.
  induction rs as [|r rs IH]; intros Hle; [done|]. cbn [longer].
  pose proof (Hle r ltac:(by left)). rewrite (proj2 (Z.ltb_ge _ _)) by lia.
  apply IH. intros r' Hr'. apply Hle. by right.
Qed.

Lemma insert_route_take r rs :
  desc_len rs -> insert_route r rs = take (longer (rt_len r) rs) rs ++ r :: drop (longer (rt_len r) rs) rs.
Proof.
  induction 1 as [|y rs Hy Hrs IH]; [done|]. cbn [insert_route longer].
  destruct (Z.ltb_spec (rt_len r) (rt_len y)); cbn [take drop app]; [by rewrite IH|].
  rewrite longer_none; [done|]. intros z Hz%Hy. lia.
Qed.

Definition cat_ok (cat : catalog) (rs : list route) : Prop :=
  forall r, r ∈ rs -> cat !! rt_ptr r = Some (rt_id r, rt_len r).

Lemma cat_ok_cons cat r rs :
  cat_ok cat (r :: rs) -> cat !! rt_ptr r = Some (rt_id r, rt_len r) /\ cat_ok cat rs.
Proof. intros Hc. split; [apply Hc; by left|]. intros x Hx. apply Hc. by right. Qed.

Section Add.

Context {W : Type} `{LpmSpec W}.

(** Can the allocator run out of memory? *)
Definition can_fail : Prop := exists n w w', w_alloc n w = Some (None, w').

Lemma insert_scan_spec w L0 cat l hd rs id len pos prior :
  acct w L0 cat l -> ptrs hd = rt_ptr <$> rs -> cat_ok cat rs -> desc_len rs ->
  insert_scan hd id len pos prior w =
    Some (if existsb (same_route id len) rs then None
          else Some (match longer len rs with O => prior | S k => (pos + S k)%nat end)).
Proof.
  intros Ha Hp Hc Hd. revert hd pos prior Hp.
  induction Hd as [|r rs Hr Hrs IH]; intros [|e hd] pos prior Hp; try done.
  unfold ptrs in Hp. cbn in Hp. injection Hp as He Hp.
  apply cat_ok_cons in Hc as [Hcr Hc]. cbn [insert_scan existsb longer].
  rewrite He, (acct_identify _ _ _ _ _ _ id len Ha Hcr). opt. cbn [fst snd].
  unfold same_route at 1. destruct ((rt_id r =? id) && (rt_len r =? len)); cbn [orb Z.eqb]; [done|].
  rewrite (acct_compare _ _ _ _ _ _ len Ha Hcr). opt. cbn [snd].
  rewrite (IH Hc hd _ _ Hp). f_equal. destruct (existsb _ rs); [done|]. f_equal.
  destruct (Z.ltb_spec len (rt_len r)); cbn [Z.eqb].
  - destruct (longer len rs); lia.
  - rewrite longer_none; [done|]. intros z Hz%Hr. lia.
Qed.

(** One cell of the insertion loops, on a node whose head holds [rs]. *)
Definition dup (r : route) (rs : list route) : bool := existsb (same_route (rt_id r) (rt_len r)) rs.

Lemma fp_node nd :
  fp nd = (cell_item <$> node_head nd) ++
          match node_next nd with None => [] | Some (a, tbl) => ITab a :: flat_map fp tbl end.
Proof. by destruct nd. Qed.

Lemma fp_set_head_insert nd k e :
  fp (set_head (take k (node_head nd) ++ e :: drop k (node_head nd)) nd) ≡ₚ cell_item e :: fp nd.
Proof.
  destruct nd as [h t]. unfold set_head. cbn [fp node_head node_next].
  rewrite fmap_app, fmap_cons. rewrite <- Permutation_middle. cbn [app].
  by rewrite <- fmap_app, take_drop.
Qed.

Lemma add_cell_spec w L0 cat l nd rs r :
  acct w L0 cat (fp nd ++ l) -> ptrs (node_head nd) = rt_ptr <$> rs -> cat_ok cat (r :: rs) ->
  desc_len rs -> refs (rt_ptr r) (fp nd ++ l) + 1 < 2 ^ 32 ->
  exists ret w' nd',
    add_cell (rt_id r) (rt_len r) (rt_ptr r) w nd = Some ((ret, w'), nd') /\
    acct w' L0 cat (fp nd' ++ l) /\ node_next nd' = node_next nd /\
    ((ret = 0 /\ dup r rs = false /\ ptrs (node_head nd') = rt_ptr <$> insert_route r rs /\
      exists a, fp nd' ≡ₚ IEnt a (rt_ptr r) :: fp nd) \/
     (ret = -1 /\ nd' = nd /\ (dup r rs = true \/ can_fail))).
Proof.
  intros Ha Hp [Hcr Hc]%cat_ok_cons Hd Hrc. unfold add_cell.
  destruct (acct_alloc _ _ _ _ sizeof_lpm_entry Ha) as (res & w1 & E & Hres); [done|].
  rewrite E. opt. destruct res as [addr|].
  2: { eexists _, _, _. split; [done|]. split_and!; [done|done|]. right. split_and!; try done.
       right. unfold can_fail. eauto. }
  destruct Hres as [Hx Ha1]. unfold lpm_entry_insert.
  rewrite (insert_scan_spec _ _ _ _ _ _ (rt_id r) (rt_len r) 0 0 Ha1 Hp Hc Hd). opt.
  fold (dup r rs). destruct (dup r rs) eqn:Edup.
  - opt. cbn [Z.ltb]. destruct (acct_release _ _ _ _ _ Ha1 Hx) as (w3 & -> & Ha3). opt.
    eexists _, _, _. split; [done|]. split_and!; [done|done|]. right. auto.
  - cbn [le_ptr]. destruct (acct_cell _ _ _ _ _ _ _ Ha1 Hx Hcr Hrc) as (w2 & -> & Ha2). opt.
    eexists _, _, _. split; [done|].
    set (k := match longer (rt_len r) rs with O => 0%nat | S k => (0 + S k)%nat end).
    assert (k = longer (rt_len r) rs) as Hk by (unfold k; by destruct (longer _ _)).
    pose proof (fp_set_head_insert nd k (LpmEntry addr (rt_ptr r))) as Hfp.
    split_and!; [by rewrite Hfp|by destruct nd|]. left. split_and!; [done|done| |by eexists].
    destruct nd as [h t]. cbn [set_head node_head] in *. unfold ptrs in *.
    rewrite fmap_app, fmap_cons, fmap_take, fmap_drop, Hp, (insert_route_take r rs Hd).
    by rewrite fmap_app, fmap_cons, fmap_take, fmap_drop, Hk.
Qed.

(** ** The insertion loops *)

Lemma fps_split (tbl : list lpm_node) i c :
  tbl !! i = Some c ->
  exists rest, flat_map fp tbl ≡ₚ fp c ++ rest /\
    forall c', flat_map fp (<[i := c']> tbl) ≡ₚ fp c' ++ rest.
Proof.
  intros Hi. pose proof (lookup_lt_Some _ _ _ Hi) as Hlt.
  exists (flat_map fp (take i tbl) ++ flat_map fp (drop (S i) tbl)).
  assert (forall c', flat_map fp (<[i := c']> tbl) ≡ₚ
    fp c' ++ flat_map fp (take i tbl) ++ flat_map fp (drop (S i) tbl)) as Hins.
  { intros c'. rewrite insert_take_drop by done. rewrite flat_map_app. cbn [flat_map].
    by rewrite Permutation_app_swap_app. }
  split; [|done]. rewrite <- (list_insert_id tbl i c) at 1 by done. apply Hins.
Qed.

(** The table after a loop over the nodes [lo .. hi - 1], each of which keeps its
    [next_table] and ends up with a head that satisfies [P]. *)
Definition range_upd (P : nat -> list lpm_entry -> Prop) (lo hi : Z)
    (tbl tbl' : list lpm_node) : Prop :=
  length tbl' = length tbl /\
  forall j nd, tbl !! j = Some nd ->
    exists nd', tbl' !! j = Some nd' /\
      if decide (lo <= Z.of_nat j < hi)
      then node_next nd' = node_next nd /\ P j (node_head nd')
      else nd' = nd.

Lemma range_upd_empty P lo tbl : range_upd P lo lo tbl tbl.
Proof.
  split; [done|]. intros j nd Hj. exists nd. split; [done|]. rewrite decide_False by lia. done.
Qed.

Lemma range_upd_step P lo hi tbl nd nd' tbl' :
  0 <= lo -> lo < hi -> tbl !! Z.to_nat lo = Some nd -> node_next nd' = node_next nd ->
  P (Z.to_nat lo) (node_head nd') ->
  range_upd P (lo + 1) hi (<[Z.to_nat lo := nd']> tbl) tbl' ->
  range_upd P lo hi tbl tbl'.
Proof.
  intros Hlo Hlt Hnd Hnx Hp [Hlen Hpost]. rewrite length_insert in Hlen. split; [done|].
  intros j x Hj. destruct (decide (j = Z.to_nat lo)) as [->|Hne].
  - assert (x = nd) as -> by congruence.
    destruct (Hpost (Z.to_nat lo) nd') as (y & Hy & Hc).
    { apply list_lookup_insert_eq. by eapply lookup_lt_Some. }
    rewrite decide_False in Hc by lia. subst y. exists nd'. split; [done|].
    rewrite decide_True by lia. done.
  - destruct (Hpost j x) as (y & Hy & Hc).
    { rewrite list_lookup_insert_ne by congruence. done. }
    exists y. split; [done|].
    destruct (decide (lo <= Z.of_nat j < hi)), (decide (lo + 1 <= Z.of_nat j < hi)); try done; lia.
Qed.

Lemma range_upd_nil P lo tbl tbl' : range_upd P lo lo tbl tbl' -> tbl' = tbl.
Proof.
  intros [Hlen Hp]. apply list_eq_same_length with (length tbl); [done|done|].
  intros i x y Hi Hx Hy. destruct (Hp i y Hy) as (z & Hz & Hc).
  rewrite decide_False in Hc by lia. congruence.
Qed.

Lemma range_upd_lookup P lo hi tbl tbl' i c :
  range_upd P lo hi tbl tbl' -> tbl' !! i = Some c ->
  exists nd, tbl !! i = Some nd /\ (c = nd \/ node_next c = node_next nd).
Proof.
  intros [Hlen Hp] Hi. destruct (lookup_lt_is_Some_2 tbl i) as [nd Hnd].
  { rewrite <- Hlen. by eapply lookup_lt_Some. }
  exists nd. split; [done|]. destruct (Hp i nd Hnd) as (nd' & Hnd' & Hcase). simplify_eq.
  case_decide; naive_solver.
Qed.

Lemma wf_next_eq nd nd' : wf_node nd -> node_next nd' = node_next nd -> wf_node nd'.
Proof.
  intros Hw E. destruct nd as [h t], nd' as [h' t']. cbn in E. subst t'. exact (wf_set_head h' _ Hw).
Qed.

Lemma range_upd_wf P lo hi h a tbl tbl' :
  wf_node (LpmNode h (Some (a, tbl))) -> range_upd P lo hi tbl tbl' ->
  wf_node (LpmNode h (Some (a, tbl'))).
Proof.
  inversion 1 as [|? ? ? Hl Hc]; subst. intros Hr. constructor; [by destruct Hr; congruence|].
  intros i c Hi. destruct (range_upd_lookup _ _ _ _ _ _ _ Hr Hi) as (nd & Hnd & Hcase).
  pose proof (Hc _ _ Hnd). destruct Hcase as [->|Hn]; [done|]. by eapply wf_next_eq.
Qed.

(** The insertion loops. *)
Definition ins_head (r : route) (rss : nat -> list route) (j : nat) (h : list lpm_entry) : Prop :=
  dup r (rss j) = false /\ ptrs h = rt_ptr <$> insert_route r (rss j).

Lemma add_range_spec n i base q k L0 cat l rss r tbl w :
  base = q * 2 ^ k -> 0 <= q -> 0 <= k -> 0 <= i -> i + Z.of_nat n <= 2 ^ k ->
  base + 2 ^ k <= Z.of_nat (length tbl) ->
  acct w L0 cat (flat_map fp tbl ++ l) ->
  (forall j nd, base + i <= Z.of_nat j < base + 2 ^ k -> tbl !! j = Some nd ->
     ptrs (node_head nd) = rt_ptr <$> rss j) ->
  (forall j, cat_ok cat (r :: rss j) /\ desc_len (rss j)) ->
  refs (rt_ptr r) (flat_map fp tbl ++ l) + Z.of_nat n < 2 ^ 32 ->
  exists ret i' tbl' w',
    add_range n i base (rt_id r) (rt_len r) (rt_ptr r) tbl w = Some (ret, i', tbl', w') /\
    i <= i' <= i + Z.of_nat n /\ acct w' L0 cat (flat_map fp tbl' ++ l) /\
    range_upd (ins_head r rss) (base + i) (base + i') tbl tbl' /\
    (forall p, refs p (flat_map fp tbl' ++ l) =
       refs p (flat_map fp tbl ++ l) + if decide (p = rt_ptr r) then i' - i else 0) /\
    ((ret = 0 /\ i' = i + Z.of_nat n) \/
     (ret = -1 /\ i' < i + Z.of_nat n /\ (dup r (rss (Z.to_nat (base + i'))) = true \/ can_fail))).
Proof.
  intros Hb Hq Hk. revert i tbl w.
  induction n as [|n IH]; intros i tbl w Hi Hn Hlen Ha Hh Hrs Hrc.
  { exists 0, i, tbl, w. split; [done|]. split_and!;
      first [done|lia|apply range_upd_empty|left; lia|intros p; case_decide; lia]. }
  cbn [add_range]. assert (Z.lor base i = base + i) as -> by (subst base; apply lor_low; lia).
  assert (0 <= base) by (subst base; lia).
  destruct (lookup_lt_is_Some_2 tbl (Z.to_nat (base + i))) as [nd Hnd]; [lia|].
  destruct (fps_split tbl _ nd Hnd) as (rest & Hfp & Hfp').
  pose proof (Hrs (Z.to_nat (base + i))) as [Hcat Hdesc].
  rewrite Hfp, <- (assoc_L (++)) in Ha, Hrc.
  destruct (add_cell_spec w L0 cat (rest ++ l) nd (rss (Z.to_nat (base + i))) r Ha)
    as (ret & w1 & nd' & Hrun & Ha1 & Hnx & Hcase); try done; [apply Hh; [lia|done]|lia|].
  rewrite (upd_nth_some _ _ _ nd _ nd' Hnd Hrun). opt.
  destruct Hcase as [(-> & Hdup & Hptr & a & Hnew)|(-> & -> & Hwhy)]; cbn [Z.ltb Z.compare].
  - assert (forall p, refs p (flat_map fp (<[Z.to_nat (base + i):=nd']> tbl) ++ l) =
            refs p (fp nd ++ rest ++ l) + if decide (p = rt_ptr r) then 1 else 0) as Hrefs.
    { intros p. rewrite Hfp', Hnew. cbn [app]. rewrite refs_cons. cbn [is_ref].
      rewrite <- (assoc_L (++)). repeat case_decide; congruence || lia. }
    destruct (IH (i + 1) (<[Z.to_nat (base + i) := nd']> tbl) w1)
      as (ret & i' & tbl' & w' & Hr & Hi' & Ha' & Hpost & Href & Hend); try lia.
    + by rewrite length_insert.
    + by rewrite Hfp', <- (assoc_L (++)).
    + intros j x Hj. rewrite list_lookup_insert_ne by lia. apply Hh. lia.
    + done.
    + rewrite Hrefs, decide_True by done. lia.
    + exists ret, i', tbl', w'. split; [done|]. split_and!; try done; try lia.
      * replace (base + (i + 1)) with (base + i + 1) in Hpost by lia.
        eapply range_upd_step; eauto; [lia..|done].
      * intros p. rewrite Href, Hrefs, Hfp, <- (assoc_L (++)). case_decide; lia.
      * destruct Hend as [[-> ->]|(-> & Hlt & Hw)]; [left; lia|right]. split_and!; [done|lia|done].
  - eexists _, _, _, _. split; [done|]. rewrite list_insert_id by done. split_and!; try lia.
    + by rewrite Hfp, <- (assoc_L (++)).
    + apply range_upd_empty.
    + intros p. case_decide; lia.
    + right. split_and!; [done|lia|done].
Qed.

(** ** One level of the tree *)

Lemma div_range b j k :
  0 <= k -> (j / 2 ^ k =? b / 2 ^ k) = bool_decide (b / 2 ^ k * 2 ^ k <= j < b / 2 ^ k * 2 ^ k + 2 ^ k).
Proof.
  intros Hk. assert (0 < 2 ^ k) as Hp by lia.
  pose proof (Z.div_mod j (2 ^ k) ltac:(lia)). pose proof (Z.mod_pos_bound j (2 ^ k) Hp).
  destruct (Z.eqb_spec (j / 2 ^ k) (b / 2 ^ k)) as [E|E]; symmetry.
  - apply bool_decide_eq_true. rewrite <- E. lia.
  - apply bool_decide_eq_false. intros Hr. apply E. symmetry.
    apply Z.div_unique with (j - b / 2 ^ k * 2 ^ k); lia.
Qed.

Lemma head_path_next nd nd' i p :
  node_next nd' = node_next nd -> head_path nd' (i :: p) = head_path nd (i :: p).
Proof. intros E. cbn [head_path]. by rewrite E. Qed.

Lemma fps_unused tbl : forallb node_unused tbl = true -> flat_map fp tbl = [].
Proof.
  induction tbl as [|[h t] tbl IH]; cbn [forallb flat_map]; [done|].
  intros [Hu Hr]%andb_true_iff. rewrite (IH Hr). unfold node_unused in Hu. cbn in Hu.
  destruct t; [done|]. by destruct h.
Qed.

Lemma table_gc_spec w L0 cat l h a tbl :
  acct w L0 cat (fp (LpmNode h (Some (a, tbl))) ++ l) -> wf_node (LpmNode h (Some (a, tbl))) ->
  exists nd w', table_gc h a tbl w = Some (nd, w') /\ acct w' L0 cat (fp nd ++ l) /\
    wf_node nd /\ node_head nd = h /\
    (forall p, refs p (fp nd ++ l) = refs p (fp (LpmNode h (Some (a, tbl))) ++ l)) /\
    (forall p, head_path nd p = head_path (LpmNode h (Some (a, tbl))) p).
Proof.
  intros Ha Hwf. unfold table_gc. destruct (forallb node_unused tbl) eqn:E.
  - assert (forall p, refs p (fp (LpmNode h None) ++ l) =
                      refs p (fp (LpmNode h (Some (a, tbl))) ++ l)) as Hrefs.
    { intros p. cbn [fp]. rewrite (fps_unused tbl E), (right_id_L [] (++)), <- (assoc_L (++)).
      cbn [app]. by rewrite <- Permutation_middle, refs_cons. }
    cbn [fp] in Ha. rewrite (fps_unused tbl E) in Ha.
    rewrite <- (assoc_L (++)) in Ha. cbn [app] in Ha. rewrite <- Permutation_middle in Ha.
    destruct (acct_free_table _ _ _ _ _ Ha) as (w' & -> & Ha'). opt.
    eexists _, _. split; [done|]. split_and!; [|constructor|done|done|].
    + cbn [fp]. by rewrite (right_id_L [] (++)).
    + intros [|i p]; cbn; [done|]. destruct (tbl !! i) as [c|] eqn:Ec; [|done].
      rewrite forallb_forall in E. rewrite node_unused_heads; [done|].
      apply E. apply list_elem_of_In. by eapply list_elem_of_lookup_2.
  - by eexists _, _.
Qed.

(** The allocation of a missing [next_table]. *)
Definition ensure_table (parent : lpm_node) (w : W) : option (option (Z * list lpm_node) * W) :=
  match node_next parent with
  | Some t => Some (Some t, w)
  | None =>
      '(a, w0) ← w_alloc (sizeof_lpm_node * TABLE_SIZE_8) w;
      Some (match a with
            | Some addr => Some (addr, replicate (Z.to_nat TABLE_SIZE_8) lpm_init_node)
            | None => None
            end, w0)
  end.

Lemma flat_map_fp_init n : flat_map fp (replicate n lpm_init_node) = [].
Proof. induction n as [|n IH]; [done|]. exact IH. Qed.

Lemma ensure_table_spec w L0 cat l nd :
  acct w L0 cat (fp nd ++ l) -> wf_node nd ->
  exists t w0, ensure_table nd w = Some (t, w0) /\
    match t with
    | None => can_fail /\ acct w0 L0 cat (fp nd ++ l)
    | Some (a, tbl) =>
        let nd0 := LpmNode (node_head nd) (Some (a, tbl)) in
        wf_node nd0 /\ acct w0 L0 cat (fp nd0 ++ l) /\
        (forall p, head_path nd0 p = head_path nd p) /\
        (forall q, refs q (fp nd0 ++ l) = refs q (fp nd ++ l))
    end.
Proof.
  intros Ha Hwf. unfold ensure_table. destruct nd as [h [[a tbl]|]]; cbn [node_next node_head].
  { eexists _, _. split; [done|]. split_and!; try done. }
  destruct (acct_alloc _ _ _ _ (sizeof_lpm_node * TABLE_SIZE_8) Ha) as (res & w0 & E & Hres); [done|].
  rewrite E. opt. destruct res as [a|].
  - destruct Hres as [Hx Ha1]. eexists _, _. split; [done|]. cbn zeta.
    assert (fp (LpmNode h (Some (a, replicate (Z.to_nat TABLE_SIZE_8) lpm_init_node))) ++ l
            ≡ₚ ITab a :: fp (LpmNode h None) ++ l) as Hfp.
    { cbn [fp]. rewrite flat_map_fp_init, (right_id_L [] (++)), <- (assoc_L (++)). cbn [app].
      by rewrite Permutation_middle. }
    split_and!; [apply wf_new_table| | |].
    + rewrite Hfp. by apply acct_table.
    + intros [|i p]; cbn [head_path node_next node_head]; [done|].
      destruct (replicate _ _ !! i) as [c|] eqn:Ec; [|done].
      apply lookup_replicate in Ec as [-> _]. apply head_path_init.
    + intros q. rewrite Hfp, refs_cons. done.
  - eexists _, _. split; [done|]. split; [|done]. unfold can_fail. eauto.
Qed.

(** ** [_lpm_add] *)

(** What an insertion below a node comes to.  [S] gives the routes of the node at
    each path, [D] says whether the route is already there. *)
Definition add_post (r : route) (pos : nat) (rem : Z) (S : list nat -> list route) (D : bool)
    (L0 : gset Z) (cat : catalog) (l : list item) (nd : lpm_node)
    (res : option ((Z * W) * lpm_node)) : Prop :=
  exists ret w' nd', res = Some ((ret, w'), nd') /\ wf_node nd' /\ node_head nd' = node_head nd /\
    acct w' L0 cat (fp nd' ++ l) /\
    (forall p, refs p (fp nd' ++ l) <=
       refs p (fp nd ++ l) + if decide (p = rt_ptr r) then 256 else 0) /\
    ((ret = 0 /\ D = false /\
      forall p, ptrs (head_path nd' p) =
        rt_ptr <$> if hits (rt_pfx r) pos rem p then insert_route r (S p) else S p) \/
     (ret = -1 /\ D = true /\ forall p, head_path nd' p = head_path nd p) \/
     (ret = -1 /\ D = false /\ can_fail)).

(** The heads of a table below a node, from those of the node. *)
Lemma head_path_table h a tbl i c p :
  tbl !! i = Some c -> head_path (LpmNode h (Some (a, tbl))) (i :: p) = head_path c p.
Proof. intros Hi. cbn. by rewrite Hi. Qed.

(** The heads of a table after a completed loop. *)
Lemma range_heads (f : list route -> list route) P v pos rem S h a tbl tbl' lo hi :
  rem <= 8 -> hi <= Z.of_nat (length tbl) ->
  (forall p, ptrs (head_path (LpmNode h (Some (a, tbl))) p) = rt_ptr <$> S p) ->
  range_upd P lo hi tbl tbl' ->
  (forall j hd, P j hd -> ptrs hd = rt_ptr <$> f (S [j])) ->
  (forall j, hits v pos rem [j] = bool_decide (lo <= Z.of_nat j < hi)) ->
  forall p, ptrs (head_path (LpmNode h (Some (a, tbl'))) p) =
    rt_ptr <$> if hits v pos rem p then f (S p) else S p.
Proof.
  intros Hrem Hhi Hh [Hlen Hp] HP Hhit [|j p]; [exact (Hh [])|].
  destruct (tbl !! j) as [nd|] eqn:Hj.
  - destruct (Hp j nd Hj) as (nd' & Hj' & Hc).
    pose proof (Hh (j :: p)) as Hhj.
    rewrite (head_path_table _ _ _ _ _ _ Hj) in Hhj. rewrite (head_path_table _ _ _ _ _ _ Hj').
    destruct p as [|i p].
    + rewrite Hhit. case_decide as Hd.
      * rewrite bool_decide_eq_true_2 by done. apply HP, Hc.
      * rewrite bool_decide_eq_false_2 by done. by subst nd'.
    + replace (hits v pos rem (j :: i :: p)) with false.
      2: { cbn [hits]. by rewrite (proj2 (Z.ltb_ge 8 rem)) by lia. }
      rewrite <- Hhj. f_equal. case_decide; [apply head_path_next; tauto|by subst].
  - (* past the end of the table: nothing is there, before or after *)
    assert (tbl' !! j = None) as Hj'.
    { apply lookup_ge_None. rewrite Hlen. by apply lookup_ge_None. }
    pose proof (Hh (j :: p)) as Hhj. cbn [head_path node_next] in Hhj |- *.
    rewrite Hj in Hhj. rewrite Hj'.
    replace (hits v pos rem (j :: p)) with false; [done|].
    destruct p as [|i p]; [|cbn [hits]; by rewrite (proj2 (Z.ltb_ge 8 rem)) by lia].
    rewrite Hhit. symmetry. apply bool_decide_eq_false. apply lookup_ge_None in Hj. lia.
Qed.

(** The nodes that a prefix ending [rem] bits into a table of 256 covers. *)
Lemma last_level_range v pos rem :
  view_ok v -> 1 <= rem <= 8 ->
  let q := v pos / 2 ^ (8 - rem) in
  span 8 rem = 2 ^ (8 - rem) /\ span_base (v pos) (span 8 rem) = q * 2 ^ (8 - rem) /\
  0 <= q /\ 0 < 2 ^ (8 - rem) <= 128 /\ q * 2 ^ (8 - rem) + 2 ^ (8 - rem) <= 256 /\
  forall j, hits v pos rem [j] =
    bool_decide (q * 2 ^ (8 - rem) <= Z.of_nat j < q * 2 ^ (8 - rem) + 2 ^ (8 - rem)).
Proof.
  intros Hv Hrem q. pose proof (Hv pos) as Hb. unfold is_byte in Hb.
  assert (2 ^ (8 - rem) <= 2 ^ 7) as Hk7 by (apply Z.pow_le_mono_r; lia). change (2 ^ 7) with 128 in Hk7.
  assert (0 < 2 ^ (8 - rem)) as Hk0 by lia.
  rewrite span_pow, span_base_pow by lia. fold q.
  assert (0 <= q) as Hq by (apply Z.div_pos; lia).
  split_and!; try done.
  - replace 256 with (2 ^ rem * 2 ^ (8 - rem))
      by (rewrite <- Z.pow_add_r by lia; replace (rem + (8 - rem)) with 8 by lia; done).
    assert (q < 2 ^ rem); [|nia].
    apply Z.div_lt_upper_bound; [lia|]. rewrite <- Z.pow_add_r by lia.
    replace (8 - rem + rem) with 8 by lia. lia.
  - intros j. cbn [hits]. rewrite (proj2 (Z.ltb_ge 8 rem)) by lia. apply div_range. lia.
Qed.

(** The footprint of a table node with the table's contents first. *)
Lemma fp_table_perm h a tbl l :
  fp (LpmNode h (Some (a, tbl))) ++ l ≡ₚ flat_map fp tbl ++ (ITab a :: (cell_item <$> h) ++ l).
Proof.
  cbn [fp]. rewrite <- Permutation_middle. cbn [app].
  rewrite <- Permutation_middle. constructor. solve_Permutation.
Qed.

(** A prefix that ends in this table. *)
Lemma add_last_level r pos rem S D L0 cat l h a tbl w :
  view_ok (rt_pfx r) -> 1 <= rem <= 8 ->
  wf_node (LpmNode h (Some (a, tbl))) -> acct w L0 cat (fp (LpmNode h (Some (a, tbl))) ++ l) ->
  (forall p, ptrs (head_path (LpmNode h (Some (a, tbl))) p) = rt_ptr <$> S p) ->
  (forall p, cat_ok cat (r :: S p) /\ desc_len (S p)) ->
  refs (rt_ptr r) (fp (LpmNode h (Some (a, tbl))) ++ l) + 256 < 2 ^ 32 ->
  (forall p, hits (rt_pfx r) pos rem p = true -> dup r (S p) = D) ->
  exists ret i' tbl' w',
    add_range (Z.to_nat (span 8 rem)) 0 (span_base (rt_pfx r pos) (span 8 rem))
      (rt_id r) (rt_len r) (rt_ptr r) tbl w = Some (ret, i', tbl', w') /\
    wf_node (LpmNode h (Some (a, tbl'))) /\ acct w' L0 cat (fp (LpmNode h (Some (a, tbl'))) ++ l) /\
    (forall p, refs p (fp (LpmNode h (Some (a, tbl'))) ++ l) <=
       refs p (fp (LpmNode h (Some (a, tbl))) ++ l) + if decide (p = rt_ptr r) then 256 else 0) /\
    ((ret = 0 /\ D = false /\
      forall p, ptrs (head_path (LpmNode h (Some (a, tbl'))) p) =
        rt_ptr <$> if hits (rt_pfx r) pos rem p then insert_route r (S p) else S p) \/
     (ret = -1 /\ D = true /\ tbl' = tbl) \/
     (ret = -1 /\ D = false /\ can_fail)).
Proof.
  intros Hv Hrem Hwf Ha Hh Hrs Hrc HD.
  destruct (last_level_range (rt_pfx r) pos rem Hv Hrem) as (-> & -> & Hq & Hk & Hend & Hhit).
  set (k := 8 - rem) in *. set (q := rt_pfx r pos / 2 ^ k) in *.
  assert (length tbl = 256%nat) as Hlen by (by inversion Hwf).
  pose proof (fp_table_perm h a tbl l) as Hfp.
  destruct (add_range_spec (Z.to_nat (2 ^ k)) 0 (q * 2 ^ k) q k L0 cat
              (ITab a :: (cell_item <$> h) ++ l) (fun j => S [j]) r tbl w)
    as (ret & i' & tbl' & w' & Hrun & Hi' & Ha' & Hpost & Href & Hend'); try done; try lia.
  { by rewrite <- Hfp. }
  { intros j nd _ Hj. rewrite <- Hh. by rewrite (head_path_table _ _ _ _ _ _ Hj). }
  { rewrite <- Hfp. lia. }
  exists ret, i', tbl', w'. split; [done|]. split; [by eapply range_upd_wf|].
  split. { rewrite fp_table_perm. exact Ha'. }
  split. { intros p. rewrite !fp_table_perm, Href. case_decide; lia. }
  destruct Hend' as [[-> Ei]|(-> & Hlt & Hwhy)].
  - left. split; [done|]. rewrite Z2Nat.id in Ei by lia.
    replace (q * 2 ^ k + 0) with (q * 2 ^ k) in Hpost by lia.
    assert (forall j nd, tbl !! j = Some nd -> hits (rt_pfx r) pos rem [j] = true -> D = false) as HDf.
    { intros j nd Hj Hj'. rewrite <- (HD [j] Hj'). destruct Hpost as [_ Hp].
      destruct (Hp j nd Hj) as (nd' & _ & Hc). rewrite Hhit, bool_decide_eq_true in Hj'.
      rewrite decide_True in Hc by lia. apply Hc. }
    split.
    { destruct (lookup_lt_is_Some_2 tbl (Z.to_nat (q * 2 ^ k))) as [nd Hnd]; [lia|].
      apply (HDf _ _ Hnd). rewrite Hhit, bool_decide_eq_true. lia. }
    apply (range_heads (insert_route r) (ins_head r (fun j => S [j])) (rt_pfx r) pos rem S h a
             tbl tbl' (q * 2 ^ k) (q * 2 ^ k + i')); try done; try lia; [by intros j hd []|].
    intros j. rewrite Hhit. apply bool_decide_ext. lia.
  - assert (forall i, 0 <= i < 2 ^ k -> dup r (S [Z.to_nat (q * 2 ^ k + i)]) = D) as HDi.
    { intros i Hi. apply HD. rewrite Hhit, bool_decide_eq_true. lia. }
    rewrite HDi in Hwhy by lia. right. destruct D.
    + left. split_and!; [done|done|]. destruct (decide (i' = 0)) as [->|Hne].
      { by apply range_upd_nil in Hpost. }
      exfalso. destruct Hpost as [_ Hp].
      destruct (lookup_lt_is_Some_2 tbl (Z.to_nat (q * 2 ^ k + 0))) as [nd Hnd]; [lia|].
      destruct (Hp _ nd Hnd) as (nd' & _ & Hc). rewrite decide_True in Hc by lia.
      destruct Hc as (_ & Hc & _). rewrite HDi in Hc by lia. done.
    + right. naive_solver.
Qed.

Lemma lpm_add_unfold fuel v len id ptr w parent offset :
  _lpm_add (S fuel) v len id ptr w parent offset =
  ('(t, w0) ← ensure_table parent w;
   match t with
   | None => Some ((-1, w0), parent)
   | Some (addr, tbl) =>
     let index := lpm_index v offset 8 in
     '(ret, tbl2, w2) ←
       (if 8 <? u32 (len - offset) then
          '((ret, w1), tbl1) ←
            upd_nth (fun node => _lpm_add fuel v len id ptr w0 node (offset + 8)) tbl (Z.to_nat index);
          Some (ret, tbl1, w1)
        else
          '(ret, _, tbl1, w1) ←
            add_range (Z.to_nat (span 8 (u32 (len - offset)))) 0
              (span_base index (span 8 (u32 (len - offset)))) id len ptr tbl w0;
          if ret <? 0 then Some (-1, tbl1, w1) else Some (0, tbl1, w1));
     if ret <? 0 then
       '(nd, w3) ← table_gc (node_head parent) addr tbl2 w2;
       Some ((-1, w3), nd)
     else Some ((0, w2), LpmNode (node_head parent) (Some (addr, tbl2)))
   end).
Proof. reflexivity. Qed.

(** The clean-up after a failure below. *)
Lemma add_gc_post r pos rem S D L0 cat l nd h a tbl tbl' w :
  node_head nd = h -> (forall p, head_path (LpmNode h (Some (a, tbl))) p = head_path nd p) ->
  wf_node (LpmNode h (Some (a, tbl'))) -> acct w L0 cat (fp (LpmNode h (Some (a, tbl'))) ++ l) ->
  (forall p, refs p (fp (LpmNode h (Some (a, tbl'))) ++ l) <=
     refs p (fp nd ++ l) + if decide (p = rt_ptr r) then 256 else 0) ->
  (D = true /\ (forall p, head_path (LpmNode h (Some (a, tbl'))) p
                        = head_path (LpmNode h (Some (a, tbl))) p)) \/ (D = false /\ can_fail) ->
  add_post r pos rem S D L0 cat l nd
    ('(nd, w3) ← table_gc h a tbl' w; Some ((-1, w3), nd)).
Proof.
  intros Hh Hsame Hwf Ha Hle Hwhy.
  destruct (table_gc_spec w L0 cat l h a tbl' Ha Hwf) as (nd' & w' & -> & Ha' & Hwf' & Hhd & Hr & Hp).
  opt. eexists _, _, _. split; [done|]. split_and!; [done|congruence|done|by intros p; rewrite Hr|]. right.
  destruct Hwhy as [[-> Heq]|[-> Hf]]; [left|by right]. split_and!; [done|done|].
  intros p. by rewrite Hp, Heq.
Qed.

(** One step down the tree: the footprint and the heads seen from the child. *)
Lemma fp_child h a tbl l i c :
  tbl !! i = Some c ->
  exists l', fp (LpmNode h (Some (a, tbl))) ++ l ≡ₚ fp c ++ l' /\
    forall c', fp (LpmNode h (Some (a, <[i := c']> tbl))) ++ l ≡ₚ fp c' ++ l'.
Proof.
  intros Hc. destruct (fps_split tbl i c Hc) as (rest & Hfp & Hfp').
  exists (rest ++ ITab a :: (cell_item <$> h) ++ l).
  split; [|intros c']; rewrite fp_table_perm, ?Hfp, ?Hfp'; by rewrite <- (assoc_L (++)).
Qed.

Lemma hits_child v pos rem p :
  view_ok v -> 8 < rem ->
  hits v pos rem (Z.to_nat (v pos) :: p) = hits v (S pos) (rem - 8) p.
Proof.
  intros Hv Hgt. pose proof (Hv pos) as Hb. unfold is_byte in Hb. cbn [hits].
  by rewrite (proj2 (Z.ltb_lt 8 rem)), Z2Nat.id, Z.eqb_refl by lia.
Qed.

Lemma descend_heads (f : list route -> list route) v pos rem S h a tbl c' :
  view_ok v -> 8 < rem -> length tbl = 256%nat ->
  (forall p, ptrs (head_path (LpmNode h (Some (a, tbl))) p) = rt_ptr <$> S p) ->
  (forall p, ptrs (head_path c' p) =
     rt_ptr <$> if hits v (Datatypes.S pos) (rem - 8) p
                then f (S (Z.to_nat (v pos) :: p)) else S (Z.to_nat (v pos) :: p)) ->
  forall p, ptrs (head_path (LpmNode h (Some (a, <[Z.to_nat (v pos) := c']> tbl))) p) =
    rt_ptr <$> if hits v pos rem p then f (S p) else S p.
Proof.
  intros Hv Hgt Hlen Hh Hc [|j p]; [exact (Hh [])|]. pose proof (Hv pos) as Hb. unfold is_byte in Hb.
  destruct (decide (j = Z.to_nat (v pos))) as [->|Hne].
  - rewrite hits_child by done. rewrite (head_path_table _ _ _ _ c'); [apply Hc|].
    apply list_lookup_insert_eq. lia.
  - replace (hits v pos rem (j :: p)) with false.
    2: { cbn [hits]. rewrite (proj2 (Z.ltb_lt 8 rem)) by done.
         by rewrite (proj2 (Z.eqb_neq (Z.of_nat j) _)) by lia. }
    rewrite <- Hh. cbn [head_path node_next]. by rewrite list_lookup_insert_ne.
Qed.

Lemma descend_same h a tbl i c c' :
  tbl !! i = Some c -> (forall p, head_path c' p = head_path c p) ->
  forall p, head_path (LpmNode h (Some (a, <[i := c']> tbl))) p = head_path (LpmNode h (Some (a, tbl))) p.
Proof.
  intros Hc Heq [|j p]; [done|]. destruct (decide (j = i)) as [->|Hne].
  - rewrite (head_path_table _ _ _ _ c'), (head_path_table _ _ _ _ c); [apply Heq|done|].
    apply list_lookup_insert_eq. by eapply lookup_lt_Some.
  - cbn [head_path node_next]. by rewrite list_lookup_insert_ne.
Qed.

Lemma add_spec fuel r pos S D L0 cat l nd w :
  view_ok (rt_pfx r) -> rt_len r < 2 ^ 32 ->
  0 < rt_len r - 8 * Z.of_nat pos <= 8 * Z.of_nat fuel ->
  wf_node nd -> acct w L0 cat (fp nd ++ l) ->
  (forall p, ptrs (head_path nd p) = rt_ptr <$> S p) ->
  (forall p, cat_ok cat (r :: S p) /\ desc_len (S p)) ->
  refs (rt_ptr r) (fp nd ++ l) + 256 < 2 ^ 32 ->
  (forall p, hits (rt_pfx r) pos (rt_len r - 8 * Z.of_nat pos) p = true -> dup r (S p) = D) ->
  add_post r pos (rt_len r - 8 * Z.of_nat pos) S D L0 cat l nd
    (_lpm_add fuel (rt_pfx r) (rt_len r) (rt_id r) (rt_ptr r) w nd (8 * Z.of_nat pos)).
Proof.
  intros Hv Hlen. revert pos S l nd w.
  induction fuel as [|fuel IH]; intros pos S l nd w Hrem Hwf Ha Hh Hrs Hrc HD; [lia|].
  rewrite lpm_add_unfold.
  destruct (ensure_table_spec w L0 cat l nd Ha Hwf) as (t & w0 & -> & Ht). opt.
  destruct t as [[a tbl]|].
  2: { destruct Ht as [Hf Ha0]. eexists _, _, _. split; [done|]. split_and!; try done.
       { intros p. case_decide; lia. } right. destruct D; [left|right]; done. }
  destruct Ht as (Hwf0 & Ha0 & Hsame & Hrefs). cbn zeta.
  rewrite lpm_index_byte by done. unfold u32. rewrite Z.mod_small by lia.
  set (rem := rt_len r - 8 * Z.of_nat pos) in *.
  assert (forall p, ptrs (head_path (LpmNode (node_head nd) (Some (a, tbl))) p) = rt_ptr <$> S p) as Hh0
    by (intros p; by rewrite Hsame).
  destruct (Z.ltb_spec 8 rem) as [Hgt|Hle].
  - pose proof (Hv pos) as Hb. unfold is_byte in Hb. set (i := Z.to_nat (rt_pfx r pos)).
    assert (length tbl = 256%nat) as Hlt by (by inversion Hwf0).
    destruct (lookup_lt_is_Some_2 tbl i) as [c Hc]; [lia|].
    destruct (fp_child (node_head nd) a tbl l i c Hc) as (l' & Hl & Hl').
    assert (rem - 8 = rt_len r - 8 * Z.of_nat (Datatypes.S pos)) as Hrem' by (unfold rem; lia).
    replace (8 * Z.of_nat pos + 8) with (8 * Z.of_nat (Datatypes.S pos)) by lia.
    destruct (IH (Datatypes.S pos) (fun p => S (i :: p)) l' c w0)
      as (ret & w1 & c' & Hrun & Hwfc & Hhd & Hac & Hle & Hcase); [lia| | | |done| | |].
    + inversion Hwf0; eauto.
    + by rewrite <- Hl.
    + intros p. rewrite <- Hh0. by rewrite (head_path_table _ _ _ _ _ _ Hc).
    + by rewrite <- Hl, Hrefs.
    + intros p Hp. apply HD. unfold i. rewrite hits_child, Hrem' by done. done.
    + rewrite (upd_nth_some _ _ _ c _ c' Hc Hrun). opt. rewrite <- Hrem' in Hcase.
      pose proof (wf_insert _ _ _ i c' Hwf0 Hwfc) as Hwf1. rewrite <- Hl' in Hac.
      assert (forall p, refs p (fp (LpmNode (node_head nd) (Some (a, <[i:=c']> tbl))) ++ l) <=
                refs p (fp nd ++ l) + if decide (p = rt_ptr r) then 256 else 0) as Hle'.
      { intros p. rewrite Hl', <- Hrefs, Hl. apply Hle. }
      destruct Hcase as [(-> & -> & Hp)|Hbad].
      * cbn [Z.ltb Z.compare]. eexists _, _, _. split; [done|]. split_and!; [done|done|done|done|].
        left. split_and!; [done|done|]. by apply (descend_heads (insert_route r)).
      * assert (ret = -1) as -> by naive_solver. cbn [Z.ltb Z.compare].
        eapply (add_gc_post _ _ _ _ _ _ _ _ nd _ a tbl); try done.
        destruct Hbad as [(_ & -> & Hp)|(_ & -> & Hf)]; [left|by right]. split; [done|].
        by apply (descend_same _ _ _ _ c).
  - destruct (add_last_level r pos rem S D L0 cat l (node_head nd) a tbl w0)
      as (ret & i' & tbl' & w' & Hrun & Hwf' & Ha' & Hle' & Hcase); try done; [lia|by rewrite Hrefs|].
    setoid_rewrite Hrefs in Hle'. rewrite Hrun. opt. destruct Hcase as [(-> & -> & Hp)|Hbad].
    + cbn [Z.ltb Z.compare]. opt. eexists _, _, _. split; [done|]. split_and!; [done|done|done|done|]. left. done.
    + assert (ret = -1) as -> by naive_solver. cbn [Z.ltb Z.compare]. opt. cbn [Z.ltb Z.compare].
      eapply (add_gc_post _ _ _ _ _ _ _ _ nd _ a tbl); try done.
      destruct Hbad as [(_ & -> & ->)|(_ & -> & Hf)]; [left; done|by right].
Qed.

End Add.
