(* ===== verification/LpmDel.v ===== *)
(** * The longest-prefix-match table: deletion *)

From stdpp Require Import prelude fin_maps gmap list.
From S2P Require Import Prelude Alloc Lpm LpmFacts LpmAcct LpmAdd.

(** The route objects that some cell of [l] refers to. *)
Definition live (cat : catalog) (l : list item) : catalog :=
  filter (fun pc => 0 < refs pc.1 l) cat.

#[export] Instance live_perm cat : Proper ((≡ₚ) ==> eq) (live cat).
Proof.
  intros l l' E. unfold live. apply map_filter_ext. intros p c _. cbn. by rewrite (refs_perm p l l' E).
Qed.

Lemma live_lookup cat l a p : IEnt a p ∈ l -> live cat l !! p = cat !! p.
Proof.
  intros Hin%refs_pos. unfold live. rewrite map_lookup_filter.
  destruct (cat !! p); [|done]. cbn. by rewrite option_guard_True.
Qed.

Lemma live_put cat l x p : drop_ref p l (live cat (IEnt x p :: l)) = live cat l.
Proof.
  apply map_eq. intros q. unfold drop_ref, live. pose proof (refs_nonneg p l).
  destruct (Z.eqb_spec (refs p l) 0) as [E|E].
  - destruct (decide (p = q)) as [<-|Hne].
    + rewrite lookup_delete_eq. symmetry. apply map_lookup_filter_None. right.
      intros c _. cbn. lia.
    + rewrite lookup_delete_ne, !map_lookup_filter by done. destruct (cat !! q); [|done]. cbn.
      rewrite refs_cons. cbn. by rewrite decide_False.
  - rewrite !map_lookup_filter. destruct (cat !! q); [|done]. cbn. rewrite refs_cons. cbn.
    case_decide as Hq; [subst q|done]. rewrite !option_guard_True by lia. done.
Qed.

(** [lpm_entry_delete] on a head of routes. *)
Fixpoint remove_route (id len : Z) (rs : list route) : list route :=
  match rs with
  | [] => []
  | r :: rs => if same_route id len r then rs else r :: remove_route id len rs
  end.

Lemma fp_set_head h nd :
  fp (set_head h nd) = (cell_item <$> h) ++
    match node_next nd with None => [] | Some (a, tbl) => ITab a :: flat_map fp tbl end.
Proof. done. Qed.

Section Del.

Context {W : Type} `{LpmSpec W}.

Lemma entry_delete_spec w L0 cat l hd rs id len :
  acct w L0 (live cat ((cell_item <$> hd) ++ l)) ((cell_item <$> hd) ++ l) ->
  ptrs hd = rt_ptr <$> rs -> cat_ok cat rs ->
  (forall p, refs p ((cell_item <$> hd) ++ l) < 2 ^ 32) ->
  exists ret hd' w', lpm_entry_delete hd id len w = Some (ret, hd', w') /\
    acct w' L0 (live cat ((cell_item <$> hd') ++ l)) ((cell_item <$> hd') ++ l) /\
    (forall p, refs p ((cell_item <$> hd') ++ l) <= refs p ((cell_item <$> hd) ++ l)) /\
    if existsb (same_route id len) rs
    then ret = 0 /\ ptrs hd' = rt_ptr <$> remove_route id len rs
    else ret = -1 /\ hd' = hd.
Proof.
  revert l hd. induction rs as [|r rs IH]; intros l [|e hd] Ha Hp Hc Hrc; try done.
  { exists (-1), [], w. by split_and!. }
  unfold ptrs in Hp. cbn in Hp. injection Hp as He Hp. apply cat_ok_cons in Hc as [Hcr Hc].
  cbn [lpm_entry_delete existsb remove_route]. rewrite fmap_cons in Ha, Hrc. cbn [app] in Ha, Hrc.
  assert (live cat (cell_item e :: (cell_item <$> hd) ++ l) !! le_ptr e = Some (rt_id r, rt_len r)) as Hl.
  { rewrite (live_lookup _ _ (le_addr e)) by (by left). by rewrite He. }
  rewrite (acct_identify _ _ _ _ _ _ id len Ha Hl). opt. cbn [fst snd]. fold (same_route id len r).
  destruct (same_route id len r) eqn:Es; cbn [orb Z.eqb].
  - destruct (acct_put _ _ _ _ _ _ Ha (Hrc _)) as (w1 & w2 & -> & Hfree & Ha2). opt.
    rewrite Hfree. opt. change (cell_item e) with (IEnt (le_addr e) (le_ptr e)) in Ha2.
    rewrite live_put in Ha2. eexists _, _, _. split; [done|]. split_and!; [done| |done|done].
    intros p. rewrite fmap_cons. cbn [app]. rewrite refs_cons. case_decide; lia.
  - destruct (IH (cell_item e :: l) hd) as (ret & hd' & w' & -> & Ha' & Hle & Hcase).
    { by rewrite <- Permutation_middle. }
    { done. } { done. } { intros p. rewrite <- Permutation_middle. apply Hrc. }
    opt. eexists _, _, _. split; [done|]. rewrite fmap_cons. cbn [app].
    rewrite <- Permutation_middle in Ha'. split; [done|]. split.
    { intros p. pose proof (Hle p) as Hlp. rewrite <- !Permutation_middle in Hlp. done. }
    destruct (existsb (same_route id len) rs).
    + destruct Hcase as [-> Hp']. split; [done|]. unfold ptrs in *. cbn. by rewrite He, Hp'.
    + destruct Hcase as [-> ->]. done.
Qed.

Lemma del_cell_spec w L0 cat l nd rs id len :
  acct w L0 (live cat (fp nd ++ l)) (fp nd ++ l) ->
  ptrs (node_head nd) = rt_ptr <$> rs -> cat_ok cat rs ->
  (forall p, refs p (fp nd ++ l) < 2 ^ 32) ->
  exists ret w' nd', del_cell id len w nd = Some ((ret, w'), nd') /\
    acct w' L0 (live cat (fp nd' ++ l)) (fp nd' ++ l) /\
    (forall p, refs p (fp nd' ++ l) <= refs p (fp nd ++ l)) /\ node_next nd' = node_next nd /\
    if existsb (same_route id len) rs
    then ret = 0 /\ ptrs (node_head nd') = rt_ptr <$> remove_route id len rs
    else ret = -1 /\ nd' = nd.
Proof.
  intros Ha Hp Hc Hrc. rewrite fp_node, <- (assoc_L (++)) in Ha, Hrc.
  destruct (entry_delete_spec w L0 cat _ _ rs id len Ha Hp Hc Hrc)
    as (ret & hd' & w' & Hrun & Ha' & Hle & Hcase).
  unfold del_cell. rewrite Hrun. opt. eexists _, _, _. split; [done|].
  rewrite fp_set_head, (fp_node nd), <- !(assoc_L (++)). split_and!; [done|done|done|].
  destruct (existsb _ rs); destruct Hcase as [-> Hh]; [done|]. split; [done|]. rewrite Hh.
  by destruct nd.
Qed.

(** ** The deletion loops *)

Definition del_head (id len : Z) (rss : nat -> list route) (j : nat) (h : list lpm_entry) : Prop :=
  existsb (same_route id len) (rss j) = true /\ ptrs h = rt_ptr <$> remove_route id len (rss j).

Lemma del_range_spec n i base q k L0 cat l rss id len tbl w :
  base = q * 2 ^ k -> 0 <= q -> 0 <= k -> 0 <= i -> i + Z.of_nat n <= 2 ^ k ->
  base + 2 ^ k <= Z.of_nat (length tbl) ->
  acct w L0 (live cat (flat_map fp tbl ++ l)) (flat_map fp tbl ++ l) ->
  (forall j nd, base + i <= Z.of_nat j < base + 2 ^ k -> tbl !! j = Some nd ->
     ptrs (node_head nd) = rt_ptr <$> rss j) ->
  (forall j, cat_ok cat (rss j)) ->
  (forall p, refs p (flat_map fp tbl ++ l) < 2 ^ 32) ->
  exists ret i' tbl' w',
    del_range n i base id len tbl w = Some (ret, tbl', w') /\
    i <= i' <= i + Z.of_nat n /\
    acct w' L0 (live cat (flat_map fp tbl' ++ l)) (flat_map fp tbl' ++ l) /\
    (forall p, refs p (flat_map fp tbl' ++ l) <= refs p (flat_map fp tbl ++ l)) /\
    range_upd (del_head id len rss) (base + i) (base + i') tbl tbl' /\
    ((ret = 0 /\ i' = i + Z.of_nat n) \/
     (ret = -1 /\ i' < i + Z.of_nat n /\
      existsb (same_route id len) (rss (Z.to_nat (base + i'))) = false)).
Proof.
  intros Hb Hq Hk. revert i tbl w.
  induction n as [|n IH]; intros i tbl w Hi Hn Hlen Ha Hh Hrs Hrc.
  { exists 0, i, tbl, w. split; [done|]. split_and!;
      first [done|lia|apply range_upd_empty|left; lia]. }
  cbn [del_range]. assert (Z.lor base i = base + i) as -> by (subst base; apply lor_low; lia).
  assert (0 <= base) by (subst base; lia).
  destruct (lookup_lt_is_Some_2 tbl (Z.to_nat (base + i))) as [nd Hnd]; [lia|].
  destruct (fps_split tbl _ nd Hnd) as (rest & Hfp & Hfp').
  rewrite Hfp, <- (assoc_L (++)) in Ha.
  destruct (del_cell_spec w L0 cat (rest ++ l) nd (rss (Z.to_nat (base + i))) id len Ha)
    as (ret & w1 & nd' & Hrun & Ha1 & Hle & Hnx & Hcase); [apply Hh; [lia|done]|done| |].
  { intros p. specialize (Hrc p). by rewrite Hfp, <- (assoc_L (++)) in Hrc. }
  rewrite (upd_nth_some _ _ _ nd _ nd' Hnd Hrun). opt.
  assert (forall p, refs p (flat_map fp (<[Z.to_nat (base + i) := nd']> tbl) ++ l)
                    <= refs p (flat_map fp tbl ++ l)) as Hle'.
  { intros p. rewrite Hfp', Hfp, <- !(assoc_L (++)). apply Hle. }
  destruct (existsb _ (rss (Z.to_nat (base + i)))) eqn:Ex; destruct Hcase as [-> Hcase];
    cbn [Z.ltb Z.compare].
  - destruct (IH (i + 1) (<[Z.to_nat (base + i) := nd']> tbl) w1)
      as (ret & i' & tbl' & w' & Hr & Hi' & Ha' & Hle2 & Hpost & Hend); try lia.
    + by rewrite length_insert.
    + by rewrite Hfp', <- (assoc_L (++)).
    + intros j x Hj. rewrite list_lookup_insert_ne by lia. apply Hh. lia.
    + done.
    + intros p. specialize (Hle' p). specialize (Hrc p). lia.
    + exists ret, i', tbl', w'. split; [done|]. split_and!; try done; try lia.
      * intros p. specialize (Hle2 p). specialize (Hle' p). lia.
      * replace (base + (i + 1)) with (base + i + 1) in Hpost by lia.
        eapply range_upd_step; eauto; [lia..|done].
      * destruct Hend as [[-> ->]|(-> & Hlt & Hw)]; [left; lia|right]. split_and!; [done|lia|done].
  - exists (-1), i, (<[Z.to_nat (base + i) := nd']> tbl), w1. subst nd'.
    rewrite list_insert_id by done. split; [done|]. split_and!; try lia.
    + by rewrite Hfp, <- (assoc_L (++)).
    + apply range_upd_empty.
    + right. split_and!; [done|lia|done].
Qed.

(** ** [_lpm_delete] *)

(** The node a prefix ends in. *)
Lemma hits_exists v pos rem : view_ok v -> 0 < rem -> exists p, hits v pos rem p = true.
Proof.
  intros Hv Hrem. remember (Z.to_nat rem) as n eqn:En. revert pos rem Hrem En.
  induction (lt_wf n) as [n _ IH]. intros pos rem Hrem ->.
  pose proof (Hv pos) as Hb. unfold is_byte in Hb.
  destruct (Z.ltb_spec 8 rem) as [Hgt|Hle].
  - destruct (IH (Z.to_nat (rem - 8)) ltac:(lia) (S pos) (rem - 8)) as [p Hp]; [lia|done|].
    exists (Z.to_nat (v pos) :: p). cbn [hits].
    by rewrite (proj2 (Z.ltb_lt 8 rem)), Z2Nat.id, Z.eqb_refl by lia.
  - exists [Z.to_nat (v pos)]. cbn [hits].
    by rewrite (proj2 (Z.ltb_ge 8 rem)), Z2Nat.id, Z.eqb_refl by lia.
Qed.

Definition del_post (id len : Z) (v : view) (pos : nat) (rem : Z) (S : list nat -> list route)
    (D : bool) (L0 : gset Z) (cat : catalog) (l : list item) (nd : lpm_node)
    (res : option ((Z * W) * lpm_node)) : Prop :=
  exists ret w' nd', res = Some ((ret, w'), nd') /\ wf_node nd' /\ node_head nd' = node_head nd /\
    acct w' L0 (live cat (fp nd' ++ l)) (fp nd' ++ l) /\
    (forall p, refs p (fp nd' ++ l) <= refs p (fp nd ++ l)) /\
    if D then ret = 0 /\
      forall p, ptrs (head_path nd' p) =
        rt_ptr <$> if hits v pos rem p then remove_route id len (S p) else S p
    else ret = -1 /\ nd' = nd.

(** A prefix that ends in this table. *)
Lemma del_last_level id len v pos rem S D L0 cat l h a tbl w :
  view_ok v -> 1 <= rem <= 8 ->
  wf_node (LpmNode h (Some (a, tbl))) ->
  acct w L0 (live cat (fp (LpmNode h (Some (a, tbl))) ++ l)) (fp (LpmNode h (Some (a, tbl))) ++ l) ->
  (forall p, ptrs (head_path (LpmNode h (Some (a, tbl))) p) = rt_ptr <$> S p) ->
  (forall p, cat_ok cat (S p)) ->
  (forall p, refs p (fp (LpmNode h (Some (a, tbl))) ++ l) < 2 ^ 32) ->
  (forall p, hits v pos rem p = true -> existsb (same_route id len) (S p) = D) ->
  exists ret tbl' w',
    del_range (Z.to_nat (span 8 rem)) 0 (span_base (v pos) (span 8 rem)) id len tbl w
      = Some (ret, tbl', w') /\
    wf_node (LpmNode h (Some (a, tbl'))) /\
    acct w' L0 (live cat (fp (LpmNode h (Some (a, tbl'))) ++ l)) (fp (LpmNode h (Some (a, tbl'))) ++ l) /\
    (forall p, refs p (fp (LpmNode h (Some (a, tbl'))) ++ l)
               <= refs p (fp (LpmNode h (Some (a, tbl))) ++ l)) /\
    if D then ret = 0 /\
      forall p, ptrs (head_path (LpmNode h (Some (a, tbl'))) p) =
        rt_ptr <$> if hits v pos rem p then remove_route id len (S p) else S p
    else ret = -1 /\ tbl' = tbl.
Proof.
  intros Hv Hrem Hwf Ha Hh Hrs Hrc HD.
  destruct (last_level_range v pos rem Hv Hrem) as (-> & -> & Hq & Hk & Hend & Hhit).
  set (k := 8 - rem) in *. set (q := v pos / 2 ^ k) in *.
  assert (length tbl = 256%nat) as Hlen by (by inversion Hwf).
  pose proof (fp_table_perm h a tbl l) as Hfp.
  destruct (del_range_spec (Z.to_nat (2 ^ k)) 0 (q * 2 ^ k) q k L0 cat
              (ITab a :: (cell_item <$> h) ++ l) (fun j => S [j]) id len tbl w)
    as (ret & i' & tbl' & w' & Hrun & Hi' & Ha' & Hle & Hpost & Hend'); try done; try lia.
  { by rewrite <- Hfp. }
  { intros j nd _ Hj. rewrite <- Hh. by rewrite (head_path_table _ _ _ _ _ _ Hj). }
  { intros p. rewrite <- Hfp. apply Hrc. }
  exists ret, tbl', w'. split; [done|]. split; [by eapply range_upd_wf|].
  split. { rewrite fp_table_perm. exact Ha'. }
  split. { intros p. rewrite !fp_table_perm. apply Hle. }
  assert (forall i, 0 <= i < 2 ^ k -> existsb (same_route id len) (S [Z.to_nat (q * 2 ^ k + i)]) = D) as HDi.
  { intros i Hi. apply HD. rewrite Hhit, bool_decide_eq_true. lia. }
  assert (0 < i' -> D = true) as Hpos.
  { intros Hi0. destruct Hpost as [_ Hp].
    destruct (lookup_lt_is_Some_2 tbl (Z.to_nat (q * 2 ^ k + 0))) as [nd Hnd]; [lia|].
    destruct (Hp _ nd Hnd) as (nd' & _ & Hc). rewrite decide_True in Hc by lia.
    destruct Hc as (_ & Hc & _). rewrite HDi in Hc by lia. done. }
  destruct Hend' as [[-> Ei]|(-> & Hlt & Hwhy)].
  - rewrite Hpos by lia. split; [done|]. rewrite Z2Nat.id in Ei by lia.
    apply (range_heads (remove_route id len) (del_head id len (fun j => S [j])) v pos rem S h a
             tbl tbl' (q * 2 ^ k + 0) (q * 2 ^ k + i')); try done; try lia; [by intros j hd []|].
    intros j. rewrite Hhit. apply bool_decide_ext. lia.
  - rewrite HDi in Hwhy by lia. rewrite Hwhy in *. split; [done|].
    assert (i' = 0) as -> by (destruct (decide (i' = 0)); [done|exfalso; by discriminate Hpos; lia]).
    by apply range_upd_nil in Hpost.
Qed.

Lemma lpm_delete_unfold v len id hd addr tbl offset (w : W) :
  _lpm_delete v len id (LpmNode hd (Some (addr, tbl))) offset w =
  ('(ret, tbl1, w1) ←
     (if 8 <? u32 (len - offset) then
        '((ret, w1), tbl1) ←
          upd_nth (fun node => _lpm_delete v len id node (offset + 8) w) tbl
                  (Z.to_nat (lpm_index v offset 8));
        Some (ret, tbl1, w1)
      else
        del_range (Z.to_nat (span 8 (u32 (len - offset)))) 0
          (span_base (lpm_index v offset 8) (span 8 (u32 (len - offset)))) id len tbl w);
   if ret <? 0 then Some ((-1, w1), LpmNode hd (Some (addr, tbl1)))
   else '(nd, w2) ← table_gc hd addr tbl1 w1; Some ((0, w2), nd)).
Proof. reflexivity. Qed.

Lemma table_gc_live w L0 cat l h a tbl :
  acct w L0 (live cat (fp (LpmNode h (Some (a, tbl))) ++ l)) (fp (LpmNode h (Some (a, tbl))) ++ l) ->
  wf_node (LpmNode h (Some (a, tbl))) ->
  exists nd w', table_gc h a tbl w = Some (nd, w') /\ acct w' L0 (live cat (fp nd ++ l)) (fp nd ++ l) /\
    wf_node nd /\ node_head nd = h /\
    (forall p, refs p (fp nd ++ l) = refs p (fp (LpmNode h (Some (a, tbl))) ++ l)) /\
    (forall p, head_path nd p = head_path (LpmNode h (Some (a, tbl))) p).
Proof.
  intros Ha Hwf. destruct (table_gc_spec w L0 _ l h a tbl Ha Hwf) as (nd & w' & Hrun & Ha' & ? & ? & Hrefs & ?).
  exists nd, w'. split_and!; try done. replace (live cat (fp nd ++ l)) with
    (live cat (fp (LpmNode h (Some (a, tbl))) ++ l)); [done|].
  unfold live. apply map_filter_ext. intros p c _. cbn [fst]. by rewrite Hrefs.
Qed.

Lemma delete_spec id len v pos S D L0 cat l nd w :
  view_ok v -> len < 2 ^ 32 -> 0 < len - 8 * Z.of_nat pos ->
  wf_node nd -> acct w L0 (live cat (fp nd ++ l)) (fp nd ++ l) ->
  (forall p, ptrs (head_path nd p) = rt_ptr <$> S p) ->
  (forall p, cat_ok cat (S p)) -> (forall p, refs p (fp nd ++ l) < 2 ^ 32) ->
  (forall p, hits v pos (len - 8 * Z.of_nat pos) p = true -> existsb (same_route id len) (S p) = D) ->
  del_post id len v pos (len - 8 * Z.of_nat pos) S D L0 cat l nd
    (_lpm_delete v len id nd (8 * Z.of_nat pos) w).
Proof.
  intros Hv Hlen Hrem Hwf. revert pos S l w Hrem.
  induction Hwf as [h|h a tbl Hlt Hwfc IH]; intros pos S l w Hrem Ha Hh Hrs Hrc HD.
  { exists (-1), w, (LpmNode h None). split; [done|]. split_and!; [constructor|done|done|done|].
    destruct (hits_exists v pos _ Hv Hrem) as [p Hp]. rewrite <- (HD p Hp).
    destruct p as [|i p]; [done|]. specialize (Hh (i :: p)). cbn in Hh.
    by destruct (S (i :: p)). }
  assert (wf_node (LpmNode h (Some (a, tbl)))) as Hwf0 by (by constructor).
  rewrite lpm_delete_unfold, lpm_index_byte by done. unfold u32. rewrite Z.mod_small by lia.
  set (rem := len - 8 * Z.of_nat pos) in *.
  destruct (Z.ltb_spec 8 rem) as [Hgt|Hle].
  - pose proof (Hv pos) as Hb. unfold is_byte in Hb. set (i := Z.to_nat (v pos)).
    destruct (lookup_lt_is_Some_2 tbl i) as [c Hc]; [lia|].
    destruct (fp_child h a tbl l i c Hc) as (l' & Hl & Hl').
    assert (rem - 8 = len - 8 * Z.of_nat (Datatypes.S pos)) as Hrem' by (unfold rem; lia).
    replace (8 * Z.of_nat pos + 8) with (8 * Z.of_nat (Datatypes.S pos)) by lia.
    destruct (IH i c Hc (Datatypes.S pos) (fun p => S (i :: p)) l' w)
      as (ret & w1 & c' & Hrun & Hwfc' & Hhd & Hac & Hle' & Hcase); [lia| | |done| | |].
    + by rewrite <- Hl.
    + intros p. rewrite <- Hh. by rewrite (head_path_table _ _ _ _ _ _ Hc).
    + intros p. rewrite <- Hl. apply Hrc.
    + intros p Hp. apply HD. unfold i. rewrite hits_child, Hrem' by done. done.
    + rewrite (upd_nth_some _ _ _ c _ c' Hc Hrun). opt. rewrite <- Hrem' in Hcase.
      pose proof (wf_insert _ _ _ i c' Hwf0 Hwfc') as Hwf1. rewrite <- Hl' in Hac.
      assert (forall p, refs p (fp (LpmNode h (Some (a, <[i:=c']> tbl))) ++ l)
                        <= refs p (fp (LpmNode h (Some (a, tbl))) ++ l)) as Hle1.
      { intros p. rewrite Hl', Hl. apply Hle'. }
      destruct D; destruct Hcase as [-> Hp]; cbn [Z.ltb Z.compare].
      * destruct (table_gc_live w1 L0 cat l h a _ Hac Hwf1)
          as (nd' & w' & -> & Ha' & Hwf' & Hh' & Hr' & Hp'). opt.
        eexists _, _, _. split; [done|]. split_and!; [done|done|done| |done|].
        { intros p. rewrite Hr'. apply Hle1. }
        intros p. rewrite Hp'. revert p. by apply (descend_heads (remove_route id len)).
      * subst c'. rewrite list_insert_id by done. rewrite list_insert_id in Hac by done.
        eexists _, _, _. split; [done|]. by split_and!.
  - destruct (del_last_level id len v pos rem S D L0 cat l h a tbl w)
      as (ret & tbl' & w' & Hrun & Hwf' & Ha' & Hle' & Hcase); try done; [lia|].
    rewrite Hrun. opt. destruct D; destruct Hcase as [-> Hp]; cbn [Z.ltb Z.compare].
    + destruct (table_gc_live w' L0 cat l h a _ Ha' Hwf')
        as (nd' & w2 & -> & Ha2 & Hwf2 & Hh2 & Hr2 & Hp2). opt.
      eexists _, _, _. split; [done|]. split_and!; [done|done|done| |done|].
      { intros p. rewrite Hr2. apply Hle'. }
      intros p. rewrite Hp2. apply Hp.
    + subst tbl'. eexists _, _, _. split; [done|]. by split_and!.
Qed.

End Del.
