(* ===== verification/LpmLookup.v ===== *)
(** * The longest-prefix-match table: lookup

    [lpm_lookup] equals [best_route], the reference definition that scans a list
    of routes for the longest one whose bits agree with the destination, the
    most recently added first among equals. *)

From stdpp Require Import prelude fin_maps gmap list.
From S2P Require Import Prelude Alloc Lpm LpmFacts.

(** ** Matching, bit by bit *)

(** Bit [k] of an address, most significant first. *)
Definition vbit (v : view) (k : Z) : bool := Z.testbit (v (Z.to_nat (k / 8))) (7 - k mod 8).

(** The first [len] bits of [v] and [d] agree. *)
Definition pmatch (v : view) (len : Z) (d : view) : bool :=
  forallb (fun k => Bool.eqb (vbit v (Z.of_nat k)) (vbit d (Z.of_nat k))) (seq 0 (Z.to_nat len)).

Lemma pmatch_true v len d :
  pmatch v len d = true <-> forall k, 0 <= k < len -> vbit v k = vbit d k.
Proof.
  unfold pmatch. rewrite forallb_forall. split.
  - intros Hf k Hk. specialize (Hf (Z.to_nat k)). rewrite in_seq, Z2Nat.id in Hf by lia.
    apply eqb_prop, Hf. lia.
  - intros Hf k Hk%in_seq. rewrite Hf by lia. apply eqb_reflx.
Qed.

(** Comparing the top [q] bits of two [w]-bit numbers. *)
Lemma top_bits w q a b :
  0 <= a < 2 ^ w -> 0 <= b < 2 ^ w -> 0 <= q <= w ->
  (a / 2 ^ (w - q) = b / 2 ^ (w - q) <->
   forall j, 0 <= j < q -> Z.testbit a (w - 1 - j) = Z.testbit b (w - 1 - j)).
Proof.
  intros Ha Hb Hq. rewrite <- !Z.shiftr_div_pow2 by lia. split.
  - intros E j Hj. apply (f_equal (fun x => Z.testbit x (q - 1 - j))) in E.
    rewrite !Z.shiftr_spec in E by lia. by replace (q - 1 - j + (w - q)) with (w - 1 - j) in E by lia.
  - intros Hbits. apply Z.bits_inj'. intros i Hi. rewrite !Z.shiftr_spec by lia.
    destruct (Z.ltb_spec i q).
    + specialize (Hbits (q - 1 - i)). replace (w - 1 - (q - 1 - i)) with (i + (w - q)) in Hbits by lia.
      apply Hbits. lia.
    + by rewrite !(testbit_small _ w) by lia.
Qed.

Lemma vbit_byte v pos j : 0 <= j < 8 -> vbit v (8 * Z.of_nat pos + j) = Z.testbit (v pos) (7 - j).
Proof.
  intros Hj. unfold vbit.
  replace ((8 * Z.of_nat pos + j) / 8) with (Z.of_nat pos)
    by (apply Z.div_unique with j; lia).
  replace ((8 * Z.of_nat pos + j) mod 8) with j by (apply Z.mod_unique with (Z.of_nat pos); lia).
  by rewrite Nat2Z.id.
Qed.

(** The byte at [pos], up to [q] bits of it. *)
Lemma byte_match v d pos q :
  view_ok v -> view_ok d -> 0 <= q <= 8 ->
  (d pos / 2 ^ (8 - q) = v pos / 2 ^ (8 - q) <->
   forall k, 8 * Z.of_nat pos <= k < 8 * Z.of_nat pos + q -> vbit v k = vbit d k).
Proof.
  intros Hv Hd Hq. rewrite (top_bits 8 q (d pos) (v pos)) by (done || apply Hv || apply Hd). split.
  - intros Hb k Hk. replace k with (8 * Z.of_nat pos + (k - 8 * Z.of_nat pos)) by lia.
    rewrite !vbit_byte by lia. specialize (Hb (k - 8 * Z.of_nat pos)).
    replace (8 - 1 - (k - 8 * Z.of_nat pos)) with (7 - (k - 8 * Z.of_nat pos)) in Hb by lia.
    symmetry. apply Hb. lia.
  - intros Hb j Hj. replace (8 - 1 - j) with (7 - j) by lia. rewrite <- !vbit_byte by lia.
    symmetry. apply Hb. lia.
Qed.

(** ** The path of a destination *)

Fixpoint path_of (d : view) (pos n : nat) : list nat :=
  match n with
  | O => []
  | S n => Z.to_nat (d pos) :: path_of d (S pos) n
  end.

Lemma hits_path v d pos rem n :
  view_ok v -> view_ok d -> 0 < rem ->
  (hits v pos rem (path_of d pos n) = true <->
   8 * (Z.of_nat n - 1) < rem <= 8 * Z.of_nat n /\
   forall k, 8 * Z.of_nat pos <= k < 8 * Z.of_nat pos + rem -> vbit v k = vbit d k).
Proof.
  intros Hv Hd. revert pos rem. induction n as [|n IH]; intros pos rem Hrem; cbn [path_of hits].
  { split; [done|]. lia. }
  pose proof (Hd pos) as Hb. unfold is_byte in Hb. rewrite Z2Nat.id by lia.
  destruct (Z.ltb_spec 8 rem) as [Hgt|Hle].
  - rewrite andb_true_iff, Z.eqb_eq, (IH (S pos)) by lia.
    pose proof (byte_match v d pos 8 Hv Hd ltac:(lia)) as Hbyte.
    change (2 ^ (8 - 8)) with 1 in Hbyte. rewrite !Z.div_1_r in Hbyte. rewrite Hbyte. split.
    + intros (Hlow & Hr & Hhigh). split; [lia|]. intros k Hk.
      destruct (Z.ltb_spec k (8 * Z.of_nat pos + 8)); [apply Hlow; lia|apply Hhigh; lia].
    + intros (Hr & Hall). split; [|split; [lia|]]; intros k Hk; apply Hall; lia.
  - destruct n as [|n]; cbn [path_of].
    + rewrite Z.eqb_eq, (byte_match v d pos rem Hv Hd) by lia. split; [|tauto]. intros Hk. split; [lia|done].
    + split; [done|]. lia.
Qed.

(** Depth of the node a prefix of length [len] ends in. *)
Definition level (len : Z) : nat := if 16 <? len then Z.to_nat ((len - 16 + 7) / 8) else 0%nat.

Lemma level_mono a b : (level a < level b)%nat -> a < b.
Proof.
  unfold level. destruct (Z.ltb_spec 16 a), (Z.ltb_spec 16 b); try lia. intros Hl.
  destruct (Z.ltb_spec a b); [done|]. exfalso.
  assert ((b - 16 + 7) / 8 <= (a - 16 + 7) / 8) by (apply Z.div_le_mono; lia). lia.
Qed.

Lemma root_match v d len :
  view_ok v -> view_ok d -> 0 <= len <= 16 ->
  (root_index d / 2 ^ (16 - len) = root_index v / 2 ^ (16 - len) <->
   forall k, 0 <= k < len -> vbit v k = vbit d k).
Proof.
  intros Hv Hd Hlen.
  assert (forall x, view_ok x -> 0 <= root_index x < 2 ^ 16 /\
            forall j, 0 <= j < 16 -> Z.testbit (root_index x) (16 - 1 - j) = vbit x j) as Hx.
  { intros x Hx. pose proof (Hx 0%nat) as H0. pose proof (Hx 1%nat) as H1.
    unfold is_byte, root_index in *. split; [lia|]. intros j Hj.
    change 256 with (2 ^ 8). rewrite <- (lor_low (x 0%nat) (x 1%nat) 8), Z.lor_spec by lia.
    rewrite <- Z.shiftl_mul_pow2, Z.shiftl_spec by lia.
    destruct (Z.ltb_spec j 8).
    - rewrite (testbit_small (x 1%nat) 8), orb_false_r by lia.
      pose proof (vbit_byte x 0 j ltac:(lia)) as E. replace (8 * Z.of_nat 0 + j) with j in E by lia.
      rewrite E. f_equal. lia.
    - rewrite Z.testbit_neg_r by lia. cbn [orb].
      pose proof (vbit_byte x 1 (j - 8) ltac:(lia)) as E.
      replace (8 * Z.of_nat 1 + (j - 8)) with j in E by lia. rewrite E. f_equal. lia. }
  destruct (Hx v Hv) as [Hv1 Hv2]. destruct (Hx d Hd) as [Hd1 Hd2].
  rewrite (top_bits 16 len) by lia. split.
  - intros Hb k Hk. rewrite <- Hv2, <- Hd2 by lia. symmetry. apply Hb. lia.
  - intros Hb j Hj. rewrite Hv2, Hd2 by lia. symmetry. apply Hb. lia.
Qed.

Lemma root_index_inj v d :
  view_ok v -> view_ok d -> (root_index d = root_index v <-> forall k, 0 <= k < 16 -> vbit v k = vbit d k).
Proof.
  intros Hv Hd. rewrite <- (root_match v d 16 Hv Hd) by lia. change (2 ^ (16 - 16)) with 1.
  by rewrite !Z.div_1_r.
Qed.

(** A route reaches the node at depth [n] on the way to [d] exactly when it
    matches [d] and belongs to that depth. *)
Lemma rhits_path v len d n :
  view_ok v -> view_ok d -> 0 <= len ->
  rhits v len (Z.to_nat (root_index d)) (path_of d 2 n) = pmatch v len d && (n =? level len)%nat.
Proof.
  intros Hv Hd Hlen. apply eq_true_iff_eq. rewrite andb_true_iff, Nat.eqb_eq, pmatch_true.
  assert (0 <= root_index d) as Hr.
  { pose proof (Hd 0%nat). pose proof (Hd 1%nat). unfold root_index, is_byte in *. lia. }
  unfold rhits, level. rewrite Z2Nat.id by lia. destruct (Z.ltb_spec 16 len) as [Hgt|Hle].
  - rewrite andb_true_iff, Z.eqb_eq, (root_index_inj v d), (hits_path v d 2) by (done || lia).
    assert (8 * (Z.of_nat n - 1) < len - 16 <= 8 * Z.of_nat n <-> n = Z.to_nat ((len - 16 + 7) / 8)) as ->.
    { Z.to_euclidean_division_equations. lia. }
    split.
    + intros (Hlow & -> & Hhigh). split; [|done]. intros k Hk.
      destruct (Z.ltb_spec k 16); [apply Hlow|apply Hhigh]; lia.
    + intros (Hall & ->). split_and!; [|done|]; intros k Hk; apply Hall; lia.
  - destruct n as [|n]; cbn [path_of].
    + rewrite Z.eqb_eq, (root_match v d len) by (done || lia). tauto.
    + split; [done|]. intros [_ ?]. lia.
Qed.

(** ** The walk *)

Lemma lookup_unfold d h a tbl off :
  _lpm_lookup d (LpmNode h (Some (a, tbl))) off =
  (node ← tbl !! Z.to_nat (lpm_index d off 8);
   match node_next node with
   | Some _ =>
       hd ← _lpm_lookup d node (off + 8);
       Some (match hd with
             | Some h => Some h
             | None => if hlist_empty (node_head node) then None else Some (node_head node)
             end)
   | None => Some (if hlist_empty (node_head node) then None else Some (node_head node))
   end).
Proof.
  cbn [_lpm_lookup]. rewrite with_nth_lookup. destruct (tbl !! _) as [[hd [t|]]|]; done.
Qed.

Definition nonempty_head (hd : list lpm_entry) : option (list lpm_entry) :=
  if hlist_empty hd then None else Some hd.

(** The deepest non-empty head strictly below a node, on the way to [d]. *)
Definition deepest (nd : lpm_node) (d : view) (pos : nat) (res : option (list lpm_entry)) : Prop :=
  match res with
  | Some h => h <> [] /\ exists n, h = head_path nd (path_of d pos (S n)) /\
                forall m, (n < m)%nat -> head_path nd (path_of d pos (S m)) = []
  | None => forall n, head_path nd (path_of d pos (S n)) = []
  end.

Lemma lookup_deepest d nd pos :
  view_ok d -> wf_node nd -> is_Some (node_next nd) ->
  exists res, _lpm_lookup d nd (8 * Z.of_nat pos) = Some res /\ deepest nd d pos res.
Proof.
  intros Hd Hwf. revert pos. induction Hwf as [h|h a tbl Hlen Hwf IH]; intros pos Hn; [by destruct Hn|].
  rewrite lookup_unfold, lpm_index_byte by done.
  pose proof (Hd pos) as Hb. unfold is_byte in Hb.
  destruct (lookup_lt_is_Some_2 tbl (Z.to_nat (d pos))) as [c Hc]; [lia|]. rewrite Hc. opt.
  assert (forall n, head_path (LpmNode h (Some (a, tbl))) (path_of d pos (S n)) =
                    head_path c (path_of d (S pos) n)) as Hp.
  { intros n. cbn [path_of head_path node_next]. by rewrite Hc. }
  assert (forall hd, hd = node_head c -> hd <> [] ->
    (forall m, head_path c (path_of d (S pos) (S m)) = []) ->
    deepest (LpmNode h (Some (a, tbl))) d pos (Some hd)) as Hself.
  { intros hd -> Hne Hbelow. split; [done|]. exists 0%nat. split; [by rewrite Hp|].
    intros [|m] Hm; [lia|]. rewrite Hp. apply Hbelow. }
  destruct (node_next c) as [t|] eqn:Ec.
  - replace (8 * Z.of_nat pos + 8) with (8 * Z.of_nat (S pos)) by lia.
    destruct (IH _ c Hc (S pos)) as (res & -> & Hres); [eauto|]. opt. eexists. split; [done|].
    destruct res as [hd|]; cbn [deepest] in Hres.
    + destruct Hres as (Hne & n & -> & Hdeep). split; [done|]. exists (S n). split; [by rewrite Hp|].
      intros [|m] Hm; [lia|]. rewrite Hp. apply Hdeep. lia.
    + destruct (node_head c) as [|e hd] eqn:Eh; cbn [hlist_empty].
      * intros [|n]; rewrite Hp; [done|apply Hres].
      * by apply Hself.
  - assert (forall m, head_path c (path_of d (S pos) (S m)) = []) as Hbelow.
    { intros m. cbn. by rewrite Ec. }
    eexists. split; [done|]. destruct (node_head c) as [|e hd] eqn:Eh; cbn [hlist_empty].
    + intros [|n]; rewrite Hp; [done|apply Hbelow].
    + by apply Hself.
Qed.

(** ** The reference definition *)

(** The longest route satisfying [P], the first of the list among equals. *)
Fixpoint best_by (P : route -> bool) (R : list route) : option route :=
  match R with
  | [] => None
  | r :: R =>
      match best_by P R with
      | None => if P r then Some r else None
      | Some b => if P r && (rt_len b <=? rt_len r) then Some r else Some b
      end
  end.

Definition matches (d : view) (r : route) : bool := pmatch (rt_pfx r) (rt_len r) d.

Definition best_route (R : list route) (d : view) : option route := best_by (matches d) R.

Lemma best_by_spec P R r :
  best_by P R = Some r ->
  r ∈ R /\ P r = true /\ forall r', r' ∈ R -> P r' = true -> rt_len r' <= rt_len r.
Proof.
  revert r. induction R as [|x R IH]; cbn [best_by]; intros r Hr; [done|].
  setoid_rewrite elem_of_cons. destruct (best_by P R) as [b|] eqn:Eb.
  - destruct (IH b eq_refl) as (Hb & HPb & Hmax).
    destruct (P x && (rt_len b <=? rt_len x)) eqn:Ex; simplify_eq.
    + apply andb_true_iff in Ex as [HPx Hle]. apply Z.leb_le in Hle. split_and!; [tauto|done|].
      intros r' [->|Hr'] HP; [lia|]. specialize (Hmax r' Hr' HP). lia.
    + split_and!; [tauto|done|]. intros r' [->|Hr'] HP; [|eauto].
      rewrite HP in Ex. cbn in Ex. apply Z.leb_gt in Ex. lia.
  - destruct (P x) eqn:Ex; [|done]. simplify_eq. split_and!; [tauto|done|].
    intros r' [->|Hr'] HP; [lia|]. exfalso. clear -Eb Hr' HP.
    revert Eb. induction R as [|y R IH]; [by apply elem_of_nil in Hr'|]. cbn [best_by].
    apply elem_of_cons in Hr' as [->|Hr']; repeat case_match; try done; try congruence.
    intros. by apply IH.
Qed.

Lemma best_by_none P R : best_by P R = None <-> forall r, r ∈ R -> P r = false.
Proof.
  induction R as [|x R IH]; cbn [best_by]; [split; [intros _ r Hr; by apply elem_of_nil in Hr|done]|].
  setoid_rewrite elem_of_cons. destruct (best_by P R) as [b|] eqn:Eb.
  - destruct (best_by_spec P R b Eb) as (Hb & HPb & _).
    split; [by case_match|]. intros Hall. rewrite Hall in HPb by tauto. done.
  - destruct IH as [IH _]. specialize (IH eq_refl). destruct (P x) eqn:Ex.
    + split; [done|]. intros Hall. rewrite Hall in Ex by tauto. done.
    + split; [|done]. intros _ r [->|Hr]; eauto.
Qed.

Lemma best_by_head P R :
  best_by P R = head (foldr (fun r acc => if P r then insert_route r acc else acc) [] R).
Proof.
  induction R as [|r R IH]; [done|]. cbn [best_by foldr]. rewrite IH.
  set (acc := foldr _ _ R). destruct (P r); cbn [andb]; [|by destruct acc].
  destruct acc as [|b acc]; [done|]. cbn [head insert_route].
  destruct (Z.leb_spec (rt_len b) (rt_len r)), (Z.ltb_spec (rt_len r) (rt_len b)); done || lia.
Qed.

Lemma spec_head_foldr R i p :
  spec_head R i p =
  foldr (fun r acc => if rhits (rt_pfx r) (rt_len r) i p then insert_route r acc else acc) [] R.
Proof. induction R as [|r R IH]; [done|]. cbn [spec_head foldr]. by rewrite IH. Qed.

Lemma best_by_ext P Q R : (forall r, r ∈ R -> P r = Q r) -> best_by P R = best_by Q R.
Proof.
  induction R as [|r R IH]; intros H; [done|]. cbn [best_by].
  rewrite IH by (intros; apply H; by right). by rewrite (H r) by (by left).
Qed.

(** If no route satisfying [P] is deeper than [n], the best is found among those
    at depth [n], if any, and otherwise above. *)
Lemma best_by_level P R n :
  (forall r, r ∈ R -> P r = true -> (level (rt_len r) <= n)%nat) ->
  best_by P R =
    match best_by (fun r => P r && (n =? level (rt_len r))%nat) R with
    | Some b => Some b
    | None => best_by (fun r => P r && (level (rt_len r) <? n)%nat) R
    end.
Proof.
  induction R as [|r R IH]; intros Hle; [done|]. cbn [best_by].
  rewrite IH by (intros; apply Hle; [by right|done]).
  set (Q := fun r => P r && (n =? level (rt_len r))%nat).
  set (Q' := fun r => P r && (level (rt_len r) <? n)%nat).
  change (P r && (n =? level (rt_len r))%nat) with (Q r).
  change (P r && (level (rt_len r) <? n)%nat) with (Q' r).
  pose proof (Hle r ltac:(by left)) as Hr. clear IH Hle.
  destruct (P r) eqn:EP; cbn [andb].
  2: { assert (Q r = false) as -> by (unfold Q; by rewrite EP).
       assert (Q' r = false) as -> by (unfold Q'; by rewrite EP).
       cbn [andb]. by destruct (best_by Q R), (best_by Q' R). }
  destruct (decide (level (rt_len r) = n)) as [En|En].
  - assert (Q r = true) as -> by (unfold Q; rewrite EP; by apply Nat.eqb_eq).
    destruct (best_by Q R) as [b|] eqn:EQ; cbn [andb]; [by destruct (_ <=? _)|].
    destruct (best_by Q' R) as [b|] eqn:EQ'; [|done].
    destruct (best_by_spec _ _ _ EQ') as (_ & Hb & _). unfold Q' in Hb.
    apply andb_true_iff in Hb as [_ Hb]. apply Nat.ltb_lt in Hb.
    rewrite <- En in Hb. apply level_mono in Hb. by rewrite (proj2 (Z.leb_le _ _)) by lia.
  - assert (Q r = false) as -> by (unfold Q; rewrite EP; apply Nat.eqb_neq; congruence).
    assert (Q' r = true) as -> by (unfold Q'; rewrite EP; apply Nat.ltb_lt; specialize (Hr eq_refl); lia).
    cbn [andb]. destruct (best_by Q R) as [b|] eqn:EQ; [|by destruct (best_by Q' R)].
    destruct (best_by_spec _ _ _ EQ) as (_ & Hb & _). unfold Q in Hb.
    apply andb_true_iff in Hb as [_ Hb]. apply Nat.eqb_eq in Hb.
    assert (rt_len r < rt_len b) by (apply level_mono; specialize (Hr eq_refl); lia).
    by rewrite (proj2 (Z.leb_gt _ _)) by lia.
Qed.

(** ** Lookup *)

Lemma lookup_at_depth T d :
  length T = Z.to_nat TABLE_SIZE_16 -> (forall i nd, T !! i = Some nd -> wf_node nd) -> view_ok d ->
  exists h n, lpm_lookup T d = Some (head h) /\
    h = head_at T (Z.to_nat (root_index d)) (path_of d 2 n) /\
    (forall m, (n < m)%nat -> head_at T (Z.to_nat (root_index d)) (path_of d 2 m) = []) /\
    (n = 0%nat \/ h <> []).
Proof.
  intros Hlen Hwf Hd. unfold lpm_lookup, head_at. rewrite lpm_index_root by done. fold (root_index d).
  pose proof (Hd 0%nat). pose proof (Hd 1%nat). unfold is_byte in *.
  destruct (lookup_lt_is_Some_2 T (Z.to_nat (root_index d))) as [nd Hnd].
  { rewrite Hlen. change (Z.to_nat TABLE_SIZE_16) with (Z.to_nat 65536). unfold root_index. lia. }
  rewrite Hnd. opt. destruct (node_next nd) as [t|] eqn:Et.
  - destruct (lookup_deepest d nd 2 Hd (Hwf _ _ Hnd)) as (res & E & Hres); [eauto|].
    change (8 * Z.of_nat 2) with 16 in E. rewrite E. opt. destruct res as [h|]; cbn [default] in *.
    + destruct Hres as (Hne & n & Hn & Hdeep). exists h, (S n). split_and!; [done|done| |by right].
      intros [|m] Hm; [lia|]. apply Hdeep. lia.
    + exists (node_head nd), 0%nat. split_and!; [done|done| |by left].
      intros [|m] Hm; [lia|]. apply Hres.
  - opt. exists (node_head nd), 0%nat. split_and!; [done|done| |by left].
    intros [|m] Hm; [lia|]. cbn. by rewrite Et.
Qed.

Lemma spec_head_best R d n :
  view_ok d -> (forall r, r ∈ R -> route_ok r) ->
  head (spec_head R (Z.to_nat (root_index d)) (path_of d 2 n)) =
  best_by (fun r => matches d r && (n =? level (rt_len r))%nat) R.
Proof.
  intros Hd Hok. rewrite spec_head_foldr, <- (best_by_head (fun r => rhits _ _ _ _)).
  apply best_by_ext. intros r Hr. destruct (Hok r Hr) as [Hv Hl]. apply rhits_path; [done|done|lia].
Qed.

Lemma lookup_best T R d :
  table_rep T R -> (forall r, r ∈ R -> route_ok r) -> view_ok d ->
  exists e, lpm_lookup T d = Some e /\ le_ptr <$> e = rt_ptr <$> best_route R d.
Proof.
  intros [Hlen Hwf Hheads] Hok Hd.
  destruct (lookup_at_depth T d Hlen Hwf Hd) as (h & n & Hrun & Hh & Hdeep & Hne).
  exists (head h). split; [done|].
  assert (forall m, ptrs (head_at T (Z.to_nat (root_index d)) (path_of d 2 m)) =
            rt_ptr <$> spec_head R (Z.to_nat (root_index d)) (path_of d 2 m)) as Hspec.
  { intros m. apply Hheads. pose proof (Hd 0%nat). pose proof (Hd 1%nat). unfold is_byte, root_index in *.
    change (Z.to_nat TABLE_SIZE_16) with (Z.to_nat 65536). lia. }
  assert (forall r, r ∈ R -> matches d r = true -> (level (rt_len r) <= n)%nat) as Hle.
  { intros r Hr Hm. destruct (decide (level (rt_len r) <= n)%nat) as [|Hgt]; [done|exfalso].
    pose proof (Hspec (level (rt_len r))) as Hs. rewrite Hdeep in Hs by lia.
    pose proof (spec_head_best R d (level (rt_len r)) Hd Hok) as Hb.
    destruct (spec_head R _ _); [|done]. symmetry in Hb.
    apply best_by_none with (r := r) in Hb; [|done]. by rewrite Hm, Nat.eqb_refl in Hb. }
  unfold best_route. rewrite (best_by_level _ R n Hle), <- spec_head_best by done.
  specialize (Hspec n). rewrite <- Hh in Hspec. unfold ptrs in Hspec.
  destruct h as [|e h], (spec_head R _ (path_of d 2 n)) as [|r rs]; try done; cbn in Hspec |- *.
  - destruct Hne as [->|]; [|done]. destruct (best_by _ R) as [b|] eqn:Eb; [|done].
    destruct (best_by_spec _ _ _ Eb) as (_ & Hb & _). apply andb_true_iff in Hb as [_ Hb]. done.
  - by injection Hspec as -> _.
Qed.
