(* ===== verification/LpmTable.v ===== *)
(** * The longest-prefix-match table: the whole table

    [lpm_inv] ties a table to the list of routes it holds and to the memory it
    owns; [lpm_add] and [lpm_delete] keep it and act on the list as expected. *)

From stdpp Require Import prelude fin_maps gmap list.
From S2P Require Import Prelude Alloc Lpm LpmFacts LpmAcct LpmAdd LpmDel LpmLookup.

(** ** Routes that share a node *)

Lemma hits_same v v' pos rem p p' :
  hits v pos rem p = true -> hits v' pos rem p = true -> hits v pos rem p' = hits v' pos rem p'.
Proof.
  revert pos rem p'. induction p as [|i p IH]; intros pos rem p'; cbn [hits]; [done|].
  destruct (8 <? rem) eqn:E.
  - rewrite !andb_true_iff, !Z.eqb_eq. intros [Ei Hp] [Ei' Hp'].
    destruct p' as [|j p']; cbn [hits]; [done|]. rewrite E, <- Ei, <- Ei'. f_equal. by apply IH.
  - destruct p; [|done]. rewrite !Z.eqb_eq. intros Ei Ei'.
    destruct p' as [|j p']; cbn [hits]; [done|]. rewrite E. destruct p'; [|done].
    by rewrite <- Ei, <- Ei'.
Qed.

Lemma rhits_same v v' len i p i' p' :
  rhits v len i p = true -> rhits v' len i p = true -> rhits v len i' p' = rhits v' len i' p'.
Proof.
  unfold rhits. destruct (16 <? len).
  - rewrite !andb_true_iff, !Z.eqb_eq. intros [Ei Hp] [Ei' Hp'].
    rewrite <- Ei, <- Ei'. f_equal. by eapply hits_same.
  - destruct p; [|done]. rewrite !Z.eqb_eq. intros Ei Ei'. destruct p'; [|done].
    by rewrite <- Ei, <- Ei'.
Qed.

Lemma pmatch_refl v len : pmatch v len v = true.
Proof. by apply pmatch_true. Qed.

(** The node at the end of a prefix. *)
Lemma rhits_self v len :
  view_ok v -> 0 <= len -> rhits v len (Z.to_nat (root_index v)) (path_of v 2 (level len)) = true.
Proof. intros Hv Hl. by rewrite rhits_path, pmatch_refl, Nat.eqb_refl by done. Qed.

(** Two prefixes of one length share a node exactly when their bits agree. *)
Lemma rhits_pmatch v v' len i p :
  view_ok v -> view_ok v' -> 0 <= len -> rhits v len i p = true ->
  rhits v' len i p = pmatch v' len v.
Proof.
  intros Hv Hv' Hl Hp. pose proof (rhits_self v len Hv Hl) as Hs.
  assert (rhits v' len (Z.to_nat (root_index v)) (path_of v 2 (level len)) = pmatch v' len v) as E.
  { by rewrite rhits_path, Nat.eqb_refl, andb_true_r by done. }
  destruct (pmatch v' len v) eqn:Em.
  - by rewrite (rhits_same v' v len _ _ i p E Hs).
  - destruct (rhits v' len i p) eqn:Eh; [|done]. by rewrite <- E, (rhits_same v' v len i p _ _ Eh Hp).
Qed.

(** The entry for [(prefix, len, id)], if the table has one. *)
Definition is_route (v : view) (len id : Z) (r : route) : bool :=
  same_route id len r && pmatch (rt_pfx r) len v.

Definition present (v : view) (len id : Z) (R : list route) : bool := existsb (is_route v len id) R.

Lemma existsb_elem {A} (P : A -> bool) l : existsb P l = true <-> exists x, x ∈ l /\ P x = true.
Proof. rewrite existsb_exists. by setoid_rewrite list_elem_of_In. Qed.

(** A node the prefix reaches holds the entry exactly when the table does. *)
Lemma present_at v len id R i p :
  view_ok v -> 0 <= len -> (forall r, r ∈ R -> route_ok r) -> rhits v len i p = true ->
  existsb (same_route id len) (spec_head R i p) = present v len id R.
Proof.
  intros Hv Hl Hok Hp. apply eq_true_iff_eq. unfold present. rewrite !existsb_elem.
  split; intros (r & Hr & Hs); exists r.
  - apply spec_head_elem in Hr as [Hr Hh]. split; [done|]. unfold is_route. rewrite Hs. cbn.
    apply andb_true_iff in Hs as [_ El%Z.eqb_eq]. rewrite El in Hh.
    rewrite <- (rhits_pmatch v (rt_pfx r) len i p); [done|done|apply Hok, Hr|done|done].
  - unfold is_route in Hs. apply andb_true_iff in Hs as [Hs Hm]. split; [|done].
    apply spec_head_elem. split; [done|]. apply andb_true_iff in Hs as [_ El%Z.eqb_eq]. rewrite El.
    rewrite (rhits_pmatch v (rt_pfx r) len i p); [done|done|apply Hok, Hr|done|done].
Qed.

(** ** Cells of the table and its footprint *)

Lemma head_path_fp nd p e : e ∈ head_path nd p -> cell_item e ∈ fp nd.
Proof.
  revert nd. induction p as [|i p IH]; intros nd He; rewrite fp_node; apply elem_of_app.
  - left. by apply list_elem_of_fmap_2.
  - right. cbn in He. destruct (node_next nd) as [[a tbl]|]; [|by apply elem_of_nil in He].
    destruct (tbl !! i) as [c|] eqn:Ec; [|by apply elem_of_nil in He].
    apply elem_of_cons. right. apply list_elem_of_In, in_flat_map. exists c.
    split; apply list_elem_of_In; [by eapply list_elem_of_lookup_2|auto].
Qed.

Lemma fp_head_path nd a p : wf_node nd -> IEnt a p ∈ fp nd -> exists q, LpmEntry a p ∈ head_path nd q.
Proof.
  induction 1 as [h|h b tbl Hlen Hwf IH]; cbn [fp]; rewrite elem_of_app.
  - intros [He|He]; [|by apply elem_of_nil in He]. exists []. cbn.
    apply list_elem_of_fmap in He as ([? ?] & [= -> ->] & He). done.
  - intros [He|He].
    + exists []. cbn. apply list_elem_of_fmap in He as ([? ?] & [= -> ->] & He). done.
    + apply elem_of_cons in He as [?|He]; [done|].
      apply list_elem_of_In, in_flat_map in He as (c & Hc & He). apply list_elem_of_In in Hc, He.
      apply list_elem_of_lookup in Hc as [i Hi]. destruct (IH i c Hi He) as [q Hq].
      exists (i :: q). cbn. by rewrite Hi.
Qed.

Lemma table_ptr_iff T R p :
  table_rep T R -> (forall r, r ∈ R -> route_ok r) ->
  (exists a, IEnt a p ∈ flat_map fp T) <-> exists r, r ∈ R /\ rt_ptr r = p.
Proof.
  intros [Hlen Hwf Hh] Hok. split.
  - intros [a Ha]. apply list_elem_of_In, in_flat_map in Ha as (nd & Hnd & Ha).
    apply list_elem_of_In in Hnd, Ha. apply list_elem_of_lookup in Hnd as [i Hi].
    destruct (fp_head_path nd a p (Hwf _ _ Hi) Ha) as [q Hq].
    assert (p ∈ ptrs (head_at T i q)) as Hp.
    { unfold ptrs, head_at. rewrite Hi. apply list_elem_of_fmap. by exists (LpmEntry a p). }
    rewrite Hh in Hp by (rewrite <- Hlen; by eapply lookup_lt_Some).
    apply list_elem_of_fmap in Hp as (r & -> & Hr). apply spec_head_elem in Hr as [Hr _]. eauto.
  - intros (r & Hr & <-). destruct (Hok r Hr) as [Hv Hl].
    set (i := Z.to_nat (root_index (rt_pfx r))). set (q := path_of (rt_pfx r) 2 (level (rt_len r))).
    assert (rt_ptr r ∈ ptrs (head_at T i q)) as Hp.
    { rewrite Hh.
      - apply list_elem_of_fmap. exists r. split; [done|]. apply spec_head_elem. split; [done|].
        apply rhits_self; [done|lia].
      - pose proof (Hv 0%nat). pose proof (Hv 1%nat). unfold i, root_index, is_byte in *.
        change (Z.to_nat TABLE_SIZE_16) with (Z.to_nat 65536). lia. }
    unfold head_at in Hp. destruct (T !! i) as [nd|] eqn:Hi; [|by apply elem_of_nil in Hp].
    apply list_elem_of_fmap in Hp as (e & -> & He). exists (le_addr e).
    apply list_elem_of_In, in_flat_map. exists nd.
    split; apply list_elem_of_In; [by eapply list_elem_of_lookup_2|]. by apply head_path_fp with q.
Qed.

(** ** The invariant *)

Definition cat_of (R : list route) : catalog :=
  list_to_map ((fun r => (rt_ptr r, (rt_id r, rt_len r))) <$> R).

(** The table as a set of routes: one entry per [(prefix, len, id)], one object
    per entry, no more than 2^16 cells for any. *)
Record lpm_tbl (T : list lpm_node) (R : list route) : Prop := {
  lt_rep : table_rep T R;
  lt_ok : forall r, r ∈ R -> route_ok r;
  lt_nodup : NoDup (rt_ptr <$> R);
  lt_uniq : forall r r', r ∈ R -> r' ∈ R ->
    is_route (rt_pfx r) (rt_len r) (rt_id r) r' = true -> r' = r;
  lt_refs : forall p, refs p (flat_map fp T) <= 65536
}.

Lemma cat_of_lookup R r :
  NoDup (rt_ptr <$> R) -> r ∈ R -> cat_of R !! rt_ptr r = Some (rt_id r, rt_len r).
Proof.
  intros Hnd Hr. apply elem_of_list_to_map_1.
  - rewrite <- list_fmap_compose. exact Hnd.
  - apply list_elem_of_fmap. by exists r.
Qed.

Lemma cat_of_None R p : (forall r, r ∈ R -> rt_ptr r <> p) -> cat_of R !! p = None.
Proof.
  intros Hp. apply not_elem_of_list_to_map_1. rewrite <- list_fmap_compose.
  intros (r & -> & Hr)%list_elem_of_fmap. by apply (Hp r).
Qed.

Lemma cat_ok_R T R i p : lpm_tbl T R -> cat_ok (cat_of R) (spec_head R i p).
Proof.
  intros Ht r [Hr _]%spec_head_elem. apply cat_of_lookup; [apply Ht|done].
Qed.

(** The routes left after a deletion. *)
Definition del_routes (v : view) (len id : Z) (R : list route) : list route :=
  filter (fun r => is_route v len id r = false) R.

Lemma filter_insert_route (Q : route -> Prop) `{!forall r, Decision (Q r)} r rs :
  desc_len rs ->
  filter Q (insert_route r rs) = if decide (Q r) then insert_route r (filter Q rs) else filter Q rs.
Proof.
  induction 1 as [|y rs Hy Hrs IH]; cbn [insert_route].
  { rewrite filter_cons. by case_decide. }
  destruct (Z.ltb_spec (rt_len r) (rt_len y)) as [Hlt|Hge].
  - rewrite !filter_cons, IH. destruct (decide (Q y)), (decide (Q r)); try done.
    cbn [insert_route]. by rewrite (proj2 (Z.ltb_lt _ _)).
  - rewrite filter_cons. case_decide as HQ; [|done].
    assert (forall x, x ∈ filter Q (y :: rs) -> rt_len x <= rt_len r) as Hle.
    { intros x [_ Hx]%list_elem_of_filter. apply elem_of_cons in Hx as [->|Hx%Hy]; lia. }
    destruct (filter Q (y :: rs)) as [|x xs]; [done|]. cbn [insert_route].
    by rewrite (proj2 (Z.ltb_ge _ _)) by (apply Hle; by left).
Qed.

Lemma spec_head_filter (Q : route -> Prop) `{!forall r, Decision (Q r)} R i p :
  spec_head (filter Q R) i p = filter Q (spec_head R i p).
Proof.
  induction R as [|r R IH]; [done|]. rewrite filter_cons. cbn [spec_head].
  destruct (rhits _ _ i p) eqn:Eh.
  - rewrite filter_insert_route by apply spec_head_desc.
    case_decide; cbn [spec_head]; rewrite ?Eh, IH; done.
  - case_decide; cbn [spec_head]; rewrite ?Eh, IH; done.
Qed.

Lemma filter_all {A} (Q : A -> Prop) `{!forall x, Decision (Q x)} (l : list A) :
  (forall x, x ∈ l -> Q x) -> filter Q l = l.
Proof.
  induction l as [|x l IH]; intros Hq; [done|].
  rewrite filter_cons_True by (apply Hq; by left). f_equal. apply IH. intros y Hy. apply Hq. by right.
Qed.

Lemma filter_ext_elem {A} (Q Q' : A -> Prop)
    `{!forall x, Decision (Q x), !forall x, Decision (Q' x)} (l : list A) :
  (forall x, x ∈ l -> Q x <-> Q' x) -> filter Q l = filter Q' l.
Proof.
  induction l as [|x l IH]; intros Hq; [done|].
  assert (Q x <-> Q' x) as Hx by (apply Hq; by left).
  rewrite !filter_cons, IH by (intros; apply Hq; by right).
  destruct (decide (Q x)), (decide (Q' x)); tauto.
Qed.

Lemma remove_filter id len rs :
  NoDup rs -> (forall x y, x ∈ rs -> y ∈ rs -> same_route id len x = true ->
                same_route id len y = true -> x = y) ->
  remove_route id len rs = filter (fun r => same_route id len r = false) rs.
Proof.
  induction 1 as [|r rs Hr Hnd IH]; intros Hu; [done|]. cbn [remove_route]. rewrite filter_cons.
  destruct (same_route id len r) eqn:Es.
  - rewrite decide_False by done. symmetry. apply filter_all. intros x Hx.
    destruct (same_route id len x) eqn:Ex; [|done]. exfalso. apply Hr.
    rewrite (Hu r x); [done|by left|by right|done|done].
  - rewrite decide_True by done. f_equal. apply IH. intros x y Hx Hy. apply Hu; by right.
Qed.

Lemma spec_head_perm R i p :
  spec_head R i p ≡ₚ filter (fun r => rhits (rt_pfx r) (rt_len r) i p = true) R.
Proof.
  induction R as [|r R IH]; [done|]. cbn [spec_head]. rewrite filter_cons.
  destruct (rhits _ _ i p) eqn:E.
  - rewrite decide_True by done. by rewrite insert_route_perm, IH.
  - by rewrite decide_False.
Qed.

Lemma spec_head_NoDup T R i p : lpm_tbl T R -> NoDup (spec_head R i p).
Proof.
  intros Ht. rewrite spec_head_perm. apply NoDup_filter. eapply NoDup_fmap_1, Ht.
Qed.

(** Deleting [(v, len, id)] from the list is deleting it from every node the
    prefix reaches. *)
Lemma spec_head_delete T R v len id i p :
  lpm_tbl T R -> view_ok v -> 0 <= len ->
  spec_head (del_routes v len id R) i p =
  if rhits v len i p then remove_route id len (spec_head R i p) else spec_head R i p.
Proof.
  intros Ht Hv Hl. unfold del_routes. rewrite spec_head_filter.
  assert (forall r, r ∈ spec_head R i p -> same_route id len r = true ->
            rhits v len i p = pmatch (rt_pfx r) len v) as Hm.
  { intros r [Hr Hh]%spec_head_elem Hs. apply andb_true_iff in Hs as [_ El%Z.eqb_eq].
    rewrite El in Hh. rewrite (rhits_pmatch (rt_pfx r) v len i p); [|apply Ht, Hr|done|done|done].
    apply eq_true_iff_eq. rewrite !pmatch_true. split; intros Hk k ?; symmetry; by apply Hk. }
  destruct (rhits v len i p) eqn:Eh.
  - rewrite remove_filter.
    + apply filter_ext_elem. intros r Hr. unfold is_route. destruct (same_route id len r) eqn:Es; [|done].
      by rewrite <- (Hm r Hr Es).
    + by eapply spec_head_NoDup.
    + intros x y Hx Hy Sx Sy. pose proof (proj1 (spec_head_elem _ _ _ _) Hx) as [Hx1 Hx2].
      pose proof (proj1 (spec_head_elem _ _ _ _) Hy) as [Hy1 Hy2].
      apply andb_true_iff in Sx as [Ix%Z.eqb_eq Lx%Z.eqb_eq].
      apply andb_true_iff in Sy as [Iy%Z.eqb_eq Ly%Z.eqb_eq].
      apply (lt_uniq _ _ Ht y x); [done|done|]. unfold is_route, same_route.
      rewrite Ix, Iy, Lx, Ly, !Z.eqb_refl. cbn [andb]. rewrite Lx in Hx2. rewrite Ly in Hy2.
      rewrite <- (rhits_pmatch (rt_pfx y) (rt_pfx x) len i p); [done|apply Ht, Hy1|apply Ht, Hx1|done|done].
  - apply filter_all. intros r Hr. unfold is_route. destruct (same_route id len r) eqn:Es; [|done].
    by rewrite <- (Hm r Hr Es).
Qed.

Lemma refs_zero p l : (forall a, IEnt a p ∉ l) -> refs p l = 0.
Proof.
  intros Hn. unfold refs. destruct (filter (is_ref p) l) as [|x xs] eqn:E; [done|exfalso].
  assert (x ∈ filter (is_ref p) l) as [Hx Hin]%list_elem_of_filter by (rewrite E; by left).
  destruct x as [a q|a]; cbn in Hx; [subst q; by apply (Hn a)|done].
Qed.

Lemma refs_new T R r :
  lpm_tbl T R -> (forall r', r' ∈ R -> rt_ptr r' <> rt_ptr r) -> refs (rt_ptr r) (flat_map fp T) = 0.
Proof.
  intros Ht Hnew. apply refs_zero. intros a Ha.
  destruct (proj1 (table_ptr_iff T R (rt_ptr r) (lt_rep _ _ Ht) (lt_ok _ _ Ht))) as (r' & Hr' & E); [eauto|].
  by apply (Hnew r').
Qed.

Lemma cat_of_cons_ok T R r i p :
  lpm_tbl T R -> (forall r', r' ∈ R -> rt_ptr r' <> rt_ptr r) ->
  cat_ok (cat_of (r :: R)) (r :: spec_head R i p).
Proof.
  intros Ht Hnew x [->|Hx]%elem_of_cons.
  - unfold cat_of. cbn. by rewrite lookup_insert_eq.
  - apply spec_head_elem in Hx as [Hx _]. unfold cat_of. cbn.
    rewrite lookup_insert_ne by (intros E; by apply (Hnew x)). by apply cat_of_lookup, Hx; apply Ht.
Qed.

(** Adding a route to the list keeps it well formed. *)
Lemma lpm_tbl_cons T T' R r :
  lpm_tbl T R -> route_ok r -> (forall r', r' ∈ R -> rt_ptr r' <> rt_ptr r) ->
  present (rt_pfx r) (rt_len r) (rt_id r) R = false -> table_rep T' (r :: R) ->
  (forall p, refs p (flat_map fp T') <= 65536) -> lpm_tbl T' (r :: R).
Proof.
  intros Ht Hok Hnew Hp Hrep Hrefs. split; [done| | | |done].
  - intros x [->|Hx]%elem_of_cons; [done|]. by apply Ht.
  - cbn. apply NoDup_cons. split; [|apply Ht]. intros (x & E & Hx)%list_elem_of_fmap.
    by apply (Hnew x).
  - assert (forall x, x ∈ R -> is_route (rt_pfx r) (rt_len r) (rt_id r) x = true -> False) as Hno.
    { intros x Hx Hr. assert (present (rt_pfx r) (rt_len r) (rt_id r) R = true); [|congruence].
      apply existsb_elem. eauto. }
    intros x y [->|Hx]%elem_of_cons [->|Hy]%elem_of_cons Hr; [done| | |].
    + exfalso. eauto.
    + exfalso. apply (Hno x Hx). unfold is_route, same_route in *. rewrite !andb_true_iff, !Z.eqb_eq in *.
      destruct Hr as [[Ei El] Hm]. split; [lia|]. rewrite pmatch_true in *. rewrite <- El in Hm.
      intros k Hk. symmetry. by apply Hm.
    + by apply (lt_uniq _ _ Ht).
Qed.

Section Table.

Context {W : Type} `{LpmSpec W}.

Definition lpm_inv (w : W) (T : list lpm_node) (L0 : gset Z) (R : list route) : Prop :=
  lpm_tbl T R /\ acct w L0 (cat_of R) (flat_map fp T).

(** What [lpm_add] comes to: the route is added; or it was there already and the
    table holds what it held; or the allocator failed. *)
Definition table_add_post (r : route) (T : list lpm_node) (R : list route) (L0 : gset Z)
    (res : option (Z * list lpm_node * W)) : Prop :=
  let D := present (rt_pfx r) (rt_len r) (rt_id r) R in
  (D = false /\ exists T' w', res = Some (0, T', w') /\ lpm_inv w' T' L0 (r :: R)) \/
  (D = true /\ exists T' w', res = Some (-1, T', w') /\ lpm_tbl T' R /\
     acct w' L0 (cat_of (r :: R)) (flat_map fp T')) \/
  (D = false /\ can_fail /\ forall T' w', res <> Some (0, T', w')).

Lemma head_at_insert T i nd j p :
  (i < length T)%nat ->
  head_at (<[i := nd]> T) j p = if decide (j = i) then head_path nd p else head_at T j p.
Proof.
  intros Hi. unfold head_at. case_decide as E; [subst; by rewrite list_lookup_insert_eq|].
  by rewrite list_lookup_insert_ne.
Qed.

Lemma root_index_range v : view_ok v -> 0 <= root_index v < 65536.
Proof.
  intros Hv. pose proof (Hv 0%nat). pose proof (Hv 1%nat). unfold root_index, is_byte in *. lia.
Qed.

Lemma table_wf_insert (T : list lpm_node) (i : nat) nd :
  (forall j x, T !! j = Some x -> wf_node x) -> wf_node nd ->
  forall j x, <[i := nd]> T !! j = Some x -> wf_node x.
Proof.
  intros HT Hnd j x Hx. destruct (decide (j = i)) as [->|Hne].
  - destruct (decide (i < length T)%nat).
    + rewrite list_lookup_insert_eq in Hx by done. by simplify_eq.
    + rewrite list_insert_ge in Hx by lia. eauto.
  - rewrite list_lookup_insert_ne in Hx by done. eauto.
Qed.

Lemma add_long r T R L0 w :
  lpm_tbl T R -> route_ok r -> (forall r', r' ∈ R -> rt_ptr r' <> rt_ptr r) ->
  acct w L0 (cat_of (r :: R)) (flat_map fp T) -> 16 < rt_len r ->
  table_add_post r T R L0 (lpm_add (rt_pfx r) (rt_len r) (rt_id r) (rt_ptr r) T w).
Proof.
  intros Ht [Hv Hl] Hnew Ha Hlong. unfold lpm_add. rewrite (proj2 (Z.ltb_lt _ _) Hlong).
  rewrite lpm_index_root by done. fold (root_index (rt_pfx r)).
  pose proof (root_index_range _ Hv) as Hri. destruct (lt_rep _ _ Ht) as [Hlen Hwf Hheads].
  change (Z.to_nat TABLE_SIZE_16) with (Z.to_nat 65536) in Hlen, Hheads.
  set (i := Z.to_nat (root_index (rt_pfx r))) in *.
  destruct (lookup_lt_is_Some_2 T i) as [nd Hnd]; [lia|].
  destruct (fps_split T i nd Hnd) as (rest & Hfp & Hfp').
  assert (forall p, rhits (rt_pfx r) (rt_len r) i p = hits (rt_pfx r) 2 (rt_len r - 16) p) as Hrh.
  { intros p. unfold rhits, i. rewrite (proj2 (Z.ltb_lt _ _) Hlong), Z2Nat.id, Z.eqb_refl by lia. done. }
  assert (forall p, ptrs (head_path nd p) = rt_ptr <$> spec_head R i p) as Hnh.
  { intros p. rewrite <- Hheads by lia. unfold head_at. by rewrite Hnd. }
  pose proof (refs_new T R r Ht Hnew) as Href0.
  destruct (add_spec (Z.to_nat (rt_len r)) r 2 (spec_head R i)
              (present (rt_pfx r) (rt_len r) (rt_id r) R) L0 (cat_of (r :: R)) rest nd w)
    as (ret & w' & nd' & Hrun & Hwf' & Hh' & Ha' & Hle & Hcase);
    [done|lia|lia|eauto|by rewrite <- Hfp|done| | | |].
  { intros p. split; [by eapply cat_of_cons_ok|apply spec_head_desc]. }
  { rewrite <- Hfp, Href0. lia. }
  { intros p Hp. apply (present_at _ _ _ R i p Hv); [lia|apply Ht|]. rewrite Hrh. exact Hp. }
  change (8 * Z.of_nat 2) with 16 in Hrun, Hcase.
  rewrite (upd_nth_some _ _ _ nd _ nd' Hnd Hrun). opt. rewrite <- Hfp' in Ha'.
  assert (forall p, refs p (flat_map fp (<[i:=nd']> T)) <= 65536) as Hrefs.
  { intros p. rewrite Hfp'. specialize (Hle p). rewrite <- Hfp in Hle.
    pose proof (lt_refs _ _ Ht p). case_decide; [subst p; rewrite Href0 in Hle|]; lia. }
  pose proof (table_wf_insert T i nd' Hwf Hwf') as Hwf''.
  unfold table_add_post.
  destruct Hcase as [(-> & HD & Hp)|[(-> & HD & Hp)|(-> & HD & Hf)]]; rewrite HD; cbn [Z.ltb Z.compare].
  - left. split; [done|]. eexists _, _. split; [done|]. split; [|done].
    eapply lpm_tbl_cons; eauto; [by split|]. split; [by rewrite length_insert|done|].
    intros j p Hj. change (Z.to_nat TABLE_SIZE_16) with (Z.to_nat 65536) in Hj.
    rewrite head_at_insert by lia. cbn [spec_head]. case_decide as Ej.
    + subst j. rewrite Hrh. apply Hp.
    + rewrite Hheads by done. unfold rhits at 1. rewrite (proj2 (Z.ltb_lt _ _) Hlong).
      by rewrite (proj2 (Z.eqb_neq (Z.of_nat j) _)) by lia.
  - right. left. split; [done|]. eexists _, _. split; [done|]. split; [|done].
    split; [|apply Ht|apply Ht|apply Ht|done]. split; [by rewrite length_insert|done|].
    intros j p Hj. change (Z.to_nat TABLE_SIZE_16) with (Z.to_nat 65536) in Hj.
    rewrite head_at_insert by lia. case_decide as Ej; [|by apply Hheads]. subst j. by rewrite Hp.
  - right. right. done.
Qed.

(** The root nodes that a prefix of at most 16 bits covers. *)
Lemma root_range v len :
  view_ok v -> 0 <= len <= 16 ->
  let q := root_index v / 2 ^ (16 - len) in
  span 16 len = 2 ^ (16 - len) /\ span_base (root_index v) (span 16 len) = q * 2 ^ (16 - len) /\
  0 <= q /\ 0 < 2 ^ (16 - len) <= 65536 /\ q * 2 ^ (16 - len) + 2 ^ (16 - len) <= 65536 /\
  forall j, rhits v len j [] =
    bool_decide (q * 2 ^ (16 - len) <= Z.of_nat j < q * 2 ^ (16 - len) + 2 ^ (16 - len)).
Proof.
  intros Hv Hlen q. pose proof (root_index_range v Hv) as Hb.
  assert (2 ^ (16 - len) <= 2 ^ 16) as Hk7 by (apply Z.pow_le_mono_r; lia).
  change (2 ^ 16) with 65536 in Hk7. assert (0 < 2 ^ (16 - len)) as Hk0 by lia.
  rewrite span_pow, span_base_pow by lia. fold q.
  assert (0 <= q) as Hq by (apply Z.div_pos; lia).
  split_and!; try done.
  - replace 65536 with (2 ^ len * 2 ^ (16 - len))
      by (rewrite <- Z.pow_add_r by lia; replace (len + (16 - len)) with 16 by lia; done).
    assert (q < 2 ^ len); [|nia].
    apply Z.div_lt_upper_bound; [lia|]. rewrite <- Z.pow_add_r by lia.
    replace (16 - len + len) with 16 by lia. lia.
  - intros j. unfold rhits. rewrite (proj2 (Z.ltb_ge 16 len)) by lia. apply div_range. lia.
Qed.

(** The heads of the root array after a completed loop. *)
Lemma root_range_heads (f : list route -> list route) P v len R R' T T' lo hi :
  0 <= len <= 16 -> table_rep T R -> range_upd P lo hi T T' ->
  (forall j h, P j h -> ptrs h = rt_ptr <$> f (spec_head R j [])) ->
  (forall j, rhits v len j [] = bool_decide (lo <= Z.of_nat j < hi)) ->
  (forall i p, spec_head R' i p = if rhits v len i p then f (spec_head R i p) else spec_head R i p) ->
  table_rep T' R'.
Proof.
  intros Hl [Hlen Hwf Hh] Hr HP Hrh HR. split.
  - destruct Hr. congruence.
  - intros i nd Hi. destruct (range_upd_lookup _ _ _ _ _ _ _ Hr Hi) as (x & Hx & [->|E]); [eauto|].
    eapply wf_next_eq; eauto.
  - intros i p Hi. rewrite HR. destruct (lookup_lt_is_Some_2 T i) as [nd Hnd]; [lia|].
    destruct Hr as [_ Hr]. destruct (Hr i nd Hnd) as (nd' & Hnd' & Hc).
    specialize (Hh i p Hi). unfold head_at in *. rewrite Hnd in Hh. rewrite Hnd'.
    destruct p as [|j p].
    + rewrite Hrh. case_decide as Hd.
      * rewrite bool_decide_eq_true_2 by done. apply HP, Hc.
      * rewrite bool_decide_eq_false_2 by done. by subst.
    + replace (rhits v len i (j :: p)) with false.
      2: { unfold rhits. by rewrite (proj2 (Z.ltb_ge 16 len)) by lia. }
      rewrite <- Hh. f_equal. case_decide; [apply head_path_next, Hc|by subst].
Qed.

Lemma add_short r T R L0 w :
  lpm_tbl T R -> route_ok r -> (forall r', r' ∈ R -> rt_ptr r' <> rt_ptr r) ->
  acct w L0 (cat_of (r :: R)) (flat_map fp T) -> rt_len r <= 16 ->
  table_add_post r T R L0 (lpm_add (rt_pfx r) (rt_len r) (rt_id r) (rt_ptr r) T w).
Proof.
  intros Ht [Hv Hl] Hnew Ha Hshort. unfold lpm_add. rewrite (proj2 (Z.ltb_ge _ _) Hshort).
  rewrite lpm_index_root by done. fold (root_index (rt_pfx r)).
  destruct (root_range (rt_pfx r) (rt_len r) Hv ltac:(lia)) as (-> & -> & Hq & Hk & Hend & Hrh).
  set (k := 16 - rt_len r) in *. set (q := root_index (rt_pfx r) / 2 ^ k) in *.
  destruct (lt_rep _ _ Ht) as [Hlen Hwf Hheads]. pose proof (lt_rep _ _ Ht) as Hrep.
  change (Z.to_nat TABLE_SIZE_16) with (Z.to_nat 65536) in Hlen, Hheads.
  pose proof (refs_new T R r Ht Hnew) as Href0.
  destruct (add_range_spec (Z.to_nat (2 ^ k)) 0 (q * 2 ^ k) q k L0 (cat_of (r :: R)) []
              (fun j => spec_head R j []) r T w)
    as (ret & i' & T' & w' & Hrun & Hi' & Ha' & Hpost & Hrefs & Hcase); try done; try lia.
  { by rewrite (right_id_L [] (++)). }
  { intros j nd Hj Hnd. rewrite <- Hheads by lia. unfold head_at. by rewrite Hnd. }
  { intros j. split; [by eapply cat_of_cons_ok|apply spec_head_desc]. }
  { rewrite (right_id_L [] (++)), Href0. lia. }
  rewrite (right_id_L [] (++)) in Ha'. setoid_rewrite (right_id_L [] (++)) in Hrefs.
  assert (forall i, 0 <= i < 2 ^ k ->
    dup r (spec_head R (Z.to_nat (q * 2 ^ k + i)) []) = present (rt_pfx r) (rt_len r) (rt_id r) R) as HDi.
  { intros i Hi. apply present_at; [done|lia|apply Ht|]. rewrite Hrh, bool_decide_eq_true. lia. }
  assert (0 < i' -> present (rt_pfx r) (rt_len r) (rt_id r) R = false) as Hpos.
  { intros Hi0. destruct Hpost as [_ Hp].
    destruct (lookup_lt_is_Some_2 T (Z.to_nat (q * 2 ^ k + 0))) as [nd Hnd]; [lia|].
    destruct (Hp _ nd Hnd) as (nd' & _ & Hc). rewrite decide_True in Hc by lia.
    destruct Hc as (_ & Hc & _). by rewrite HDi in Hc by lia. }
  rewrite Hrun. opt. unfold table_add_post.
  destruct Hcase as [[-> Ei]|(-> & Hlt & Hwhy)]; cbn [Z.ltb Z.compare].
  - left. rewrite Hpos by lia. split; [done|]. eexists _, _. split; [done|]. split; [|done].
    rewrite Z2Nat.id in Ei by lia.
    eapply lpm_tbl_cons; eauto; [by split|by apply Hpos; lia| |].
    + eapply (root_range_heads (insert_route r)); [|done|exact Hpost|by intros j h []| |done]; [lia|].
      intros j. rewrite Hrh. apply bool_decide_ext. lia.
    + intros p. rewrite Hrefs. pose proof (lt_refs _ _ Ht p). case_decide; [subst p; lia|lia].
  - rewrite HDi in Hwhy by lia. right. destruct (present _ _ _ R).
    + left. split; [done|]. assert (i' = 0) as -> by (destruct (decide (i' = 0)); [done|discriminate Hpos; lia]).
      apply range_upd_nil in Hpost as ->. change (Z.to_nat 0) with 0%nat. cbn [rollback]. opt.
      by eexists _, _.
    + right. destruct Hwhy; [done|]. split_and!; [done|done|]. intros T1 w1.
      by destruct (rollback _ _ _ _ _ _ _) as [[? ?]|].
Qed.

Lemma lpm_add_ret v len id ptr T (w : W) ret T' w' :
  lpm_add v len id ptr T w = Some (ret, T', w') -> ret = 0 \/ ret = -1.
Proof.
  unfold lpm_add. destruct (16 <? len).
  - destruct (upd_nth _ T _) as [[[r w1] T1]|]; cbn; [|done]. intros [= <- _ _]. destruct (r <? 0); auto.
  - destruct (add_range _ _ _ _ _ _ T w) as [[[[r n] T1] w1]|]; cbn; [|done].
    destruct (r <? 0); [|intros [= <- _ _]; auto].
    destruct (rollback _ _ _ _ _ T1 w1) as [[T2 w2]|]; cbn; [|done]. intros [= <- _ _]. auto.
Qed.

Lemma table_add_ok r T R L0 w :
  lpm_tbl T R -> route_ok r -> (forall r', r' ∈ R -> rt_ptr r' <> rt_ptr r) ->
  acct w L0 (cat_of (r :: R)) (flat_map fp T) ->
  table_add_post r T R L0 (lpm_add (rt_pfx r) (rt_len r) (rt_id r) (rt_ptr r) T w).
Proof. intros. destruct (Z.ltb_spec 16 (rt_len r)); [by apply add_long|by apply add_short]. Qed.

(** ** Deletion *)

Lemma lpm_tbl_del T T' R v len id :
  lpm_tbl T R -> table_rep T' (del_routes v len id R) ->
  (forall p, refs p (flat_map fp T') <= 65536) -> lpm_tbl T' (del_routes v len id R).
Proof.
  intros Ht Hrep Hrefs.
  assert (forall r, r ∈ del_routes v len id R -> r ∈ R) as Hsub
    by (by intros r [_ Hr]%list_elem_of_filter).
  split; [done| | | |done].
  - intros r Hr. apply (lt_ok _ _ Ht). auto.
  - pose proof (lt_nodup _ _ Ht) as Hnd. clear -Hnd. unfold del_routes.
    induction R as [|x R IH]; [done|]. cbn in Hnd. apply NoDup_cons in Hnd as [Hx Hnd].
    rewrite filter_cons. case_decide; [|auto]. cbn. apply NoDup_cons. split; [|auto].
    intros (y & E & Hy)%list_elem_of_fmap. apply list_elem_of_filter in Hy as [_ Hy].
    apply Hx. rewrite E. by apply list_elem_of_fmap_2.
  - intros r r' Hr Hr'. apply (lt_uniq _ _ Ht); auto.
Qed.

(** The objects still referred to are those of the routes that are left. *)
Lemma live_cat_of T' R R' :
  lpm_tbl T' R' -> NoDup (rt_ptr <$> R) -> (forall r, r ∈ R' -> r ∈ R) ->
  live (cat_of R) (flat_map fp T') = cat_of R'.
Proof.
  intros Ht Hnd Hsub. apply map_eq. intros p. unfold live. rewrite map_lookup_filter.
  pose proof (table_ptr_iff T' R' p (lt_rep _ _ Ht) (lt_ok _ _ Ht)) as Hiff.
  destruct (decide (p ∈ rt_ptr <$> R')) as [(r & -> & Hr)%list_elem_of_fmap|Hno].
  - rewrite !cat_of_lookup by (auto; apply Ht). cbn. rewrite option_guard_True; [done|].
    destruct (proj2 Hiff) as [a Ha]; [eauto|]. by eapply refs_pos.
  - rewrite (cat_of_None R') by (intros r Hr <-; apply Hno; by apply list_elem_of_fmap_2).
    destruct (cat_of R !! p); [|done]. cbn. rewrite option_guard_False; [done|].
    rewrite refs_zero; [lia|]. intros a Ha. destruct (proj1 Hiff) as (r & Hr & <-); [eauto|].
    apply Hno. by apply list_elem_of_fmap_2.
Qed.

Lemma acct_live w T R L0 :
  lpm_tbl T R -> acct w L0 (cat_of R) (flat_map fp T) ->
  acct w L0 (live (cat_of R) (flat_map fp T)) (flat_map fp T).
Proof. intros Ht Ha. rewrite (live_cat_of T R R Ht (lt_nodup _ _ Ht)); done. Qed.

Definition table_del_post (v : view) (len id : Z) (T : list lpm_node) (R : list route) (L0 : gset Z)
    (res : option (Z * list lpm_node * W)) : Prop :=
  if present v len id R
  then exists T' w', res = Some (0, T', w') /\ lpm_inv w' T' L0 (del_routes v len id R)
  else exists w', res = Some (-1, T, w') /\ lpm_inv w' T L0 R.

Lemma del_long v len id T R L0 w :
  lpm_inv w T L0 R -> view_ok v -> 16 < len <= 128 ->
  table_del_post v len id T R L0 (lpm_delete v len id T w).
Proof.
  intros [Ht Ha] Hv Hl. unfold lpm_delete. rewrite (proj2 (Z.ltb_lt 16 len)) by lia.
  rewrite lpm_index_root by done. fold (root_index v).
  pose proof (root_index_range _ Hv) as Hri. destruct (lt_rep _ _ Ht) as [Hlen Hwf Hheads].
  change (Z.to_nat TABLE_SIZE_16) with (Z.to_nat 65536) in Hlen, Hheads.
  set (i := Z.to_nat (root_index v)) in *.
  destruct (lookup_lt_is_Some_2 T i) as [nd Hnd]; [lia|].
  destruct (fps_split T i nd Hnd) as (rest & Hfp & Hfp').
  assert (forall p, rhits v len i p = hits v 2 (len - 16) p) as Hrh.
  { intros p. unfold rhits, i. rewrite (proj2 (Z.ltb_lt 16 len)), Z2Nat.id, Z.eqb_refl by lia. done. }
  pose proof (acct_live _ _ _ _ Ht Ha) as Hlv. rewrite Hfp in Hlv.
  destruct (delete_spec id len v 2 (spec_head R i) (present v len id R) L0 (cat_of R) rest nd w)
    as (ret & w' & nd' & Hrun & Hwf' & Hh' & Ha' & Hle & Hcase); [done|lia|lia|eauto|done| | | | |].
  { intros p. rewrite <- Hheads by lia. unfold head_at. by rewrite Hnd. }
  { intros p. by eapply cat_ok_R. }
  { intros p. rewrite <- Hfp. pose proof (lt_refs _ _ Ht p). lia. }
  { intros p Hp. apply (present_at _ _ _ R i p Hv); [lia|apply Ht|]. rewrite Hrh. exact Hp. }
  change (8 * Z.of_nat 2) with 16 in Hrun, Hcase.
  rewrite (upd_nth_some _ _ _ nd _ nd' Hnd Hrun). opt. rewrite <- Hfp' in Ha'.
  unfold table_del_post. destruct (present v len id R); destruct Hcase as [-> Hp]; cbn [Z.ltb Z.compare].
  - assert (lpm_tbl (<[i:=nd']> T) (del_routes v len id R)) as Ht'.
    { eapply lpm_tbl_del; [done| |].
      - split; [by rewrite length_insert|by apply table_wf_insert|].
        intros j p Hj. change (Z.to_nat TABLE_SIZE_16) with (Z.to_nat 65536) in Hj.
        rewrite (spec_head_delete T R) by (done || lia). rewrite head_at_insert by lia.
        case_decide as Ej; [subst j; rewrite Hrh; apply Hp|].
        replace (rhits v len j p) with false; [by apply Hheads|].
        unfold rhits. rewrite (proj2 (Z.ltb_lt 16 len)) by lia.
        by rewrite (proj2 (Z.eqb_neq (Z.of_nat j) _)) by lia.
      - intros p. rewrite Hfp'. specialize (Hle p). rewrite <- Hfp in Hle.
        pose proof (lt_refs _ _ Ht p). lia. }
    eexists _, _. split; [done|]. split; [done|].
    rewrite <- (live_cat_of _ R _ Ht'); [done|apply Ht|by intros r [_ Hr]%list_elem_of_filter].
  - subst nd'. rewrite list_insert_id in Ha' |- * by done. eexists. split; [done|]. split; [done|].
    by rewrite (live_cat_of T R R Ht (lt_nodup _ _ Ht)) in Ha'.
Qed.

Lemma del_short v len id T R L0 w :
  lpm_inv w T L0 R -> view_ok v -> 0 <= len <= 16 ->
  table_del_post v len id T R L0 (lpm_delete v len id T w).
Proof.
  intros [Ht Ha] Hv Hl. unfold lpm_delete. rewrite (proj2 (Z.ltb_ge 16 len)) by lia.
  rewrite lpm_index_root by done. fold (root_index v).
  destruct (root_range v len Hv Hl) as (-> & -> & Hq & Hk & Hend & Hrh).
  set (k := 16 - len) in *. set (q := root_index v / 2 ^ k) in *.
  destruct (lt_rep _ _ Ht) as [Hlen Hwf Hheads]. pose proof (lt_rep _ _ Ht) as Hrep.
  change (Z.to_nat TABLE_SIZE_16) with (Z.to_nat 65536) in Hlen, Hheads.
  pose proof (acct_live _ _ _ _ Ht Ha) as Hlv.
  destruct (del_range_spec (Z.to_nat (2 ^ k)) 0 (q * 2 ^ k) q k L0 (cat_of R) []
              (fun j => spec_head R j []) id len T w)
    as (ret & i' & T' & w' & Hrun & Hi' & Ha' & Hle & Hpost & Hcase); try done; try lia.
  { by rewrite (right_id_L [] (++)). }
  { intros j nd Hj Hnd. rewrite <- Hheads by lia. unfold head_at. by rewrite Hnd. }
  { intros j. by eapply cat_ok_R. }
  { intros p. rewrite (right_id_L [] (++)). pose proof (lt_refs _ _ Ht p). lia. }
  rewrite (right_id_L [] (++)) in Ha'. setoid_rewrite (right_id_L [] (++)) in Hle.
  assert (forall i, 0 <= i < 2 ^ k ->
    existsb (same_route id len) (spec_head R (Z.to_nat (q * 2 ^ k + i)) []) = present v len id R) as HDi.
  { intros i Hi. apply present_at; [done|lia|apply Ht|]. rewrite Hrh, bool_decide_eq_true. lia. }
  assert (0 < i' -> present v len id R = true) as Hpos.
  { intros Hi0. destruct Hpost as [_ Hp].
    destruct (lookup_lt_is_Some_2 T (Z.to_nat (q * 2 ^ k + 0))) as [nd Hnd]; [lia|].
    destruct (Hp _ nd Hnd) as (nd' & _ & Hc). rewrite decide_True in Hc by lia.
    destruct Hc as (_ & Hc & _). by rewrite HDi in Hc by lia. }
  rewrite Hrun. opt. unfold table_del_post.
  destruct Hcase as [[-> Ei]|(-> & Hlt & Hwhy)]; cbn [Z.ltb Z.compare].
  - rewrite Hpos by lia. rewrite Z2Nat.id in Ei by lia.
    assert (lpm_tbl T' (del_routes v len id R)) as Ht'.
    { eapply lpm_tbl_del; [done| |].
      - eapply (root_range_heads (remove_route id len) _ v len R); [done|done|exact Hpost|by intros j h []| |].
        + intros j. rewrite Hrh. apply bool_decide_ext. lia.
        + intros i p. apply (spec_head_delete T R); [done|done|lia].
      - intros p. specialize (Hle p). pose proof (lt_refs _ _ Ht p). lia. }
    eexists _, _. split; [done|]. split; [done|].
    rewrite <- (live_cat_of _ R _ Ht'); [done|apply Ht|by intros r [_ Hr]%list_elem_of_filter].
  - rewrite HDi in Hwhy by lia. rewrite Hwhy in *.
    assert (i' = 0) as -> by (destruct (decide (i' = 0)); [done|discriminate Hpos; lia]).
    apply range_upd_nil in Hpost as ->. eexists. split; [done|]. split; [done|].
    by rewrite (live_cat_of T R R Ht (lt_nodup _ _ Ht)) in Ha'.
Qed.

Lemma table_delete_ok v len id T R L0 w :
  lpm_inv w T L0 R -> view_ok v -> 0 <= len <= 128 ->
  table_del_post v len id T R L0 (lpm_delete v len id T w).
Proof.
  intros. destruct (Z.ltb_spec 16 len); [apply del_long|apply del_short]; (done || lia).
Qed.

(** ** Emptying the table *)

Lemma entry_delete_all_spec hd w L0 cat l :
  acct w L0 (live cat ((cell_item <$> hd) ++ l)) ((cell_item <$> hd) ++ l) ->
  (forall p, refs p ((cell_item <$> hd) ++ l) < 2 ^ 32) ->
  exists w', lpm_entry_delete_all hd w = Some w' /\ acct w' L0 (live cat l) l.
Proof.
  revert w. induction hd as [|e hd IH]; intros w Ha Hrc; [by eexists|].
  rewrite fmap_cons in Ha, Hrc. cbn [app] in Ha, Hrc. cbn [lpm_entry_delete_all].
  destruct (acct_put _ _ _ _ _ _ Ha (Hrc _)) as (w1 & w2 & -> & Hf & Ha2). opt. rewrite Hf. opt.
  change (cell_item e) with (IEnt (le_addr e) (le_ptr e)) in Ha2. rewrite live_put in Ha2.
  apply IH; [done|]. intros p. specialize (Hrc p). rewrite refs_cons in Hrc. case_decide; lia.
Qed.

(** [_lpm_delete_all] frees everything below a node. *)
Definition emptied (w : W) (L0 : gset Z) (cat : catalog) (l : list item) (nd : lpm_node)
    (res : option (lpm_node * W)) : Prop :=
  exists w', res = Some (LpmNode (node_head nd) None, w') /\
    acct w' L0 (live cat ((cell_item <$> node_head nd) ++ l)) ((cell_item <$> node_head nd) ++ l).

Lemma upd_all_empty (f : lpm_node -> W -> option (lpm_node * W)) tbl w L0 cat l :
  (forall c, c ∈ tbl -> forall w l, acct w L0 (live cat (fp c ++ l)) (fp c ++ l) ->
     (forall p, refs p (fp c ++ l) < 2 ^ 32) -> emptied w L0 cat l c (f c w)) ->
  acct w L0 (live cat (flat_map fp tbl ++ l)) (flat_map fp tbl ++ l) ->
  (forall p, refs p (flat_map fp tbl ++ l) < 2 ^ 32) ->
  exists w', upd_all (delete_all_node f) tbl w = Some ((fun _ => lpm_init_node) <$> tbl, w') /\
    acct w' L0 (live cat l) l.
Proof.
  revert w. induction tbl as [|c tbl IH]; intros w Hf Ha Hrc; [by eexists|].
  cbn [flat_map upd_all] in *. rewrite <- (assoc_L (++)) in Ha. setoid_rewrite <- (assoc_L (++)) in Hrc.
  destruct (Hf c ltac:(by left) w _ Ha Hrc) as (w1 & Hrun & Ha1).
  assert (forall p, refs p ((cell_item <$> node_head c) ++ flat_map fp tbl ++ l) < 2 ^ 32) as Hrc1.
  { intros p. specialize (Hrc p). rewrite fp_node in Hrc. eapply Z.le_lt_trans; [|exact Hrc].
    unfold refs. rewrite !filter_app, !length_app. lia. }
  assert (forall p, refs p (flat_map fp tbl ++ l) < 2 ^ 32) as Hrc2.
  { intros p. specialize (Hrc p). eapply Z.le_lt_trans; [|exact Hrc].
    unfold refs. rewrite !filter_app, !length_app. lia. }
  assert (exists w2, delete_all_node f c w = Some (lpm_init_node, w2) /\
            acct w2 L0 (live cat (flat_map fp tbl ++ l)) (flat_map fp tbl ++ l)) as (w2 & -> & Ha2).
  { unfold delete_all_node. rewrite Hrun. opt. cbn [node_head].
    destruct (entry_delete_all_spec (node_head c) w1 L0 cat _ Ha1 Hrc1) as (w2 & E & Ha2).
    destruct (node_head c) as [|e hd]; cbn [hlist_empty]; [by exists w1|].
    rewrite E. opt. by exists w2. }
  opt. destruct (IH w2) as (w3 & E3 & Ha3); [|done|done|].
  { intros d Hd. apply Hf. by right. }
  rewrite E3. opt. by exists w3.
Qed.

Lemma delete_all_spec nd w L0 cat l :
  wf_node nd -> acct w L0 (live cat (fp nd ++ l)) (fp nd ++ l) ->
  (forall p, refs p (fp nd ++ l) < 2 ^ 32) -> emptied w L0 cat l nd (_lpm_delete_all nd w).
Proof.
  intros Hwf. revert w l. induction Hwf as [h|h a tbl Hlen Hwf IH]; intros w l Ha Hrc.
  { exists w. cbn in Ha. rewrite (right_id_L [] (++)) in Ha. done. }
  rewrite fp_table_perm in Ha. setoid_rewrite fp_table_perm in Hrc. cbn [_lpm_delete_all].
  destruct (upd_all_empty (fun nd w => _lpm_delete_all nd w) tbl w L0 cat
              (ITab a :: (cell_item <$> h) ++ l)) as (w1 & E & Ha1); [|exact Ha|exact Hrc|].
  { intros c Hc. apply list_elem_of_lookup in Hc as [i Hi]. intros. by eapply IH. }
  change (upd_all (delete_all_node (fun nd w => _lpm_delete_all nd w)) tbl w)
    with (upd_all (fun node w => delete_all_node _lpm_delete_all node w) tbl w) in E.
  rewrite E. opt.
  destruct (acct_free_table _ _ _ _ _ Ha1) as (w2 & -> & Ha2). opt. exists w2. split; [done|].
  cbn [node_head]. replace (live cat ((cell_item <$> h) ++ l))
    with (live cat (ITab a :: (cell_item <$> h) ++ l)); [done|].
  unfold live. apply map_filter_ext. intros p c _. cbn [fst]. by rewrite refs_cons.
Qed.

Lemma table_delete_all_ok T R L0 w :
  lpm_inv w T L0 R ->
  exists w', lpm_delete_all T w = Some (lpm_init, w') /\ w_inv w' L0 ∅.
Proof.
  intros [Ht Ha]. pose proof (acct_live _ _ _ _ Ht Ha) as Hlv.
  destruct (lt_rep _ _ Ht) as [Hlen Hwf _].
  destruct (upd_all_empty _lpm_delete_all T w L0 (cat_of R) []) as (w' & E & Ha').
  - intros c Hc. apply list_elem_of_lookup in Hc as [i Hi]. intros. apply delete_all_spec; eauto.
  - by rewrite (right_id_L [] (++)).
  - intros p. rewrite (right_id_L [] (++)). pose proof (lt_refs _ _ Ht p). lia.
  - exists w'. unfold lpm_delete_all. rewrite E. split.
    + f_equal. f_equal. unfold lpm_init. rewrite <- Hlen. clear.
      induction T as [|x T IH]; [done|]. cbn. by rewrite <- IH.
    + pose proof (ac_inv _ _ _ _ Ha') as Hi. change (addrs []) with (∅ : gset Z) in Hi.
      rewrite (right_id_L ∅ (∪)) in Hi.
      replace (objs (live (cat_of R) []) []) with (∅ : gmap Z obj) in Hi; [done|].
      apply map_eq. intros p. rewrite objs_lookup, lookup_empty. unfold live.
      rewrite map_lookup_filter. destruct (cat_of R !! p); [|done]. cbn.
      rewrite option_guard_False; [done|]. unfold refs. cbn. lia.
Qed.

End Table.
