(* ===== verification/Fib.v ===== *)
(** * The forwarding information base (src/src/fib.c, src/src/fib.h)

    The route objects of the longest-prefix-match table.  The state of the
    component is the allocator together with the [struct fib_entry] objects by
    address; the functions of fib.c given to [struct lpm_table] are the instance
    [fib_ops], and [fib_lpm_spec] shows that they meet the interface [LpmSpec]
    of the table, over any allocator that meets [AllocatorSpec]. *)

From stdpp Require Import prelude fin_maps gmap list.
From S2P Require Import Prelude Alloc Lpm LpmFacts LpmAcct LpmAdd LpmDel LpmLookup LpmTable.

(** ** Data *)

Inductive fib_type := FIB_TYPE_FORWARD | FIB_TYPE_LINK | FIB_TYPE_LOCAL.

(** What a route says, fixed when it is made. *)
Record fib_data := FibData {
  fe_prefix : list Z;
  fe_nexthop : list Z;
  fe_port_index : Z;
  fe_type : fib_type
}.

Record fib_entry := FibEntry {
  fe_data : fib_data;
  fe_prefix_len : Z;
  fe_id : Z;
  fe_refcount : Z
}.

Definition sizeof_fib_entry : Z := 52.
Definition sizeof_fib : Z := sizeof_lpm_node * TABLE_SIZE_16 + 5 * 8.

(** [struct fib]: its address and its table. *)
Record fib := Fib { fib_addr : Z; fib_table : list lpm_node }.

Section Fib.

Context {A : Type} `{Allocator A}.

Record fib_world := FibWorld {
  fw_mem : A;
  fw_ents : gmap Z fib_entry
}.

(** [ixmap_mem_alloc] and [ixmap_mem_free]; a freed object is gone. *)
Definition fw_alloc (n : Z) (w : fib_world) : option (option Z * fib_world) :=
  '(r, m) ← al_alloc n (fw_mem w);
  Some (r, FibWorld m (fw_ents w)).

Definition fw_free (x : Z) (w : fib_world) : option fib_world :=
  m ← al_free x (fw_mem w);
  Some (FibWorld m (delete x (fw_ents w))).

Definition set_refcount (n : Z) (e : fib_entry) : fib_entry :=
  FibEntry (fe_data e) (fe_prefix_len e) (fe_id e) n.

Definition fw_store (p : Z) (e : fib_entry) (w : fib_world) : fib_world :=
  FibWorld (fw_mem w) (<[p := e]> (fw_ents w)).

(** [entry->id] is an [int] compared with an [unsigned int]. *)
Definition fib_entry_identify (ptr id prefix_len : Z) (w : fib_world) : option Z :=
  e ← fw_ents w !! ptr;
  Some (if (u32 (fe_id e) =? id) && (fe_prefix_len e =? prefix_len) then 0 else 1).

Definition fib_entry_compare (ptr prefix_len : Z) (w : fib_world) : option Z :=
  e ← fw_ents w !! ptr;
  Some (if prefix_len <? fe_prefix_len e then 1 else 0).

Definition fib_entry_pull (ptr : Z) (w : fib_world) : option fib_world :=
  e ← fw_ents w !! ptr;
  Some (fw_store ptr (set_refcount (u32 (fe_refcount e + 1)) e) w).

Definition fib_entry_put (ptr : Z) (w : fib_world) : option fib_world :=
  e ← fw_ents w !! ptr;
  let n := u32 (fe_refcount e - 1) in
  let w1 := fw_store ptr (set_refcount n e) w in
  if n =? 0 then fw_free ptr w1 else Some w1.

#[export] Instance fib_ops : LpmOps fib_world := {
  w_alloc := fw_alloc;
  w_free := fw_free;
  entry_identify := fib_entry_identify;
  entry_compare := fib_entry_compare;
  entry_pull := fib_entry_pull;
  entry_put := fib_entry_put
}.

(** ** Operations *)

Definition fib_alloc (w : fib_world) : option (option fib * fib_world) :=
  '(r, w1) ← fw_alloc sizeof_fib w;
  Some (match r with None => None | Some x => Some (Fib x lpm_init) end, w1).

Definition fib_release (f : fib) (w : fib_world) : option fib_world :=
  '(_, w1) ← lpm_delete_all (fib_table f) w;
  fw_free (fib_addr f) w1.

Definition fib_route_update (f : fib) (family : Z) (type : fib_type) (prefix : view)
    (prefix_len : Z) (nexthop : view) (port_index id : Z) (w : fib_world)
  : option (Z * fib * fib_world) :=
  '(r, w1) ← fw_alloc sizeof_fib_entry w;
  match r with
  | None => Some (-1, f, w1)
  | Some entry =>
    match family_bytes family with
    | None => w2 ← fw_free entry w1; Some (-1, f, w2)
    | Some n =>
      let e := FibEntry (FibData (copy_bytes prefix n) (copy_bytes nexthop n) port_index type)
                        prefix_len id 0 in
      '(ret, table, w2) ← lpm_add prefix prefix_len (u32 id) entry (fib_table f) (fw_store entry e w1);
      let f' := Fib (fib_addr f) table in
      if ret <? 0 then w3 ← fw_free entry w2; Some (-1, f', w3)
      else Some (0, f', w2)
    end
  end.

Definition fib_route_delete (f : fib) (family : Z) (prefix : view) (prefix_len id : Z) (w : fib_world)
  : option (Z * fib * fib_world) :=
  '(ret, table, w1) ← lpm_delete prefix prefix_len (u32 id) (fib_table f) w;
  Some (if ret <? 0 then -1 else 0, Fib (fib_addr f) table, w1).

(** The address of the entry found. *)
Definition fib_lookup (f : fib) (destination : view) : option (option Z) :=
  e ← lpm_lookup (fib_table f) destination;
  Some (match e with None => None | Some e => Some (le_ptr e) end).

End Fib.

Arguments fib_world : clear implicits.

(** ** The interface of the table *)

Section FibSpec.

Context {A : Type} `{AllocatorSpec A}.

Definition obj_of (e : fib_entry) : obj := Obj (u32 (fe_id e)) (fe_prefix_len e) (fe_refcount e).

(** [D] gives the contents of every entry: the table's operations change
    nothing but reference counts. *)
Definition fib_winv (D : gmap Z fib_data) (w : fib_world A) (L : gset Z) (O : gmap Z obj) : Prop :=
  exists C, al_inv (fw_mem w) C /\ dom C = L ∪ dom (fw_ents w) /\ L ## dom (fw_ents w) /\
    O = obj_of <$> fw_ents w /\
    forall p e, fw_ents w !! p = Some e -> D !! p = Some (fe_data e).

Lemma fib_alloc_ok D w L O n :
  fib_winv D w L O -> 0 < n <= max_request ->
  exists r w', fw_alloc n w = Some (r, w') /\ fw_ents w' = fw_ents w /\
    match r with
    | None => fib_winv D w' L O
    | Some x => x ∉ L /\ fw_ents w !! x = None /\ fib_winv D w' ({[x]} ∪ L) O
    end.
Proof.
  intros (C & Hal & Hdom & Hdisj & HO & HD) Hn.
  destruct (al_alloc_spec _ _ _ Hal Hn) as (r & m & E & Hpost). unfold fw_alloc. rewrite E. opt.
  eexists _, _. split; [done|]. split; [done|]. destruct r as [x|].
  - destruct Hpost as (Hx & c & Hc & Hinv). apply not_elem_of_dom in Hx. rewrite Hdom in Hx.
    assert (x ∉ L /\ x ∉ dom (fw_ents w)) as [HxL Hxe] by set_solver.
    split_and!; [done|by apply not_elem_of_dom|]. exists (<[x := c]> C). cbn. split_and!; try done.
    + rewrite dom_insert_L, Hdom. by rewrite (assoc_L (∪)).
    + set_solver.
  - by exists C.
Qed.

Lemma fib_free_ok D w L O x :
  fib_winv D w L O -> x ∈ L ->
  exists w', fw_free x w = Some w' /\ fw_ents w' = fw_ents w /\ fib_winv D w' (L ∖ {[x]}) O.
Proof.
  intros (C & Hal & Hdom & Hdisj & HO & HD) Hx.
  assert (x ∈ dom C) as [c Hc]%elem_of_dom by (rewrite Hdom; set_solver).
  assert (x ∉ dom (fw_ents w)) as Hxe by set_solver.
  destruct (al_free_spec _ _ _ _ Hal Hc) as (m & E & Hinv). unfold fw_free. rewrite E. opt.
  assert (delete x (fw_ents w) = fw_ents w) as Ed by (apply delete_id; by apply not_elem_of_dom).
  eexists. split; [done|]. cbn. split; [done|]. rewrite Ed. exists (delete x C). cbn. split_and!; try done.
  - rewrite dom_delete_L, Hdom. apply leibniz_equiv. set_solver.
  - set_solver.
Qed.

(** Freeing an entry. *)
Lemma fib_free_entry D w L O p :
  fib_winv D w L O -> is_Some (fw_ents w !! p) ->
  exists w', fw_free p w = Some w' /\ fib_winv D w' L (delete p O).
Proof.
  intros (C & Hal & Hdom & Hdisj & -> & HD) Hp. apply elem_of_dom in Hp.
  assert (p ∈ dom C) as [c Hc]%elem_of_dom by (rewrite Hdom; set_solver).
  destruct (al_free_spec _ _ _ _ Hal Hc) as (m & E & Hinv). unfold fw_free. rewrite E. opt.
  eexists. split; [done|]. exists (delete p C). cbn. split_and!; [done| | |by rewrite fmap_delete|].
  - rewrite !dom_delete_L, Hdom. apply leibniz_equiv. set_solver.
  - rewrite dom_delete_L. set_solver.
  - intros q e [_ Hq]%lookup_delete_Some. eauto.
Qed.

(** Writing a count into an entry. *)
Lemma fib_store_count D w L O p e n :
  fib_winv D w L O -> fw_ents w !! p = Some e ->
  fib_winv D (fw_store p (set_refcount n e) w) L (<[p := Obj (u32 (fe_id e)) (fe_prefix_len e) n]> O).
Proof.
  intros (C & Hal & Hdom & Hdisj & -> & HD) Hp. exists C. cbn. split_and!; try done.
  - rewrite dom_insert_lookup_L by eauto. done.
  - rewrite dom_insert_lookup_L by eauto. done.
  - by rewrite fmap_insert.
  - intros q x [[<- <-]|[_ Hq]]%lookup_insert_Some; cbn; eauto.
Qed.

#[export] Instance fib_lpm_spec (D : gmap Z fib_data) : LpmSpec (fib_world A).
Proof.
  refine {| w_inv := fib_winv D |}.
  - intros w L O n Hi Hn. destruct (fib_alloc_ok D w L O n Hi Hn) as (r & w' & E & _ & Hp).
    exists r, w'. split; [exact E|]. destruct r; tauto.
  - intros w L O x Hi Hx. destruct (fib_free_ok D w L O x Hi Hx) as (w' & E & _ & Hp).
    exists w'. split; [exact E|exact Hp].
  - intros w L O p o id len (C & _ & _ & _ & -> & _) Hp. rewrite lookup_fmap in Hp. cbn.
    unfold fib_entry_identify. destruct (fw_ents w !! p) as [e|]; [|done]. cbn in Hp. by simplify_eq.
  - intros w L O p o len (C & _ & _ & _ & -> & _) Hp. rewrite lookup_fmap in Hp. cbn.
    unfold fib_entry_compare. destruct (fw_ents w !! p) as [e|]; [|done]. cbn in Hp. by simplify_eq.
  - intros w L O p o Hi Hp Hrc Hlt. pose proof Hi as (C & _ & _ & _ & EO & _). rewrite EO, lookup_fmap in Hp.
    destruct (fw_ents w !! p) as [e|] eqn:Ee; [|done]. cbn in Hp. simplify_eq. cbn in *.
    unfold fib_entry_pull. rewrite Ee. opt. eexists. split; [done|].
    unfold u32 at 1. rewrite Z.mod_small by lia. by apply (fib_store_count D _ _ _ _ _ _ Hi).
  - intros w L O p o Hi Hp Hrc. pose proof Hi as (C & _ & _ & _ & EO & _). rewrite EO, lookup_fmap in Hp.
    destruct (fw_ents w !! p) as [e|] eqn:Ee; [|done]. cbn in Hp. simplify_eq. cbn [o_rc o_id o_len obj_of] in *.
    cbn [entry_put fib_ops]. unfold fib_entry_put. rewrite Ee. opt. unfold u32 at 1 3.
    rewrite Z.mod_small by lia.
    pose proof (fib_store_count D w L _ p e (fe_refcount e - 1) Hi Ee) as Hst.
    destruct (Z.eqb_spec (fe_refcount e) 1) as [E1|E1].
    + rewrite E1 in *. cbn [Z.sub Z.add Z.opp Z.pos_sub Z.eqb].
      destruct (fib_free_entry D _ L _ p Hst) as (w' & Ew & Hw').
      { cbn. rewrite lookup_insert_eq. eauto. }
      exists w'. split; [exact Ew|]. by rewrite delete_insert_eq in Hw'.
    + rewrite (proj2 (Z.eqb_neq (fe_refcount e - 1) 0)) by lia. eexists. split; [done|]. done.
Defined.

End FibSpec.
