(* ===== verification/FibFacts.v ===== *)
(** * The forwarding information base: correctness

    [fib_rep] relates a FIB to the list of its routes, newest first, each with
    the contents of its entry.  Lookup, update, deletion and release are proved
    against that list, for any allocator. *)

From stdpp Require Import prelude fin_maps gmap list.
From S2P Require Import Prelude Alloc Lpm LpmFacts LpmAcct LpmAdd LpmDel LpmLookup LpmTable Fib.

Section FibFacts.

Context {A : Type} `{AllocatorSpec A}.

Definition data_map (FL : list (route * fib_data)) : gmap Z fib_data :=
  list_to_map ((fun x => (rt_ptr x.1, x.2)) <$> FL).

(** The routes [FL], over the live blocks [L0] of other owners. *)
Definition fib_rep (w : fib_world A) (f : fib) (L0 : gset Z) (FL : list (route * fib_data)) : Prop :=
  fib_addr f ∉ L0 /\
  lpm_inv (H0 := fib_lpm_spec (data_map FL)) w (fib_table f) ({[fib_addr f]} ∪ L0) FL.*1.

(** The contents of entries that are not there do not matter. *)
Lemma fib_winv_data D D' w L O :
  fib_winv D w L O -> (forall p, is_Some (fw_ents w !! p) -> D !! p = D' !! p) -> fib_winv D' w L O.
Proof.
  intros (C & Hal & Hdom & Hdisj & HO & HD) Heq. exists C. split_and!; try done.
  intros p e Hp. rewrite <- Heq by eauto. eauto.
Qed.

Lemma acct_data D D' (w : fib_world A) L0 cat l :
  acct (H0 := fib_lpm_spec D) w L0 cat l ->
  (forall p, is_Some (cat !! p) -> D !! p = D' !! p) ->
  acct (H0 := fib_lpm_spec D') w L0 cat l.
Proof.
  intros [Hi Hn Hf Hc] Heq. split; try done.
  eapply fib_winv_data; [exact Hi|]. intros p Hp. apply Heq.
  destruct Hi as (C & _ & _ & _ & HO & _). apply (f_equal (fun O => O !! p)) in HO.
  rewrite objs_lookup, lookup_fmap in HO. destruct Hp as [e He]. rewrite He in HO. destruct (cat !! p); [eauto|done].
Qed.

Lemma data_map_lookup FL r d :
  NoDup (rt_ptr <$> FL.*1) -> (r, d) ∈ FL -> data_map FL !! rt_ptr r = Some d.
Proof.
  intros Hnd Hin. apply elem_of_list_to_map_1.
  - rewrite <- list_fmap_compose. rewrite <- list_fmap_compose in Hnd. exact Hnd.
  - apply list_elem_of_fmap. by exists (r, d).
Qed.

Lemma cat_of_Some R p c : cat_of R !! p = Some c -> exists r, r ∈ R /\ rt_ptr r = p.
Proof.
  intros Hp%elem_of_list_to_map_2. apply list_elem_of_fmap in Hp as (r & E & Hr).
  simplify_eq. eauto.
Qed.

(** A new entry is written into the block just allocated. *)
Lemma acct_new_entry D w L0 R l r e d :
  acct (H0 := fib_lpm_spec D) w ({[rt_ptr r]} ∪ L0) (cat_of R) l -> rt_ptr r ∉ L0 ->
  fw_ents w !! rt_ptr r = None -> (forall r', r' ∈ R -> rt_ptr r' <> rt_ptr r) ->
  fe_data e = d -> fe_prefix_len e = rt_len r -> u32 (fe_id e) = rt_id r -> fe_refcount e = 0 ->
  acct (H0 := fib_lpm_spec (<[rt_ptr r := d]> D)) (fw_store (rt_ptr r) e w) L0 (cat_of (r :: R)) l.
Proof.
  intros [Hi Hn Hf Hc] Hx Hno Hnew Hd Hlen Hid Hrc. destruct Hi as (C & Hal & Hdom & Hdisj & HO & HD).
  assert (cat_of (r :: R) = <[rt_ptr r := (rt_id r, rt_len r)]> (cat_of R)) as Ecat by done.
  assert (refs (rt_ptr r) l = 0) as Href.
  { apply refs_zero. intros a Ha. destruct (Hc _ _ Ha) as [c (r' & Hr' & E)%cat_of_Some].
    by apply (Hnew r'). }
  split; [|done|set_solver|].
  - exists C. cbn [fw_store fw_mem fw_ents]. split_and!.
    + done.
    + rewrite dom_insert_L, Hdom. apply leibniz_equiv. set_solver.
    + rewrite dom_insert_L. set_solver.
    + apply map_eq. intros p. rewrite Ecat, objs_lookup, lookup_fmap.
      destruct (decide (p = rt_ptr r)) as [->|Hne].
      * rewrite !lookup_insert_eq. cbn. unfold obj_of. by rewrite Href, Hlen, Hid, Hrc.
      * rewrite !lookup_insert_ne by done. apply (f_equal (fun O => O !! p)) in HO.
        by rewrite objs_lookup, lookup_fmap in HO.
    + intros p x [[<- <-]|[Hne Hp]]%lookup_insert_Some; [by rewrite lookup_insert_eq, Hd|].
      rewrite lookup_insert_ne by done. eauto.
  - intros a p Ha. rewrite Ecat. destruct (decide (p = rt_ptr r)) as [->|Hne].
    + rewrite lookup_insert_eq. eauto.
    + rewrite lookup_insert_ne by done. eauto.
Qed.

(** Freeing an entry that no cell refers to. *)
Lemma acct_drop_entry D w L0 R l r :
  acct (H0 := fib_lpm_spec D) w L0 (cat_of (r :: R)) l ->
  (forall r', r' ∈ R -> rt_ptr r' <> rt_ptr r) ->
  (forall a p, IEnt a p ∈ l -> is_Some (cat_of R !! p)) ->
  exists w', fw_free (rt_ptr r) w = Some w' /\ acct (H0 := fib_lpm_spec D) w' L0 (cat_of R) l.
Proof.
  intros [Hi Hn Hf Hc] Hnew Hcat.
  assert (cat_of (r :: R) = <[rt_ptr r := (rt_id r, rt_len r)]> (cat_of R)) as Ecat by done.
  destruct (fib_free_entry D w _ _ (rt_ptr r) Hi) as (w' & Hw & Hi').
  { destruct Hi as (C & _ & _ & _ & HO & _). apply (f_equal (fun O => O !! rt_ptr r)) in HO.
    rewrite objs_lookup, lookup_fmap, Ecat, lookup_insert_eq in HO.
    destruct (fw_ents w !! rt_ptr r); [eauto|done]. }
  exists w'. split; [done|]. split; [|done|done|done].
  replace (objs (cat_of R) l) with (delete (rt_ptr r) (objs (cat_of (r :: R)) l)); [exact Hi'|].
  apply map_eq. intros p. rewrite objs_lookup. destruct (decide (p = rt_ptr r)) as [->|Hne].
  - rewrite lookup_delete_eq, cat_of_None; [done|]. intros r' Hr' E. by apply (Hnew r').
  - by rewrite lookup_delete_ne, objs_lookup, Ecat, lookup_insert_ne by done.
Qed.

(** The route a call to [fib_route_update] asks for. *)
Definition new_data (family : Z) (type : fib_type) (prefix nexthop : view) (port_index : Z) : fib_data :=
  let n := default 0%nat (family_bytes family) in
  FibData (copy_bytes prefix n) (copy_bytes nexthop n) port_index type.

Definition al_can_fail : Prop := exists n a a', al_alloc n a = Some (None, a').

Lemma fw_can_fail n w w' : fw_alloc n w = Some (None, w') -> al_can_fail.
Proof.
  unfold fw_alloc. destruct (al_alloc n (fw_mem w)) as [[r m]|] eqn:E; [|done].
  cbn. intros [= -> _]. unfold al_can_fail. eauto.
Qed.

Lemma lpm_can_fail : can_fail (W := fib_world A) -> al_can_fail.
Proof. intros (n & w & w' & E). exact (fw_can_fail n w w' E). Qed.

(** [fib_route_update] for a valid family: a new route is added; a route already
    there is refused and nothing changes; or the allocator failed. *)
Definition update_post (v : view) (len id : Z) (d : fib_data) (L0 : gset Z)
    (FL : list (route * fib_data)) (res : option (Z * fib * fib_world A)) : Prop :=
  let D := present v len (u32 id) FL.*1 in
  (D = false /\ exists x f' w', res = Some (0, f', w') /\
     fib_rep w' f' L0 ((Route v len (u32 id) x, d) :: FL)) \/
  (D = true /\ exists f' w', res = Some (-1, f', w') /\ fib_rep w' f' L0 FL) \/
  (D = false /\ al_can_fail /\ forall f' w', res <> Some (0, f', w')).

(** After the entry is allocated and filled in, the table can take it. *)
Lemma fib_new_entry w f L0 FL x w1 r e d :
  fib_rep w f L0 FL -> fw_alloc sizeof_fib_entry w = Some (Some x, w1) ->
  rt_ptr r = x -> fe_data e = d -> fe_prefix_len e = rt_len r -> u32 (fe_id e) = rt_id r ->
  fe_refcount e = 0 ->
  (forall r', r' ∈ FL.*1 -> rt_ptr r' <> x) /\
  acct (H0 := fib_lpm_spec (data_map ((r, d) :: FL))) (fw_store x e w1)
    ({[fib_addr f]} ∪ L0) (cat_of (r :: FL.*1)) (flat_map fp (fib_table f)).
Proof.
  intros [Hfa [Ht Ha]] E Hx Hed Hlen Hid Hrc.
  destruct (fib_alloc_ok _ _ _ _ sizeof_fib_entry (ac_inv _ _ _ _ Ha)) as (res & w1' & E' & He & Hres);
    [done|]. rewrite E in E'. simplify_eq. destruct Hres as (HxL & Hxe & Hi1).
  assert (forall r', r' ∈ FL.*1 -> rt_ptr r' <> rt_ptr r) as Hnew.
  { intros r' Hr' Ex. destruct (ac_inv _ _ _ _ Ha) as (C & _ & _ & _ & HO & _).
    apply (f_equal (fun O => O !! rt_ptr r)) in HO. rewrite objs_lookup, lookup_fmap, Hxe, <- Ex in HO.
    by rewrite (cat_of_lookup FL.*1 r' (lt_nodup _ _ Ht) Hr') in HO. }
  split; [done|].
  change (data_map ((r, fe_data e) :: FL)) with (<[rt_ptr r := fe_data e]> (data_map FL)).
  apply (acct_new_entry _ w1' _ FL.*1 _ r); try done.
  - destruct Ha as [Hi Hnd Hf Hc]. split; try done; [|set_solver]. by rewrite <- (assoc_L (∪)).
  - set_solver.
  - by rewrite He.
Qed.

Lemma fib_update_ok f family type v len nh port id w L0 FL :
  fib_rep w f L0 FL -> view_ok v -> 0 <= len <= 128 -> is_Some (family_bytes family) ->
  update_post v len id (new_data family type v nh port) L0 FL
    (fib_route_update f family type v len nh port id w).
Proof.
  intros Hrep Hv Hl [n Hn]. pose proof Hrep as [Hfa [Ht Ha]]. unfold fib_route_update.
  destruct (fib_alloc_ok _ _ _ _ sizeof_fib_entry (ac_inv _ _ _ _ Ha)) as (res & w1 & E & He & Hres);
    [done|]. rewrite E. opt. destruct res as [x|].
  2: { destruct (present v len (u32 id) FL.*1) eqn:ED.
       - right. left. split; [done|]. exists f, w1. split; [done|]. split; [done|]. split; [done|].
         destruct Ha. by split.
       - right. right. split_and!; [done|by eapply fw_can_fail|done]. }
  clear Hres. rewrite Hn. set (e := FibEntry _ _ _ _). set (r := Route v len (u32 id) x).
  assert (fe_data e = new_data family type v nh port) as Hed by (unfold new_data; by rewrite Hn).
  set (d := new_data family type v nh port) in *.
  destruct (fib_new_entry w f L0 FL x w1 r e d Hrep E) as [Hnew Ha1]; try done.
  assert (data_map ((r, d) :: FL) = <[x := d]> (data_map FL)) as ED by done.
  destruct (table_add_ok (H0 := fib_lpm_spec (data_map ((r, d) :: FL))) r (fib_table f) FL.*1
              ({[fib_addr f]} ∪ L0) (fw_store x e w1) Ht)
    as [(HD & T' & w' & Hrun & Hinv)|[(HD & T' & w' & Hrun & Ht' & Ha')|(HD & Hf & Hno)]];
    [by split|done|exact Ha1| | |].
  - change (lpm_add v len (u32 id) x (fib_table f) (fw_store x e w1) = Some (0, T', w')) in Hrun.
    rewrite Hrun. opt. left. split; [exact HD|]. exists x. eexists _, _. split; [done|]. by split.
  - change (lpm_add v len (u32 id) x (fib_table f) (fw_store x e w1) = Some (-1, T', w')) in Hrun.
    rewrite Hrun. opt. cbn [Z.ltb Z.compare].
    assert (forall a p, IEnt a p ∈ flat_map fp T' -> is_Some (cat_of FL.*1 !! p)) as Hcat.
    { intros a p Hin. destruct (proj1 (table_ptr_iff T' FL.*1 p (lt_rep _ _ Ht') (lt_ok _ _ Ht')))
        as (r' & Hr' & <-); [eauto|]. rewrite cat_of_lookup by (done || apply Ht'). eauto. }
    destruct (acct_drop_entry _ w' _ FL.*1 _ r Ha' Hnew Hcat) as (w2 & E2 & Ha2).
    cbn in E2. rewrite E2. opt. right. left. split; [exact HD|]. eexists _, _. split; [done|].
    split; [done|]. split; [done|]. eapply acct_data; [exact Ha2|]. intros p [c (r' & Hr' & <-)%cat_of_Some].
    rewrite ED, lookup_insert_ne; [done|]. intros Ex. by apply (Hnew r').
  - right. right. split; [exact HD|]. split; [by apply lpm_can_fail|]. intros f' w'.
    change (forall T' w', lpm_add v len (u32 id) x (fib_table f) (fw_store x e w1) <> Some (0, T', w')) in Hno.
    destruct (lpm_add _ _ _ _ _ _) as [[[ret T'] w2]|] eqn:Er; opt; [|done].
    destruct (ret <? 0) eqn:Eret; [by destruct (fw_free x w2)|].
    assert (ret = 0 \/ ret = -1) as [->| ->] by (by eapply lpm_add_ret); [by destruct (Hno T' w2)|done].
Qed.

(** An unknown family leaves the FIB as it was. *)
Lemma fib_update_bad_family f family type v len nh port id w L0 FL :
  fib_rep w f L0 FL -> family_bytes family = None ->
  exists w', fib_route_update f family type v len nh port id w = Some (-1, f, w') /\ fib_rep w' f L0 FL.
Proof.
  intros [Hfa [Ht Ha]] Hn. unfold fib_route_update.
  destruct (fib_alloc_ok _ _ _ _ sizeof_fib_entry (ac_inv _ _ _ _ Ha)) as (res & w1 & E & He & Hres);
    [done|]. rewrite E. opt. destruct res as [x|].
  - destruct Hres as (HxL & Hxe & Hi1). rewrite Hn.
    destruct (fib_free_ok _ _ _ _ x Hi1) as (w2 & E2 & _ & Hi2); [set_solver|]. rewrite E2. opt.
    exists w2. split; [done|]. split; [done|]. split; [done|]. destruct Ha as [Hi Hnd Hf Hc]. split; try done.
    match type of Hi2 with fib_winv _ _ ?L _ => replace L with
      ({[fib_addr f]} ∪ L0 ∪ addrs (flat_map fp (fib_table f))) in Hi2 by (apply leibniz_equiv; set_solver) end.
    exact Hi2.
  - exists w1. split; [done|]. split; [done|]. split; [done|]. destruct Ha. by split.
Qed.

Definition del_fib (v : view) (len id : Z) (FL : list (route * fib_data)) : list (route * fib_data) :=
  filter (fun x => is_route v len (u32 id) x.1 = false) FL.

Lemma del_fib_routes v len id FL : (del_fib v len id FL).*1 = del_routes v len (u32 id) FL.*1.
Proof.
  unfold del_fib, del_routes. induction FL as [|[r d] FL IH]; [done|].
  rewrite filter_cons. cbn [fmap list_fmap fst]. rewrite filter_cons.
  case_decide; cbn; by rewrite IH.
Qed.

Lemma fib_delete_ok f family v len id w L0 FL :
  fib_rep w f L0 FL -> view_ok v -> 0 <= len <= 128 ->
  if present v len (u32 id) FL.*1
  then exists f' w', fib_route_delete f family v len id w = Some (0, f', w') /\
         fib_rep w' f' L0 (del_fib v len id FL)
  else exists w', fib_route_delete f family v len id w = Some (-1, f, w') /\ fib_rep w' f L0 FL.
Proof.
  intros [Hfa Hinv] Hv Hl. unfold fib_route_delete.
  pose proof (table_delete_ok (H0 := fib_lpm_spec (data_map FL)) v len (u32 id) _ _ _ _ Hinv Hv Hl) as Hpost.
  unfold table_del_post in Hpost. destruct (present v len (u32 id) FL.*1).
  - destruct Hpost as (T' & w' & Hrun & Ht' & Ha'). rewrite Hrun. opt. eexists _, _. split; [done|].
    split; [done|]. rewrite <- del_fib_routes in Ht', Ha'. split; [done|].
    eapply acct_data; [exact Ha'|]. intros p [c (r & Hr & <-)%cat_of_Some].
    apply list_elem_of_fmap in Hr as ([r' d] & -> & Hr). cbn.
    rewrite (data_map_lookup (del_fib v len id FL) r' d (lt_nodup _ _ Ht') Hr).
    apply data_map_lookup; [apply (lt_nodup _ _ (proj1 Hinv))|].
    by apply list_elem_of_filter in Hr as [_ Hr].
  - destruct Hpost as (w' & Hrun & Hinv'). rewrite Hrun. opt. exists w'. destruct f. split; [done|]. by split.
Qed.

(** The entry a lookup returns: the longest match, with the contents it was
    made with. *)
Lemma fib_lookup_ok f w L0 FL dst :
  fib_rep w f L0 FL -> view_ok dst ->
  fib_lookup f dst = Some (rt_ptr <$> best_route FL.*1 dst) /\
  forall r, best_route FL.*1 dst = Some r ->
    exists d e, (r, d) ∈ FL /\ fw_ents w !! rt_ptr r = Some e /\ fe_data e = d /\
      fe_prefix_len e = rt_len r /\ u32 (fe_id e) = rt_id r.
Proof.
  intros [Hfa [Ht Ha]] Hd. split.
  - destruct (lookup_best _ _ dst (lt_rep _ _ Ht) (lt_ok _ _ Ht) Hd) as (e & E & He).
    unfold fib_lookup. rewrite E. opt. f_equal. rewrite <- He. by destruct e.
  - intros r Hr. apply best_by_spec in Hr as (Hr & _).
    pose proof Hr as ([r' d] & -> & Hin)%list_elem_of_fmap. cbn [fst] in *.
    destruct (ac_inv _ _ _ _ Ha) as (C & _ & _ & _ & HO & HD).
    apply (f_equal (fun O => O !! rt_ptr r')) in HO. rewrite objs_lookup, lookup_fmap in HO.
    rewrite (cat_of_lookup FL.*1 r' (lt_nodup _ _ Ht) Hr) in HO.
    destruct (fw_ents w !! rt_ptr r') as [e|] eqn:Ee; [|done]. cbn in HO.
    exists d, e. split; [done|]. split; [done|]. specialize (HD _ _ Ee).
    rewrite (data_map_lookup FL r' d (lt_nodup _ _ Ht) Hin) in HD. unfold obj_of in HO.
    injection HO as ? ? ?. split_and!; congruence.
Qed.

(** [fib_release] gives back every block of the FIB. *)
Lemma fib_release_ok f w L0 FL :
  fib_rep w f L0 FL ->
  exists w' C, fib_release f w = Some w' /\ al_inv (fw_mem w') C /\ dom C = L0 /\ fw_ents w' = ∅.
Proof.
  intros [Hfa Hinv]. unfold fib_release.
  destruct (table_delete_all_ok (H0 := fib_lpm_spec (data_map FL)) _ _ _ _ Hinv) as (w1 & E & Hi).
  rewrite E. opt.
  destruct (fib_free_ok (data_map FL) w1 _ _ (fib_addr f) Hi) as (w2 & E2 & He & Hi2); [set_solver|].
  exists w2. destruct Hi2 as (C & Hal & Hdom & _ & HO & _). exists C.
  assert (fw_ents w2 = ∅) as Hemp by (symmetry in HO; by apply fmap_empty_inv in HO).
  split_and!; try done. rewrite Hdom, Hemp, dom_empty_L. apply leibniz_equiv. set_solver.
Qed.

Lemma fib_alloc_rep w C :
  al_inv (fw_mem w) C -> fw_ents w = ∅ ->
  exists r w', fib_alloc w = Some (r, w') /\
    match r with
    | None => al_inv (fw_mem w') C /\ fw_ents w' = ∅
    | Some f => fib_rep w' f (dom C) []
    end.
Proof.
  intros Hal He. unfold fib_alloc, fw_alloc.
  destruct (al_alloc_spec _ _ sizeof_fib Hal) as (r & m & E & Hpost); [done|]. rewrite E. opt.
  eexists _, _. split; [done|]. destruct r as [x|]; [|done].
  destruct Hpost as (Hx & c & Hc & Hinv). apply not_elem_of_dom in Hx. split; [done|]. split.
  - split; [apply table_rep_init|by intros ? ?%elem_of_nil|constructor|by intros ? ? ?%elem_of_nil|].
    intros p. unfold lpm_init. cbn [fib_table]. rewrite flat_map_fp_init. unfold refs. cbn. lia.
  - cbn [fib_table]. unfold lpm_init. rewrite flat_map_fp_init. split.
    + exists (<[x := c]> C). cbn. rewrite He. split_and!; [done| |set_solver|done|done].
      rewrite dom_insert_L, dom_empty_L. apply leibniz_equiv. unfold addrs. set_solver.
    + constructor.
    + unfold addrs. set_solver.
    + by intros ? ? ?%elem_of_nil.
Qed.

End FibFacts.
