(* ===== verification/FibProps.v ===== *)
(** * Routing: properties of the table and of the FIB

    The statements about src/src/lpm.c and src/src/fib.c as a whole, their
    instances on concrete inputs, and what happens when memory runs out in the
    middle of an insertion. *)

From stdpp Require Import prelude fin_maps gmap list.
From S2P Require Import Prelude Alloc Quota Mem MemFacts MemNuma MemProps.
From S2P Require Import Lpm LpmFacts LpmAcct LpmAdd LpmDel LpmLookup LpmTable Fib FibFacts.

(** ** The FIB as an abstract object *)

(** A route and what it says, without the address of its entry. *)
Record frec := Frec { fr_pfx : view; fr_len : Z; fr_id : Z; fr_data : fib_data }.

Definition strip (x : route * fib_data) : frec :=
  Frec (rt_pfx x.1) (rt_len x.1) (rt_id x.1) x.2.

Definition is_frec (v : view) (len id : Z) (a : frec) : bool :=
  (fr_id a =? id) && (fr_len a =? len) && pmatch (fr_pfx a) len v.

(** The longest route that matches, the newest among equals. *)
Fixpoint best_frec (As : list frec) (d : view) : option frec :=
  match As with
  | [] => None
  | a :: As =>
      match best_frec As d with
      | None => if pmatch (fr_pfx a) (fr_len a) d then Some a else None
      | Some b => if pmatch (fr_pfx a) (fr_len a) d && (fr_len b <=? fr_len a) then Some a else Some b
      end
  end.

(** The calls netlink makes. *)
Inductive fop :=
| FUpdate (family : Z) (type : fib_type) (v : view) (len : Z) (nexthop : view) (port id : Z)
| FDelete (family : Z) (v : view) (len id : Z).

Definition fop_ok (op : fop) : Prop :=
  match op with
  | FUpdate family _ v len _ _ _ => is_Some (family_bytes family) /\ view_ok v /\ 0 <= len <= 128
  | FDelete _ v len _ => view_ok v /\ 0 <= len <= 128
  end.

(** Return code and routes after a call. *)
Definition spec_step (op : fop) (As : list frec) : Z * list frec :=
  match op with
  | FUpdate family type v len nh port id =>
      if existsb (is_frec v len (u32 id)) As then (-1, As)
      else (0, Frec v len (u32 id) (new_data family type v nh port) :: As)
  | FDelete _ v len id =>
      if existsb (is_frec v len (u32 id)) As
      then (0, filter (fun a => is_frec v len (u32 id) a = false) As) else (-1, As)
  end.

Fixpoint spec_run (ops : list fop) (As : list frec) : list Z * list frec :=
  match ops with
  | [] => ([], As)
  | op :: ops =>
      let '(ret, As1) := spec_step op As in
      let '(rets, As2) := spec_run ops As1 in (ret :: rets, As2)
  end.

Section FibTrace.

Context {A : Type} `{AllocatorSpec A}.

Definition fib_step (op : fop) (f : fib) (w : fib_world A) : option (Z * fib * fib_world A) :=
  match op with
  | FUpdate family type v len nh port id => fib_route_update f family type v len nh port id w
  | FDelete family v len id => fib_route_delete f family v len id w
  end.

Fixpoint fib_run (ops : list fop) (f : fib) (w : fib_world A) : option (list Z * fib * fib_world A) :=
  match ops with
  | [] => Some ([], f, w)
  | op :: ops =>
      '(ret, f1, w1) ← fib_step op f w;
      '(rets, f2, w2) ← fib_run ops f1 w1;
      Some (ret :: rets, f2, w2)
  end.

Definition fib_ok (w : fib_world A) (f : fib) (L0 : gset Z) (As : list frec) : Prop :=
  exists FL, fib_rep w f L0 FL /\ As = strip <$> FL.

Lemma present_strip v len id FL :
  present v len id FL.*1 = existsb (is_frec v len id) (strip <$> FL).
Proof.
  unfold present. induction FL as [|[r d] FL IH]; [done|]. cbn. by rewrite IH.
Qed.

Lemma del_strip v len id FL :
  strip <$> del_fib v len id FL = filter (fun a => is_frec v len (u32 id) a = false) (strip <$> FL).
Proof.
  unfold del_fib. induction FL as [|[r d] FL IH]; [done|]. rewrite filter_cons.
  cbn [fmap list_fmap]. rewrite filter_cons. cbn [fst].
  change (is_frec v len (u32 id) (strip (r, d))) with (is_route v len (u32 id) r).
  case_decide; cbn; by rewrite IH.
Qed.

Lemma best_strip FL d :
  match best_route FL.*1 d with
  | Some r => exists x, (r, x) ∈ FL /\ best_frec (strip <$> FL) d = Some (strip (r, x))
  | None => best_frec (strip <$> FL) d = None
  end.
Proof.
  unfold best_route. induction FL as [|[r x] FL IH]; [done|].
  rewrite !fmap_cons. cbn [fst best_by best_frec].
  change (pmatch (fr_pfx (strip (r, x))) (fr_len (strip (r, x))) d) with (matches d r).
  destruct (best_by (matches d) FL.*1) as [b|].
  - destruct IH as (y & Hy & E). rewrite E.
    change (fr_len (strip (b, y))) with (rt_len b). change (fr_len (strip (r, x))) with (rt_len r).
    destruct (matches d r && _).
    + exists x. split; [by left|done].
    + exists y. split; [by right|done].
  - rewrite IH. destruct (matches d r); [|done].
    exists x. split; [by left|done].
Qed.

(** One call, against the abstract step. *)
Lemma fib_step_ok op f w L0 As :
  fib_ok w f L0 As -> fop_ok op ->
  (exists f' w', fib_step op f w = Some ((spec_step op As).1, f', w') /\
     fib_ok w' f' L0 (spec_step op As).2) \/
  (al_can_fail /\ (spec_step op As).1 = 0 /\ forall f' w', fib_step op f w <> Some (0, f', w')).
Proof.
  intros (FL & Hrep & ->) Hop. destruct op as [family type v len nh port id|family v len id].
  - destruct Hop as (Hfam & Hv & Hl). cbn [fib_step spec_step].
    pose proof (fib_update_ok f family type v len nh port id w L0 FL Hrep Hv Hl Hfam) as Hpost.
    unfold update_post in Hpost. rewrite present_strip in Hpost.
    destruct (existsb _ (strip <$> FL)); cbn [fst snd].
    + destruct Hpost as [[? _]|[(_ & f' & w' & E & Hr)|[? _]]]; try done.
      left. exists f', w'. split; [done|]. by exists FL.
    + destruct Hpost as [(_ & x & f' & w' & E & Hr)|[[? _]|(_ & Hf & Hno)]]; [|done|by right].
      left. exists f', w'. split; [done|]. eexists. split; [exact Hr|]. done.
  - destruct Hop as [Hv Hl]. cbn [fib_step spec_step].
    pose proof (fib_delete_ok f family v len id w L0 FL Hrep Hv Hl) as Hpost.
    rewrite present_strip in Hpost. left. destruct (existsb _ (strip <$> FL)); cbn [fst snd].
    + destruct Hpost as (f' & w' & E & Hr). exists f', w'. split; [done|]. eexists. split; [exact Hr|].
      symmetry. apply del_strip.
    + destruct Hpost as (w' & E & Hr). exists f, w'. split; [done|]. by exists FL.
Qed.

(** Lookup in terms of the abstract routes. *)
Lemma fib_ok_lookup f w L0 As dst :
  fib_ok w f L0 As -> view_ok dst ->
  match best_frec As dst with
  | None => fib_lookup f dst = Some None
  | Some a => exists p e, fib_lookup f dst = Some (Some p) /\ fw_ents w !! p = Some e /\
                fe_data e = fr_data a /\ fe_prefix_len e = fr_len a
  end.
Proof.
  intros (FL & Hrep & ->) Hd.
  destruct (fib_lookup_ok f w L0 FL dst Hrep Hd) as [El He].
  pose proof (best_strip FL dst) as Hb. destruct (best_route FL.*1 dst) as [r|].
  - destruct Hb as (x & Hx & ->). destruct (He r eq_refl) as (d & e & Hin & Hp & Hd1 & Hl & _).
    exists (rt_ptr r), e. split_and!; [done|done| |done]. cbn. rewrite Hd1.
    destruct Hrep as [_ [Ht _]].
    pose proof (data_map_lookup FL r d (lt_nodup _ _ Ht) Hin) as E1.
    pose proof (data_map_lookup FL r x (lt_nodup _ _ Ht) Hx) as E2. congruence.
  - by rewrite Hb.
Qed.

End FibTrace.

(** ** Properties *)

(** C2: [lpm_lookup] on a table that holds the routes [R] returns the cell of the
    route that [best_route] picks: of the routes whose first [len] bits equal
    those of the destination the longest, the newest among equals; NULL exactly
    when none matches. *)
Theorem lpm_lookup_longest_match T R d :
  table_rep T R -> (forall r, r ∈ R -> route_ok r) -> view_ok d ->
  exists e, lpm_lookup T d = Some e /\ le_ptr <$> e = rt_ptr <$> best_route R d /\
    (forall r, best_route R d = Some r ->
       r ∈ R /\ pmatch (rt_pfx r) (rt_len r) d = true /\
       forall r', r' ∈ R -> pmatch (rt_pfx r') (rt_len r') d = true -> rt_len r' <= rt_len r) /\
    (e = None <-> forall r, r ∈ R -> pmatch (rt_pfx r) (rt_len r) d = false).
Proof.
  intros Hrep Hok Hd. destruct (lookup_best T R d Hrep Hok Hd) as (e & E & He).
  exists e. split_and!; [done|done| |].
  - intros r Hr. by apply best_by_spec in Hr.
  - rewrite <- (best_by_none (matches d) R). fold (best_route R d).
    destruct e, (best_route R d); cbn in He; naive_solver.
Qed.

Ltac bytes := apply bytes_ok; repeat constructor; vm_compute; done.

Lemma lpm_lookup_longest_match_witness : lpm_lookup lpm_init (view_of [10; 0; 0; 1]) = Some None.
Proof.
  destruct (lpm_lookup_longest_match lpm_init [] (view_of [10; 0; 0; 1]) table_rep_init) as (e & E & _ & _ & Hn).
  - intros r Hr. by apply elem_of_nil in Hr.
  - bytes.
  - rewrite E. f_equal. apply Hn. intros r Hr. destruct (not_elem_of_nil r Hr).
Defined.

(** C18: [lpm_add], over any allocator and callbacks that meet the table's
    interface.  If the table has no [(prefix, len, id)] yet, then the call returns
    0 and the table holds the route in addition to what it held, with memory and
    reference counts in order, or else the allocator is one that can fail and the
    call does not return 0.  If it has, the call returns -1 and the routes, the
    memory owned and the counts are what they were. *)
Theorem lpm_add_correct {W} `{LpmSpec W} r T R L0 w :
  lpm_tbl T R -> route_ok r -> (forall r', r' ∈ R -> rt_ptr r' <> rt_ptr r) ->
  acct w L0 (cat_of (r :: R)) (flat_map fp T) ->
  table_add_post r T R L0 (lpm_add (rt_pfx r) (rt_len r) (rt_id r) (rt_ptr r) T w).
Proof. apply table_add_ok. Qed.

(** C19: [lpm_delete] removes exactly the route asked for, from every node that
    holds it, frees its cells, the tables that become empty and, with the last
    reference, its object; it returns -1 and changes nothing when the table has
    no such route. *)
Theorem lpm_delete_correct {W} `{LpmSpec W} v len id T R L0 w :
  lpm_inv w T L0 R -> view_ok v -> 0 <= len <= 128 ->
  if present v len id R
  then exists T' w', lpm_delete v len id T w = Some (0, T', w') /\
         lpm_inv w' T' L0 (del_routes v len id R)
  else exists w', lpm_delete v len id T w = Some (-1, T, w') /\ lpm_inv w' T L0 R.
Proof. apply table_delete_ok. Qed.

(** C3: Any sequence of route updates and deletions, run over any allocator, in
    which no call failed for lack of memory - the return codes are those of the
    abstract run - leaves the FIB holding exactly the routes of the abstract run,
    and every lookup then returns the entry of the longest match, intact. *)
Theorem fib_run_refines {A} `{AllocatorSpec A} ops f w L0 As f' w' :
  fib_ok w f L0 As -> Forall fop_ok ops ->
  fib_run ops f w = Some ((spec_run ops As).1, f', w') ->
  fib_ok w' f' L0 (spec_run ops As).2 /\
  forall dst, view_ok dst ->
    match best_frec (spec_run ops As).2 dst with
    | None => fib_lookup f' dst = Some None
    | Some a => exists p e, fib_lookup f' dst = Some (Some p) /\ fw_ents w' !! p = Some e /\
                  fe_data e = fr_data a /\ fe_prefix_len e = fr_len a
    end.
Proof.
  intros Hok Hops Hrun.
  assert (fib_ok w' f' L0 (spec_run ops As).2) as Hend.
  { revert f w As Hok Hrun. induction Hops as [|op ops Hop Hops IH]; intros f w As Hok Hrun.
    - cbn in Hrun. by simplify_eq.
    - cbn [fib_run spec_run] in *. destruct (spec_step op As) as [ret As1] eqn:Es.
      destruct (spec_run ops As1) as [rets As2] eqn:Er. cbn [fst snd] in *.
      pose proof (fib_step_ok op f w L0 As Hok Hop) as Hstep. rewrite Es in Hstep. cbn [fst snd] in Hstep.
      destruct (fib_step op f w) as [[[ret1 f1] w1]|]; [|done]. cbn in Hrun.
      destruct (fib_run ops f1 w1) as [[[rets2 f2] w2]|] eqn:E2; [|done]. cbn in Hrun. simplify_eq.
      destruct Hstep as [(f1' & w1' & [= <- <-] & Hok1)|(_ & -> & Hno)]; [|by destruct (Hno f1 w1)].
      specialize (IH f1 w1 As1 Hok1). rewrite Er in IH. cbn [fst snd] in IH. auto. }
  split; [done|]. intros dst Hd. by eapply fib_ok_lookup.
Qed.

(** ** The routing stack on the buddy allocator *)

#[local] Instance demo_allocator : Allocator mem := buddy_allocator numa_bump 1.
#[local] Instance demo_allocator_spec : AllocatorSpec mem :=
  buddy_allocator_spec numa_bump numa_bump_fresh numa_bump_total 1 4194304 1048576.

(** A 4 MiB arena at 1 MiB, and a FIB in it. *)
Definition demo_mem : mem := snd (ixmap_mem_init numa_bump 1048576 4194304 mem0).
Definition demo_world : fib_world mem := FibWorld demo_mem ∅.

(** The result of a call that returns an object. *)
Definition got {X Y} (o : option (option X * Y)) (d : X * Y) : X * Y :=
  match o with Some (Some x, y) => (x, y) | _ => d end.

Definition succeeds {X Y} (o : option (option X * Y)) : bool :=
  match o with Some (Some _, _) => true | _ => false end.

Lemma got_run {X Y} (o : option (option X * Y)) d :
  succeeds o = true -> o = Some (Some (fst (got o d)), snd (got o d)).
Proof. by destruct o as [[[x|] y]|]. Qed.

#[local] Strategy 1000 [got].

Definition demo_fib : fib * fib_world mem := got (fib_alloc demo_world) (Fib 0 [], demo_world).

Lemma demo_mem_inv : buddy_inv 1 4194304 1048576 demo_mem ∅.
Proof.
  destruct (mem_init_ok numa_bump 1 4194304 1048576 mem0) as (m & E & Hinv); try done.
  exists Fr. unfold demo_mem. rewrite E. split; [done|]. intros x c. rewrite lookup_empty.
  split; [done|]. intros [q Hq]. by apply elem_of_nil in Hq.
Qed.

Lemma demo_fib_rep : fib_rep (H0 := demo_allocator_spec) (snd demo_fib) (fst demo_fib) ∅ [].
Proof.
  destruct (fib_alloc_rep (H0 := demo_allocator_spec) demo_world ∅ demo_mem_inv eq_refl)
    as (r & w & E & Hr).
  assert (succeeds (fib_alloc demo_world) = true) as Hs by (vm_compute; reflexivity).
  rewrite (got_run _ (Fib 0 [], demo_world) Hs) in E. injection E as <- <-.
  by rewrite dom_empty_L in Hr.
Qed.

(** The entry of a new route, allocated and filled in. *)
Definition demo_entry : Z * fib_world mem :=
  got (fw_alloc sizeof_fib_entry (snd demo_fib)) (0, demo_world).

Lemma demo_entry_run :
  fw_alloc sizeof_fib_entry (snd demo_fib) = Some (Some (fst demo_entry), snd demo_entry).
Proof. refine (got_run _ (0, demo_world) _). vm_compute. reflexivity. Qed.

(** Evaluated by [vm_compute] only. *)
#[local] Strategy 1000 [demo_mem demo_world demo_fib demo_entry].

Definition net_10_1_2 : view := view_of [10; 1; 2; 0].
Definition host_10_1_2_9 : view := view_of [10; 1; 2; 9].
Definition gw : view := view_of [192; 0; 2; 1].

Definition demo_route : route := Route net_10_1_2 24 7 (fst demo_entry).
Definition demo_fib_entry : fib_entry :=
  FibEntry (new_data AF_INET FIB_TYPE_FORWARD net_10_1_2 gw 0) 24 7 0.

Lemma net_10_1_2_ok : view_ok net_10_1_2.
Proof. bytes. Qed.

Lemma lpm_add_correct_witness :
  table_add_post demo_route (fib_table (fst demo_fib)) [] ({[fib_addr (fst demo_fib)]} ∪ ∅)
    (H0 := fib_lpm_spec (H0 := demo_allocator_spec)
             (data_map [(demo_route, fe_data demo_fib_entry)]))
    (lpm_add net_10_1_2 24 7 (fst demo_entry) (fib_table (fst demo_fib))
       (fw_store (fst demo_entry) demo_fib_entry (snd demo_entry))).
Proof.
  destruct (fib_new_entry (H0 := demo_allocator_spec) _ _ _ _ (fst demo_entry) (snd demo_entry)
              demo_route demo_fib_entry (fe_data demo_fib_entry) demo_fib_rep demo_entry_run
              eq_refl eq_refl eq_refl eq_refl eq_refl) as [Hnew Ha].
  apply (lpm_add_correct demo_route (fib_table (fst demo_fib)) []); [|split| |exact Ha].
  - apply demo_fib_rep.
  - exact net_10_1_2_ok.
  - split; intros H; discriminate H.
  - exact Hnew.
Defined.

Lemma lpm_delete_correct_witness :
  exists w', lpm_delete net_10_1_2 24 7 (fib_table (fst demo_fib)) (snd demo_fib)
             = Some (-1, fib_table (fst demo_fib), w').
Proof.
  destruct (lpm_delete_correct (H0 := fib_lpm_spec (H0 := demo_allocator_spec) (data_map []))
              net_10_1_2 24 7 (fib_table (fst demo_fib)) [] _ (snd demo_fib)
              (proj2 demo_fib_rep) net_10_1_2_ok) as (w' & E & _).
  - split; intros H; discriminate H.
  - exists w'. exact E.
Defined.

(** Two routes to one host, a duplicate, a deletion. *)
Definition demo_ops : list fop :=
  [FUpdate AF_INET FIB_TYPE_FORWARD net_10_1_2 23 gw 0 7;
   FUpdate AF_INET FIB_TYPE_LINK net_10_1_2 24 gw 1 7;
   FUpdate AF_INET FIB_TYPE_LOCAL net_10_1_2 24 gw 2 7;
   FDelete AF_INET net_10_1_2 24 7].

(** The result of a run whose return codes are [rets]. *)
Definition ran (o : option (list Z * fib * fib_world mem)) : list Z * fib * fib_world mem :=
  match o with Some x => x | None => ([], Fib 0 [], demo_world) end.

Lemma ran_run o rets :
  match o with Some x => x.1.1 | None => [] end = rets -> rets <> [] ->
  o = Some (rets, (ran o).1.2, (ran o).2).
Proof. destruct o as [[[r f] w]|]; cbn; [by intros ->|by intros <-]. Qed.

#[local] Strategy 1000 [ran].

Definition demo_result : list Z * fib * fib_world mem :=
  ran (fib_run demo_ops (fst demo_fib) (snd demo_fib)).

Lemma demo_result_run :
  fib_run demo_ops (fst demo_fib) (snd demo_fib)
  = Some ((spec_run demo_ops []).1, demo_result.1.2, demo_result.2).
Proof.
  refine (ran_run (fib_run demo_ops (fst demo_fib) (snd demo_fib)) _ _ _);
    [vm_compute; reflexivity|discriminate].
Qed.

#[local] Strategy 1000 [demo_result].

Lemma demo_ops_ok : Forall fop_ok demo_ops.
Proof.
  unfold demo_ops. rewrite !Forall_cons. cbn [fop_ok]. pose proof net_10_1_2_ok.
  split_and!; try done; try lia; try (eexists; reflexivity).
Qed.

Lemma fib_run_refines_witness :
  exists p e, fib_lookup demo_result.1.2 host_10_1_2_9 = Some (Some p) /\
    fw_ents demo_result.2 !! p = Some e /\ fe_prefix_len e = 23.
Proof.
  destruct (fib_run_refines (H0 := demo_allocator_spec) demo_ops (fst demo_fib) (snd demo_fib) ∅ []
              demo_result.1.2 demo_result.2
              (ex_intro _ [] (conj demo_fib_rep eq_refl)) demo_ops_ok demo_result_run) as [_ Hl].
  assert (view_ok host_10_1_2_9) as Hd by bytes. specialize (Hl host_10_1_2_9 Hd).
  assert (best_frec (spec_run demo_ops []).2 host_10_1_2_9 =
          Some (Frec net_10_1_2 23 7 (new_data AF_INET FIB_TYPE_FORWARD net_10_1_2 gw 0))) as E.
  { vm_compute. reflexivity. }
  rewrite E in Hl. destruct Hl as (p & e & E1 & E2 & _ & E3). exists p, e. split; [exact E1|].
  split; [exact E2|exact E3].
Defined.

(** C20: [fib_release] frees every cell, table and entry of the FIB and the FIB
    itself, each once: what is left in the allocator is what other owners hold. *)
Theorem fib_release_no_leak {A} `{AllocatorSpec A} f (w : fib_world A) L0 As :
  fib_ok w f L0 As ->
  exists w' C, fib_release f w = Some w' /\ al_inv (fw_mem w') C /\ dom C = L0 /\ fw_ents w' = ∅.
Proof. intros (FL & Hrep & _). by eapply fib_release_ok. Qed.

Lemma fib_release_no_leak_witness :
  exists w', fib_release (fst demo_fib) (snd demo_fib) = Some w' /\ fw_ents w' = ∅.
Proof.
  destruct (fib_release_no_leak (H0 := demo_allocator_spec) (fst demo_fib) (snd demo_fib) ∅ []
              (ex_intro _ [] (conj demo_fib_rep eq_refl))) as (w' & C & E & _ & _ & He).
  exists w'. split; [exact E|exact He].
Defined.

(** ** When memory runs out *)

(** A FIB made when [n] further allocations will succeed. *)
Definition quota_world (n : nat) : fib_world quota := FibWorld (Quota 4096 (S n) ∅) ∅.
Definition quota_fib (n : nat) : fib * fib_world quota :=
  got (fib_alloc (quota_world n)) (Fib 0 [], quota_world n).

Lemma quota_fib_ok n : fib_ok (H0 := quota_allocator_spec) (snd (quota_fib n)) (fst (quota_fib n)) ∅ [].
Proof.
  exists []. split; [|done].
  assert (quota_inv (fw_mem (quota_world n)) ∅) as Hi by (split_and!; [done|by intros|by intros]).
  destruct (fib_alloc_rep (H0 := quota_allocator_spec) (quota_world n) ∅ Hi eq_refl) as (r & w & E & Hr).
  rewrite (got_run (fib_alloc (quota_world n)) (Fib 0 [], quota_world n)) in E by done.
  injection E as <- <-. by rewrite dom_empty_L in Hr.
Qed.

(** Adding a prefix of 15 bits when memory suffices for the entry and the
    first of its two cells: [lpm_add]'s clean-up drops the last reference, which
    frees the entry, and [fib_route_update] then frees it again. *)
Theorem fib_update_double_free :
  fib_ok (H0 := quota_allocator_spec) (snd (quota_fib 2)) (fst (quota_fib 2)) ∅ [] /\
  fib_route_update (fst (quota_fib 2)) AF_INET FIB_TYPE_FORWARD net_10_1_2 15 gw 0 7 (snd (quota_fib 2))
    = None.
Proof. split; [apply quota_fib_ok|]. vm_compute. reflexivity. Qed.

(** The return code of an update, and whether a lookup then returns an entry
    that does not exist. *)
Definition dangling (o : option (Z * fib * fib_world quota)) (dst : view) : option (Z * option bool) :=
  match o with
  | None => None
  | Some (ret, f, w) =>
      match fib_lookup f dst with
      | None => None
      | Some None => Some (ret, None)
      | Some (Some p) => Some (ret, Some (bool_decide (fw_ents w !! p = None)))
      end
  end.

(** Adding a prefix of 23 bits when memory suffices for the entry, the table
    and the first of its two cells: [_lpm_add] undoes nothing, because it never
    counts the cells it has added, and [fib_route_update] frees the entry: the
    call returns -1 and a lookup then finds an entry that no longer exists. *)
Theorem fib_update_dangling_entry :
  fib_ok (H0 := quota_allocator_spec) (snd (quota_fib 3)) (fst (quota_fib 3)) ∅ [] /\
  dangling (fib_route_update (fst (quota_fib 3)) AF_INET FIB_TYPE_FORWARD net_10_1_2 23 gw 0 7
              (snd (quota_fib 3))) host_10_1_2_9
  = Some (-1, Some true).
Proof. split; [apply quota_fib_ok|]. vm_compute. reflexivity. Qed.
