(* ===== verification/Driver.v ===== *)
(** * The descriptor rings (src/lib/driver.c, src/lib/driver.h, src/lib/ixmap.h)

    The rings of one core: each port has a receive and a transmit ring of
    hardware descriptors, and the ports share one pool of packet buffers, the
    slots.  A descriptor is the union of the layout the driver writes and the
    layout the NIC writes back, kept here as its two 64-bit words so that the
    overlap of the two layouts is part of the model.  [None] is an access out of
    the bounds of an array.  Memory barriers have no counterpart. *)

From stdpp Require Import prelude list.
From S2P Require Import Prelude.

(** ** Constants *)

Definition IXGBE_RXD_STAT_DD : Z := 0x01.
Definition IXGBE_TXD_STAT_DD : Z := 0x00000001.
Definition IXGBE_MAX_TXD_PWR : Z := 14.
Definition IXGBE_MAX_DATA_PER_TXD : Z := Z.shiftl 1 IXGBE_MAX_TXD_PWR.
Definition IXGBE_TXD_CMD_EOP : Z := 0x01000000.
Definition IXGBE_TXD_CMD_IFCS : Z := 0x02000000.
Definition IXGBE_TXD_CMD_RS : Z := 0x08000000.
Definition IXGBE_TXD_CMD_DEXT : Z := 0x20000000.
Definition IXGBE_ADVTXD_DTYP_DATA : Z := 0x00300000.
Definition IXGBE_ADVTXD_PAYLEN_SHIFT : Z := 14.
Definition IXMAP_SLOT_INFLIGHT : Z := 0x1.

(** ** Data *)

(** [union ixmap_adv_rx_desc] and [union ixmap_adv_tx_desc]: 16 bytes. *)
Record adv_desc := AdvDesc { d_lo : Z; d_hi : Z }.

(** [wb.upper.status_error] and [wb.upper.length] of a receive descriptor
    overlay [read.hdr_addr]. *)
Definition rx_status_error (d : adv_desc) : Z := u32 (d_hi d).
Definition rx_length (d : adv_desc) : Z := u16 (Z.shiftr (d_hi d) 32).

(** [wb.status] of a transmit descriptor overlays [read.olinfo_status]. *)
Definition tx_status (d : adv_desc) : Z := u32 (Z.shiftr (d_hi d) 32).

Record ring := Ring {
  next_to_use : Z;
  next_to_clean : Z;
  slot_index : list Z;
  descs : list adv_desc;
  tail : Z
}.

Record buf := Buf {
  addr_virt : Z;
  addr_dma : list Z;
  buf_size : Z;
  count : Z;
  slots : list Z
}.

Record port := Port {
  rx_ring : ring;
  tx_ring : ring;
  rx_slot_next : Z;
  rx_slot_offset : Z;
  tx_suspended : Z;
  num_rx_desc : Z;
  num_tx_desc : Z;
  rx_budget : Z;
  tx_budget : Z;
  mac_addr : list Z;
  count_rx_alloc_failed : Z;
  count_rx_clean_total : Z;
  count_tx_xmit_failed : Z;
  count_tx_clean_total : Z
}.

Record packet := Packet { slot_buf : Z; slot_size : Z; pk_slot_index : Z }.

(** ** Updates of single fields *)

Definition set_rx (r : ring) (p : port) : port :=
  Port r (tx_ring p) (rx_slot_next p) (rx_slot_offset p) (tx_suspended p) (num_rx_desc p)
       (num_tx_desc p) (rx_budget p) (tx_budget p) (mac_addr p) (count_rx_alloc_failed p)
       (count_rx_clean_total p) (count_tx_xmit_failed p) (count_tx_clean_total p).

Definition set_tx (r : ring) (susp : Z) (p : port) : port :=
  Port (rx_ring p) r (rx_slot_next p) (rx_slot_offset p) susp (num_rx_desc p)
       (num_tx_desc p) (rx_budget p) (tx_budget p) (mac_addr p) (count_rx_alloc_failed p)
       (count_rx_clean_total p) (count_tx_xmit_failed p) (count_tx_clean_total p).

Definition set_slot_next (n : Z) (p : port) : port :=
  Port (rx_ring p) (tx_ring p) n (rx_slot_offset p) (tx_suspended p) (num_rx_desc p)
       (num_tx_desc p) (rx_budget p) (tx_budget p) (mac_addr p) (count_rx_alloc_failed p)
       (count_rx_clean_total p) (count_tx_xmit_failed p) (count_tx_clean_total p).

(** The four counters, as increments. *)
Definition add_counts (rx_fail rx_clean tx_fail tx_clean : Z) (p : port) : port :=
  Port (rx_ring p) (tx_ring p) (rx_slot_next p) (rx_slot_offset p) (tx_suspended p) (num_rx_desc p)
       (num_tx_desc p) (rx_budget p) (tx_budget p) (mac_addr p)
       (u64 (count_rx_alloc_failed p + rx_fail)) (u64 (count_rx_clean_total p + rx_clean))
       (u64 (count_tx_xmit_failed p + tx_fail)) (u64 (count_tx_clean_total p + tx_clean)).

Definition set_slots (s : list Z) (b : buf) : buf :=
  Buf (addr_virt b) (addr_dma b) (buf_size b) (count b) s.

(** ** Operations *)

Definition ixmap_desc_unused (r : ring) (num_desc : Z) : Z :=
  u16 (if next_to_use r <? next_to_clean r
       then next_to_clean r - next_to_use r - 1
       else (u16 num_desc - next_to_use r) + next_to_clean r - 1).

Definition ixmap_test_staterr (d : adv_desc) (bits : Z) : Z := Z.land (rx_status_error d) bits.

Definition ixmap_write_tail (r : ring) (v : Z) : ring :=
  Ring (next_to_use r) (next_to_clean r) (slot_index r) (descs r) v.

Definition ixmap_slot_attach (r : ring) (desc_index slot : Z) : option ring :=
  sl ← store (slot_index r) desc_index slot;
  Some (Ring (next_to_use r) (next_to_clean r) sl (descs r) (tail r)).

Definition ixmap_slot_detach (r : ring) (desc_index : Z) : option Z := load (slot_index r) desc_index.

Definition ixmap_slot_release (b : buf) (slot : Z) : option buf :=
  s ← store (slots b) slot 0;
  Some (set_slots s b).

Definition ixmap_slot_addr_dma (b : buf) (slot port_index : Z) : option Z :=
  base ← load (addr_dma b) port_index;
  Some (u64 (base + u32 (buf_size b * slot))).

(** The parameter is a [uint16_t]. *)
Definition ixmap_slot_addr_virt (b : buf) (slot : Z) : Z :=
  addr_virt b + u32 (buf_size b * u16 slot).

Definition ixmap_slot_size (b : buf) : Z := buf_size b.

(** The search of [ixmap_slot_assign]: position and slot of the first slot of
    the port's share, from [slot_next] on and round, that is not in flight. *)
Fixpoint slot_search (n : nat) (slot_next : Z) (p : port) (b : buf) : option (option (Z * Z)) :=
  match n with
  | O => Some None
  | S n =>
      let slot := rx_slot_offset p + slot_next in
      st ← load (slots b) slot;
      if Z.land st IXMAP_SLOT_INFLIGHT =? 0 then Some (Some (slot_next, slot))
      else slot_search n (if slot_next + 1 =? count b then 0 else slot_next + 1) p b
  end.

Definition ixmap_slot_assign (b : buf) (p : port) : option (Z * port * buf) :=
  r ← slot_search (Z.to_nat (count b)) (rx_slot_next p) p b;
  match r with
  | None => Some (-1, p, b)
  | Some (next, slot) =>
      st ← load (slots b) slot;
      s ← store (slots b) slot (Z.lor st IXMAP_SLOT_INFLIGHT);
      Some (slot, set_slot_next (if next + 1 =? count b then 0 else next + 1) p, set_slots s b)
  end.

(** [IXGBE_RX_DESC(ring, i)->read = ...]. *)
Definition write_desc (r : ring) (i : Z) (d : adv_desc) : option ring :=
  ds ← store (descs r) i d;
  Some (Ring (next_to_use r) (next_to_clean r) (slot_index r) ds (tail r)).

Definition ring_next (i num : Z) : Z :=
  let i' := u16 (i + 1) in if i' <? num then i' else 0.

Definition advance_use (r : ring) (num : Z) : ring :=
  Ring (ring_next (next_to_use r) num) (next_to_clean r) (slot_index r) (descs r) (tail r).

Definition advance_clean (r : ring) (num : Z) : ring :=
  Ring (next_to_use r) (ring_next (next_to_clean r) num) (slot_index r) (descs r) (tail r).

(** The loop of [ixmap_rx_assign]: [n] descriptors left to fill, [done] filled. *)
Fixpoint rx_assign_loop (n : nat) (done : Z) (port_index : Z) (p : port) (b : buf)
  : option (Z * port * buf) :=
  match n with
  | O => Some (done, p, b)
  | S n' =>
      '(slot, p1, b1) ← ixmap_slot_assign b p;
      if slot <? 0 then Some (done, add_counts (Z.of_nat n) 0 0 0 p1, b1)
      else
        r1 ← ixmap_slot_attach (rx_ring p1) (next_to_use (rx_ring p1)) slot;
        dma ← ixmap_slot_addr_dma b1 slot port_index;
        r2 ← write_desc r1 (next_to_use r1) (AdvDesc dma 0);
        rx_assign_loop n' (done + 1) port_index (set_rx (advance_use r2 (num_rx_desc p1)) p1) b1
  end.

Definition ixmap_rx_assign (port_index : Z) (p : port) (b : buf) : option (port * buf) :=
  let max_allocation := ixmap_desc_unused (rx_ring p) (num_rx_desc p) in
  if max_allocation =? 0 then Some (p, b)
  else
    '(total, p1, b1) ← rx_assign_loop (Z.to_nat max_allocation) 0 port_index p b;
    if total =? 0 then Some (p1, b1)
    else Some (set_rx (ixmap_write_tail (rx_ring p1) (next_to_use (rx_ring p1))) p1, b1).

(** [cmd_type_len] and [olinfo_status] of a packet. *)
Definition tx_cmd_type (size : Z) : Z :=
  Z.lor (Z.lor (Z.lor size IXGBE_TXD_CMD_EOP) IXGBE_TXD_CMD_RS)
        (Z.lor (Z.lor IXGBE_ADVTXD_DTYP_DATA IXGBE_TXD_CMD_DEXT) IXGBE_TXD_CMD_IFCS).

Definition tx_olinfo (size : Z) : Z := u32 (Z.shiftl size IXGBE_ADVTXD_PAYLEN_SHIFT).

Definition ixmap_tx_assign (port_index : Z) (pk : packet) (p : port) (b : buf)
  : option (port * buf) :=
  let unused_count := ixmap_desc_unused (tx_ring p) (num_tx_desc p) in
  if unused_count =? 0 then
    b1 ← ixmap_slot_release b (pk_slot_index pk); Some (add_counts 0 0 1 0 p, b1)
  else if IXGBE_MAX_DATA_PER_TXD <? slot_size pk then
    b1 ← ixmap_slot_release b (pk_slot_index pk); Some (add_counts 0 0 1 0 p, b1)
  else
    r1 ← ixmap_slot_attach (tx_ring p) (next_to_use (tx_ring p)) (pk_slot_index pk);
    dma ← ixmap_slot_addr_dma b (pk_slot_index pk) port_index;
    r2 ← write_desc r1 (next_to_use r1)
           (AdvDesc dma (tx_cmd_type (slot_size pk) + tx_olinfo (slot_size pk) * 2 ^ 32));
    Some (set_tx (advance_use r2 (num_tx_desc p)) (u32 (tx_suspended p + 1)) p, b).

Definition ixmap_tx_xmit (p : port) : port :=
  if tx_suspended p =? 0 then p
  else set_tx (ixmap_write_tail (tx_ring p) (next_to_use (tx_ring p))) 0 p.

(** The loop of [ixmap_rx_clean]: up to [n] packets. *)
Fixpoint rx_clean_loop (n : nat) (b : buf) (p : port) : option (list packet * port) :=
  match n with
  | O => Some ([], p)
  | S n =>
      let r := rx_ring p in
      if next_to_clean r =? next_to_use r then Some ([], p)
      else
        d ← load (descs r) (next_to_clean r);
        if ixmap_test_staterr d IXGBE_RXD_STAT_DD =? 0 then Some ([], p)
        else
          slot ← ixmap_slot_detach r (next_to_clean r);
          let pk := Packet (ixmap_slot_addr_virt b slot) (rx_length d) slot in
          '(pks, p1) ← rx_clean_loop n b (set_rx (advance_clean r (num_rx_desc p)) p);
          Some (pk :: pks, p1)
  end.

(** The packets are written to an array of the caller, as many as the list has:
    never more than the budget, which is the size of that array (IXMAP_RX_BUDGET in
    thread.c and in the call of [ixmap_open] in main.c). *)
Definition ixmap_rx_clean (b : buf) (p : port) : option (list packet * port) :=
  '(pks, p1) ← rx_clean_loop (Z.to_nat (rx_budget p)) b p;
  Some (pks, add_counts 0 (Z.of_nat (length pks)) 0 0 p1).

(** The loop of [ixmap_tx_clean]; also the number of packets cleaned. *)
Fixpoint tx_clean_loop (n : nat) (p : port) (b : buf) : option (Z * port * buf) :=
  match n with
  | O => Some (0, p, b)
  | S n =>
      let r := tx_ring p in
      if next_to_clean r =? next_to_use r then Some (0, p, b)
      else
        d ← load (descs r) (next_to_clean r);
        if Z.land (tx_status d) IXGBE_TXD_STAT_DD =? 0 then Some (0, p, b)
        else
          slot ← ixmap_slot_detach r (next_to_clean r);
          b1 ← ixmap_slot_release b slot;
          '(k, p1, b2) ←
            tx_clean_loop n (set_tx (advance_clean r (num_tx_desc p)) (tx_suspended p) p) b1;
          Some (k + 1, p1, b2)
  end.

Definition ixmap_tx_clean (p : port) (b : buf) : option (port * buf) :=
  '(k, p1, b1) ← tx_clean_loop (Z.to_nat (tx_budget p)) p b;
  Some (add_counts 0 0 0 k p1, b1).

Definition ixmap_macaddr (ports : list port) (port_index : Z) : option (list Z) :=
  mac_addr <$> load ports port_index.

(** [ixmap_irq_unmask_queues]: the values written to the two registers, in
    order. *)
Definition ixmap_irq_unmask_queues (qmask : Z) : list (nat * Z) :=
  let lo := Z.land qmask 0xFFFFFFFF in
  let hi := u32 (Z.shiftr qmask 32) in
  (if lo =? 0 then [] else [(0%nat, lo)]) ++ (if hi =? 0 then [] else [(1%nat, hi)]).
