(* ===== verification/DriverFacts.v ===== *)
(** * The descriptor rings as queues

    A ring holds the queue of (slot, descriptor) pairs between [next_to_clean]
    and [next_to_use]: filling appends to it, cleaning takes from its front.
    The lemmas here are about one ring and the pool of slots; [DriverProps.v]
    puts them together for all ports. *)

From stdpp Require Import prelude list.
From S2P Require Import Prelude Driver.

(** ** The ring *)

Record wf_ring (n : Z) (r : ring) : Prop := {
  wr_n : 2 <= n < 2 ^ 16;
  wr_use : 0 <= next_to_use r < n;
  wr_clean : 0 <= next_to_clean r < n;
  wr_slots : Z.of_nat (length (slot_index r)) = n;
  wr_descs : Z.of_nat (length (descs r)) = n
}.

(** Descriptors handed to the hardware and not cleaned. *)
Definition used (n : Z) (r : ring) : Z := (next_to_use r - next_to_clean r) mod n.

Definition cell (n : Z) (r : ring) (k : nat) : Z * adv_desc :=
  let i := Z.to_nat ((next_to_clean r + Z.of_nat k) mod n) in
  (default 0 (slot_index r !! i), default (AdvDesc 0 0) (descs r !! i)).

Definition ringq (n : Z) (r : ring) : list (Z * adv_desc) :=
  cell n r <$> seq 0 (Z.to_nat (used n r)).

Lemma used_range n r : wf_ring n r -> 0 <= used n r < n.
Proof. intros [H _ _ _ _]. apply Z.mod_pos_bound. lia. Qed.

Lemma ringq_length n r : wf_ring n r -> Z.of_nat (length (ringq n r)) = used n r.
Proof. intros H. unfold ringq. rewrite length_fmap, length_seq. pose proof (used_range n r H). lia. Qed.

Lemma used_cases n r :
  wf_ring n r ->
  used n r = if next_to_clean r <=? next_to_use r then next_to_use r - next_to_clean r
             else next_to_use r - next_to_clean r + n.
Proof.
  intros [Hn Hu Hc _ _]. unfold used. destruct (Z.leb_spec (next_to_clean r) (next_to_use r)).
  - apply Z.mod_small. lia.
  - symmetry. apply Z.mod_unique with (-1); lia.
Qed.

Lemma desc_unused_used n r : wf_ring n r -> ixmap_desc_unused r n = n - 1 - used n r.
Proof.
  intros Hwf. rewrite (used_cases n r Hwf). destruct Hwf as [Hn Hu Hc _ _].
  unfold ixmap_desc_unused, u16. rewrite (Z.mod_small n) by lia.
  destruct (Z.ltb_spec (next_to_use r) (next_to_clean r)), (Z.leb_spec (next_to_clean r) (next_to_use r));
    try lia; rewrite Z.mod_small by lia; lia.
Qed.

Lemma ring_next_mod i n : 0 <= i < n -> n < 2 ^ 16 -> ring_next i n = (i + 1) mod n.
Proof.
  intros Hi Hn. unfold ring_next, u16. rewrite (Z.mod_small (i + 1)) by lia.
  destruct (Z.ltb_spec (i + 1) n).
  - by rewrite Z.mod_small by lia.
  - replace (i + 1) with n by lia. by rewrite Z.mod_same by lia.
Qed.

Lemma ring_next_range i n : 0 <= i < n -> n < 2 ^ 16 -> 0 <= ring_next i n < n.
Proof. intros. rewrite ring_next_mod by lia. apply Z.mod_pos_bound. lia. Qed.

(** Position [k < used] of the window is not [next_to_use]. *)
Lemma window_ne n r k :
  wf_ring n r -> 0 <= k < used n r -> (next_to_clean r + k) mod n <> next_to_use r.
Proof.
  intros Hwf Hk E. pose proof (used_range n r Hwf) as Hur. pose proof Hwf as [Hn Hu Hc _ _].
  rewrite (used_cases n r Hwf) in Hk, Hur.
  assert (next_to_use r = next_to_clean r + k \/ next_to_use r = next_to_clean r + k - n) as He.
  { rewrite <- E. destruct (Z.ltb_spec (next_to_clean r + k) n); [left; apply Z.mod_small; lia|right].
    symmetry. apply Z.mod_unique with 1; destruct (next_to_clean r <=? next_to_use r); lia. }
  destruct (Z.leb_spec (next_to_clean r) (next_to_use r)); lia.
Qed.

(** A descriptor filled at [next_to_use] joins the queue at its end. *)
Definition push (n slot : Z) (d : adv_desc) (r : ring) : ring :=
  Ring (ring_next (next_to_use r) n) (next_to_clean r)
       (<[Z.to_nat (next_to_use r) := slot]> (slot_index r))
       (<[Z.to_nat (next_to_use r) := d]> (descs r)) (tail r).

Lemma push_wf n slot d r : wf_ring n r -> wf_ring n (push n slot d r).
Proof.
  intros [Hn Hu Hc Hs Hd]. split; cbn; rewrite ?length_insert; try done. apply ring_next_range; lia.
Qed.

Lemma push_used n slot d r : wf_ring n r -> used n r < n - 1 -> used n (push n slot d r) = used n r + 1.
Proof.
  intros Hwf Hlt. pose proof Hwf as [Hn Hu Hc _ _]. unfold used. cbn. rewrite ring_next_mod by lia.
  rewrite Zminus_mod_idemp_l.
  replace (next_to_use r + 1 - next_to_clean r) with (next_to_use r - next_to_clean r + 1) by lia.
  rewrite <- Zplus_mod_idemp_l. fold (used n r). pose proof (used_range n r Hwf).
  apply Z.mod_small. lia.
Qed.

Lemma ringq_push n slot d r :
  wf_ring n r -> used n r < n - 1 -> ringq n (push n slot d r) = ringq n r ++ [(slot, d)].
Proof.
  intros Hwf Hlt. unfold ringq. rewrite push_used by done. pose proof (used_range n r Hwf) as Hur.
  pose proof Hwf as [Hn Hu Hc Hs Hd].
  replace (Z.to_nat (used n r + 1)) with (Z.to_nat (used n r) + 1)%nat by lia.
  rewrite seq_app, fmap_app. cbn [seq fmap list_fmap Nat.add]. f_equal.
  - apply list_fmap_ext. intros i k Hk. apply lookup_seq in Hk as [-> Hk]. unfold cell. cbn [push next_to_clean slot_index descs].
    pose proof (window_ne n r (Z.of_nat (0 + i)) Hwf ltac:(lia)) as Hne.
    pose proof (Z.mod_pos_bound (next_to_clean r + Z.of_nat (0 + i)) n ltac:(lia)).
    rewrite !list_lookup_insert_ne by lia. done.
  - f_equal. unfold cell. cbn [push next_to_clean slot_index descs].
    replace ((next_to_clean r + Z.of_nat (Z.to_nat (used n r))) mod n) with (next_to_use r).
    + rewrite !list_lookup_insert_eq by lia. done.
    + rewrite Z2Nat.id by lia. unfold used. rewrite Zplus_mod_idemp_r.
      replace (next_to_clean r + (next_to_use r - next_to_clean r)) with (next_to_use r) by lia.
      by rewrite Z.mod_small.
Qed.

(** Cleaning takes the front of the queue. *)
Lemma clean_wf n r : wf_ring n r -> wf_ring n (advance_clean r n).
Proof. intros [Hn Hu Hc Hs Hd]. split; cbn; try done. apply ring_next_range; lia. Qed.

Lemma clean_used n r : wf_ring n r -> 0 < used n r -> used n (advance_clean r n) = used n r - 1.
Proof.
  intros Hwf Hlt. pose proof Hwf as [Hn Hu Hc _ _]. unfold used. cbn. rewrite ring_next_mod by lia.
  rewrite Zminus_mod_idemp_r.
  replace (next_to_use r - (next_to_clean r + 1)) with (next_to_use r - next_to_clean r - 1) by lia.
  rewrite <- Zminus_mod_idemp_l. fold (used n r). pose proof (used_range n r Hwf).
  apply Z.mod_small. lia.
Qed.

Lemma ringq_clean n r :
  wf_ring n r -> 0 < used n r ->
  exists slot d, load (slot_index r) (next_to_clean r) = Some slot /\
    load (descs r) (next_to_clean r) = Some d /\
    ringq n r = (slot, d) :: ringq n (advance_clean r n).
Proof.
  intros Hwf Hlt. pose proof Hwf as [Hn Hu Hc Hs Hd].
  destruct (load_some (slot_index r) (next_to_clean r)) as [slot Eslot]; [lia|].
  destruct (load_some (descs r) (next_to_clean r)) as [d Ed]; [lia|].
  exists slot, d. split_and!; [done|done|]. rewrite load_lookup in Eslot by lia. rewrite load_lookup in Ed by lia.
  unfold ringq. rewrite clean_used by done.
  replace (Z.to_nat (used n r)) with (S (Z.to_nat (used n r - 1))) by lia.
  cbn [seq fmap list_fmap]. f_equal.
  - unfold cell. rewrite Z.add_0_r, Z.mod_small by lia. by rewrite Eslot, Ed.
  - rewrite <- seq_shift. rewrite <- list_fmap_compose. apply list_fmap_ext.
    intros i k _. unfold cell, compose. cbn [advance_clean next_to_clean slot_index descs].
    rewrite ring_next_mod by lia. rewrite Zplus_mod_idemp_l.
    by replace (next_to_clean r + 1 + Z.of_nat k) with (next_to_clean r + Z.of_nat (S k)) by lia.
Qed.

Lemma ring_empty n r : wf_ring n r -> next_to_clean r = next_to_use r <-> used n r = 0.
Proof.
  intros Hwf. rewrite (used_cases n r Hwf). destruct Hwf as [Hn Hu Hc _ _].
  destruct (Z.leb_spec (next_to_clean r) (next_to_use r)); lia.
Qed.

Lemma ring_empty_queue n r : wf_ring n r -> next_to_clean r = next_to_use r -> ringq n r = [].
Proof. intros Hwf E%(ring_empty n r Hwf). unfold ringq. by rewrite E. Qed.

(** Writing the tail register changes nothing else. *)
Lemma write_tail_wf n r v : wf_ring n r -> wf_ring n (ixmap_write_tail r v).
Proof. intros [? ? ? ? ?]. by split. Qed.

Lemma write_tail_queue n r v : ringq n (ixmap_write_tail r v) = ringq n r.
Proof. done. Qed.

(** ** The pool of slots *)

Definition inflight (b : buf) (s : Z) : bool :=
  match load (slots b) s with
  | Some st => negb (Z.land st IXMAP_SLOT_INFLIGHT =? 0)
  | None => false
  end.

(** The share of the pool a port receives into: [count] slots from
    [rx_slot_offset] on. *)
Record wf_share (p : port) (b : buf) : Prop := {
  ws_off : 0 <= rx_slot_offset p;
  ws_count : 1 <= count b;
  ws_len : rx_slot_offset p + count b <= Z.of_nat (length (slots b));
  ws_next : 0 <= rx_slot_next p < count b
}.

Definition in_share (p : port) (b : buf) (s : Z) : Prop :=
  rx_slot_offset p <= s < rx_slot_offset p + count b.

(** Everything about a pool but the state of its slots. *)
Definition same_buf (b b' : buf) : Prop :=
  addr_virt b' = addr_virt b /\ addr_dma b' = addr_dma b /\ buf_size b' = buf_size b /\
  count b' = count b /\ length (slots b') = length (slots b).

Lemma same_buf_refl b : same_buf b b.
Proof. by split_and!. Qed.

Lemma same_buf_trans b b1 b2 : same_buf b b1 -> same_buf b1 b2 -> same_buf b b2.
Proof. intros (?&?&?&?&?) (?&?&?&?&?). split_and!; congruence. Qed.

(** Everything about a port but its rings, counters and search position. *)
Definition same_port (p p' : port) : Prop :=
  rx_slot_offset p' = rx_slot_offset p /\ num_rx_desc p' = num_rx_desc p /\
  num_tx_desc p' = num_tx_desc p /\ rx_budget p' = rx_budget p /\ tx_budget p' = tx_budget p /\
  mac_addr p' = mac_addr p.

Lemma slot_search_spec n next p b :
  wf_share p b -> 0 <= next < count b ->
  exists res, slot_search n next p b = Some res /\
    match res with
    | Some (nx, slot) => slot = rx_slot_offset p + nx /\ 0 <= nx < count b /\ inflight b slot = false
    | None => forall j, 0 <= j < Z.of_nat n ->
        inflight b (rx_slot_offset p + (next + j) mod count b) = true
    end.
Proof.
  intros [Hoff Hc Hlen _]. revert next. induction n as [|n IH]; intros next Hn; cbn [slot_search].
  { eexists. split; [done|]. intros j Hj. lia. }
  destruct (load_some (slots b) (rx_slot_offset p + next)) as [st Est]; [lia|]. rewrite Est. opt.
  destruct (Z.land st IXMAP_SLOT_INFLIGHT =? 0) eqn:El.
  { eexists. split; [done|]. split_and!; try done; try lia. unfold inflight. rewrite Est. by rewrite El. }
  set (next' := if next + 1 =? count b then 0 else next + 1).
  assert (0 <= next' < count b /\ next' = (next + 1) mod count b) as [Hn' Em].
  { unfold next'. destruct (Z.eqb_spec (next + 1) (count b)) as [E|E].
    - rewrite E, Z.mod_same by lia. lia.
    - rewrite Z.mod_small by lia. lia. }
  destruct (IH next' Hn') as (res & -> & Hres). eexists. split; [done|].
  destruct res as [[nx slot]|]; [done|]. intros j Hj. destruct (decide (j = 0)) as [->|Hj0].
  - rewrite Z.add_0_r, Z.mod_small by lia. unfold inflight. rewrite Est. by rewrite El.
  - specialize (Hres (j - 1) ltac:(lia)). rewrite Em, Zplus_mod_idemp_l in Hres.
    by replace (next + 1 + (j - 1)) with (next + j) in Hres by lia.
Qed.

Lemma lor_inflight st : Z.land (Z.lor st IXMAP_SLOT_INFLIGHT) IXMAP_SLOT_INFLIGHT = 1.
Proof.
  unfold IXMAP_SLOT_INFLIGHT. rewrite Z.land_lor_distr_l. change (Z.land 1 1) with 1.
  change 1 with (Z.ones 1) at 1. rewrite Z.land_ones by lia. change (2 ^ 1) with 2.
  pose proof (Z.mod_pos_bound st 2). assert (st mod 2 = 0 \/ st mod 2 = 1) as [->| ->] by lia; done.
Qed.

(** [ixmap_slot_assign] finds a free slot of the share and marks it, or all of
    the share is in flight. *)
Lemma slot_assign_spec p b :
  wf_share p b ->
  exists slot p' b', ixmap_slot_assign b p = Some (slot, p', b') /\
    ((slot = -1 /\ p' = p /\ b' = b /\ forall s, in_share p b s -> inflight b s = true) \/
     (in_share p b slot /\ inflight b slot = false /\
      (exists nx, 0 <= nx < count b /\ p' = set_slot_next nx p) /\ same_buf b b' /\
      forall s, inflight b' s = inflight b s || bool_decide (s = slot))).
Proof.
  intros Hsh. pose proof Hsh as [Hoff Hc Hlen Hnx]. unfold ixmap_slot_assign.
  destruct (slot_search_spec (Z.to_nat (count b)) (rx_slot_next p) p b Hsh Hnx) as (res & -> & Hres). opt.
  destruct res as [[nx slot]|].
  - destruct Hres as (-> & Hr & Hf).
    destruct (load_some (slots b) (rx_slot_offset p + nx)) as [st Est]; [lia|]. rewrite Est. opt.
    rewrite store_some by lia. opt. eexists _, _, _. split; [done|]. right.
    split_and!; [unfold in_share; lia|done| | |].
    + eexists. split; [|done]. destruct (Z.eqb_spec (nx + 1) (count b)); lia.
    + split_and!; try done. cbn. by rewrite length_insert.
    + intros s. unfold inflight. cbn [slots set_slots].
      rewrite (load_store (slots b) (rx_slot_offset p + nx) (Z.lor st IXMAP_SLOT_INFLIGHT) s)
        by (by rewrite store_some by lia).
      case_decide as E.
      * rewrite lor_inflight. cbn. by rewrite bool_decide_eq_true_2, orb_true_r.
      * by rewrite bool_decide_eq_false_2, orb_false_r.
  - eexists _, _, _. split; [done|]. left. split_and!; try done. intros s Hs. unfold in_share in Hs.
    specialize (Hres ((s - rx_slot_offset p - rx_slot_next p) mod count b)).
    pose proof (Z.mod_pos_bound (s - rx_slot_offset p - rx_slot_next p) (count b) ltac:(lia)).
    rewrite Zplus_mod_idemp_r in Hres.
    replace (rx_slot_next p + (s - rx_slot_offset p - rx_slot_next p)) with (s - rx_slot_offset p) in Hres by lia.
    rewrite (Z.mod_small (s - rx_slot_offset p)) in Hres by lia. replace (rx_slot_offset p + (s - rx_slot_offset p)) with s in Hres by lia.
    apply Hres. lia.
Qed.

Lemma release_spec b s :
  0 <= s < Z.of_nat (length (slots b)) ->
  exists b', ixmap_slot_release b s = Some b' /\ same_buf b b' /\
    forall x, inflight b' x = inflight b x && negb (bool_decide (x = s)).
Proof.
  intros Hs. unfold ixmap_slot_release. rewrite store_some by done. opt. eexists. split; [done|].
  split; [split_and!; try done; cbn; by rewrite length_insert|].
  intros x. unfold inflight. cbn [slots set_slots].
  rewrite (load_store (slots b) s 0 x) by (by rewrite store_some by lia).
  case_decide as E.
  - subst. rewrite bool_decide_eq_true_2 by done. by rewrite andb_false_r.
  - rewrite bool_decide_eq_false_2 by done. by rewrite andb_true_r.
Qed.

(** ** Filling the receive ring *)

(** The bus address of a slot, for a port whose mapping starts at [base]. *)
Definition slot_dma (base : Z) (b : buf) (s : Z) : Z := u64 (base + u32 (buf_size b * s)).

Definition rx_cell (base : Z) (b : buf) (s : Z) : Z * adv_desc := (s, AdvDesc (slot_dma base b s) 0).

Definition assign_post (base n : Z) (p : port) (b : buf) (new : list Z) (p' : port) (b' : buf) : Prop :=
  wf_ring (num_rx_desc p) (rx_ring p') /\ tx_ring p' = tx_ring p /\ tx_suspended p' = tx_suspended p /\
  same_port p p' /\ wf_share p' b' /\ same_buf b b' /\
  ringq (num_rx_desc p) (rx_ring p') = ringq (num_rx_desc p) (rx_ring p) ++ (rx_cell base b <$> new) /\
  NoDup new /\ (forall s, s ∈ new -> in_share p b s /\ inflight b s = false) /\
  (forall s, inflight b' s = inflight b s || bool_decide (s ∈ new)) /\
  (Z.of_nat (length new) = n \/ (Z.of_nat (length new) < n /\ forall s, in_share p b s -> inflight b' s = true)).

Lemma push_eq n r slot d :
  wf_ring n r ->
  (r1 ← ixmap_slot_attach r (next_to_use r) slot; write_desc r1 (next_to_use r1) d) =
  Some (Ring (next_to_use r) (next_to_clean r) (<[Z.to_nat (next_to_use r) := slot]> (slot_index r))
             (<[Z.to_nat (next_to_use r) := d]> (descs r)) (tail r)).
Proof.
  intros [Hn Hu Hc Hs Hd]. unfold ixmap_slot_attach. rewrite store_some by lia. opt.
  unfold write_desc. cbn [next_to_use descs]. by rewrite store_some by lia.
Qed.

Lemma slot_next_share nx p b b' :
  wf_share p b -> same_buf b b' -> 0 <= nx < count b -> wf_share (set_slot_next nx p) b'.
Proof. intros [? ? ? ?] (_ & _ & _ & Hc & Hl) Hn. split; cbn; rewrite ?Hc, ?Hl; lia. Qed.

Lemma assign_post_nil base n p p' b :
  wf_ring (num_rx_desc p) (rx_ring p) -> wf_share p b ->
  rx_ring p' = rx_ring p -> tx_ring p' = tx_ring p -> tx_suspended p' = tx_suspended p ->
  rx_slot_next p' = rx_slot_next p -> same_port p p' ->
  (n = 0 \/ (0 < n /\ forall s, in_share p b s -> inflight b s = true)) ->
  assign_post base n p b [] p' b.
Proof.
  intros Hwf [? ? ? ?] Hr Ht Hs Hx Hsp Hn. pose proof Hsp as (Ho & _). unfold assign_post. rewrite Hr.
  split; [done|]. split; [done|]. split; [done|]. split; [done|]. split; [split; congruence || lia|].
  split; [apply same_buf_refl|]. split; [by rewrite fmap_nil, app_nil_r|]. split; [constructor|].
  split; [intros s Hin; by apply elem_of_nil in Hin|]. split; [|cbn; naive_solver lia].
  intros s. rewrite bool_decide_eq_false_2 by apply not_elem_of_nil. by rewrite orb_false_r.
Qed.

Lemma rx_assign_loop_spec n done port_index base p b :
  wf_ring (num_rx_desc p) (rx_ring p) -> wf_share p b -> load (addr_dma b) port_index = Some base ->
  Z.of_nat n <= num_rx_desc p - 1 - used (num_rx_desc p) (rx_ring p) ->
  exists new p' b', rx_assign_loop n done port_index p b = Some (done + Z.of_nat (length new), p', b') /\
    assign_post base (Z.of_nat n) p b new p' b'.
Proof.
  revert done p b. induction n as [|n IH]; intros done p b Hwf Hsh Hdma Hle.
  { exists [], p, b. cbn. split; [by rewrite Z.add_0_r|]. apply assign_post_nil; first [done|by split_and!|by left]. }
  cbn [rx_assign_loop].
  destruct (slot_assign_spec p b Hsh) as (slot & p1 & b1 & -> & [(-> & -> & -> & Hall)|Hok]). opt.
  { cbn [Z.ltb Z.compare]. exists [], (add_counts (Z.of_nat (S n)) 0 0 0 p), b.
    split; [by rewrite Z.add_0_r|]. apply assign_post_nil; first [done|by split_and!|right; split; [lia|done]]. }
  destruct Hok as (Hin & Hfree & (nx & Hnx & ->) & Hsb & Hfl). opt.
  assert (slot <? 0 = false) as -> by (apply Z.ltb_ge; unfold in_share in Hin; destruct Hsh; lia).
  cbn [rx_ring set_slot_next num_rx_desc].
  pose proof (push_eq _ _ slot (AdvDesc (slot_dma base b slot) 0) Hwf) as Hpush.
  unfold ixmap_slot_addr_dma. destruct Hsb as (? & Hd & Hbs & Hct & Hsl).
  destruct (ixmap_slot_attach (rx_ring p) (next_to_use (rx_ring p)) slot) as [r1|]; [|done]. opt.
  rewrite Hd, Hdma. opt. rewrite Hbs. fold (slot_dma base b slot). cbn in Hpush. rewrite Hpush. opt.
  set (r := Ring _ _ _ _ _). set (p1 := set_rx _ _).
  assert (rx_ring p1 = push (num_rx_desc p) slot (AdvDesc (slot_dma base b slot) 0) (rx_ring p)) as Er by done.
  assert (num_rx_desc p1 = num_rx_desc p) as En by done.
  pose proof (push_wf _ slot (AdvDesc (slot_dma base b slot) 0) _ Hwf) as Hwf1.
  destruct (IH (done + 1) p1 b1) as (new & p' & b' & Hrun & Hpost).
  - by rewrite En, Er.
  - assert (same_buf b b1) by (by split_and!).
    destruct (slot_next_share nx p b b1 Hsh) as [? ? ? ?]; [done|done|]. by split.
  - congruence.
  - rewrite En, Er, push_used by (done || lia). lia.
  - exists (slot :: new), p', b'. rewrite Hrun.
    split; [by replace (done + Z.of_nat (length (slot :: new))) with (done + 1 + Z.of_nat (length new)) by (cbn [length]; lia)|].
    destruct Hpost as (Hw & Ht & Hts & Hp & Hs' & Hb & Hq & Hnd & Hnew & Hfl' & Hn).
    rewrite En in Hw, Hq. rewrite Er, ringq_push in Hq by (done || lia).
    assert (forall s, in_share p1 b1 s <-> in_share p b s) as Hsame.
    { intros s. unfold in_share. rewrite Hct. done. }
    unfold assign_post. split_and!; try done.
    + apply same_buf_trans with b1; [by split_and!|done].
    + rewrite Hq, <- (assoc_L (++)). cbn [app fmap list_fmap]. do 2 f_equal.
      apply list_fmap_ext. intros i s _. unfold rx_cell, slot_dma. by rewrite Hbs.
    + apply NoDup_cons. split; [|done]. intros Hin'. apply Hnew in Hin' as [_ Hf].
      rewrite Hfl, bool_decide_eq_true_2, orb_true_r in Hf by done. done.
    + intros s [->|Hs]%elem_of_cons; [done|]. apply Hnew in Hs as [Hs Hf]. rewrite <- Hsame. split; [done|].
      rewrite Hfl in Hf. by apply orb_false_iff in Hf as [? _].
    + intros s. rewrite Hfl', Hfl, <- orb_assoc. f_equal. apply eq_true_iff_eq.
      rewrite orb_true_iff, !bool_decide_eq_true, elem_of_cons. done.
    + destruct Hn as [Hn|[Hn Hall]]; [left|right]; cbn [length]; [lia|]. split; [lia|].
      intros s Hs. apply Hall. by apply Hsame.
Qed.

Lemma rx_assign_ok port_index base p b :
  wf_ring (num_rx_desc p) (rx_ring p) -> wf_share p b -> load (addr_dma b) port_index = Some base ->
  exists new p' b', ixmap_rx_assign port_index p b = Some (p', b') /\
    assign_post base (num_rx_desc p - 1 - used (num_rx_desc p) (rx_ring p)) p b new p' b' /\
    (new <> [] -> tail (rx_ring p') = next_to_use (rx_ring p')).
Proof.
  intros Hwf Hsh Hdma. unfold ixmap_rx_assign. rewrite desc_unused_used by done.
  pose proof (used_range _ _ Hwf) as Hu. set (m := num_rx_desc p - 1 - used _ _) in *.
  destruct (Z.eqb_spec m 0) as [E|E].
  { exists [], p, b. split; [done|]. split; [|done].
    apply assign_post_nil; first [done|by split_and!|by left]. }
  destruct (rx_assign_loop_spec (Z.to_nat m) 0 port_index base p b) as (new & p1 & b1 & -> & Hpost); [done|done|done|lia|].
  opt. rewrite Z2Nat.id in Hpost by lia. destruct new as [|s new]; cbn [length].
  { exists [], p1, b1. done. }
  destruct (Z.eqb_spec (0 + Z.of_nat (S (length new))) 0); [lia|].
  eexists (s :: new), _, b1. split; [done|]. split; [|done].
  destruct Hpost as (Hw & Ht & Hts & Hp & [] & Hb & Hq & Hrest).
  split; [by apply write_tail_wf|]. split; [done|]. split; [done|]. split; [done|]. split; [by split|].
  split; [done|]. by split.
Qed.

(** ** Cleaning *)

(** The cells at the front of a queue that the hardware has finished, [n] at most. *)
Fixpoint finished (done : adv_desc -> bool) (n : nat) (q : list (Z * adv_desc)) : list (Z * adv_desc) :=
  match n, q with
  | S n, c :: q => if done c.2 then c :: finished done n q else []
  | _, _ => []
  end.

Definition rx_done (d : adv_desc) : bool := negb (Z.land (rx_status_error d) IXGBE_RXD_STAT_DD =? 0).
Definition tx_done (d : adv_desc) : bool := negb (Z.land (tx_status d) IXGBE_TXD_STAT_DD =? 0).

Definition rx_packet (b : buf) (c : Z * adv_desc) : packet :=
  Packet (ixmap_slot_addr_virt b c.1) (rx_length c.2) c.1.

Lemma rx_clean_loop_spec n b p :
  wf_ring (num_rx_desc p) (rx_ring p) ->
  exists p', rx_clean_loop n b p =
      Some (rx_packet b <$> finished rx_done n (ringq (num_rx_desc p) (rx_ring p)), p') /\
    wf_ring (num_rx_desc p) (rx_ring p') /\ tx_ring p' = tx_ring p /\ tx_suspended p' = tx_suspended p /\
    same_port p p' /\ rx_slot_next p' = rx_slot_next p /\
    ringq (num_rx_desc p) (rx_ring p) =
      finished rx_done n (ringq (num_rx_desc p) (rx_ring p)) ++ ringq (num_rx_desc p) (rx_ring p').
Proof.
  revert p. induction n as [|n IH]; intros p Hwf; cbn [rx_clean_loop].
  { exists p. by split_and!. }
  destruct (Z.eqb_spec (next_to_clean (rx_ring p)) (next_to_use (rx_ring p))) as [E|E].
  { exists p. rewrite (ring_empty_queue _ _ Hwf E). by split_and!. }
  pose proof (used_range _ _ Hwf). assert (0 < used (num_rx_desc p) (rx_ring p)) as Hu.
  { rewrite (ring_empty _ _ Hwf) in E. lia. }
  destruct (ringq_clean _ _ Hwf Hu) as (slot & d & Hs & Hd & Hq). rewrite Hd. opt.
  unfold ixmap_test_staterr. rewrite Hq. cbn [finished snd].
  assert (rx_done d = negb (Z.land (rx_status_error d) IXGBE_RXD_STAT_DD =? 0)) as -> by done.
  destruct (Z.land (rx_status_error d) IXGBE_RXD_STAT_DD =? 0) eqn:Ed; cbn [negb].
  { exists p. rewrite <- Hq. by split_and!. }
  unfold ixmap_slot_detach. rewrite Hs. opt.
  destruct (IH (set_rx (advance_clean (rx_ring p) (num_rx_desc p)) p)) as (p' & -> & Hw & Ht & Hts & Hsp & Hx & Hq').
  { by apply clean_wf. }
  opt. exists p'. split; [done|]. split; [done|]. split; [done|]. split; [done|]. split; [done|].
  split; [done|]. cbn [app]. by f_equal.
Qed.

Lemma tx_clean_loop_spec n p b :
  wf_ring (num_tx_desc p) (tx_ring p) ->
  Forall (fun s => 0 <= s < Z.of_nat (length (slots b))) (ringq (num_tx_desc p) (tx_ring p)).*1 ->
  exists p' b', tx_clean_loop n p b =
      Some (Z.of_nat (length (finished tx_done n (ringq (num_tx_desc p) (tx_ring p)))), p', b') /\
    wf_ring (num_tx_desc p) (tx_ring p') /\ rx_ring p' = rx_ring p /\ tx_suspended p' = tx_suspended p /\
    same_port p p' /\ rx_slot_next p' = rx_slot_next p /\ same_buf b b' /\
    ringq (num_tx_desc p) (tx_ring p) =
      finished tx_done n (ringq (num_tx_desc p) (tx_ring p)) ++ ringq (num_tx_desc p) (tx_ring p') /\
    (forall s, inflight b' s = inflight b s &&
       negb (bool_decide (s ∈ (finished tx_done n (ringq (num_tx_desc p) (tx_ring p))).*1))).
Proof.
  revert p b. induction n as [|n IH]; intros p b Hwf Hall; cbn [tx_clean_loop].
  { exists p, b. split_and!; try done. intros s. by rewrite andb_true_r. }
  destruct (Z.eqb_spec (next_to_clean (tx_ring p)) (next_to_use (tx_ring p))) as [E|E].
  { exists p, b. rewrite (ring_empty_queue _ _ Hwf E). split_and!; try done. intros s. by rewrite andb_true_r. }
  pose proof (used_range _ _ Hwf). assert (0 < used (num_tx_desc p) (tx_ring p)) as Hu.
  { rewrite (ring_empty _ _ Hwf) in E. lia. }
  destruct (ringq_clean _ _ Hwf Hu) as (slot & d & Hs & Hd & Hq). rewrite Hd. opt.
  rewrite Hq in Hall. cbn [fmap list_fmap fst] in Hall. apply Forall_cons in Hall as [Hslot Hall].
  rewrite Hq. cbn [finished snd].
  assert (tx_done d = negb (Z.land (tx_status d) IXGBE_TXD_STAT_DD =? 0)) as -> by done.
  destruct (Z.land (tx_status d) IXGBE_TXD_STAT_DD =? 0) eqn:Ed; cbn [negb].
  { exists p, b. rewrite <- Hq. split_and!; try done. intros s. by rewrite andb_true_r. }
  unfold ixmap_slot_detach. rewrite Hs. opt.
  destruct (release_spec b slot Hslot) as (b1 & -> & Hb1 & Hf1). opt.
  set (p1 := set_tx (advance_clean (tx_ring p) (num_tx_desc p)) (tx_suspended p) p).
  destruct (IH p1 b1) as (p' & b' & Hrun & Hw & Ht & Hts & Hsp & Hx & Hb & Hq' & Hf).
  { by apply clean_wf. }
  { destruct Hb1 as (_ & _ & _ & _ & ->). done. }
  rewrite Hrun. opt. exists p', b'. split; [|split; [done|split; [done|split; [done|split; [done|split; [done|]]]]]].
  { cbn [length]. repeat f_equal. by rewrite Nat2Z.inj_succ. }
  split; [by apply same_buf_trans with b1|]. split; [cbn [app]; by f_equal|].
  intros s. rewrite Hf, Hf1, <- andb_assoc. f_equal. rewrite <- negb_orb. f_equal.
  apply eq_true_iff_eq. rewrite orb_true_iff, !bool_decide_eq_true. cbn [fmap list_fmap fst].
  by rewrite elem_of_cons.
Qed.

(** ** Sending *)

Definition tx_adv_desc (base : Z) (b : buf) (pk : packet) : adv_desc :=
  AdvDesc (slot_dma base b (pk_slot_index pk))
          (tx_cmd_type (slot_size pk) + tx_olinfo (slot_size pk) * 2 ^ 32).

(** The second word of a descriptor, field by field: the length of the buffer in
    bits 0 to 15, the flags of a complete packet, the length of the packet from bit
    46 on. *)
Lemma tx_word pk :
  0 <= slot_size pk <= IXGBE_MAX_DATA_PER_TXD ->
  tx_cmd_type (slot_size pk) + tx_olinfo (slot_size pk) * 2 ^ 32 =
    slot_size pk + 0x2b30 * 2 ^ 16 + slot_size pk * 2 ^ 46.
Proof.
  intros Hs. change IXGBE_MAX_DATA_PER_TXD with (2 ^ 14) in Hs. unfold tx_cmd_type, tx_olinfo, u32.
  rewrite <- !Z.lor_assoc.
  change (Z.lor IXGBE_TXD_CMD_EOP _) with (0x2b30 * 2 ^ 16). rewrite Z.lor_comm, lor_low by lia.
  unfold IXGBE_ADVTXD_PAYLEN_SHIFT. rewrite Z.shiftl_mul_pow2 by lia.
  rewrite (Z.mod_small (slot_size pk * _)) by lia. lia.
Qed.

(** A descriptor just written does not look finished: the done bits are in
    words the driver has cleared. *)
Lemma tx_fresh base b pk :
  0 <= slot_size pk <= IXGBE_MAX_DATA_PER_TXD -> tx_done (tx_adv_desc base b pk) = false.
Proof.
  intros Hs. unfold tx_done, tx_status, tx_adv_desc. cbn [d_hi]. rewrite tx_word by done.
  change IXGBE_MAX_DATA_PER_TXD with (2 ^ 14) in Hs. unfold IXGBE_TXD_STAT_DD, u32. change 1 with (Z.ones 1).
  replace (slot_size pk * 2 ^ 46) with (slot_size pk * 2 ^ 14 * 2 ^ 32) by lia.
  rewrite Z.shiftr_div_pow2, Z.div_add, Z.div_small, Z.add_0_l, Z.mod_small, Z.land_ones by lia.
  replace (slot_size pk * 2 ^ 14) with (slot_size pk * 2 ^ 13 * 2 ^ 1) by lia. by rewrite Z.mod_mul.
Qed.

Lemma rx_fresh base b s : rx_done (rx_cell base b s).2 = false.
Proof. done. Qed.

Lemma finished_fresh done n q new :
  Forall (fun c => done c.2 = false) new -> finished done n (q ++ new) = finished done n q.
Proof.
  intros Hnew. revert n. induction q as [|c q IH]; intros [|n]; try done.
  - destruct Hnew as [|c new Hc _]; cbn; [done|]. by rewrite Hc.
  - cbn [app finished]. by rewrite IH.
Qed.

Lemma tx_assign_ok port_index base pk p b :
  wf_ring (num_tx_desc p) (tx_ring p) -> load (addr_dma b) port_index = Some base ->
  0 <= pk_slot_index pk < Z.of_nat (length (slots b)) ->
  exists p' b', ixmap_tx_assign port_index pk p b = Some (p', b') /\
    wf_ring (num_tx_desc p) (tx_ring p') /\ rx_ring p' = rx_ring p /\ same_port p p' /\
    rx_slot_next p' = rx_slot_next p /\ same_buf b b' /\
    ((used (num_tx_desc p) (tx_ring p) < num_tx_desc p - 1 /\ slot_size pk <= IXGBE_MAX_DATA_PER_TXD /\
      b' = b /\ tx_suspended p' = u32 (tx_suspended p + 1) /\
      ringq (num_tx_desc p) (tx_ring p') =
        ringq (num_tx_desc p) (tx_ring p) ++ [(pk_slot_index pk, tx_adv_desc base b pk)]) \/
     ((used (num_tx_desc p) (tx_ring p) = num_tx_desc p - 1 \/ IXGBE_MAX_DATA_PER_TXD < slot_size pk) /\
      tx_ring p' = tx_ring p /\ count_tx_xmit_failed p' = u64 (count_tx_xmit_failed p + 1) /\
      forall s, inflight b' s = inflight b s && negb (bool_decide (s = pk_slot_index pk)))).
Proof.
  intros Hwf Hdma Hs. unfold ixmap_tx_assign. rewrite desc_unused_used by done.
  pose proof (used_range _ _ Hwf) as Hu. destruct (release_spec b (pk_slot_index pk) Hs) as (b1 & Hrel & Hsb & Hf).
  destruct (Z.eqb_spec (num_tx_desc p - 1 - used (num_tx_desc p) (tx_ring p)) 0) as [E|E].
  { rewrite Hrel. opt. eexists _, b1. split; [done|]. do 5 (split; [done|]). right. split; [left; lia|done]. }
  destruct (Z.ltb_spec IXGBE_MAX_DATA_PER_TXD (slot_size pk)).
  { rewrite Hrel. opt. eexists _, b1. split; [done|]. do 5 (split; [done|]). right. split; [by right|done]. }
  pose proof (push_eq _ _ (pk_slot_index pk) (tx_adv_desc base b pk) Hwf) as Hpush.
  destruct (ixmap_slot_attach (tx_ring p) (next_to_use (tx_ring p)) (pk_slot_index pk)) as [r1|]; [|done]. opt.
  unfold ixmap_slot_addr_dma. rewrite Hdma. opt. fold (slot_dma base b (pk_slot_index pk)).
  cbn in Hpush. fold (tx_adv_desc base b pk). rewrite Hpush. opt. eexists _, b. split; [done|].
  cbn [tx_ring set_tx]. set (r' := advance_use _ _).
  assert (r' = push (num_tx_desc p) (pk_slot_index pk) (tx_adv_desc base b pk) (tx_ring p)) as -> by done.
  split; [by apply push_wf|]. do 3 (split; [done|]). split; [apply same_buf_refl|]. left.
  split; [lia|]. split; [done|]. split; [done|]. split; [done|]. apply ringq_push; [done|lia].
Qed.

(** [finished] stops at the budget or before a cell the card still has. *)
Lemma finished_max done n q rest :
  q = finished done n q ++ rest -> (length (finished done n q) < n)%nat ->
  match rest with [] => True | c :: _ => done c.2 = false end.
Proof.
  revert n rest. induction q as [|c q IH]; intros [|n] rest; cbn [finished].
  - cbn. lia.
  - by destruct rest.
  - cbn. lia.
  - destruct (done c.2) eqn:E.
    + cbn [app length]. intros [= Hq] Hl. apply (IH n); [done|lia].
    + cbn [app]. by intros <- _.
Qed.

Lemma finished_done done n q : Forall (fun c => done c.2 = true) (finished done n q).
Proof.
  revert n. induction q as [|c q IH]; intros [|n]; cbn [finished]; try constructor.
  destruct (done c.2) eqn:E; by constructor.
Qed.

Lemma finished_le done n q : (length (finished done n q) <= n)%nat.
Proof.
  revert n. induction q as [|c q IH]; intros [|n]; cbn [finished length]; try lia.
  destruct (done c.2); cbn [length]; [specialize (IH n); lia|lia].
Qed.
