(* ===== verification/DriverProps.v ===== *)
(** * Who owns a packet buffer

    A core's ports and its application, with the network card as a third party
    that may rewrite descriptors at any time, as operations on one state.  The
    theorems show that no sequence of operations accesses an array out of
    bounds, gives a buffer to two owners or loses one, and that the rings
    deliver in order. *)

From stdpp Require Import prelude list.
From S2P Require Import Prelude Driver DriverFacts.

(** ** The system *)

(** [held]: the slots whose packets the application is processing. *)
Record plane := Plane { ports : list port; pool : buf; held : list Z }.

Inductive op :=
  | RxAssign (i : nat)
  | RxClean (i : nat)
  | TxAssign (i : nat) (pk : packet)
  | TxXmit (i : nat)
  | TxClean (i : nat)
  | SlotAssign (i : nat)
  | SlotRelease (s : Z)
  | Hardware (i : nat) (rx tx : list adv_desc).

Definition with_descs (ds : list adv_desc) (r : ring) : ring :=
  Ring (next_to_use r) (next_to_clean r) (slot_index r) ds (tail r).

Definition drop_held (s : Z) (h : list Z) : list Z := filter (fun x => x <> s) h.

Definition run_op (o : op) (st : plane) : option plane :=
  let '(Plane ps b h) := st in
  match o with
  | RxAssign i =>
      p ← ps !! i; '(p', b') ← ixmap_rx_assign (Z.of_nat i) p b; Some (Plane (<[i := p']> ps) b' h)
  | RxClean i =>
      p ← ps !! i; '(pks, p') ← ixmap_rx_clean b p;
      Some (Plane (<[i := p']> ps) b (h ++ (pk_slot_index <$> pks)))
  | TxAssign i pk =>
      p ← ps !! i; '(p', b') ← ixmap_tx_assign (Z.of_nat i) pk p b;
      Some (Plane (<[i := p']> ps) b' (drop_held (pk_slot_index pk) h))
  | TxXmit i => p ← ps !! i; Some (Plane (<[i := ixmap_tx_xmit p]> ps) b h)
  | TxClean i => p ← ps !! i; '(p', b') ← ixmap_tx_clean p b; Some (Plane (<[i := p']> ps) b' h)
  | SlotAssign i =>
      p ← ps !! i; '(slot, p', b') ← ixmap_slot_assign b p;
      Some (Plane (<[i := p']> ps) b' (if slot <? 0 then h else h ++ [slot]))
  | SlotRelease s => b' ← ixmap_slot_release b s; Some (Plane ps b' (drop_held s h))
  | Hardware i rx tx =>
      p ← ps !! i;
      Some (Plane (<[i := set_tx (with_descs tx (tx_ring p)) (tx_suspended p)
                            (set_rx (with_descs rx (rx_ring p)) p)]> ps) b h)
  end.

(** What the application must observe: it sends and releases packets it holds,
    and the card writes within the rings. *)
Definition op_ok (o : op) (st : plane) : Prop :=
  match o with
  | RxAssign i | RxClean i | TxXmit i | TxClean i | SlotAssign i => (i < length (ports st))%nat
  | TxAssign i pk => (i < length (ports st))%nat /\ pk_slot_index pk ∈ held st
  | SlotRelease s => s ∈ held st
  | Hardware i rx tx =>
      exists p, ports st !! i = Some p /\
        length rx = length (descs (rx_ring p)) /\ length tx = length (descs (tx_ring p))
  end.

Definition plane_step (st st' : plane) : Prop := exists o, op_ok o st /\ run_op o st = Some st'.

(** ** Ownership *)

Definition rx_queue (p : port) : list Z := (ringq (num_rx_desc p) (rx_ring p)).*1.
Definition tx_queue (p : port) : list Z := (ringq (num_tx_desc p) (tx_ring p)).*1.
Definition port_slots (p : port) : list Z := rx_queue p ++ tx_queue p.

(** The slots in the hands of the application or queued in some ring. *)
Definition owned (st : plane) : list Z := held st ++ concat (port_slots <$> ports st).

Record port_ok (p : port) (b : buf) : Prop := {
  pt_rx : wf_ring (num_rx_desc p) (rx_ring p);
  pt_tx : wf_ring (num_tx_desc p) (tx_ring p);
  pt_share : wf_share p b
}.

Record plane_ok (st : plane) : Prop := {
  po_ports : Forall (fun p => port_ok p (pool st)) (ports st);
  po_dma : length (addr_dma (pool st)) = length (ports st);
  po_once : NoDup (owned st);
  po_flight : forall s, inflight (pool st) s = true <-> s ∈ owned st
}.

Lemma port_ok_buf p b b' : same_buf b b' -> port_ok p b -> port_ok p b'.
Proof.
  intros (_ & _ & _ & Hc & Hl) [Hr Ht [? ? ? ?]]. split; [done|done|]. split; rewrite ?Hc, ?Hl; lia.
Qed.

Lemma inflight_range b s : inflight b s = true -> 0 <= s < Z.of_nat (length (slots b)).
Proof. unfold inflight. destruct (load (slots b) s) eqn:E; [|done]. intros _. by eapply load_range. Qed.

Lemma owned_split ps i p b h :
  ps !! i = Some p ->
  owned (Plane ps b h) ≡ₚ h ++ port_slots p ++ concat (port_slots <$> delete i ps).
Proof.
  intros Hi. unfold owned. cbn [ports held]. f_equiv.
  rewrite <- (take_drop_middle ps i p Hi) at 1. rewrite delete_take_drop, !fmap_app, !concat_app.
  cbn [fmap list_fmap concat]. rewrite !(assoc_L (++)). f_equiv. by rewrite (comm (++)).
Qed.

Lemma delete_insert_same {A} (l : list A) i x : delete i (<[i := x]> l) = delete i l.
Proof.
  rewrite !delete_take_drop, take_insert_ge by lia. by rewrite drop_insert_lt by lia.
Qed.

Lemma owned_insert ps i p b h :
  (i < length ps)%nat ->
  owned (Plane (<[i := p]> ps) b h) ≡ₚ h ++ port_slots p ++ concat (port_slots <$> delete i ps).
Proof.
  intros Hi. rewrite (owned_split _ i p) by (by apply list_lookup_insert_eq). by rewrite delete_insert_same.
Qed.

(** The accounting step shared by all operations: [new] slots were free and
    become owned, [gone] slots are given back. *)
Lemma account own own' new gone b b' :
  NoDup own -> (forall s, inflight b s = true <-> s ∈ own) ->
  new ++ own ≡ₚ gone ++ own' -> NoDup new -> (forall s, s ∈ new -> inflight b s = false) ->
  (forall s, inflight b' s = (inflight b s || bool_decide (s ∈ new)) && negb (bool_decide (s ∈ gone))) ->
  NoDup own' /\ forall s, inflight b' s = true <-> s ∈ own'.
Proof.
  intros Hnd Hfl Hp Hnew Hfree Hfl'.
  assert (NoDup (gone ++ own')) as Hall.
  { rewrite <- Hp. apply NoDup_app. split_and!; [done| |done]. intros s Hs Ho%Hfl. by rewrite Hfree in Ho. }
  apply NoDup_app in Hall as (_ & Hdis & Hnd'). split; [done|]. intros s.
  rewrite Hfl', andb_true_iff, orb_true_iff, negb_true_iff, bool_decide_eq_true, bool_decide_eq_false, Hfl.
  assert (s ∈ new ++ own <-> s ∈ gone ++ own') as Hm by (by rewrite Hp).
  rewrite !elem_of_app in Hm. specialize (Hdis s). tauto.
Qed.

Lemma plane_upd ps b h i p p' b' h' new gone :
  plane_ok (Plane ps b h) -> ps !! i = Some p -> port_ok p' b' -> same_buf b b' ->
  new ++ h ++ port_slots p ≡ₚ gone ++ h' ++ port_slots p' ->
  NoDup new -> (forall s, s ∈ new -> inflight b s = false) ->
  (forall s, inflight b' s = (inflight b s || bool_decide (s ∈ new)) && negb (bool_decide (s ∈ gone))) ->
  plane_ok (Plane (<[i := p']> ps) b' h').
Proof.
  intros [Hps Hdma Hnd Hfl] Hi Hp' Hsb Hperm Hnew Hfree Hfl'. cbn [ports pool held] in *.
  pose proof (lookup_lt_Some _ _ _ Hi) as Hlt.
  destruct (account _ (owned (Plane (<[i := p']> ps) b' h')) new gone b b' Hnd Hfl) as [H1 H2]; try done.
  { rewrite (owned_split ps i p) by done. rewrite owned_insert by done.
    rewrite !(assoc_L (++)) in *. by rewrite Hperm. }
  split; cbn [ports pool]; try done.
  - apply Forall_insert; [|done]. eapply Forall_impl; [done|]. intros q Hq. by eapply port_ok_buf.
  - destruct Hsb as (_ & -> & _). by rewrite length_insert.
Qed.

(** Slots change hands, and the pool does not. *)
Lemma plane_move ps b h i p p' h' :
  plane_ok (Plane ps b h) -> ps !! i = Some p -> port_ok p' b ->
  h ++ port_slots p ≡ₚ h' ++ port_slots p' -> plane_ok (Plane (<[i := p']> ps) b h').
Proof.
  intros Hok Hi Hp' Hperm. eapply (plane_upd _ _ _ _ _ _ _ _ [] []); try done.
  - constructor.
  - intros s Hs. by apply elem_of_nil in Hs.
  - intros s. rewrite !bool_decide_eq_false_2 by apply not_elem_of_nil. by rewrite orb_false_r, andb_true_r.
Qed.

(** Slots are given back, and none is taken. *)
Lemma plane_give ps b h i p p' b' h' gone :
  plane_ok (Plane ps b h) -> ps !! i = Some p -> port_ok p' b' -> same_buf b b' ->
  h ++ port_slots p ≡ₚ gone ++ h' ++ port_slots p' ->
  (forall s, inflight b' s = inflight b s && negb (bool_decide (s ∈ gone))) ->
  plane_ok (Plane (<[i := p']> ps) b' h').
Proof.
  intros Hok Hi Hp' Hsb Hperm Hfl. eapply (plane_upd _ _ _ _ _ _ _ _ []); try done.
  - constructor.
  - intros s Hs. by apply elem_of_nil in Hs.
  - intros s. rewrite Hfl, (bool_decide_eq_false_2 (s ∈ [])) by apply not_elem_of_nil. by rewrite orb_false_r.
Qed.

(** Slots are taken, and none is given back. *)
Lemma plane_take ps b h i p p' b' h' new :
  plane_ok (Plane ps b h) -> ps !! i = Some p -> port_ok p' b' -> same_buf b b' ->
  new ++ h ++ port_slots p ≡ₚ h' ++ port_slots p' ->
  NoDup new -> (forall s, s ∈ new -> inflight b s = false) ->
  (forall s, inflight b' s = inflight b s || bool_decide (s ∈ new)) ->
  plane_ok (Plane (<[i := p']> ps) b' h').
Proof.
  intros Hok Hi Hp' Hsb Hperm Hnd Hfree Hfl. eapply (plane_upd _ _ _ _ _ _ _ _ new []); try done.
  intros s. by rewrite Hfl, (bool_decide_eq_false_2 (s ∈ [])), andb_true_r by apply not_elem_of_nil.
Qed.

Lemma drop_held_perm s h : NoDup h -> s ∈ h -> h ≡ₚ s :: drop_held s h.
Proof.
  intros Hnd Hin. apply NoDup_Permutation; [done| |].
  - apply NoDup_cons. unfold drop_held. rewrite list_elem_of_filter. split; [naive_solver|by apply NoDup_filter].
  - intros x. rewrite elem_of_cons. unfold drop_held. rewrite list_elem_of_filter.
    destruct (decide (x = s)); naive_solver.
Qed.

Lemma plane_port ps b h i :
  plane_ok (Plane ps b h) -> (i < length ps)%nat ->
  exists p base, ps !! i = Some p /\ port_ok p b /\ load (addr_dma b) (Z.of_nat i) = Some base.
Proof.
  intros [Hps Hdma _ _] Hi. cbn [ports pool] in *. apply lookup_lt_is_Some_2 in Hi as Hp. destruct Hp as [p Hp].
  destruct (load_some (addr_dma b) (Z.of_nat i)) as [base Hb]; [lia|]. exists p, base. split; [done|].
  split; [|done]. by eapply Forall_lookup_1 in Hps.
Qed.

Lemma held_nodup st : plane_ok st -> NoDup (held st).
Proof. intros [_ _ H _]. by apply NoDup_app in H as (? & _). Qed.

Lemma held_range ps b h s : plane_ok (Plane ps b h) -> s ∈ h -> 0 <= s < Z.of_nat (length (slots b)).
Proof.
  intros [_ _ _ Hfl] Hs. apply inflight_range, Hfl. unfold owned. apply elem_of_app. by left.
Qed.

(** ** The operations preserve ownership *)

Section operations.
Context (ps : list port) (b : buf) (h : list Z) (Hok : plane_ok (Plane ps b h)).

Lemma op_rx_assign i :
  (i < length ps)%nat -> exists st', run_op (RxAssign i) (Plane ps b h) = Some st' /\ plane_ok st'.
Proof.
  intros Hi. destruct (plane_port _ _ _ _ Hok Hi) as (p & base & Hp & [Hr Ht Hs] & Hb). cbn [run_op].
  rewrite Hp. opt. destruct (rx_assign_ok (Z.of_nat i) base p b Hr Hs Hb) as (new & p' & b' & -> & Hpost & _). opt.
  destruct Hpost as (Hw & Htx & _ & (Ho & Hn & Hn' & _) & Hs' & Hsb & Hq & Hnd & Hnew & Hfl & _).
  eexists. split; [done|]. eapply (plane_take _ _ _ _ _ _ _ _ new); try done.
  - split; [by rewrite Hn|by rewrite Hn', Htx|done].
  - unfold port_slots, rx_queue, tx_queue. rewrite Hn, Hn', Htx, Hq, fmap_app.
    assert ((rx_cell base b <$> new).*1 = new) as ->.
    { rewrite <- list_fmap_compose. by rewrite list_fmap_id. }
    solve_Permutation.
  - intros s Hs0. by apply Hnew.
Qed.

Lemma op_rx_clean i :
  (i < length ps)%nat -> exists st', run_op (RxClean i) (Plane ps b h) = Some st' /\ plane_ok st'.
Proof.
  intros Hi. destruct (plane_port _ _ _ _ Hok Hi) as (p & base & Hp & [Hr Ht Hs] & Hb). cbn [run_op].
  rewrite Hp. opt. unfold ixmap_rx_clean.
  destruct (rx_clean_loop_spec (Z.to_nat (rx_budget p)) b p Hr) as (p' & -> & Hw & Htx & _ & (Ho & Hn & Hn' & _) & Hx & Hq).
  opt. eexists. split; [done|]. eapply plane_move; [done|done| |].
  - split; cbn; [by rewrite Hn|by rewrite Hn', Htx|]. destruct Hs. split; cbn; rewrite ?Ho, ?Hx; lia.
  - unfold port_slots, rx_queue, tx_queue. cbn [num_rx_desc num_tx_desc add_counts rx_ring tx_ring].
    rewrite Hn, Hn', Htx. rewrite Hq at 1. rewrite fmap_app, <- list_fmap_compose.
    change (pk_slot_index ∘ rx_packet b) with (@fst Z adv_desc). solve_Permutation.
Qed.

Lemma op_tx_assign i pk :
  (i < length ps)%nat -> pk_slot_index pk ∈ h ->
  exists st', run_op (TxAssign i pk) (Plane ps b h) = Some st' /\ plane_ok st'.
Proof.
  intros Hi Hin. destruct (plane_port _ _ _ _ Hok Hi) as (p & base & Hp & [Hr Ht Hs] & Hb). cbn [run_op].
  rewrite Hp. opt. pose proof (drop_held_perm _ _ (held_nodup _ Hok) Hin) as Hperm. cbn [held] in Hperm.
  destruct (tx_assign_ok (Z.of_nat i) base pk p b Ht Hb (held_range _ _ _ _ Hok Hin))
    as (p' & b' & -> & Hw & Hrx & (Ho & Hn & Hn' & _) & Hx & Hsb & Hcase).
  opt. eexists. split; [done|].
  assert (port_ok p' b') as Hpok.
  { apply (port_ok_buf _ b); [done|]. split; [by rewrite Hn, Hrx|by rewrite Hn'|].
    destruct Hs. split; rewrite ?Ho, ?Hx; lia. }
  destruct Hcase as [(_ & _ & -> & _ & Hq)|(_ & Htx & _ & Hfl)].
  - eapply plane_move; [done|done|done|]. unfold port_slots, rx_queue, tx_queue.
    rewrite Hn, Hn', Hrx, Hq, fmap_app. rewrite Hperm at 1. cbn [fmap list_fmap fst]. solve_Permutation.
  - eapply (plane_give _ _ _ _ _ _ _ _ [pk_slot_index pk]); try done.
    + unfold port_slots, rx_queue, tx_queue. rewrite Hn, Hn', Hrx, Htx. rewrite Hperm at 1. done.
    + intros s. rewrite Hfl. do 2 f_equal. apply bool_decide_ext. by rewrite list_elem_of_singleton.
Qed.

Lemma op_tx_xmit i :
  (i < length ps)%nat -> exists st', run_op (TxXmit i) (Plane ps b h) = Some st' /\ plane_ok st'.
Proof.
  intros Hi. destruct (plane_port _ _ _ _ Hok Hi) as (p & base & Hp & [Hr Ht []] & Hb). cbn [run_op].
  rewrite Hp. opt. eexists. split; [done|]. unfold ixmap_tx_xmit.
  destruct (tx_suspended p =? 0); (eapply plane_move; [done|done| |done]);
    (split; [done|first [done|by apply write_tail_wf]|by split]).
Qed.

Lemma op_tx_clean i :
  (i < length ps)%nat -> exists st', run_op (TxClean i) (Plane ps b h) = Some st' /\ plane_ok st'.
Proof.
  intros Hi. destruct (plane_port _ _ _ _ Hok Hi) as (p & base & Hp & [Hr Ht Hs] & Hb). cbn [run_op].
  rewrite Hp. opt. unfold ixmap_tx_clean.
  destruct (tx_clean_loop_spec (Z.to_nat (tx_budget p)) p b Ht)
    as (p' & b' & -> & Hw & Hrx & _ & (Ho & Hn & Hn' & _) & Hx & Hsb & Hq & Hfl).
  { apply Forall_forall. intros s Hs0. apply inflight_range. apply (po_flight _ Hok). unfold owned.
    apply elem_of_app. right. cbn [ports]. apply list_elem_of_In, in_concat. exists (port_slots p).
    split; [apply list_elem_of_In, list_elem_of_fmap; exists p; split; [done|by eapply list_elem_of_lookup_2]|].
    apply list_elem_of_In, elem_of_app. by right. }
  opt. eexists. split; [done|]. eapply plane_give; [done|done| |done| |done].
  - apply (port_ok_buf _ b); [done|]. split; cbn; [by rewrite Hn, Hrx|by rewrite Hn'|].
    destruct Hs. split; cbn; rewrite ?Ho, ?Hx; lia.
  - unfold port_slots, rx_queue, tx_queue. cbn [num_rx_desc num_tx_desc add_counts rx_ring tx_ring].
    rewrite Hn, Hn', Hrx. rewrite Hq at 1. rewrite fmap_app. solve_Permutation.
Qed.

Lemma op_slot_assign i :
  (i < length ps)%nat -> exists st', run_op (SlotAssign i) (Plane ps b h) = Some st' /\ plane_ok st'.
Proof.
  intros Hi. destruct (plane_port _ _ _ _ Hok Hi) as (p & base & Hp & [Hr Ht Hs] & Hb). cbn [run_op].
  rewrite Hp. opt. destruct (slot_assign_spec p b Hs) as (slot & p' & b' & -> & [(-> & -> & -> & _)|Hc]); opt.
  { eexists. split; [done|]. cbn [Z.ltb Z.compare]. eapply plane_move; [done|done|by split|done]. }
  destruct Hc as (Hin & Hfree & (nx & Hnx & ->) & Hsb & Hfl).
  assert (slot <? 0 = false) as -> by (apply Z.ltb_ge; unfold in_share in Hin; destruct Hs; lia).
  eexists. split; [done|]. eapply (plane_take _ _ _ _ _ _ _ _ [slot]); try done.
  - split; [done|done|]. by eapply slot_next_share.
  - unfold port_slots, rx_queue, tx_queue. cbn. solve_Permutation.
  - apply NoDup_singleton.
  - by intros s ->%list_elem_of_singleton.
  - intros s. rewrite Hfl. f_equal. apply bool_decide_ext. by rewrite list_elem_of_singleton.
Qed.

Lemma op_slot_release s :
  s ∈ h -> exists st', run_op (SlotRelease s) (Plane ps b h) = Some st' /\ plane_ok st'.
Proof.
  intros Hin. cbn [run_op]. destruct (release_spec b s (held_range _ _ _ _ Hok Hin)) as (b' & -> & Hsb & Hfl).
  opt. eexists. split; [done|]. pose proof (drop_held_perm _ _ (held_nodup _ Hok) Hin) as Hperm. cbn [held] in Hperm.
  destruct Hok as [Hps Hdma Hnd Hf]. cbn [ports pool held] in *.
  destruct (account _ (owned (Plane ps b' (drop_held s h))) [] [s] b b' Hnd Hf) as [H1 H2].
  - unfold owned. cbn [ports held]. rewrite Hperm at 1. done.
  - constructor.
  - intros x Hx. by apply elem_of_nil in Hx.
  - intros x. rewrite Hfl, (bool_decide_eq_false_2 (x ∈ [])), orb_false_r by apply not_elem_of_nil.
    do 2 f_equal. apply bool_decide_ext. by rewrite list_elem_of_singleton.
  - split; cbn [ports pool]; try done; [|by destruct Hsb as (_ & -> & _)].
    eapply Forall_impl; [done|]. intros q Hq. by eapply port_ok_buf.
Qed.

Lemma with_descs_wf n r ds : wf_ring n r -> length ds = length (descs r) -> wf_ring n (with_descs ds r).
Proof. intros [? ? ? ? ?] Hl. split; cbn; try done. by rewrite Hl. Qed.

(** Whatever the card writes, the slots queued are the same. *)
Lemma with_descs_slots n r ds : (ringq n (with_descs ds r)).*1 = (ringq n r).*1.
Proof. unfold ringq. rewrite <- !list_fmap_compose. done. Qed.

Lemma op_hardware i rx tx :
  op_ok (Hardware i rx tx) (Plane ps b h) ->
  exists st', run_op (Hardware i rx tx) (Plane ps b h) = Some st' /\ plane_ok st'.
Proof.
  intros (p0 & Hp0 & Hl1 & Hl2). cbn [ports] in Hp0.
  destruct (plane_port _ _ _ i Hok (lookup_lt_Some _ _ _ Hp0)) as (p & base & Hp & [Hr Ht [? ? ? ?]] & Hb).
  assert (p0 = p) as -> by congruence. cbn [run_op]. rewrite Hp. opt. eexists. split; [done|]. eapply plane_move; [done|done| |].
  - split; [by apply with_descs_wf|by apply with_descs_wf|by split].
  - unfold port_slots, rx_queue, tx_queue. cbn. by rewrite !with_descs_slots.
Qed.

Lemma op_safe o : op_ok o (Plane ps b h) -> exists st', run_op o (Plane ps b h) = Some st' /\ plane_ok st'.
Proof.
  destruct o; cbn [op_ok ports held].
  - apply op_rx_assign.
  - apply op_rx_clean.
  - intros [? ?]. by apply op_tx_assign.
  - apply op_tx_xmit.
  - apply op_tx_clean.
  - apply op_slot_assign.
  - apply op_slot_release.
  - apply op_hardware.
Qed.

End operations.

(** ** The state after initialisation *)

(** All rings empty, no slot in flight and none held. *)
Record plane_fresh (st : plane) : Prop := {
  pf_ports : Forall (fun p => port_ok p (pool st)) (ports st);
  pf_empty : Forall (fun p => next_to_clean (rx_ring p) = next_to_use (rx_ring p) /\
                              next_to_clean (tx_ring p) = next_to_use (tx_ring p)) (ports st);
  pf_dma : length (addr_dma (pool st)) = length (ports st);
  pf_held : held st = [];
  pf_slots : Forall (fun s => s = 0) (slots (pool st))
}.

Lemma fresh_ok st : plane_fresh st -> plane_ok st.
Proof.
  intros [Hps He Hd Hh Hs].
  assert (owned st = []) as Ho.
  { unfold owned. rewrite Hh. cbn [app]. clear Hd. induction (ports st) as [|p ps IH]; [done|]. inversion Hps as [|? ? [] ?].
    inversion He as [|? ? [] ?]. cbn [fmap list_fmap concat]. rewrite IH; [|done|done].
    unfold port_slots, rx_queue, tx_queue. by rewrite !ring_empty_queue. }
  split; [done|done|rewrite Ho; constructor|]. intros s. rewrite Ho. unfold inflight.
  destruct (load (slots (pool st)) s) as [x|] eqn:E.
  - assert (x = 0) as ->.
    { pose proof (load_range _ _ _ E). rewrite load_lookup in E by lia. by eapply Forall_lookup_1 in Hs. }
    cbn. by rewrite elem_of_nil.
  - by rewrite elem_of_nil.
Qed.

Lemma reachable_ok st0 st : plane_fresh st0 -> rtc plane_step st0 st -> plane_ok st.
Proof.
  intros Hf Hr. apply fresh_ok in Hf. induction Hr as [st|st st1 st2 (o & Ho & Hrun) _ IH]; [done|].
  apply IH. destruct st as [ps b h]. destruct (op_safe ps b h Hf o Ho) as (st' & Hrun' & Hok). congruence.
Qed.

(** ** A concrete plane

    Two ports with rings of four descriptors and a share of three slots each. *)

Definition demo_ring : ring := Ring 0 0 [0; 0; 0; 0] (replicate 4 (AdvDesc 0 0)) 0.
Definition demo_port (off : Z) : port :=
  Port demo_ring demo_ring 0 off 0 4 4 2 2 [2; 0; 0; 0; 0; 1] 0 0 0 0.
Definition demo_buf : buf := Buf 0x10000 [0x80000; 0x90000] 2048 3 (replicate 6 0).
Definition demo_plane : plane := Plane [demo_port 0; demo_port 3] demo_buf [].

Lemma demo_fresh : plane_fresh demo_plane.
Proof.
  assert (wf_ring 4 demo_ring) by (split; cbn; lia).
  split; cbn -[Z.pow]; [|by repeat constructor|done|done|by repeat constructor].
  repeat (constructor; [split; [done|done|split; cbn; lia]|]). constructor.
Qed.

(** What a packet arriving in slot 0 of port 0 and leaving by port 1 needs. *)
Definition demo_done : adv_desc := AdvDesc 0 (1 + 64 * 2 ^ 32).
Definition demo_sent : adv_desc := AdvDesc 0 (1 * 2 ^ 32).
Definition demo_ops : list op :=
  [RxAssign 0; Hardware 0 (demo_done :: replicate 3 (AdvDesc 0 0)) (replicate 4 (AdvDesc 0 0));
   RxClean 0; TxAssign 1 (Packet 0x10000 64 0); TxXmit 1;
   Hardware 1 (replicate 4 (AdvDesc 0 0)) (demo_sent :: replicate 3 (AdvDesc 0 0)); TxClean 1; RxAssign 0].

#[local] Instance op_ok_dec o st : Decision (op_ok o st).
Proof.
  destruct o as [i|i|i pk|i|i|i|s|i rx tx]; cbn [op_ok]; try apply _.
  destruct (ports st !! i) as [p|]; [|right; by intros (p & ? & _)].
  destruct (decide (length rx = length (descs (rx_ring p)) /\ length tx = length (descs (tx_ring p)))) as [H|H].
  - left. by exists p.
  - right. intros (p' & [= <-] & ?). by apply H.
Defined.

(** A run of operations, each allowed where it happens. *)
Fixpoint run_ops (os : list op) (st : plane) : option plane :=
  match os with
  | [] => Some st
  | o :: os => if decide (op_ok o st) then st' ← run_op o st; run_ops os st' else None
  end.

Lemma run_ops_reach os st st' : run_ops os st = Some st' -> rtc plane_step st st'.
Proof.
  revert st. induction os as [|o os IH]; intros st; cbn [run_ops].
  { intros [= ->]. apply rtc_refl. }
  destruct (decide (op_ok o st)) as [Ho|]; [|done]. destruct (run_op o st) as [st1|] eqn:E; [|done].
  cbn. intros H%IH. eapply rtc_l; [|done]. by exists o.
Qed.

(** ** Theorems *)

(** C5: in every state a core reaches from initialisation, whatever the card
    does and in whatever order the application receives, sends and releases,
    provided it sends and releases only slots it holds ([op_ok]; the repository's
    forward.c breaks this rule in one place), each slot has at most one owner (the
    application, or one place in one ring), the slots marked in flight are exactly
    the owned ones, so none is lost, and every operation allowed there completes
    without an access out of bounds. *)
Theorem driver_slots_owned_once st0 st :
  plane_fresh st0 -> rtc plane_step st0 st ->
  NoDup (owned st) /\ (forall s, inflight (pool st) s = true <-> s ∈ owned st) /\
  forall o, op_ok o st -> is_Some (run_op o st).
Proof.
  intros Hf Hr. pose proof (reachable_ok st0 st Hf Hr) as Hok. destruct st as [ps b h].
  split; [by apply po_once|]. split; [by apply po_flight|]. intros o Ho.
  destruct (op_safe ps b h Hok o Ho) as (st' & -> & _). done.
Qed.

Lemma driver_slots_owned_once_witness :
  exists st, run_ops demo_ops demo_plane = Some st /\ NoDup (owned st) /\
    (forall s, inflight (pool st) s = true <-> s ∈ owned st) /\ forall o, op_ok o st -> is_Some (run_op o st).
Proof.
  destruct (run_ops demo_ops demo_plane) as [st|] eqn:E; [|vm_compute in E; discriminate].
  exists st. split; [done|]. exact (driver_slots_owned_once demo_plane st demo_fresh (run_ops_reach _ _ _ E)).
Defined.

(** C21: [ixmap_rx_clean] hands over, in the order they were queued, the
    packets at the front of the receive ring that the card has finished: never
    more than the budget, and fewer only when the ring is empty or its next
    descriptor is still the card's. *)
Theorem rx_clean_in_order b p :
  wf_ring (num_rx_desc p) (rx_ring p) -> 0 <= rx_budget p ->
  exists pks p' cells rest, ixmap_rx_clean b p = Some (pks, p') /\
    ringq (num_rx_desc p) (rx_ring p) = cells ++ rest /\ ringq (num_rx_desc p) (rx_ring p') = rest /\
    pks = ((fun c => Packet (ixmap_slot_addr_virt b c.1) (rx_length c.2) c.1) <$> cells) /\
    Forall (fun c => rx_done c.2 = true) cells /\ Z.of_nat (length cells) <= rx_budget p /\
    (Z.of_nat (length cells) < rx_budget p -> match rest with [] => True | c :: _ => rx_done c.2 = false end).
Proof.
  intros Hwf Hbud. unfold ixmap_rx_clean.
  destruct (rx_clean_loop_spec (Z.to_nat (rx_budget p)) b p Hwf) as (p' & -> & Hw & _ & _ & _ & _ & Hq). opt.
  eexists _, _, _, _. split; [done|]. split; [exact Hq|]. split; [done|]. split; [done|].
  split; [apply finished_done|]. split.
  - pose proof (finished_le rx_done (Z.to_nat (rx_budget p)) (ringq (num_rx_desc p) (rx_ring p))). lia.
  - intros Hlt. eapply finished_max; [exact Hq|lia].
Qed.

Lemma rx_clean_in_order_witness :
  exists pks p', ixmap_rx_clean demo_buf (demo_port 0) = Some (pks, p').
Proof.
  assert (wf_ring 4 demo_ring) as Hwf by (split; cbn; lia).
  destruct (rx_clean_in_order demo_buf (demo_port 0) Hwf ltac:(cbn; lia)) as (pks & p' & _ & _ & H & _).
  by exists pks, p'.
Defined.

(** C22: [ixmap_rx_assign] gives the card free buffers of the port's share, at
    the end of the ring's queue and at the bus addresses of their slots, until
    the ring is full or every buffer of the share is in flight; when it gave
    any, the tail register points past the last. *)
Theorem rx_assign_refills port_index base p b :
  wf_ring (num_rx_desc p) (rx_ring p) -> wf_share p b -> load (addr_dma b) port_index = Some base ->
  exists new p' b', ixmap_rx_assign port_index p b = Some (p', b') /\
    ringq (num_rx_desc p) (rx_ring p') = ringq (num_rx_desc p) (rx_ring p) ++
      ((fun s => (s, AdvDesc (u64 (base + u32 (buf_size b * s))) 0)) <$> new) /\
    NoDup new /\ (forall s, s ∈ new -> in_share p b s /\ inflight b s = false) /\
    (forall s, inflight b' s = inflight b s || bool_decide (s ∈ new)) /\
    (used (num_rx_desc p) (rx_ring p') = num_rx_desc p - 1 \/
     forall s, in_share p b s -> inflight b' s = true) /\
    (new <> [] -> tail (rx_ring p') = next_to_use (rx_ring p')).
Proof.
  intros Hwf Hsh Hb. destruct (rx_assign_ok port_index base p b Hwf Hsh Hb) as (new & p' & b' & Hrun & Hpost & Htail).
  destruct Hpost as (Hw & _ & _ & _ & _ & _ & Hq & Hnd & Hnew & Hfl & Hcase).
  exists new, p', b'. split; [done|]. split; [exact Hq|]. do 3 (split; [done|]). split; [|done].
  destruct Hcase as [Hlen|[_ Hall]]; [left|by right]. apply (f_equal length) in Hq.
  rewrite length_app, length_fmap in Hq.
  pose proof (ringq_length _ _ Hwf). pose proof (ringq_length _ _ Hw). lia.
Qed.

Lemma rx_assign_refills_witness :
  exists p' b', ixmap_rx_assign 1 (demo_port 3) demo_buf = Some (p', b').
Proof.
  destruct (rx_assign_refills 1 0x90000 (demo_port 3) demo_buf) as (new & p' & b' & H & _);
    [split; cbn; lia|split; cbn; lia|reflexivity|by exists p', b'].
Defined.

(** The fields of a descriptor as the card reads them: the length of the buffer,
    the length of the packet, and the flags between the two (one descriptor for a
    whole packet of data, the card adds the checksum and reports the end). *)
Definition txd_data_len (d : adv_desc) : Z := d_hi d mod 2 ^ 16.
Definition txd_flags (d : adv_desc) : Z := d_hi d / 2 ^ 16 mod 2 ^ 30.
Definition txd_pay_len (d : adv_desc) : Z := d_hi d / 2 ^ 46.

Lemma tx_fields base b pk :
  0 <= slot_size pk <= IXGBE_MAX_DATA_PER_TXD ->
  txd_data_len (tx_adv_desc base b pk) = slot_size pk /\ txd_pay_len (tx_adv_desc base b pk) = slot_size pk /\
  txd_flags (tx_adv_desc base b pk) = 0x2b30.
Proof.
  intros Hs. unfold txd_data_len, txd_pay_len, txd_flags, tx_adv_desc. cbn [d_hi]. rewrite tx_word by done.
  change IXGBE_MAX_DATA_PER_TXD with (2 ^ 14) in Hs. Z.to_euclidean_division_equations. lia.
Qed.

(** C23: [ixmap_tx_assign] queues the packet at the end of the transmit ring
    when the ring has room and the packet fits one descriptor, and otherwise
    drops it, counts the failure and frees its slot.  A descriptor it writes
    carries the bus address of the packet, its length both as that of the buffer
    and as that of the whole packet, and the flags of a complete packet, and it is
    not taken for a finished one: [ixmap_tx_clean] frees nothing more until the
    card reports. *)
Theorem tx_assign_queues_or_drops port_index base pk p b :
  wf_ring (num_tx_desc p) (tx_ring p) -> load (addr_dma b) port_index = Some base ->
  0 <= pk_slot_index pk < Z.of_nat (length (slots b)) -> 0 <= slot_size pk ->
  exists p' b', ixmap_tx_assign port_index pk p b = Some (p', b') /\
    ((used (num_tx_desc p) (tx_ring p) < num_tx_desc p - 1 /\ slot_size pk <= 2 ^ 14 /\ b' = b /\
      exists d, ringq (num_tx_desc p) (tx_ring p') =
          ringq (num_tx_desc p) (tx_ring p) ++ [(pk_slot_index pk, d)] /\
        d_lo d = u64 (base + u32 (buf_size b * pk_slot_index pk)) /\
        txd_data_len d = slot_size pk /\ txd_pay_len d = slot_size pk /\ txd_flags d = 0x2b30 /\
        forall n, finished tx_done n (ringq (num_tx_desc p) (tx_ring p')) =
                  finished tx_done n (ringq (num_tx_desc p) (tx_ring p))) \/
     ((used (num_tx_desc p) (tx_ring p) = num_tx_desc p - 1 \/ 2 ^ 14 < slot_size pk) /\
      tx_ring p' = tx_ring p /\ count_tx_xmit_failed p' = u64 (count_tx_xmit_failed p + 1) /\
      forall s, inflight b' s = inflight b s && negb (bool_decide (s = pk_slot_index pk)))).
Proof.
  intros Hwf Hb Hs Hz.
  destruct (tx_assign_ok port_index base pk p b Hwf Hb Hs) as (p' & b' & Hrun & _ & _ & _ & _ & _ & Hcase).
  exists p', b'. split; [done|]. destruct Hcase as [(Hu & Hsz & Hbb & _ & Hq)|Hdrop]; [left|by right].
  split; [done|]. split; [done|]. split; [done|]. eexists. split; [exact Hq|]. split; [done|].
  destruct (tx_fields base b pk) as (-> & -> & ->); [by split|]. do 3 (split; [done|]).
  intros n. rewrite Hq. apply finished_fresh. constructor; [|constructor]. by apply tx_fresh.
Qed.

Lemma tx_assign_queues_or_drops_witness :
  exists p' b' d, ixmap_tx_assign 1 (Packet 0x10000 64 0) (demo_port 3) demo_buf = Some (p', b') /\
    ringq 4 (tx_ring p') = [(0, d)] /\ txd_data_len d = 64.
Proof.
  destruct (tx_assign_queues_or_drops 1 0x90000 (Packet 0x10000 64 0) (demo_port 3) demo_buf)
    as (p' & b' & H & [(_ & _ & _ & d & Hq & _ & Hl & _)|([Hf|Hf] & _)]);
    [split; cbn; lia|reflexivity|cbn; lia|cbn; lia| |vm_compute in Hf; discriminate|cbn in Hf; lia].
  exists p', b', d. split; [exact H|]. split; [exact Hq|exact Hl].
Defined.

(** The processor and the card agree on where a slot is while there are at
    most 2^16 slots and the pool is smaller than 4 GB. *)
Theorem slot_addresses_agree b port_index base s :
  load (addr_dma b) port_index = Some base -> 0 <= base -> base + 2 ^ 32 <= 2 ^ 64 ->
  0 <= s < 2 ^ 16 -> 0 <= buf_size b -> buf_size b * s < 2 ^ 32 ->
  exists dma, ixmap_slot_addr_dma b s port_index = Some dma /\
    dma - base = ixmap_slot_addr_virt b s - addr_virt b /\ dma - base = buf_size b * s.
Proof.
  intros Hb H0 Hbase Hs Hz Hlt. unfold ixmap_slot_addr_dma. rewrite Hb. opt. eexists. split; [done|].
  unfold ixmap_slot_addr_virt, u64, u32, u16. rewrite (Z.mod_small s) by lia.
  rewrite (Z.mod_small (buf_size b * s)) by nia. rewrite Z.mod_small by nia. lia.
Qed.

Lemma slot_addresses_agree_witness :
  exists dma, ixmap_slot_addr_dma demo_buf 5 1 = Some dma /\ dma = 0x90000 + 2048 * 5.
Proof.
  destruct (slot_addresses_agree demo_buf 1 0x90000 5) as (dma & H & _ & Hd);
    [reflexivity|lia|lia|lia|cbn; lia|cbn; lia|]. exists dma. split; [exact H|]. cbn in Hd. lia.
Defined.

(** Beyond 2^16 slots they do not.  The index parameter of
    [ixmap_slot_addr_virt] has 16 bits, so the packet received in slot
    [s + 2^16] is read from the buffer of slot [s].  With the default of 8192
    buffers for each port nine ports are enough. *)
Theorem slot_address_alias :
  (forall b s, ixmap_slot_addr_virt b (s + 2 ^ 16) = ixmap_slot_addr_virt b s) /\
  exists b p pk p', wf_ring (num_rx_desc p) (rx_ring p) /\ wf_share p b /\
    count b = 8192 /\ rx_slot_offset p = 8 * 8192 /\
    ixmap_rx_clean b p = Some ([pk], p') /\ pk_slot_index pk = 2 ^ 16 /\
    slot_buf pk = ixmap_slot_addr_virt b 0 /\
    ixmap_slot_addr_dma b (2 ^ 16) 0 <> ixmap_slot_addr_dma b 0 0.
Proof.
  split.
  { intros b s. unfold ixmap_slot_addr_virt. do 3 f_equal. unfold u16.
    replace (s + 2 ^ 16) with (s + 1 * 2 ^ 16) by lia. by rewrite Z.mod_add by lia. }
  set (b := Buf 0x10000 [0x80000] 2048 8192 (replicate (Z.to_nat (9 * 8192)) 1)).
  set (r := Ring 1 0 [2 ^ 16; 0; 0; 0] (demo_done :: replicate 3 (AdvDesc 0 0)) 1).
  exists b, (Port r demo_ring 0 (8 * 8192) 0 4 4 2 2 [2; 0; 0; 0; 0; 1] 0 0 0 0).
  eexists _, _. split; [split; cbn; lia|].
  split; [split; cbn -[Z.mul Z.to_nat replicate]; rewrite ?length_replicate; lia|].
  do 2 (split; [done|]). split; [reflexivity|]. split; [done|]. split; [reflexivity|]. vm_compute. done.
Qed.
