(* ===== verification/Hash.v ===== *)
(** * Hash tables (src/src/hash.c, src/src/hash.h)

    A table of [HASH_SIZE] chains.  The entries are objects of the client, which
    supplies the functions of [struct hash_table]: the interface [HashOps].  A
    chain ([struct hlist_head]) is the list of its entries, first to last.
    [HashSpec] says what the table needs of the client; under it the table
    behaves as a finite map from keys to entries. *)

From stdpp Require Import prelude fin_maps gmap list.
From S2P Require Import Prelude.

Definition HASH_BIT : Z := 16.
Definition HASH_SIZE : Z := Z.shiftl 1 HASH_BIT.

Definition hash_table := list (list Z).

(** [set_key], [entry_key] and [key_bytes] are the accesses [entry->key = key],
    [entry->key] and [*key]. *)
Class HashOps (W : Type) := {
  hash_key_generate : view -> Z -> Z;
  hash_key_compare : view -> view -> Z;
  hash_entry_delete : Z -> W -> option W;
  set_key : Z -> Z -> W -> option W;
  entry_key : Z -> W -> option Z;
  key_bytes : Z -> W -> option view
}.

Section Hash.

Context {W : Type} `{HashOps W}.

Definition hash_init : hash_table := replicate (Z.to_nat HASH_SIZE) [].

Definition hash_entry_init (entry key : Z) (w : W) : option W := set_key entry key w.

(** [hlist_for_each_entry] up to the first entry with this key. *)
Fixpoint bucket_find (key : view) (l : list Z) (w : W) : option (option Z) :=
  match l with
  | [] => Some None
  | entry :: l =>
      kp ← entry_key entry w;
      v ← key_bytes kp w;
      if hash_key_compare key v =? 0 then Some (Some entry) else bucket_find key l w
  end.

(** The result code, the table and the client's state. *)
Definition hash_add (table : hash_table) (key entry_new : Z) (w : W) : option (Z * hash_table * W) :=
  w1 ← hash_entry_init entry_new key w;
  v ← key_bytes key w1;
  let hash_key := hash_key_generate v HASH_BIT in
  head ← load table hash_key;
  found ← bucket_find v head w1;
  match found with
  | Some _ => Some (-1, table, w1)
  | None => table' ← store table hash_key (entry_new :: head); Some (0, table', w1)
  end.

(** [hlist_del_init]: unlink one entry from its chain. *)
Definition hlist_del (entry : Z) (l : list Z) : list Z := filter (fun p => p <> entry) l.

Definition hash_delete (table : hash_table) (key : view) (w : W) : option (Z * hash_table * W) :=
  let hash_key := hash_key_generate key HASH_BIT in
  head ← load table hash_key;
  found ← bucket_find key head w;
  match found with
  | None => Some (-1, table, w)
  | Some target =>
      table' ← store table hash_key (hlist_del target head);
      w1 ← hash_entry_delete target w;
      Some (0, table', w1)
  end.

(** One chain, then all of them: every entry is unlinked and then deleted. *)
Fixpoint bucket_delete_all (l : list Z) (w : W) : option W :=
  match l with
  | [] => Some w
  | entry :: l => w1 ← hash_entry_delete entry w; bucket_delete_all l w1
  end.

Fixpoint hash_delete_all (table : hash_table) (w : W) : option (hash_table * W) :=
  match table with
  | [] => Some ([], w)
  | head :: table =>
      w1 ← bucket_delete_all head w;
      '(table', w2) ← hash_delete_all table w1;
      Some ([] :: table', w2)
  end.

Definition hash_lookup (table : hash_table) (key : view) (w : W) : option (option Z) :=
  let hash_key := hash_key_generate key HASH_BIT in
  head ← load table hash_key;
  bucket_find key head w.

End Hash.

(** ** What the table needs of its client

    [hs_key] is what a key means; [hs_live w E] says that the entries of the
    client's state [w] are those of [E], each with the meaning of its key. *)
Class HashSpec (W K : Type) `{HashOps W, Countable K} := {
  hs_key : view -> K;
  hs_hash : K -> Z;
  hs_live : W -> gmap Z K -> Prop;
  hs_generate : forall v, hash_key_generate (W := W) v HASH_BIT = hs_hash (hs_key v);
  hs_range : forall k, 0 <= hs_hash k < HASH_SIZE;
  hs_compare : forall w E p k v, hs_live w E -> E !! p = Some k -> view_ok v ->
    exists kp v', entry_key p w = Some kp /\ key_bytes kp w = Some v' /\ hs_key v' = k /\
      (hash_key_compare (W := W) v v' = 0 <-> hs_key v = k);
  hs_delete : forall w E p k, hs_live w E -> E !! p = Some k ->
    exists w', hash_entry_delete p w = Some w' /\ hs_live w' (delete p E)
}.

(** ** The table is a finite map *)

Section HashFacts.

Context {W K : Type} `{HashSpec W K}.

(** The chains hold exactly the entries of [M], each in the chain of its key. *)
Record hash_rep (t : hash_table) (M : gmap K Z) : Prop := {
  hr_len : Z.of_nat (length t) = HASH_SIZE;
  hr_nodup : forall i l, load t i = Some l -> NoDup l;
  hr_mem : forall i l p, load t i = Some l -> p ∈ l <-> exists k, M !! k = Some p /\ hs_hash k = i
}.

(** Every entry of [M] is live under its key. *)
Definition covers (M : gmap K Z) (E : gmap Z K) : Prop := forall k p, M !! k = Some p -> E !! p = Some k.

Lemma hash_init_rep : hash_rep hash_init ∅.
Proof.
  assert (forall i l, load hash_init i = Some l -> l = []) as Hnil.
  { intros i l Hl. pose proof (load_range _ _ _ Hl). rewrite load_lookup in Hl by lia.
    by apply lookup_replicate in Hl as [-> _]. }
  split.
  - unfold hash_init. rewrite length_replicate. done.
  - intros i l ->%Hnil. constructor.
  - intros i l p ->%Hnil. rewrite elem_of_nil. split; [done|]. intros (k & Hk & _). by rewrite lookup_empty in Hk.
Qed.

Lemma bucket_find_spec w E v l :
  hs_live w E -> view_ok v -> (forall p, p ∈ l -> is_Some (E !! p)) ->
  exists r, bucket_find v l w = Some r /\
    match r with
    | Some p => p ∈ l /\ E !! p = Some (hs_key v)
    | None => forall p, p ∈ l -> E !! p <> Some (hs_key v)
    end.
Proof.
  intros Hl Hv. induction l as [|q l IH]; intros Hin; cbn [bucket_find].
  { exists None. split; [done|]. intros p Hp. by apply elem_of_nil in Hp. }
  destruct (Hin q) as [k Hk]; [left|].
  destruct (hs_compare w E q k v Hl Hk Hv) as (kp & v' & -> & Hb & _ & Hc). opt. rewrite Hb. opt.
  destruct (Z.eqb_spec (hash_key_compare (W := W) v v') 0) as [E0|E0].
  - exists (Some q). split; [done|]. split; [left|]. apply Hc in E0. congruence.
  - destruct IH as (r & -> & Hr); [intros p Hp; apply Hin; by right|]. exists r. split; [done|].
    destruct r as [p|].
    + destruct Hr. split; [by right|done].
    + intros p [->|Hp]%elem_of_cons; [|by apply Hr]. intros Hq. apply E0, Hc. congruence.
Qed.

Lemma hash_find w t M E v :
  hash_rep t M -> hs_live w E -> covers M E -> view_ok v ->
  exists l, load t (hash_key_generate (W := W) v HASH_BIT) = Some l /\
    bucket_find v l w = Some (M !! hs_key v).
Proof.
  intros [Hlen Hnd Hm] Hl Hcov Hv. rewrite hs_generate.
  destruct (load_some t (hs_hash (hs_key v))) as [l El]; [rewrite Hlen; apply hs_range|]. exists l.
  split; [done|]. destruct (bucket_find_spec w E v l Hl Hv) as (r & -> & Hr).
  { intros p (k & Hk & _)%(Hm _ _ _ El). eauto. }
  f_equal. destruct r as [p|].
  - destruct Hr as [(k & Hk & _)%(Hm _ _ _ El) Hp]. rewrite (Hcov k p Hk) in Hp. by simplify_eq.
  - destruct (M !! hs_key v) as [p|] eqn:Ep; [|done]. exfalso. apply (Hr p); [|by apply Hcov].
    apply (Hm _ _ _ El). eauto.
Qed.

Lemma hash_lookup_ok w t M E v :
  hash_rep t M -> hs_live w E -> covers M E -> view_ok v -> hash_lookup t v w = Some (M !! hs_key v).
Proof.
  intros Hr Hl Hcov Hv. unfold hash_lookup.
  by destruct (hash_find w t M E v Hr Hl Hcov Hv) as (l & -> & Hf).
Qed.

(** Replacing one chain: the map changes at one key. *)
Lemma hash_rep_store t M M' k l l' t' :
  hash_rep t M -> load t (hs_hash k) = Some l -> store t (hs_hash k) l' = Some t' ->
  NoDup l' -> (forall j, j <> k -> M' !! j = M !! j) ->
  (forall p, p ∈ l' <-> exists j, M' !! j = Some p /\ hs_hash j = hs_hash k) -> hash_rep t' M'.
Proof.
  intros [Hlen Hnd Hm] El Est Hnd' Hoth Hl'. split.
  - by rewrite (store_length _ _ _ _ Est).
  - intros i b. rewrite (load_store _ _ _ i _ Est). case_decide; [|apply Hnd]. by intros [= <-].
  - intros i b p. rewrite (load_store _ _ _ i _ Est). case_decide as Ei.
    + intros [= <-]. subst i. apply Hl'.
    + intros Eb. rewrite (Hm i b p Eb). apply exist_proper. intros j. destruct (decide (j = k)) as [->|Hj].
      * split; intros [_ ?]; congruence.
      * by rewrite Hoth.
Qed.

Lemma hash_add_ok w w1 t M E key p v :
  hash_rep t M -> set_key p key w = Some w1 -> key_bytes key w1 = Some v -> view_ok v ->
  hs_live w1 (<[p := hs_key v]> E) -> covers M E -> E !! p = None ->
  match M !! hs_key v with
  | Some _ => hash_add t key p w = Some (-1, t, w1)
  | None => exists t', hash_add t key p w = Some (0, t', w1) /\ hash_rep t' (<[hs_key v := p]> M)
  end.
Proof.
  intros Hr Hset Hkey Hv Hl Hcov Hp. assert (covers M (<[p := hs_key v]> E)) as Hcov'.
  { intros k q Hq%Hcov. rewrite lookup_insert_ne by congruence. done. }
  destruct (hash_find w1 t M _ v Hr Hl Hcov' Hv) as (l & El & Hf).
  unfold hash_add, hash_entry_init. rewrite Hset. opt. rewrite Hkey. opt. rewrite El. opt. rewrite Hf. opt.
  destruct (M !! hs_key v) as [q|] eqn:Eq; [done|]. pose proof (load_range _ _ _ El) as Hrng.
  rewrite store_some by done. opt. eexists. split; [done|].
  assert (p ∉ l) as Hpl.
  { intros (k & Hk & _)%(hr_mem _ _ Hr _ _ _ El). apply Hcov in Hk. congruence. }
  rewrite hs_generate in El, Hrng.
  eapply (hash_rep_store t M _ (hs_key v) l (p :: l)); [done|done| | | |].
  - rewrite hs_generate. by apply store_some.
  - apply NoDup_cons. split; [done|]. by eapply hr_nodup.
  - intros j Hj. by apply lookup_insert_ne.
  - intros q. rewrite elem_of_cons, (hr_mem _ _ Hr _ _ q El). split.
    + intros [->|(j & Hj & Eh)]; [exists (hs_key v); by rewrite lookup_insert_eq|].
      exists j. rewrite lookup_insert_ne by congruence. done.
    + intros (j & Hj & Eh). apply lookup_insert_Some in Hj as [[<- <-]|[Hne Hj]]; [by left|].
      right. eauto.
Qed.

Lemma hash_delete_ok w t M E v :
  hash_rep t M -> hs_live w E -> covers M E -> view_ok v ->
  match M !! hs_key v with
  | None => hash_delete t v w = Some (-1, t, w)
  | Some p => exists t' w', hash_delete t v w = Some (0, t', w') /\
      hash_rep t' (delete (hs_key v) M) /\ hs_live w' (delete p E) /\ covers (delete (hs_key v) M) (delete p E)
  end.
Proof.
  intros Hr Hl Hcov Hv. destruct (hash_find w t M E v Hr Hl Hcov Hv) as (l & El & Hf).
  unfold hash_delete. rewrite El. opt. rewrite Hf. opt. destruct (M !! hs_key v) as [p|] eqn:Ep; [|done].
  pose proof (load_range _ _ _ El) as Hrng. rewrite store_some by done. opt.
  destruct (hs_delete w E p (hs_key v) Hl (Hcov _ _ Ep)) as (w' & -> & Hl'). opt.
  eexists _, _. split; [done|]. rewrite hs_generate in El, Hrng. split; [|split; [done|]].
  - eapply (hash_rep_store t M _ (hs_key v) l (hlist_del p l)); [done|done| | | |].
    + rewrite hs_generate. by apply store_some.
    + apply NoDup_filter. by eapply hr_nodup.
    + intros j Hj. by apply lookup_delete_ne.
    + intros q. unfold hlist_del. rewrite list_elem_of_filter, (hr_mem _ _ Hr _ _ q El). split.
      * intros [Hq (j & Hj & Eh)]. exists j. rewrite lookup_delete_ne by congruence. done.
      * intros (j & [Hne Hj]%lookup_delete_Some & Eh). split; [|eauto]. intros ->.
        apply Hne. apply Hcov in Hj. rewrite (Hcov _ _ Ep) in Hj. congruence.
  - intros j q [Hne Hj]%lookup_delete_Some. pose proof (Hcov _ _ Hj) as Hq. rewrite lookup_delete_ne; [done|].
    intros ->. rewrite (Hcov _ _ Ep) in Hq. congruence.
Qed.

Lemma bucket_delete_all_ok l w E :
  hs_live w E -> NoDup l -> (forall p, p ∈ l -> is_Some (E !! p)) ->
  exists w' E', bucket_delete_all l w = Some w' /\ hs_live w' E' /\
    forall p, E' !! p = if bool_decide (p ∈ l) then None else E !! p.
Proof.
  revert w E. induction l as [|q l IH]; intros w E Hl Hnd Hin; cbn [bucket_delete_all].
  { exists w, E. split; [done|]. split; [done|]. done. }
  apply NoDup_cons in Hnd as [Hq Hnd]. destruct (Hin q) as [k Hk]; [left|].
  destruct (hs_delete w E q k Hl Hk) as (w1 & -> & Hl1). opt.
  destruct (IH w1 (delete q E) Hl1 Hnd) as (w' & E' & -> & Hl' & HE').
  { intros p Hp. rewrite lookup_delete_ne by congruence. apply Hin. by right. }
  exists w', E'. split; [done|]. split; [done|]. intros p. rewrite HE'.
  destruct (decide (p = q)) as [->|Hne].
  - rewrite (bool_decide_eq_true_2 (q ∈ q :: l)) by left. rewrite lookup_delete_eq. by case_bool_decide.
  - rewrite lookup_delete_ne by congruence. erewrite bool_decide_ext; [done|]. rewrite elem_of_cons. naive_solver.
Qed.

Lemma hash_delete_all_aux t w E :
  hs_live w E -> NoDup (concat t) -> (forall p, p ∈ concat t -> is_Some (E !! p)) ->
  exists w' E', hash_delete_all t w = Some (replicate (length t) [], w') /\ hs_live w' E' /\
    forall p, E' !! p = if bool_decide (p ∈ concat t) then None else E !! p.
Proof.
  revert w E. induction t as [|l t IH]; intros w E Hl Hnd Hin; cbn [hash_delete_all].
  { exists w, E. done. }
  cbn [concat] in *. apply NoDup_app in Hnd as (Hnl & Hdis & Hnt).
  destruct (bucket_delete_all_ok l w E Hl Hnl) as (w1 & E1 & -> & Hl1 & HE1).
  { intros p Hp. apply Hin. apply elem_of_app. by left. }
  opt. destruct (IH w1 E1 Hl1 Hnt) as (w' & E' & -> & Hl' & HE').
  { intros p Hp. rewrite HE1, bool_decide_eq_false_2.
    - apply Hin. apply elem_of_app. by right.
    - intros Hpl. by apply (Hdis p). }
  opt. exists w', E'. split; [done|]. split; [done|]. intros p. rewrite HE', HE1.
  repeat case_bool_decide; try done; rewrite elem_of_app in *; tauto.
Qed.

Lemma concat_elem (t : hash_table) p : p ∈ concat t <-> exists i l, load t i = Some l /\ p ∈ l.
Proof.
  rewrite list_elem_of_In, in_concat. split.
  - intros (l & Hl%list_elem_of_In & Hp%list_elem_of_In). apply list_elem_of_lookup in Hl as [i Hi].
    exists (Z.of_nat i), l. rewrite load_lookup, Nat2Z.id by lia. done.
  - intros (i & l & Hl & Hp). exists l. rewrite <- !list_elem_of_In. split; [|done].
    pose proof (load_range _ _ _ Hl). rewrite load_lookup in Hl by lia. by eapply list_elem_of_lookup_2.
Qed.

Lemma concat_nodup (t : hash_table) :
  (forall i l, load t i = Some l -> NoDup l) ->
  (forall i j l m p, load t i = Some l -> load t j = Some m -> p ∈ l -> p ∈ m -> i = j) -> NoDup (concat t).
Proof.
  induction t as [|b t IH]; intros Hnd Hdis; cbn [concat]; [constructor|].
  assert (forall i l, load t i = Some l -> load (b :: t) (i + 1) = Some l) as Hsh.
  { intros i l Hl. pose proof (load_range _ _ _ Hl). rewrite load_lookup in * by lia.
    by replace (Z.to_nat (i + 1)) with (S (Z.to_nat i)) by lia. }
  apply NoDup_app. split; [by apply (Hnd 0)|]. split.
  - intros p Hp (i & l & Hl & Hpl)%concat_elem. pose proof (load_range _ _ _ Hl).
    pose proof (Hdis 0 (i + 1) b l p eq_refl (Hsh _ _ Hl) Hp Hpl). lia.
  - apply IH.
    + intros i l Hl. by eapply Hnd, Hsh.
    + intros i j l m p Hl Hm Hpl Hpm. pose proof (Hdis _ _ _ _ _ (Hsh _ _ Hl) (Hsh _ _ Hm) Hpl Hpm). lia.
Qed.

Lemma hash_delete_all_ok w t M E :
  hash_rep t M -> hs_live w E -> covers M E -> (forall p k, E !! p = Some k -> M !! k = Some p) ->
  exists w', hash_delete_all t w = Some (hash_init, w') /\ hs_live w' ∅.
Proof.
  intros [Hlen Hnd Hm] Hl Hcov Hex.
  assert (forall p, p ∈ concat t <-> exists k, M !! k = Some p) as Hall.
  { intros p. rewrite concat_elem. split.
    - intros (i & l & El & (k & Hk & _)%(Hm _ _ _ El)). eauto.
    - intros (k & Hk). destruct (load_some t (hs_hash k)) as [l El]; [rewrite Hlen; apply hs_range|].
      exists (hs_hash k), l. split; [done|]. apply (Hm _ _ _ El). eauto. }
  destruct (hash_delete_all_aux t w E Hl) as (w' & E' & -> & Hl' & HE').
  - apply concat_nodup; [done|]. intros i j l m p Hi Hj (k & Hk & <-)%(Hm _ _ _ Hi) (k' & Hk' & <-)%(Hm _ _ _ Hj).
    apply Hcov in Hk, Hk'. congruence.
  - intros p (k & Hk)%Hall. eauto.
  - exists w'. unfold hash_init. replace (Z.to_nat HASH_SIZE) with (length t) by lia. split; [done|].
    replace ∅ with E'; [done|]. apply map_eq. intros p. rewrite HE', lookup_empty. case_bool_decide as Hp; [done|].
    destruct (E !! p) as [k|] eqn:Ep; [|done]. exfalso. apply Hp, Hall. eauto.
Qed.

End HashFacts.
