(* ===== verification/Neigh.v ===== *)
(** * The neighbour table (src/src/neigh.c, src/src/neigh.h)

    Link-layer addresses by network address, in a hash table of Hash.v.  The
    state is the allocator together with the [struct neigh_entry] objects by
    address.  [neigh_hash_spec] shows that the key functions of neigh.c meet the
    table's interface, over any allocator that meets [AllocatorSpec]. *)

From stdpp Require Import prelude fin_maps gmap list.
From S2P Require Import Prelude Alloc Hash.

Definition GOLDEN_RATIO_PRIME_32 : Z := 0x9e370001.
Definition GOLDEN_RATIO_PRIME_64 : Z := 0x9e37fffffffc0001.
Definition ETH_ALEN : nat := 6.

(** [ne_key] is the member [hash.key], a pointer. *)
Record neigh_entry := NeighEntry {
  ne_key : Z;
  dst_mac : list Z;
  dst_addr : list Z
}.

Definition sizeof_neigh_entry : Z := 48.
Definition offset_dst_addr : Z := 32.
Definition sizeof_neigh_table : Z := HASH_SIZE * 8 + 3 * 8.

(** [struct neigh_table]: its address, the family its functions are for, and
    the chains. *)
Record neigh_table := NeighTable { nt_addr : Z; nt_v6 : bool; nt_heads : hash_table }.

Definition neigh_key_generate_v4 (key : view) (bit_len : Z) : Z :=
  let hash := u32 (load32 key 0 * GOLDEN_RATIO_PRIME_32) in
  Z.shiftr hash (32 - bit_len).

Definition neigh_key_generate_v6 (key : view) (bit_len : Z) : Z :=
  let hash := u64 (load64 key 0 * load64 key 1) in
  let hash := u64 (hash * GOLDEN_RATIO_PRIME_64) in
  u32 (Z.shiftr hash (64 - bit_len)).

Definition neigh_key_compare_v4 (key_tgt key_ent : view) : Z :=
  if Z.lxor (load32 key_tgt 0) (load32 key_ent 0) =? 0 then 0 else 1.

Definition neigh_key_compare_v6 (key_tgt key_ent : view) : Z :=
  if Z.lxor (load64 key_tgt 0) (load64 key_ent 0) =? 0
  then if Z.lxor (load64 key_tgt 1) (load64 key_ent 1) =? 0 then 0 else 1
  else 1.

Section Neigh.

Context {A : Type} `{Allocator A}.

Record neigh_world := NeighWorld {
  nw_mem : A;
  nw_ents : gmap Z neigh_entry
}.

Definition nw_alloc (n : Z) (w : neigh_world) : option (option Z * neigh_world) :=
  '(r, m) ← al_alloc n (nw_mem w);
  Some (r, NeighWorld m (nw_ents w)).

Definition nw_free (x : Z) (w : neigh_world) : option neigh_world :=
  m ← al_free x (nw_mem w);
  Some (NeighWorld m (delete x (nw_ents w))).

Definition nw_store (p : Z) (e : neigh_entry) (w : neigh_world) : neigh_world :=
  NeighWorld (nw_mem w) (<[p := e]> (nw_ents w)).

Definition neigh_entry_delete (entry : Z) (w : neigh_world) : option neigh_world := nw_free entry w.

Definition nw_set_key (entry key : Z) (w : neigh_world) : option neigh_world :=
  e ← nw_ents w !! entry;
  Some (nw_store entry (NeighEntry key (dst_mac e) (dst_addr e)) w).

(** The functions [neigh_alloc] installs for the family. *)
#[export] Instance neigh_ops (v6 : bool) : HashOps neigh_world := {
  hash_key_generate := if v6 then neigh_key_generate_v6 else neigh_key_generate_v4;
  hash_key_compare := if v6 then neigh_key_compare_v6 else neigh_key_compare_v4;
  hash_entry_delete := neigh_entry_delete;
  set_key := nw_set_key;
  entry_key := fun entry w => ne_key <$> nw_ents w !! entry;
  key_bytes := fun key w => (fun e => view_of (dst_addr e)) <$> nw_ents w !! (key - offset_dst_addr)
}.

Definition neigh_alloc (family : Z) (w : neigh_world) : option (option neigh_table * neigh_world) :=
  '(r, w1) ← nw_alloc sizeof_neigh_table w;
  match r with
  | None => Some (None, w1)
  | Some neigh =>
      if family =? AF_INET then Some (Some (NeighTable neigh false hash_init), w1)
      else if family =? AF_INET6 then Some (Some (NeighTable neigh true hash_init), w1)
      else w2 ← nw_free neigh w1; Some (None, w2)
  end.

Definition neigh_release (t : neigh_table) (w : neigh_world) : option neigh_world :=
  '(_, w1) ← hash_delete_all (H := neigh_ops (nt_v6 t)) (nt_heads t) w;
  nw_free (nt_addr t) w1.

Definition set_heads (h : hash_table) (t : neigh_table) : neigh_table :=
  NeighTable (nt_addr t) (nt_v6 t) h.

Definition neigh_add (t : neigh_table) (family : Z) (dst mac : view) (w : neigh_world)
  : option (Z * neigh_table * neigh_world) :=
  '(r, w1) ← nw_alloc sizeof_neigh_entry w;
  match r with
  | None => Some (-1, t, w1)
  | Some entry =>
    match family_bytes family with
    | None => w2 ← nw_free entry w1; Some (-1, t, w2)
    | Some n =>
      let w2 := nw_store entry (NeighEntry 0 (copy_bytes mac ETH_ALEN) (copy_bytes dst n)) w1 in
      '(ret, heads, w3) ←
        hash_add (H := neigh_ops (nt_v6 t)) (nt_heads t) (entry + offset_dst_addr) entry w2;
      let t' := set_heads heads t in
      if ret <? 0 then w4 ← nw_free entry w3; Some (-1, t', w4) else Some (0, t', w3)
    end
  end.

Definition neigh_delete (t : neigh_table) (family : Z) (dst : view) (w : neigh_world)
  : option (Z * neigh_table * neigh_world) :=
  '(ret, heads, w1) ← hash_delete (H := neigh_ops (nt_v6 t)) (nt_heads t) dst w;
  Some (if ret <? 0 then -1 else 0, set_heads heads t, w1).

Definition neigh_lookup (t : neigh_table) (dst : view) (w : neigh_world) : option (option Z) :=
  hash_lookup (H := neigh_ops (nt_v6 t)) (nt_heads t) dst w.

End Neigh.

Arguments neigh_world : clear implicits.
