(* ===== verification/NeighProps.v ===== *)
(** * The neighbour table: correctness

    The table refines a finite map from network to link-layer addresses, over
    any allocator: additions, deletions and lookups agree with the map, memory
    is accounted for, and release gives everything back. *)

From stdpp Require Import prelude fin_maps gmap list.
From S2P Require Import Prelude Alloc Quota Hash Neigh.

(** ** The key functions *)

Definition key_len (v6 : bool) : nat := if v6 then 16%nat else 4%nat.

Lemma load32_ext v v' w : (forall i, (4 * w <= i < 4 * w + 4)%nat -> v i = v' i) -> load32 v w = load32 v' w.
Proof. intros E. unfold load32. rewrite !E by lia. done. Qed.

Lemma load64_ext v v' w : (forall i, (8 * w <= i < 8 * w + 8)%nat -> v i = v' i) -> load64 v w = load64 v' w.
Proof.
  intros E. unfold load64. rewrite (load32_ext v v' (2 * w)), (load32_ext v v' (2 * w + 1)); [done| |];
    intros i Hi; apply E; lia.
Qed.

Definition neigh_hash (v6 : bool) (v : view) : Z :=
  if v6 then neigh_key_generate_v6 v HASH_BIT else neigh_key_generate_v4 v HASH_BIT.

(** The hash depends on the bytes of the address only. *)
Lemma neigh_hash_ext v6 v v' :
  (forall i, (i < key_len v6)%nat -> v i = v' i) -> neigh_hash v6 v = neigh_hash v6 v'.
Proof.
  intros E. unfold neigh_hash. destruct v6; cbn [key_len] in E.
  - unfold neigh_key_generate_v6.
    rewrite (load64_ext v v' 0), (load64_ext v v' 1); [done| |]; intros i Hi; apply E; lia.
  - unfold neigh_key_generate_v4. rewrite (load32_ext v v' 0); [done|]. intros i Hi. apply E. lia.
Qed.

(** It is the index of a chain. *)
Lemma neigh_hash_range v6 v : 0 <= neigh_hash v6 v < HASH_SIZE.
Proof.
  change HASH_SIZE with (2 ^ 16). unfold neigh_hash. destruct v6.
  - unfold neigh_key_generate_v6, u32, u64, HASH_BIT. rewrite Z.shiftr_div_pow2 by lia.
    set (x := _ mod 2 ^ 64). assert (0 <= x < 2 ^ 64) by (apply Z.mod_pos_bound; lia).
    assert (0 <= x / 2 ^ (64 - 16) < 2 ^ 16).
    { split; [apply Z.div_pos; lia|apply Z.div_lt_upper_bound; lia]. }
    rewrite Z.mod_small; lia.
  - unfold neigh_key_generate_v4, u32, HASH_BIT. rewrite Z.shiftr_div_pow2 by lia.
    set (x := _ mod 2 ^ 32). assert (0 <= x < 2 ^ 32) by (apply Z.mod_pos_bound; lia).
    split; [apply Z.div_pos; lia|apply Z.div_lt_upper_bound; lia].
Qed.

Definition neigh_compare (v6 : bool) (v v' : view) : Z :=
  if v6 then neigh_key_compare_v6 v v' else neigh_key_compare_v4 v v'.

Lemma neigh_compare_eq v6 v v' :
  view_ok v -> view_ok v' ->
  neigh_compare v6 v v' = 0 <-> copy_bytes v (key_len v6) = copy_bytes v' (key_len v6).
Proof.
  intros Hv Hv'. rewrite copy_bytes_eq. unfold neigh_compare. destruct v6; cbn [key_len].
  - unfold neigh_key_compare_v6.
    pose proof (load64_inj v v' 0 Hv Hv') as E0. pose proof (load64_inj v v' 1 Hv Hv') as E1.
    destruct (Z.eqb_spec (Z.lxor (load64 v 0) (load64 v' 0)) 0) as [L0|L0];
      [|split; [done|]; intros E; destruct L0; apply Z.lxor_eq_0_iff, E0; intros i Hi; apply E; lia].
    apply Z.lxor_eq in L0. pose proof (proj1 E0 L0) as L0'.
    destruct (Z.eqb_spec (Z.lxor (load64 v 1) (load64 v' 1)) 0) as [L1|L1];
      [|split; [done|]; intros E; destruct L1; apply Z.lxor_eq_0_iff, E1; intros i Hi; apply E; lia].
    apply Z.lxor_eq in L1. pose proof (proj1 E1 L1) as L1'. split; [|done]. intros _ i Hi.
    destruct (decide (i < 8)%nat); [apply L0'|apply L1']; lia.
  - unfold neigh_key_compare_v4. pose proof (load32_inj v v' 0 Hv Hv') as E0.
    destruct (Z.eqb_spec (Z.lxor (load32 v 0) (load32 v' 0)) 0) as [L0|L0].
    + apply Z.lxor_eq in L0. pose proof (proj1 E0 L0) as L0'. split; [|done]. intros _ i Hi. apply L0'. lia.
    + split; [done|]. intros E. destruct L0. apply Z.lxor_eq_0_iff, E0. intros i Hi. apply E. lia.
Qed.

Section NeighFacts.

Context {A : Type} `{AllocatorSpec A}.

(** ** The interface of the table *)

(** Entries [E], holding the link-layer addresses [D], over the live blocks [L]
    of other owners. *)
Definition neigh_live (v6 : bool) (L : gset Z) (D : gmap Z (list Z)) (w : neigh_world A) (E : gmap Z (list Z)) : Prop :=
  (exists C, al_inv (nw_mem w) C /\ dom C = L ∪ dom (nw_ents w)) /\ L ## dom (nw_ents w) /\
  E = dst_addr <$> nw_ents w /\
  forall p e, nw_ents w !! p = Some e ->
    ne_key e = p + offset_dst_addr /\ length (dst_addr e) = key_len v6 /\ Forall is_byte (dst_addr e) /\
    D !! p = Some (dst_mac e).

Lemma nw_free_entry v6 L D w E p :
  neigh_live v6 L D w E -> is_Some (E !! p) ->
  exists w', nw_free p w = Some w' /\ neigh_live v6 L D w' (delete p E).
Proof.
  intros ((C & Hal & Hdom) & Hdis & -> & He) [k Hp]. rewrite lookup_fmap in Hp.
  destruct (nw_ents w !! p) as [e|] eqn:Ee; [|done].
  assert (p ∈ dom (nw_ents w)) as Hpd by (apply elem_of_dom; eauto).
  assert (p ∈ dom C) as [c Hc]%elem_of_dom by (rewrite Hdom; set_solver).
  destruct (al_free_spec _ _ _ _ Hal Hc) as (m & Em & Hinv). unfold nw_free. rewrite Em. opt.
  eexists. split; [done|]. split; [|split; [|split]]; cbn [nw_mem nw_ents].
  - exists (delete p C). split; [done|]. rewrite !dom_delete_L, Hdom. apply leibniz_equiv. set_solver.
  - rewrite dom_delete_L. set_solver.
  - by rewrite fmap_delete.
  - intros q e' [_ Hq]%lookup_delete_Some. eauto.
Qed.

Lemma copy_self (k : list Z) : copy_bytes (view_of k) (length k) = k.
Proof.
  apply list_eq_same_length with (length k); [done|apply copy_length|]. intros i x y Hi Hx Hy.
  unfold copy_bytes in Hx. rewrite list_lookup_fmap, lookup_seq_lt in Hx by done. cbn in Hx. unfold view_of in Hx.
  rewrite Hy in Hx. by simplify_eq.
Qed.

#[export] Instance neigh_hash_spec (v6 : bool) (L : gset Z) (D : gmap Z (list Z)) :
  HashSpec (H := neigh_ops v6) (neigh_world A) (list Z).
Proof.
  refine {| hs_key := fun v => copy_bytes v (key_len v6); hs_hash := fun k => neigh_hash v6 (view_of k);
            hs_live := neigh_live v6 L D |}.
  - intros v. cbn. rewrite (neigh_hash_ext v6 _ v) by (intros i Hi; by apply copy_view). by destruct v6.
  - intros k. apply neigh_hash_range.
  - intros w E p k v (_ & _ & -> & He) Hp Hv. rewrite lookup_fmap in Hp.
    destruct (nw_ents w !! p) as [e|] eqn:Ee; [|done]. cbn in Hp. simplify_eq.
    destruct (He _ _ Ee) as (Hk & Hlen & Hby & _).
    exists (ne_key e), (view_of (dst_addr e)). cbn. rewrite Ee, Hk.
    replace (p + offset_dst_addr - offset_dst_addr) with p by lia. rewrite Ee.
    assert (copy_bytes (view_of (dst_addr e)) (key_len v6) = dst_addr e) as Ec by (rewrite <- Hlen; apply copy_self).
    split; [cbn; by rewrite Hk|]. split; [done|]. split; [exact Ec|]. rewrite <- Ec at 2.
    rewrite <- neigh_compare_eq; [by destruct v6|done|by apply bytes_ok].
  - intros w E p k Hl Hp. apply (nw_free_entry v6 L D w E p Hl). eauto.
Defined.

(** ** The abstract table *)

(** The addresses known are those of [N], over the live blocks [L0] of other owners. *)
Definition neigh_rep (t : neigh_table) (w : neigh_world A) (L0 : gset Z) (N : gmap (list Z) (list Z)) : Prop :=
  nt_addr t ∉ L0 /\
  exists D E M, hash_rep (H1 := neigh_hash_spec (nt_v6 t) ({[nt_addr t]} ∪ L0) D) (nt_heads t) M /\
    neigh_live (nt_v6 t) ({[nt_addr t]} ∪ L0) D w E /\
    (forall k p, M !! k = Some p <-> E !! p = Some k) /\
    (forall k, N !! k = M !! k ≫= fun p => D !! p).

Lemma live_covers M (E : gmap Z (list Z)) : (forall k p, M !! k = Some p <-> E !! p = Some k) -> covers M E.
Proof. intros Hex k p. by apply Hex. Qed.

Lemma neigh_alloc_rep family w L0 v6 :
  (family, v6) ∈ [(AF_INET, false); (AF_INET6, true)] ->
  (exists C, al_inv (nw_mem w) C /\ dom C = L0) -> nw_ents w = ∅ ->
  exists r w', neigh_alloc family w = Some (r, w') /\
    match r with
    | Some t => nt_v6 t = v6 /\ neigh_rep t w' L0 ∅
    | None => (exists C, al_inv (nw_mem w') C /\ dom C = L0)
    end.
Proof.
  intros Hfam (C & Hal & Hdom) Hents. unfold neigh_alloc, nw_alloc.
  destruct (al_alloc_spec _ _ sizeof_neigh_table Hal) as (r & m & -> & Hpost); [by vm_compute|]. opt.
  destruct r as [x|]; [|eexists None, _; split; [done|]; by exists C].
  destruct Hpost as (Hx & c & _ & Hinv).
  assert (forall b, neigh_rep (NeighTable x b hash_init) (NeighWorld m (nw_ents w)) L0 ∅) as Hrep.
  { intros b. split; [cbn; rewrite <- Hdom; by apply not_elem_of_dom|]. exists ∅, ∅, ∅. cbn [nt_heads nt_v6 nt_addr].
    split; [apply hash_init_rep|]. split; [|split; [by intros k p; rewrite !lookup_empty|done]].
    unfold neigh_live. cbn [nw_mem nw_ents]. rewrite Hents.
    split; [|split; [set_solver|split; [by rewrite fmap_empty|by intros p e; rewrite lookup_empty]]].
    exists (<[x := c]> C). split; [done|]. rewrite dom_insert_L, Hdom, dom_empty_L. set_solver. }
  apply elem_of_cons in Hfam as [[= -> ->]|[[= -> ->]|Hn]%elem_of_cons];
    [| |by apply elem_of_nil in Hn]; cbn [Z.eqb AF_INET AF_INET6 Pos.eqb];
    eexists (Some _), _; (split; [done|]); split; done.
Qed.

Lemma neigh_lookup_ok t w L0 N dst :
  neigh_rep t w L0 N -> view_ok dst ->
  match N !! copy_bytes dst (key_len (nt_v6 t)) with
  | None => neigh_lookup t dst w = Some None
  | Some mac => exists p e, neigh_lookup t dst w = Some (Some p) /\ nw_ents w !! p = Some e /\ dst_mac e = mac
  end.
Proof.
  intros (_ & D & E & M & Hr & Hl & Hex & HN) Hd. rewrite HN. unfold neigh_lookup.
  pose proof (hash_lookup_ok (H1 := neigh_hash_spec _ _ D) w _ M E dst Hr Hl (live_covers M E Hex) Hd) as ->.
  cbn [hs_key neigh_hash_spec]. destruct (M !! copy_bytes dst (key_len (nt_v6 t))) as [p|] eqn:Ep; [|done].
  cbn. apply Hex in Ep. destruct Hl as (_ & _ & -> & He). rewrite lookup_fmap in Ep.
  destruct (nw_ents w !! p) as [e|] eqn:Ee; [|done]. destruct (He _ _ Ee) as (_ & _ & _ & ->). eauto.
Qed.

Lemma neigh_delete_ok t w L0 N family dst :
  neigh_rep t w L0 N -> view_ok dst ->
  exists ret t' w', neigh_delete t family dst w = Some (ret, t', w') /\ nt_v6 t' = nt_v6 t /\
    neigh_rep t' w' L0 (delete (copy_bytes dst (key_len (nt_v6 t))) N) /\
    ret = (if N !! copy_bytes dst (key_len (nt_v6 t)) then 0 else -1).
Proof.
  intros (Ha & D & E & M & Hr & Hl & Hex & HN) Hd. set (k := copy_bytes dst _). unfold neigh_delete.
  pose proof (hash_delete_ok (H1 := neigh_hash_spec _ _ D) w _ M E dst Hr Hl (live_covers M E Hex) Hd) as Hdel.
  cbn [hs_key neigh_hash_spec] in Hdel. fold k in Hdel. destruct (M !! k) as [p|] eqn:Ep.
  - destruct Hdel as (h & w' & -> & Hr' & Hl' & Hcov). opt. eexists _, _, _. split; [done|]. split; [done|]. split.
    + split; [done|]. exists D, (delete p E), (delete k M). split; [exact Hr'|]. split; [exact Hl'|].
      apply Hex in Ep as Ep'. split.
      * intros j q. rewrite !lookup_delete_Some, Hex. split; intros [Hne Hj]; (split; [|done]); [congruence|]. intros ->. apply Hex in Hj. congruence.
      * intros j. destruct (decide (j = k)) as [->|Hj]; [by rewrite !lookup_delete_eq|].
        rewrite !lookup_delete_ne by done. apply HN.
    + rewrite HN, Ep. cbn. apply Hex in Ep. destruct Hl as (_ & _ & -> & He). rewrite lookup_fmap in Ep.
      destruct (nw_ents w !! p) as [e|] eqn:Ee; [|done]. by destruct (He _ _ Ee) as (_ & _ & _ & ->).
  - rewrite Hdel. opt. assert (N !! k = None) as EN by (by rewrite HN, Ep).
    eexists _, _, _. split; [done|]. split; [done|]. rewrite EN, delete_id by done. split; [|done].
    split; [done|]. by exists D, E, M.
Qed.

(** Adding to a table of the same family. *)
Lemma neigh_add_ok t w L0 N family dst mac :
  neigh_rep t w L0 N -> view_ok dst -> family_bytes family = Some (key_len (nt_v6 t)) ->
  let k := copy_bytes dst (key_len (nt_v6 t)) in
  exists ret t' w', neigh_add t family dst mac w = Some (ret, t', w') /\ nt_v6 t' = nt_v6 t /\
    ((ret = 0 /\ N !! k = None /\ neigh_rep t' w' L0 (<[k := copy_bytes mac ETH_ALEN]> N)) \/
     (ret = -1 /\ neigh_rep t' w' L0 N /\
      (is_Some (N !! k) \/ exists m, al_alloc sizeof_neigh_entry (nw_mem w) = Some (None, m)))).
Proof.
  intros (Ha & D & E & M & Hr & Hl & Hex & HN) Hd Hfam k. unfold neigh_add, nw_alloc.
  pose proof Hl as ((C & Hal & Hdom) & Hdis & HE & He).
  destruct (al_alloc_spec _ _ sizeof_neigh_entry Hal) as (r & m & Em & Hpost); [by vm_compute|]. rewrite Em. opt.
  destruct r as [p|].
  2:{ exists (-1), t, (NeighWorld m (nw_ents w)). split; [done|]. split; [done|]. right. split; [done|].
      split; [|right; eauto]. split; [done|]. exists D, E, M. split; [done|]. split; [|done].
      split; [by exists C|done]. }
  destruct Hpost as (Hp & c & _ & Hinv). apply not_elem_of_dom in Hp. rewrite Hdom in Hp.
  assert (p ∉ dom (nw_ents w)) as Hpe by set_solver. apply not_elem_of_dom in Hpe.
  rewrite Hfam. set (e := NeighEntry 0 _ _). set (w2 := nw_store p e _).
  set (e' := NeighEntry (p + offset_dst_addr) (copy_bytes mac ETH_ALEN) k). set (w3 := nw_store p e' w2).
  set (D' := <[p := copy_bytes mac ETH_ALEN]> D).
  assert (nw_ents w3 = <[p := e']> (nw_ents w)) as Ew3.
  { unfold w3, w2, nw_store. cbn [nw_ents]. by rewrite insert_insert_eq. }
  assert (E !! p = None) as HEp by (by rewrite HE, lookup_fmap, Hpe).
  assert (neigh_live (nt_v6 t) ({[nt_addr t]} ∪ L0) D' w3 (<[p := k]> E)) as Hl3.
  { unfold neigh_live. rewrite Ew3, dom_insert_L. split; [|split; [set_solver|split]].
    - exists (<[p := c]> C). split; [exact Hinv|]. rewrite dom_insert_L, Hdom. set_solver.
    - by rewrite fmap_insert, HE.
    - intros q x [[<- <-]|[Hne Hq]]%lookup_insert_Some.
      + split; [done|]. split; [apply copy_length|]. split; [by apply copy_ok|]. unfold D'. by rewrite lookup_insert_eq.
      + unfold D'. rewrite lookup_insert_ne by done. eauto. }
  assert (hash_rep (H1 := neigh_hash_spec (nt_v6 t) ({[nt_addr t]} ∪ L0) D') (nt_heads t) M) as Hr'.
  { destruct Hr as [Hr1 Hr2 Hr3]. split; [exact Hr1|exact Hr2|exact Hr3]. }
  assert (forall j q, M !! j = Some q -> q <> p) as Hfresh.
  { intros j q Hj%Hex ->. congruence. }
  assert (forall j, N !! j = M !! j ≫= fun q => D' !! q) as HN'.
  { intros j. rewrite HN. destruct (M !! j) as [q|] eqn:Ej; [|done]. cbn. unfold D'.
    rewrite lookup_insert_ne; [done|]. intros <-. by apply (Hfresh j p). }
  pose proof (hash_add_ok (H1 := neigh_hash_spec (nt_v6 t) ({[nt_addr t]} ∪ L0) D') w2 w3 (nt_heads t) M E
                (p + offset_dst_addr) p (view_of k) Hr') as Hadd.
  cbn [hs_key neigh_hash_spec] in Hadd. unfold k in Hadd. rewrite copy_copy in Hadd. fold k in Hadd.
  specialize (Hadd ltac:(cbn; unfold nw_set_key, w2 at 1; cbn; by rewrite lookup_insert_eq)).
  specialize (Hadd ltac:(cbn [key_bytes neigh_ops]; replace (p + offset_dst_addr - offset_dst_addr) with p by lia;
    rewrite Ew3, lookup_insert_eq; done)).
  specialize (Hadd (bytes_ok _ (copy_ok dst _ Hd)) Hl3 (live_covers M E Hex) HEp).
  destruct (M !! k) as [q|] eqn:Ek.
  - rewrite Hadd. opt. cbn [Z.ltb Z.compare].
    destruct (nw_free_entry _ _ D' w3 _ p Hl3) as (w4 & -> & Hl4); [rewrite lookup_insert_eq; eauto|]. opt.
    rewrite delete_insert_id in Hl4 by done. eexists _, _, w4. split; [done|]. split; [done|]. right. split; [done|].
    split; [split; [done|]; by exists D', E, M|]. left. rewrite HN, Ek. cbn. apply Hex in Ek. rewrite HE, lookup_fmap in Ek.
    destruct (nw_ents w !! q) as [x|] eqn:Ex; [|done]. destruct (He _ _ Ex) as (_ & _ & _ & ->). eauto.
  - destruct Hadd as (h & -> & Hr3). opt. cbn [Z.ltb Z.compare]. eexists 0, _, w3. split; [done|]. split; [done|]. left.
    split; [done|]. split; [by rewrite HN, Ek|]. split; [done|]. exists D', (<[p := k]> E), (<[k := p]> M).
    split; [exact Hr3|]. split; [exact Hl3|]. split.
    + intros j q. rewrite !lookup_insert_Some, Hex. split; intros [[<- <-]|[Hne Hj]]; (try by left); right;
        (split; [|done]); intros ->; [congruence|]. apply Hex in Hj. congruence.
    + intros j. destruct (decide (j = k)) as [->|Hj].
      * rewrite !lookup_insert_eq. cbn. unfold D'. by rewrite lookup_insert_eq.
      * rewrite !lookup_insert_ne by done. apply HN'.
Qed.

Lemma neigh_release_ok t w L0 N :
  neigh_rep t w L0 N ->
  exists w' C, neigh_release t w = Some w' /\ al_inv (nw_mem w') C /\ dom C = L0 /\ nw_ents w' = ∅.
Proof.
  intros (Ha & D & E & M & Hr & Hl & Hex & HN). unfold neigh_release.
  destruct (hash_delete_all_ok (H1 := neigh_hash_spec _ _ D) w _ M E Hr Hl (live_covers M E Hex))
    as (w1 & -> & Hl1); [intros p k; by apply Hex|].
  opt. destruct Hl1 as ((C & Hal & Hdom) & _ & Hemp & _). symmetry in Hemp. apply fmap_empty_inv in Hemp.
  rewrite Hemp, dom_empty_L in Hdom.
  assert (nt_addr t ∈ dom C) as [c Hc]%elem_of_dom by (rewrite Hdom; set_solver).
  destruct (al_free_spec _ _ _ _ Hal Hc) as (m & Em & Hinv). unfold nw_free. rewrite Em. opt.
  eexists _, (delete (nt_addr t) C). split; [done|]. split; [done|]. cbn [nw_ents]. rewrite Hemp.
  split; [|by rewrite delete_empty]. rewrite dom_delete_L, Hdom. apply leibniz_equiv. set_solver.
Qed.

End NeighFacts.

(** ** The table as an abstract object *)

Inductive nop :=
| NAdd (dst mac : view)
| NDelete (dst : view).

Definition nop_ok (o : nop) : Prop :=
  match o with NAdd dst _ => view_ok dst | NDelete dst => view_ok dst end.

(** Return code and map after a call; [nomem] says that memory was exhausted. *)
Definition nspec_step (n : nat) (nomem : bool) (o : nop) (N : gmap (list Z) (list Z))
  : Z * gmap (list Z) (list Z) :=
  match o with
  | NAdd dst mac =>
      match N !! copy_bytes dst n with
      | Some _ => (-1, N)
      | None => if nomem then (-1, N) else (0, <[copy_bytes dst n := copy_bytes mac ETH_ALEN]> N)
      end
  | NDelete dst =>
      (if N !! copy_bytes dst n then 0 else -1, delete (copy_bytes dst n) N)
  end.

Fixpoint nspec_run (n : nat) (nomem : list bool) (os : list nop) (N : gmap (list Z) (list Z))
  : list Z * gmap (list Z) (list Z) :=
  match os, nomem with
  | o :: os, b :: nomem =>
      let '(ret, N1) := nspec_step n b o N in
      let '(rets, N2) := nspec_run n nomem os N1 in (ret :: rets, N2)
  | _, _ => ([], N)
  end.

Section NeighRun.

Context {A : Type} `{AllocatorSpec A}.

Definition neigh_step (family : Z) (o : nop) (t : neigh_table) (w : neigh_world A)
  : option (Z * neigh_table * neigh_world A) :=
  match o with
  | NAdd dst mac => neigh_add t family dst mac w
  | NDelete dst => neigh_delete t family dst w
  end.

Fixpoint neigh_run (family : Z) (os : list nop) (t : neigh_table) (w : neigh_world A)
  : option (list Z * neigh_table * neigh_world A) :=
  match os with
  | [] => Some ([], t, w)
  | o :: os =>
      '(ret, t1, w1) ← neigh_step family o t w;
      '(rets, t2, w2) ← neigh_run family os t1 w1;
      Some (ret :: rets, t2, w2)
  end.

Definition never_fails : Prop := forall n a m, al_alloc n a <> Some (None, m).

(** The allocator has no memory for another entry. *)
Definition exhausted (w : neigh_world A) : bool :=
  match al_alloc sizeof_neigh_entry (nw_mem w) with Some (None, _) => true | _ => false end.

(** For every call of a run, whether memory is exhausted when it is made. *)
Fixpoint exhausted_at (family : Z) (os : list nop) (t : neigh_table) (w : neigh_world A) : list bool :=
  match os with
  | [] => []
  | o :: os =>
      exhausted w :: match neigh_step family o t w with Some (_, t1, w1) => exhausted_at family os t1 w1 | None => [] end
  end.

Lemma exhausted_never w : never_fails -> exhausted w = false.
Proof. intros Hn. unfold exhausted. destruct (al_alloc _ _) as [[[x|] m]|] eqn:E; [done| |done]. by apply Hn in E. Qed.

Lemma add_exhausted t family dst mac w ret t' w' :
  neigh_add t family dst mac w = Some (ret, t', w') -> exhausted w = true -> ret = -1.
Proof.
  unfold exhausted, neigh_add, nw_alloc. destruct (al_alloc _ _) as [[[x|] m]|]; [done| |done]. by intros [= <-].
Qed.

Lemma neigh_step_ok family o t w L0 N :
  neigh_rep t w L0 N -> nop_ok o -> family_bytes family = Some (key_len (nt_v6 t)) ->
  exists ret t' w', neigh_step family o t w = Some (ret, t', w') /\ nt_v6 t' = nt_v6 t /\
    ret = (nspec_step (key_len (nt_v6 t)) (exhausted w) o N).1 /\
    neigh_rep t' w' L0 (nspec_step (key_len (nt_v6 t)) (exhausted w) o N).2.
Proof.
  intros Hr Ho Hf. destruct o as [dst mac|dst]; cbn [neigh_step nspec_step].
  - destruct (neigh_add_ok t w L0 N family dst mac Hr Ho Hf) as (ret & t' & w' & Hrun & Hv & Hc).
    exists ret, t', w'. split; [done|]. split; [done|].
    destruct Hc as [(-> & HN & Hr')|(-> & Hr' & [[x Hx]|[m Hm]])].
    + rewrite HN. destruct (exhausted w) eqn:Ee; [|done]. by pose proof (add_exhausted _ _ _ _ _ _ _ _ Hrun Ee).
    + by rewrite Hx.
    + unfold exhausted. rewrite Hm. by destruct (N !! _).
  - destruct (neigh_delete_ok t w L0 N family dst Hr Ho) as (ret & t' & w' & Hrun & Hv & Hr' & ->).
    eexists _, t', w'. by split_and!.
Qed.

Lemma neigh_run_ok family os t w L0 N :
  neigh_rep t w L0 N -> Forall nop_ok os -> family_bytes family = Some (key_len (nt_v6 t)) ->
  let S := nspec_run (key_len (nt_v6 t)) (exhausted_at family os t w) os N in
  exists t' w', neigh_run family os t w = Some (S.1, t', w') /\ nt_v6 t' = nt_v6 t /\ neigh_rep t' w' L0 S.2.
Proof.
  intros Hr Hos Hf. revert t w N Hr Hf. induction Hos as [|o os Ho _ IH]; intros t w N Hr Hf; [by exists t, w|].
  destruct (neigh_step_ok family o t w L0 N Hr Ho Hf) as (ret & t1 & w1 & Hs & Hv1 & Hret & Hr1).
  destruct (IH t1 w1 _ Hr1) as (t' & w' & Hrun & Hv & Hrep); [by rewrite Hv1|]. rewrite Hv1 in *.
  exists t', w'. cbn [neigh_run nspec_run exhausted_at]. rewrite Hs. opt. rewrite Hrun. opt. subst ret.
  destruct (nspec_step (key_len (nt_v6 t)) (exhausted w) o N) as [r N1]. cbn [fst snd] in *.
  by destruct (nspec_run (key_len (nt_v6 t)) (exhausted_at family os t1 w1) os N1) as [rs N2].
Qed.

End NeighRun.

(** ** Theorems *)

(** C4: a neighbour table refines a finite map.  Any sequence of additions and
    deletions runs to its end, over any allocator; the return codes and the
    final contents are those of the map, in which an addition of a new neighbour
    fails exactly where the allocator, in the state it is in at that call, has no
    memory for the entry ([exhausted_at]); and every lookup then finds exactly the
    link-layer address of the map. *)
Theorem neigh_run_refines {A} `{AllocatorSpec A} family os t (w : neigh_world A) L0 N :
  neigh_rep t w L0 N -> Forall nop_ok os -> family_bytes family = Some (key_len (nt_v6 t)) ->
  let spec := nspec_run (key_len (nt_v6 t)) (exhausted_at family os t w) os N in
  exists t' w', neigh_run family os t w = Some (spec.1, t', w') /\
    forall dst, view_ok dst ->
      match spec.2 !! copy_bytes dst (key_len (nt_v6 t)) with
      | None => neigh_lookup t' dst w' = Some None
      | Some mac => exists p e, neigh_lookup t' dst w' = Some (Some p) /\ nw_ents w' !! p = Some e /\
                      dst_mac e = mac
      end.
Proof.
  intros Hr Hos Hf. cbv zeta. destruct (neigh_run_ok family os t w L0 N Hr Hos Hf) as (t' & w' & Hrun & Hv & Hrep).
  exists t', w'. split; [done|]. intros dst Hd.
  pose proof (neigh_lookup_ok t' w' L0 _ dst Hrep Hd) as Hlk. by rewrite Hv in Hlk.
Qed.

Definition mac_a : view := view_of [2; 0; 0; 0; 0; 10].
Definition mac_b : view := view_of [2; 0; 0; 0; 0; 11].
Definition host_1 : view := view_of [192; 0; 2; 1].
Definition host_2 : view := view_of [192; 0; 2; 2].

Definition demo_nworld : neigh_world quota := NeighWorld (Quota 4096 100 ∅) ∅.
Definition demo_neigh : neigh_table := NeighTable 4096 false hash_init.
Definition demo_nworld1 : neigh_world quota :=
  NeighWorld (Quota (4096 + sizeof_neigh_table) 99 {[4096 := sizeof_neigh_table]}) ∅.

Lemma demo_neigh_rep : neigh_rep demo_neigh demo_nworld1 ∅ ∅.
Proof.
  assert (quota_inv (nw_mem demo_nworld) ∅) as Hi by (split_and!; [done|by intros|by intros]).
  destruct (neigh_alloc_rep AF_INET demo_nworld ∅ false) as (r & w' & E & Hr).
  - left.
  - exists ∅. split; [exact Hi|apply dom_empty_L].
  - done.
  - unfold neigh_alloc, nw_alloc in E. cbn [al_alloc quota_allocator demo_nworld nw_mem q_left] in E. cbn in E.
    injection E as <- <-. destruct Hr as [_ Hr]. exact Hr.
Qed.

Lemma host_ok a b c d : Forall is_byte [a; b; c; d] -> view_ok (view_of [a; b; c; d]).
Proof. apply bytes_ok. Qed.

(** With memory for one entry only, the second addition fails. *)
Definition demo_nworld2 : neigh_world quota :=
  NeighWorld (Quota (4096 + sizeof_neigh_table) 1 {[4096 := sizeof_neigh_table]}) ∅.

Lemma demo_neigh_rep2 : neigh_rep demo_neigh demo_nworld2 ∅ ∅.
Proof.
  pose proof demo_neigh_rep as (Ha & D & E & M & Hr & ((C & Hal & Hdom) & Hl) & Hex & HN). split; [exact Ha|].
  exists D, E, M. split_and!; [exact Hr| |exact Hex|exact HN]. split; [|exact Hl]. exists C. split; [exact Hal|exact Hdom].
Qed.

Lemma neigh_run_refines_witness :
  exhausted_at AF_INET [NAdd host_1 mac_a; NAdd host_2 mac_b; NDelete host_1] demo_neigh demo_nworld2 = [false; true; true] /\
  exists t' w',
    neigh_run AF_INET [NAdd host_1 mac_a; NAdd host_2 mac_b; NDelete host_1] demo_neigh demo_nworld2 =
      Some ([0; -1; 0], t', w').
Proof.
  split; [vm_compute; reflexivity|].
  destruct (neigh_run_refines AF_INET [NAdd host_1 mac_a; NAdd host_2 mac_b; NDelete host_1]
              demo_neigh demo_nworld2 ∅ ∅ demo_neigh_rep2) as (t' & w' & E & _).
  - repeat constructor; cbn; lia || (apply host_ok; repeat constructor; cbn; lia).
  - reflexivity.
  - exists t', w'. exact E.
Defined.

(** [neigh_release] frees every entry and the table, each once: what is left
    in the allocator is what other owners hold. *)
Theorem neigh_release_no_leak {A} `{AllocatorSpec A} t (w : neigh_world A) L0 N :
  neigh_rep t w L0 N ->
  exists w' C, neigh_release t w = Some w' /\ al_inv (nw_mem w') C /\ dom C = L0 /\ nw_ents w' = ∅.
Proof. apply neigh_release_ok. Qed.

Lemma neigh_release_no_leak_witness : exists w', neigh_release demo_neigh demo_nworld1 = Some w' /\ nw_ents w' = ∅.
Proof.
  destruct (neigh_release_no_leak demo_neigh demo_nworld1 ∅ ∅ demo_neigh_rep) as (w' & C & E & _ & _ & He).
  exists w'. split; [exact E|exact He].
Defined.

(** A neighbour that is already known keeps its link-layer address.
    [neigh_add], which the kernel's notifications of changed neighbours reach too,
    then returns -1, and lookups still find the old address. *)
Theorem neigh_change_ignored {A} `{AllocatorSpec A} t (w : neigh_world A) L0 N family dst mac old :
  neigh_rep t w L0 N -> view_ok dst -> family_bytes family = Some (key_len (nt_v6 t)) ->
  N !! copy_bytes dst (key_len (nt_v6 t)) = Some old ->
  exists t' w' p e, neigh_add t family dst mac w = Some (-1, t', w') /\
    neigh_lookup t' dst w' = Some (Some p) /\ nw_ents w' !! p = Some e /\ dst_mac e = old.
Proof.
  intros Hr Hd Hf Hk. destruct (neigh_add_ok t w L0 N family dst mac Hr Hd Hf) as (ret & t' & w' & Hrun & Hv & Hc).
  destruct Hc as [(_ & HN & _)|(-> & Hr' & _)]; [congruence|].
  pose proof (neigh_lookup_ok t' w' L0 N dst Hr' Hd) as Hl. rewrite Hv, Hk in Hl.
  destruct Hl as (p & e & ? & ? & ?). by exists t', w', p, e.
Qed.

Lemma neigh_change_ignored_witness :
  exists t w t' w' p e, neigh_run AF_INET [NAdd host_1 mac_a] demo_neigh demo_nworld1 = Some ([0], t, w) /\
    neigh_add t AF_INET host_1 mac_b w = Some (-1, t', w') /\
    neigh_lookup t' host_1 w' = Some (Some p) /\ nw_ents w' !! p = Some e /\ dst_mac e = [2; 0; 0; 0; 0; 10].
Proof.
  assert (view_ok host_1) as Hh by (apply host_ok; repeat constructor; cbn; lia).
  destruct (neigh_add_ok demo_neigh demo_nworld1 ∅ ∅ AF_INET host_1 mac_a demo_neigh_rep Hh eq_refl)
    as (ret & t & w & Hrun & Hv & [(-> & _ & Hr)|(_ & _ & [[x Hx]|[m Hm]])]).
  - destruct (neigh_change_ignored t w ∅ _ AF_INET host_1 mac_b [2; 0; 0; 0; 0; 10] Hr Hh) as (t' & w' & p & e & H).
    + rewrite Hv. reflexivity.
    + rewrite Hv. apply lookup_insert_eq.
    + exists t, w, t', w', p, e. split; [|exact H]. cbn [neigh_run neigh_step]. rewrite Hrun. reflexivity.
  - discriminate Hx.
  - discriminate Hm.
Defined.
