(* ===== verification/Forward.v ===== *)
(** * Packet forwarding (src/src/forward.c)

    The decision for each received packet and what is written to it.  Packet
    buffers are bytes of one memory, addressed as the code addresses them; what
    goes to the kernel through the TAP devices is the list of [write] calls.
    The tables are those of Fib.v and Neigh.v, the rings those of Driver.v.
    [None] is undefined behaviour. *)

From stdpp Require Import prelude fin_maps gmap list.
From S2P Require Import Prelude Alloc Lpm Fib Hash Neigh Driver.

Definition ETH_P_IP : Z := 0x0800.
Definition ETH_P_ARP : Z := 0x0806.
Definition ETH_P_IPV6 : Z := 0x86DD.

(** Offsets in the frame: [struct ethhdr] is followed by [struct iphdr] or
    [struct ip6_hdr]. *)
Definition off_h_dest : Z := 0.
Definition off_h_source : Z := 6.
Definition off_h_proto : Z := 12.
Definition sizeof_ethhdr : Z := 14.
Definition off_ttl : Z := sizeof_ethhdr + 8.
Definition off_check : Z := sizeof_ethhdr + 10.
Definition off_daddr : Z := sizeof_ethhdr + 16.
Definition off_hlim : Z := sizeof_ethhdr + 7.
Definition off_ip6_dst : Z := sizeof_ethhdr + 24.

(** ** Memory *)

Definition memory := Z -> Z.

Definition at_addr (m : memory) (a : Z) : view := fun i => m (a + Z.of_nat i).

Definition store8 (m : memory) (a x : Z) : memory := fun b => if b =? a then x else m b.

(** [memcpy] of the bytes [l] to address [a]. *)
Fixpoint write_bytes (m : memory) (a : Z) (l : list Z) : memory :=
  match l with
  | [] => m
  | x :: l => write_bytes (store8 m a x) (a + 1) l
  end.

(** 16-bit accesses of a little-endian processor, and [htons]. *)
Definition load16 (m : memory) (a : Z) : Z := m a + m (a + 1) * 2 ^ 8.
Definition store16 (m : memory) (a x : Z) : memory :=
  store8 (store8 m a (x mod 2 ^ 8)) (a + 1) (x / 2 ^ 8 mod 2 ^ 8).
Definition htons (x : Z) : Z := Z.lor (Z.shiftl (Z.land x 0xFF) 8) (Z.shiftr x 8).
Definition ntohs : Z -> Z := htons.

(** [IN6_IS_ADDR_LINKLOCAL]. *)
Definition in6_is_addr_linklocal (v : view) : bool := Z.land (ntohl (load32 v 0)) 0xffc00000 =? 0xfe800000.

Section Forward.

Context {A : Type} `{Allocator A}.

(** [struct ixmapfwd_thread], less what forwarding does not use.  Each table
    comes with its objects. *)
Record thread := Thread {
  th_ports : list port;
  th_buf : buf;
  neigh_inet : list (neigh_table * neigh_world A);
  neigh_inet6 : list (neigh_table * neigh_world A);
  fib_inet : fib * fib_world A;
  fib_inet6 : fib * fib_world A;
  tun_fds : list Z
}.

Definition set_port (th : thread) (i : nat) (p : port) (b : buf) : thread :=
  Thread (<[i := p]> (th_ports th)) b (neigh_inet th) (neigh_inet6 th) (fib_inet th) (fib_inet6 th) (tun_fds th).

(** A [write] to a TAP device: descriptor and bytes. *)
Definition tun_write := (Z * list Z)%type.

Definition write_tun (th : thread) (port_index : Z) (pk : packet) (m : memory) : option tun_write :=
  fd ← load (tun_fds th) port_index;
  Some (fd, copy_bytes (at_addr m (slot_buf pk)) (Z.to_nat (slot_size pk))).

(** The outcome of a handler: the output port or -1, the memory, the writes. *)
Definition outcome := (Z * memory * list tun_write)%type.

Definition packet_drop (m : memory) : option outcome := Some (-1, m, []).

Definition packet_local (th : thread) (port_index : Z) (pk : packet) (m : memory) : option outcome :=
  wr ← write_tun th port_index pk m;
  Some (-1, m, [wr]).

Definition forward_arp_process (th : thread) (port_index : Z) (pk : packet) (m : memory) : option outcome :=
  wr ← write_tun th port_index pk m;
  Some (-1, m, [wr]).

(** The [switch] on the route: [None] for [packet_local], else the neighbour. *)
Definition resolve (neigh : list (neigh_table * neigh_world A)) (e : fib_entry) (dst : view)
  : option (option (list Z)) :=
  let find v :=
    '(t, w) ← load neigh (fe_port_index (fe_data e));
    r ← neigh_lookup t v w;
    match r with
    | None => Some None
    | Some p => ne ← nw_ents w !! p; Some (Some (dst_mac ne))
    end in
  match fe_type (fe_data e) with
  | FIB_TYPE_LOCAL => Some None
  | FIB_TYPE_LINK => find dst
  | FIB_TYPE_FORWARD => find (view_of (fe_nexthop (fe_data e)))
  end.

(** New link-layer addresses. *)
Definition rewrite_eth (th : thread) (m : memory) (pk : packet) (dst_mac : list Z) (out : Z) : option memory :=
  src_mac ← ixmap_macaddr (th_ports th) out;
  Some (write_bytes (write_bytes m (slot_buf pk + off_h_dest) dst_mac) (slot_buf pk + off_h_source) src_mac).

(** [ip->ttl--] and the incremental update of [ip->check]. *)
Definition ip_decrease_ttl (m : memory) (a : Z) : memory :=
  let m1 := store8 m (a + off_ttl) (u8 (m (a + off_ttl) - 1)) in
  let check := u32 (load16 m1 (a + off_check) + htons 0x0100) in
  store16 m1 (a + off_check) (u16 (check + if 0xFFFF <=? check then 1 else 0)).

Definition forward_ip_process (th : thread) (port_index : Z) (pk : packet) (m : memory) : option outcome :=
  let dst := at_addr m (slot_buf pk + off_daddr) in
  r ← fib_lookup (fst (fib_inet th)) dst;
  match r with
  | None => packet_drop m
  | Some fe =>
    e ← fw_ents (snd (fib_inet th)) !! fe;
    let out := fe_port_index (fe_data e) in
    if out <? 0 then packet_local th port_index pk m
    else
      n ← resolve (neigh_inet th) e dst;
      match n with
      | None => packet_local th port_index pk m
      | Some dst_mac =>
        if m (slot_buf pk + off_ttl) =? 1 then packet_local th port_index pk m
        else
          m' ← rewrite_eth th (ip_decrease_ttl m (slot_buf pk)) pk dst_mac out;
          Some (out, m', [])
      end
  end.

Definition forward_ip6_process (th : thread) (port_index : Z) (pk : packet) (m : memory) : option outcome :=
  let dst := at_addr m (slot_buf pk + off_ip6_dst) in
  if in6_is_addr_linklocal dst then packet_local th port_index pk m
  else
    r ← fib_lookup (fst (fib_inet6 th)) dst;
    match r with
    | None => packet_drop m
    | Some fe =>
      e ← fw_ents (snd (fib_inet6 th)) !! fe;
      let out := fe_port_index (fe_data e) in
      if out <? 0 then packet_local th port_index pk m
      else
        n ← resolve (neigh_inet6 th) e dst;
        match n with
        | None => packet_local th port_index pk m
        | Some dst_mac =>
          let hlim := m (slot_buf pk + off_hlim) in
          if hlim =? 1 then packet_local th port_index pk m
          else
            m' ← rewrite_eth th (store8 m (slot_buf pk + off_hlim) (u8 (hlim - 1))) pk dst_mac out;
            Some (out, m', [])
        end
    end.

(** The [switch] on the frame's protocol. *)
Definition forward_one (th : thread) (port_index : Z) (pk : packet) (m : memory) : option outcome :=
  let proto := ntohs (load16 m (slot_buf pk + off_h_proto)) in
  if proto =? ETH_P_ARP then forward_arp_process th port_index pk m
  else if proto =? ETH_P_IP then forward_ip_process th port_index pk m
  else if proto =? ETH_P_IPV6 then forward_ip6_process th port_index pk m
  else packet_drop m.

(** [ixmap_tx_assign] on a port of the thread. *)
Definition thread_tx_assign (th : thread) (out : Z) (pk : packet) : option thread :=
  p ← load (th_ports th) out;
  '(p', b') ← ixmap_tx_assign out pk p (th_buf th);
  Some (set_port th (Z.to_nat out) p' b').

Definition thread_release (th : thread) (slot : Z) : option thread :=
  b' ← ixmap_slot_release (th_buf th) slot;
  Some (Thread (th_ports th) b' (neigh_inet th) (neigh_inet6 th) (fib_inet th) (fib_inet6 th) (tun_fds th)).

(** The loop over the packets: the label [packet_drop] is reached in both cases. *)
Fixpoint forward_process (th : thread) (port_index : Z) (pks : list packet) (m : memory)
  : option (thread * memory * list tun_write) :=
  match pks with
  | [] => Some (th, m, [])
  | pk :: pks =>
      '(ret, m1, wr) ← forward_one th port_index pk m;
      th1 ← (if ret <? 0 then Some th else thread_tx_assign th ret pk);
      th2 ← thread_release th1 (pk_slot_index pk);
      '(th3, m2, wrs) ← forward_process th2 port_index pks m1;
      Some (th3, m2, wr ++ wrs)
  end.

(** A frame read from the TAP device of a port: bytes in, slot, queue. *)
Definition forward_process_tun (th : thread) (port_index : Z) (read_buf : list Z) (m : memory)
  : option (thread * memory) :=
  let read_size := Z.of_nat (length read_buf) in
  if ixmap_slot_size (th_buf th) <? read_size then Some (th, m)
  else
    p ← load (th_ports th) port_index;
    '(slot, p1, b1) ← ixmap_slot_assign (th_buf th) p;
    if slot <? 0 then Some (set_port th (Z.to_nat port_index) p1 b1, m)
    else
      let pk := Packet (ixmap_slot_addr_virt b1 slot) read_size slot in
      '(p2, b2) ← ixmap_tx_assign port_index pk p1 b1;
      Some (set_port th (Z.to_nat port_index) p2 b2, write_bytes m (slot_buf pk) read_buf).

End Forward.

Arguments thread : clear implicits.
