(* ===== verification/ForwardProps.v ===== *)
(** * Forwarding: correctness

    The IPv4 and IPv6 handlers decide by the abstract routes and neighbours and
    change nothing of a packet but what forwarding must; the incremental
    checksum update is exact; and what happens to the slot of a packet that is
    sent. *)

From stdpp Require Import prelude fin_maps gmap list.
From S2P Require Import Prelude Alloc Quota Lpm Fib FibFacts FibProps Hash Neigh NeighProps.
From S2P Require Import Driver DriverFacts DriverProps Forward.

(** ** Memory *)

Definition mem_ok (m : memory) : Prop := forall a, is_byte (m a).

Lemma at_addr_ok m a : mem_ok m -> view_ok (at_addr m a).
Proof. intros Hm i. apply Hm. Qed.

Lemma store8_eq m a x b : store8 m a x b = if b =? a then x else m b.
Proof. done. Qed.

Lemma write_bytes_in m a l i x : l !! i = Some x -> write_bytes m a l (a + Z.of_nat i) = x.
Proof.
  revert m a i. assert (forall l m a b, b < a -> write_bytes m a l b = m b) as Hout.
  { clear. intros l. induction l as [|y l IH]; intros m a b Hb; [done|]. cbn [write_bytes]. rewrite IH by lia.
    unfold store8. by rewrite (proj2 (Z.eqb_neq b a)) by lia. }
  induction l as [|y l IH]; intros m a i Hi; [done|]. cbn [write_bytes]. destruct i as [|i].
  - cbn in Hi. simplify_eq. rewrite Hout by lia. unfold store8. by rewrite Z.add_0_r, Z.eqb_refl.
  - cbn in Hi. replace (a + Z.of_nat (S i)) with (a + 1 + Z.of_nat i) by lia. by apply IH.
Qed.

Lemma write_bytes_out m a l b : b < a \/ a + Z.of_nat (length l) <= b -> write_bytes m a l b = m b.
Proof.
  revert m a. induction l as [|y l IH]; intros m a Hb; [done|]. cbn [write_bytes length] in *.
  rewrite IH by lia. unfold store8. by rewrite (proj2 (Z.eqb_neq b a)) by lia.
Qed.

(** ** The IPv4 header checksum *)

(** The sum of the [n] 16-bit words from [a] on, and its folding. *)
Fixpoint word_sum (m : memory) (a : Z) (n : nat) : Z :=
  match n with
  | O => 0
  | S n => load16 m a + word_sum m (a + 2) n
  end.

Definition fold16 (s : Z) : Z :=
  let s := s mod 2 ^ 16 + s / 2 ^ 16 in s mod 2 ^ 16 + s / 2 ^ 16.

(** What a receiver checks: the ones' complement sum of the header is all ones. *)
Definition checksum_ok (m : memory) (a : Z) (words : nat) : bool := fold16 (word_sum m a words) =? 0xFFFF.

Lemma fold16_ones s : 0 <= s < 2 ^ 31 -> fold16 s = 0xFFFF <-> 0 < s /\ s mod 0xFFFF = 0.
Proof.
  intros Hs. unfold fold16.
  pose proof (Z.div_mod s (2 ^ 16) ltac:(lia)). pose proof (Z.mod_pos_bound s (2 ^ 16) ltac:(lia)).
  assert (0 <= s / 2 ^ 16 < 2 ^ 15) by (split; [apply Z.div_pos; lia|apply Z.div_lt_upper_bound; lia]).
  set (t := s mod 2 ^ 16 + s / 2 ^ 16) in *.
  pose proof (Z.div_mod t (2 ^ 16) ltac:(lia)). pose proof (Z.mod_pos_bound t (2 ^ 16) ltac:(lia)).
  pose proof (Z.div_mod s 0xFFFF ltac:(lia)). pose proof (Z.mod_pos_bound s 0xFFFF ltac:(lia)).
  assert (0 <= t / 2 ^ 16 < 2) by (split; [apply Z.div_pos; lia|apply Z.div_lt_upper_bound; lia]). lia.
Qed.

Lemma load16_range m a : mem_ok m -> 0 <= load16 m a < 2 ^ 16.
Proof. intros Hm. unfold load16. pose proof (Hm a). pose proof (Hm (a + 1)). unfold is_byte in *. lia. Qed.

Lemma word_sum_range m a n : mem_ok m -> 0 <= word_sum m a n <= Z.of_nat n * (2 ^ 16 - 1).
Proof.
  intros Hm. revert a. induction n as [|n IH]; intros a; cbn [word_sum]; [lia|].
  pose proof (load16_range m a Hm). specialize (IH (a + 2)). lia.
Qed.

(** Changing one word changes the sum by the difference. *)
Lemma word_sum_ext m m' a n : (forall b, a <= b < a + 2 * Z.of_nat n -> m' b = m b) -> word_sum m' a n = word_sum m a n.
Proof.
  revert a. induction n as [|n IH]; intros a E; [done|]. cbn [word_sum]. unfold load16.
  rewrite !E, IH by (try intros b Hb; try apply E; lia). done.
Qed.

Lemma word_sum_app m a k n : word_sum m a (k + n) = word_sum m a k + word_sum m (a + 2 * Z.of_nat k) n.
Proof.
  revert a. induction k as [|k IH]; intros a.
  - cbn [Nat.add word_sum]. by replace (a + 2 * Z.of_nat 0) with a by lia.
  - cbn [Nat.add word_sum]. rewrite IH. replace (a + 2 * Z.of_nat (S k)) with (a + 2 + 2 * Z.of_nat k) by lia. lia.
Qed.

(** The words of a header: four, the one with the TTL, the checksum, the rest. *)
Lemma word_sum_header m a n :
  word_sum m a (6 + n) = word_sum m a 4 + load16 m (a + 8) + load16 m (a + 10) + word_sum m (a + 12) n.
Proof.
  change (6 + n)%nat with (4 + (1 + (1 + n)))%nat. rewrite !word_sum_app. cbn [word_sum].
  replace (a + 2 * Z.of_nat 4) with (a + 8) by lia. replace (a + 8 + 2 * Z.of_nat 1) with (a + 10) by lia.
  replace (a + 10 + 2 * Z.of_nat 1) with (a + 12) by lia. lia.
Qed.

(** The new checksum, as a number. *)
Definition next_check (c : Z) : Z := if c <? 0xFFFE then c + 1 else c - 0xFFFE.

Lemma ip_decrease_ttl_bytes m a :
  mem_ok m ->
  let m' := ip_decrease_ttl m a in
  m' (a + off_ttl) = (m (a + off_ttl) - 1) mod 2 ^ 8 /\
  load16 m' (a + off_check) = next_check (load16 m (a + off_check)) /\
  (forall b, b <> a + off_ttl -> b <> a + off_check -> b <> a + off_check + 1 -> m' b = m b) /\ mem_ok m'.
Proof.
  intros Hm. unfold ip_decrease_ttl. set (m1 := store8 m _ _).
  assert (load16 m1 (a + off_check) = load16 m (a + off_check)) as E1.
  { unfold load16, m1, store8. rewrite !(proj2 (Z.eqb_neq _ _)) by (unfold off_check, off_ttl, sizeof_ethhdr; lia). done. }
  rewrite E1. pose proof (load16_range m (a + off_check) Hm) as Hc. set (c := load16 m (a + off_check)) in *.
  change (htons 256) with 1. set (x := u16 _).
  assert (x = next_check c) as Ex.
  { unfold x, next_check, u16, u32. rewrite (Z.mod_small (c + 1)) by lia.
    destruct (Z.leb_spec 0xFFFF (c + 1)), (Z.ltb_spec c 0xFFFE); try lia.
    - symmetry. apply Z.mod_unique with 1; lia.
    - rewrite Z.mod_small by lia. lia. }
  assert (0 <= x < 2 ^ 16) as Hx by (apply Z.mod_pos_bound; lia).
  assert (forall b, store16 m1 (a + off_check) x b =
    if b =? a + off_check + 1 then x / 2 ^ 8 mod 2 ^ 8 else if b =? a + off_check then x mod 2 ^ 8 else
    if b =? a + off_ttl then u8 (m (a + off_ttl) - 1) else m b) as Hb by done.
  split_and!.
  - rewrite Hb, !(proj2 (Z.eqb_neq _ _)) by (unfold off_check, off_ttl, sizeof_ethhdr; lia). by rewrite Z.eqb_refl.
  - unfold load16. rewrite !Hb. rewrite Z.eqb_refl, (proj2 (Z.eqb_neq (a + off_check) _)), Z.eqb_refl by lia.
    rewrite <- Ex. Z.to_euclidean_division_equations. lia.
  - intros b H1 H2 H3. rewrite Hb, !(proj2 (Z.eqb_neq _ _)) by done. done.
  - intros b. rewrite Hb. unfold is_byte, u8. destruct (b =? _); [apply Z.mod_pos_bound; lia|].
    destruct (b =? _); [apply Z.mod_pos_bound; lia|]. destruct (b =? _); [apply Z.mod_pos_bound; lia|apply Hm].
Qed.

(** C31: decrementing the TTL keeps the IPv4 header checksum right.  For a header
    of [6 + n] words and a TTL that is not zero, the header has a valid checksum
    afterwards exactly when it had one before, and only the TTL and the checksum
    have changed. *)
Theorem ip_ttl_checksum_exact m a n :
  mem_ok m -> (n <= 24)%nat -> m (a + sizeof_ethhdr) <> 0 -> m (a + off_ttl) <> 0 ->
  let m' := ip_decrease_ttl m a in
  checksum_ok m' (a + sizeof_ethhdr) (6 + n) = checksum_ok m (a + sizeof_ethhdr) (6 + n) /\
  m' (a + off_ttl) = m (a + off_ttl) - 1 /\
  forall b, b <> a + off_ttl -> b <> a + off_check -> b <> a + off_check + 1 -> m' b = m b.
Proof.
  intros Hm Hn Hver Httl m'. destruct (ip_decrease_ttl_bytes m a Hm) as (Ht & Hc & Ho & Hm'). fold m' in Ht, Hc, Ho, Hm'.
  pose proof (Hm (a + off_ttl)) as Hb. unfold is_byte in Hb. rewrite Z.mod_small in Ht by lia.
  split; [|split; [done|done]].
  pose proof (word_sum_range m (a + sizeof_ethhdr) (6 + n) Hm) as Hs.
  pose proof (word_sum_range m' (a + sizeof_ethhdr) (6 + n) Hm') as Hs'.
  unfold checksum_ok. apply eq_true_iff_eq. rewrite !Z.eqb_eq, !fold16_ones by lia.
  set (h := a + sizeof_ethhdr) in *.
  replace (a + off_ttl) with (h + 8) in * by (unfold h, off_ttl; lia).
  replace (a + off_check) with (h + 10) in * by (unfold h, off_check; lia).
  revert Hs Hs'. rewrite !word_sum_header. rewrite (word_sum_ext m m' h 4) by (intros b Hbb; apply Ho; lia).
  rewrite (word_sum_ext m m' (h + 12) n) by (intros b Hbb; apply Ho; lia). rewrite Hc.
  assert (load16 m' (h + 8) = load16 m (h + 8) - 1) as ->.
  { unfold load16. rewrite Ht, (Ho (h + 8 + 1)) by lia. lia. }
  pose proof (load16_range m (h + 10) Hm) as Hcr.
  pose proof (word_sum_range m (h + 12) n Hm). set (R := word_sum m (h + 12) n) in *.
  assert (1 <= word_sum m h 4) as H1.
  { cbn [word_sum]. unfold load16 at 1. pose proof (Hm h) as Hb0. pose proof (Hm (h + 1)). unfold is_byte in *.
    pose proof (load16_range m (h + 2) Hm). pose proof (load16_range m (h + 2 + 2) Hm).
    pose proof (load16_range m (h + 2 + 2 + 2) Hm). lia. }
  assert (1 <= load16 m (h + 8)).
  { unfold load16. pose proof (Hm (h + 8 + 1)). unfold is_byte in *. lia. }
  set (A4 := word_sum m h 4) in *. set (c := load16 m (h + 10)) in *. set (t := load16 m (h + 8)) in *.
  unfold next_check. intros Hs Hs'.
  destruct (Z.ltb_spec c 0xFFFE).
  - by replace (A4 + (t - 1) + (c + 1) + R) with (A4 + t + c + R) by lia.
  - replace (A4 + (t - 1) + (c - 0xFFFE) + R) with (A4 + t + c + R + (-1) * 0xFFFF) by lia.
    rewrite Z.mod_add by lia. lia.
Qed.

(** An IPv4 packet from 10.0.0.1 to 192.0.2.1 in a frame, at address 0. *)
Definition mem_of (l : list Z) : memory := fun a => if a <? 0 then 0 else view_of l (Z.to_nat a).
Definition demo_frame (ttl check_lo check_hi : Z) : list Z :=
  [2; 0; 0; 0; 0; 1; 2; 0; 0; 0; 0; 99; 8; 0;
   0x45; 0; 0; 20; 0; 0; 0; 0; ttl; 17; check_lo; check_hi; 10; 0; 0; 1; 192; 0; 2; 1].

Lemma mem_of_ok l : Forall is_byte l -> mem_ok (mem_of l).
Proof. intros Hl a. unfold mem_of. destruct (a <? 0); [by vm_compute|by apply bytes_ok]. Qed.

Lemma demo_frame_ok ttl lo hi : is_byte ttl -> is_byte lo -> is_byte hi -> mem_ok (mem_of (demo_frame ttl lo hi)).
Proof. intros Ht Hl Hh. apply mem_of_ok. unfold demo_frame, is_byte in *.
  repeat (apply Forall_cons; split; [lia|]). constructor. Qed.

Lemma ip_ttl_checksum_exact_witness :
  checksum_ok (mem_of (demo_frame 64 0xae 0xd7)) 14 10 = true /\
  checksum_ok (ip_decrease_ttl (mem_of (demo_frame 64 0xae 0xd7)) 0) 14 10 = true.
Proof.
  assert (checksum_ok (mem_of (demo_frame 64 0xae 0xd7)) 14 10 = true) as E by (vm_compute; reflexivity).
  split; [exact E|].
  destruct (ip_ttl_checksum_exact (mem_of (demo_frame 64 0xae 0xd7)) 0 4) as [H _].
  - apply demo_frame_ok; unfold is_byte; lia.
  - lia.
  - vm_compute. discriminate.
  - vm_compute. discriminate.
  - exact (eq_trans H E).
Defined.

(** ** The decision *)

Inductive verdict := Drop | Local | Send (out : Z) (mac : list Z).

(** By the abstract tables: the routes [As] and, for each port, the neighbours
    [Ns]; [n] is the length of an address. *)
Definition ip_verdict (n : nat) (As : list frec) (Ns : list (gmap (list Z) (list Z))) (hops : Z) (dst : view)
  : verdict :=
  match best_frec As dst with
  | None => Drop
  | Some a =>
      let d := fr_data a in
      let known key := Ns !! Z.to_nat (fe_port_index d) ≫= fun N => N !! copy_bytes key n in
      if fe_port_index d <? 0 then Local
      else match match fe_type d with
                 | FIB_TYPE_LOCAL => None
                 | FIB_TYPE_LINK => known dst
                 | FIB_TYPE_FORWARD => known (view_of (fe_nexthop d))
                 end with
           | None => Local
           | Some mac => if hops =? 1 then Local else Send (fe_port_index d) mac
           end
  end.

Lemma best_frec_in As d a : best_frec As d = Some a -> a ∈ As.
Proof.
  revert a. induction As as [|b As IH]; intros a; [done|]. cbn [best_frec].
  destruct (best_frec As d) as [c|]; repeat case_match; intros [= <-]; first [by left|right; by apply IH].
Qed.

Section Decision.

Context {A : Type} `{AllocatorSpec A}.

(** A neighbour table of the family holds [N]. *)
Definition neigh_holds (v6 : bool) (tw : neigh_table * neigh_world A) (N : gmap (list Z) (list Z)) : Prop :=
  nt_v6 tw.1 = v6 /\ exists L0, neigh_rep tw.1 tw.2 L0 N.

(** The routes of a thread name ports it has. *)
Definition routes_ok (ports : nat) (As : list frec) : Prop :=
  Forall (fun a => fe_port_index (fr_data a) < Z.of_nat ports /\ Forall is_byte (fe_nexthop (fr_data a))) As.

Lemma resolve_ok v6 neigh Ns e dst :
  Forall2 (neigh_holds v6) neigh Ns -> 0 <= fe_port_index (fe_data e) < Z.of_nat (length neigh) ->
  view_ok dst -> Forall is_byte (fe_nexthop (fe_data e)) ->
  let known key := Ns !! Z.to_nat (fe_port_index (fe_data e)) ≫= fun N => N !! copy_bytes key (key_len v6) in
  resolve neigh e dst =
    Some (match fe_type (fe_data e) with
          | FIB_TYPE_LOCAL => None
          | FIB_TYPE_LINK => known dst
          | FIB_TYPE_FORWARD => known (view_of (fe_nexthop (fe_data e)))
          end).
Proof.
  intros Hn Hp Hd Hnh known. unfold resolve.
  assert (forall v, view_ok v ->
    ('(t, w) ← load neigh (fe_port_index (fe_data e));
     r ← neigh_lookup t v w;
     match r with
     | None => Some None
     | Some p => ne ← nw_ents w !! p; Some (Some (dst_mac ne))
     end) = Some (known v)) as Hfind.
  { intros v Hv. rewrite load_lookup by lia.
    destruct (lookup_lt_is_Some_2 neigh (Z.to_nat (fe_port_index (fe_data e)))) as [[t w] Et]; [lia|].
    destruct (Forall2_lookup_l _ _ _ _ _ Hn Et) as (N & EN & Hv6 & L0 & Hrep). cbn [fst snd] in *.
    unfold known. rewrite Et, EN. opt. pose proof (neigh_lookup_ok t w L0 N v Hrep Hv) as Hl. rewrite Hv6 in Hl.
    destruct (N !! copy_bytes v (key_len v6)) as [mac|].
    - destruct Hl as (p & ne & -> & Hne & <-). opt. by rewrite Hne.
    - by rewrite Hl. }
  destruct (fe_type (fe_data e)); [apply Hfind; by apply bytes_ok|by apply Hfind|done].
Qed.

Record thread_ok (th : thread A) (As As6 : list frec) (Ns Ns6 : list (gmap (list Z) (list Z))) : Prop := {
  to_fib : exists L0, fib_ok (fib_inet th).2 (fib_inet th).1 L0 As;
  to_fib6 : exists L0, fib_ok (fib_inet6 th).2 (fib_inet6 th).1 L0 As6;
  to_neigh : Forall2 (neigh_holds false) (neigh_inet th) Ns;
  to_neigh6 : Forall2 (neigh_holds true) (neigh_inet6 th) Ns6;
  to_len : length (neigh_inet th) = length (th_ports th);
  to_len6 : length (neigh_inet6 th) = length (th_ports th);
  to_tun : length (tun_fds th) = length (th_ports th);
  to_routes : routes_ok (length (th_ports th)) As;
  to_routes6 : routes_ok (length (th_ports th)) As6
}.

(** What a verdict does to a packet: [sent] is the packet with its hop count
    updated. *)
Definition performed (th : thread A) (i : Z) (pk : packet) (m sent : memory) (v : verdict) (r : option outcome) : Prop :=
  match v with
  | Drop => r = Some (-1, m, [])
  | Local => exists fd, load (tun_fds th) i = Some fd /\
      r = Some (-1, m, [(fd, copy_bytes (at_addr m (slot_buf pk)) (Z.to_nat (slot_size pk)))])
  | Send out mac => exists p, load (th_ports th) out = Some p /\
      r = Some (out, write_bytes (write_bytes sent (slot_buf pk) mac) (slot_buf pk + 6) (mac_addr p), [])
  end.

Lemma local_ok th i pk m sent :
  length (tun_fds th) = length (th_ports th) -> 0 <= i < Z.of_nat (length (th_ports th)) ->
  performed th i pk m sent Local (packet_local th i pk m).
Proof.
  intros Hl Hi. unfold performed, packet_local, write_tun.
  destruct (load_some (tun_fds th) i) as [fd E]; [lia|]. exists fd. split; [done|]. by rewrite E.
Qed.

Lemma rewrite_ok th i m pk mac out sent :
  0 <= out < Z.of_nat (length (th_ports th)) ->
  performed th i pk m sent (Send out mac) (m' ← rewrite_eth th sent pk mac out; Some (out, m', [])).
Proof.
  intros Ho. unfold performed, rewrite_eth, ixmap_macaddr.
  destruct (load_some (th_ports th) out Ho) as [p E]. exists p. split; [done|]. rewrite E. opt.
  unfold off_h_dest, off_h_source. by rewrite Z.add_0_r.
Qed.

(** The part the two handlers share. *)
Lemma route_packet th i pk m sent v6 f w L0 As neigh Ns hops dst :
  fib_ok w f L0 As -> Forall2 (neigh_holds v6) neigh Ns -> length neigh = length (th_ports th) ->
  length (tun_fds th) = length (th_ports th) -> routes_ok (length (th_ports th)) As ->
  0 <= i < Z.of_nat (length (th_ports th)) -> view_ok dst ->
  performed th i pk m sent (ip_verdict (key_len v6) As Ns hops dst)
    (r ← fib_lookup f dst;
     match r with
     | None => packet_drop m
     | Some fe =>
       e ← fw_ents w !! fe;
       let out := fe_port_index (fe_data e) in
       if out <? 0 then packet_local th i pk m
       else
         n ← resolve neigh e dst;
         match n with
         | None => packet_local th i pk m
         | Some dst_mac =>
           if hops =? 1 then packet_local th i pk m
           else m' ← rewrite_eth th sent pk dst_mac out; Some (out, m', [])
         end
     end).
Proof.
  intros Hf Hn Hl Htun Hro Hi Hd. unfold ip_verdict. pose proof (fib_ok_lookup f w L0 As dst Hf Hd) as Hlk.
  destruct (best_frec As dst) as [a|] eqn:Eb; [|by rewrite Hlk].
  destruct Hlk as (p & e & -> & Ee & Hdata & _). opt. rewrite Ee. opt. rewrite Hdata.
  destruct (Z.ltb_spec (fe_port_index (fr_data a)) 0); [by apply local_ok|].
  destruct (Forall_forall (fun a => fe_port_index (fr_data a) < Z.of_nat (length (th_ports th)) /\
    Forall is_byte (fe_nexthop (fr_data a))) As) as [Hall _].
  destruct (Hall Hro a (best_frec_in _ _ _ Eb)) as [Hpi Hnh].
  rewrite (resolve_ok v6 neigh Ns e dst Hn) by (rewrite ?Hdata, ?Hl; done || lia). opt. rewrite Hdata.
  destruct (match fe_type (fr_data a) with FIB_TYPE_FORWARD => _ | FIB_TYPE_LINK => _ | FIB_TYPE_LOCAL => _ end)
    as [mac|]; [|by apply local_ok].
  destruct (hops =? 1); [by apply local_ok|]. apply rewrite_ok. lia.
Qed.

End Decision.

(** C6: [forward_ip_process] decides by the longest route and the neighbours of
    its port: no route drops the packet; a route without a port of ours, a local
    one, an unknown neighbour or a TTL of one hands it to the kernel unchanged;
    otherwise it leaves by the port of the route with the neighbour's and the
    port's addresses and its TTL decremented. *)
Theorem forward_ip_decides {A} `{AllocatorSpec A} (th : thread A) As As6 Ns Ns6 i pk m :
  thread_ok th As As6 Ns Ns6 -> 0 <= i < Z.of_nat (length (th_ports th)) -> mem_ok m ->
  performed th i pk m (ip_decrease_ttl m (slot_buf pk))
    (ip_verdict 4 As Ns (m (slot_buf pk + off_ttl)) (at_addr m (slot_buf pk + off_daddr)))
    (forward_ip_process th i pk m).
Proof.
  intros [[L0 Hf] _ Hn _ Hl _ Ht Hr _] Hi Hm.
  apply (route_packet th i pk m _ false _ _ L0 As (neigh_inet th)); try done. by apply at_addr_ok.
Qed.

(** C32: [forward_ip6_process] decides likewise by the IPv6 tables, except that
    link-local destinations always go to the kernel. *)
Theorem forward_ip6_decides {A} `{AllocatorSpec A} (th : thread A) As As6 Ns Ns6 i pk m :
  thread_ok th As As6 Ns Ns6 -> 0 <= i < Z.of_nat (length (th_ports th)) -> mem_ok m ->
  let dst := at_addr m (slot_buf pk + off_ip6_dst) in
  let hlim := m (slot_buf pk + off_hlim) in
  performed th i pk m (store8 m (slot_buf pk + off_hlim) (u8 (hlim - 1)))
    (if in6_is_addr_linklocal dst then Local else ip_verdict 16 As6 Ns6 hlim dst)
    (forward_ip6_process th i pk m).
Proof.
  intros [_ [L0 Hf] _ Hn _ Hl Ht _ Hr] Hi Hm dst hlim. unfold forward_ip6_process. fold dst hlim.
  destruct (in6_is_addr_linklocal dst); [by apply local_ok|].
  apply (route_packet th i pk m _ true _ _ L0 As6 (neigh_inet6 th)); try done. by apply at_addr_ok.
Qed.

(** ** A concrete thread *)

(** No routes yet; two ports, as [demo_plane]. *)
Definition demo_thread : thread quota :=
  Thread [demo_port 0; demo_port 3] demo_buf
    [(demo_neigh, demo_nworld1); (demo_neigh, demo_nworld1)]
    [(NeighTable 4096 true hash_init, demo_nworld1); (NeighTable 4096 true hash_init, demo_nworld1)]
    (quota_fib 9) (quota_fib 9) [5; 6].

Lemma demo_neigh6_rep : neigh_rep (NeighTable 4096 true hash_init) demo_nworld1 ∅ ∅.
Proof.
  assert (quota_inv (nw_mem demo_nworld) ∅) as Hi by (split_and!; [done|by intros|by intros]).
  destruct (neigh_alloc_rep AF_INET6 demo_nworld ∅ true) as (r & w' & E & Hr).
  - right. left.
  - exists ∅. split; [exact Hi|apply dom_empty_L].
  - done.
  - unfold neigh_alloc, nw_alloc in E. cbn [al_alloc quota_allocator demo_nworld nw_mem q_left] in E. cbn in E.
    injection E as <- <-. destruct Hr as [_ Hr]. exact Hr.
Qed.

Lemma demo_thread_ok : thread_ok demo_thread [] [] [∅; ∅] [∅; ∅].
Proof.
  pose proof demo_neigh_rep. pose proof demo_neigh6_rep.
  assert (exists L0, fib_ok (quota_fib 9).2 (quota_fib 9).1 L0 []) as Hf by (exists ∅; apply quota_fib_ok).
  assert (neigh_holds false (demo_neigh, demo_nworld1) ∅) by (split; [reflexivity|eexists; eassumption]).
  assert (neigh_holds true (NeighTable 4096 true hash_init, demo_nworld1) ∅)
    by (split; [reflexivity|eexists; eassumption]).
  split; [exact Hf|exact Hf|repeat (constructor; [assumption|]); constructor
    |repeat (constructor; [assumption|]); constructor|reflexivity|reflexivity|reflexivity|constructor|constructor].
Qed.

Lemma forward_ip_decides_witness :
  forward_ip_process demo_thread 0 (Packet 0 34 0) (mem_of (demo_frame 64 0xae 0xd7)) =
    Some (-1, mem_of (demo_frame 64 0xae 0xd7), []).
Proof.
  apply (forward_ip_decides demo_thread [] [] [∅; ∅] [∅; ∅] 0 (Packet 0 34 0)
           (mem_of (demo_frame 64 0xae 0xd7)) demo_thread_ok).
  - cbn. lia.
  - apply demo_frame_ok; unfold is_byte; lia.
Defined.

Lemma forward_ip6_decides_witness :
  forward_ip6_process demo_thread 1 (Packet 0 34 0) (mem_of (demo_frame 64 0xae 0xd7)) =
    Some (-1, mem_of (demo_frame 64 0xae 0xd7), []).
Proof.
  pose proof (forward_ip6_decides demo_thread [] [] [∅; ∅] [∅; ∅] 1 (Packet 0 34 0)
           (mem_of (demo_frame 64 0xae 0xd7)) demo_thread_ok) as H.
  assert (in6_is_addr_linklocal (at_addr (mem_of (demo_frame 64 0xae 0xd7))
            (slot_buf (Packet 0 34 0) + off_ip6_dst)) = false) as E
    by (vm_compute; reflexivity).
  cbn zeta in H. rewrite E in H. apply H; [cbn; lia|]. apply demo_frame_ok; unfold is_byte; lia.
Defined.

(** The same with a route to 192.0.0.0/16 on port 1 and a neighbour there. *)
Definition net_192 : view := view_of [192; 0; 0; 0].

Lemma net_192_ok : view_ok net_192.
Proof. apply host_ok. unfold is_byte. repeat (apply Forall_cons; split; [lia|]). constructor. Qed.

Definition add_192 (f : fib) (w : fib_world quota) : option (Z * fib * fib_world quota) :=
  fib_route_update f AF_INET FIB_TYPE_LINK net_192 16 gw 1 7 w.

Definition route_192 : frec := Frec net_192 16 7 (new_data AF_INET FIB_TYPE_LINK net_192 gw 1).

(** Return code and tables of a FIB operation. *)
Definition ret_of (o : option (Z * fib * fib_world quota)) : option Z :=
  match o with Some (r, _, _) => Some r | None => None end.
Definition fib_of (o : option (Z * fib * fib_world quota)) (d : fib * fib_world quota) : fib * fib_world quota :=
  match o with Some (_, f, w) => (f, w) | None => d end.

Lemma add_192_ok f w d :
  fib_ok w f ∅ [] -> ret_of (add_192 f w) = Some 0 ->
  fib_ok (fib_of (add_192 f w) d).2 (fib_of (add_192 f w) d).1 ∅ [route_192].
Proof.
  intros Hok Hret.
  destruct (fib_step_ok (FUpdate AF_INET FIB_TYPE_LINK net_192 16 gw 1 7) f w ∅ [] Hok)
    as [(f' & w' & E & Hok')|(_ & _ & Hno)].
  - split; [by eexists|]. split; [apply net_192_ok|lia].
  - cbn [fib_step] in E. unfold add_192. rewrite E. exact Hok'.
  - cbn [fib_step] in Hno. unfold add_192 in Hret.
    destruct (fib_route_update f AF_INET FIB_TYPE_LINK net_192 16 gw 1 7 w) as [[[r f1] w1]|]; [|done].
    injection Hret as ->. by destruct (Hno f1 w1).
Qed.

Definition routed_fib : fib * fib_world quota := fib_of (add_192 (quota_fib 9).1 (quota_fib 9).2) (quota_fib 9).

Lemma routed_fib_ret : ret_of (add_192 (quota_fib 9).1 (quota_fib 9).2) = Some 0.
Proof. vm_compute. reflexivity. Qed.

Lemma routed_fib_ok : fib_ok routed_fib.2 routed_fib.1 ∅ [route_192].
Proof. exact (add_192_ok (quota_fib 9).1 (quota_fib 9).2 (quota_fib 9) (quota_fib_ok 9) routed_fib_ret). Qed.

Definition known_neigh : neigh_table * neigh_world quota :=
  match neigh_add demo_neigh AF_INET host_1 mac_a demo_nworld1 with
  | Some (_, t, w) => (t, w)
  | None => (demo_neigh, demo_nworld1)
  end.

Definition host_1_map : gmap (list Z) (list Z) := <[[192; 0; 2; 1] := [2; 0; 0; 0; 0; 10]]> ∅.

Lemma known_neigh_holds : neigh_holds false known_neigh host_1_map.
Proof.
  assert (view_ok host_1) as Hh by (apply host_ok; unfold is_byte; repeat (apply Forall_cons; split; [lia|]); constructor).
  destruct (neigh_add_ok demo_neigh demo_nworld1 ∅ ∅ AF_INET host_1 mac_a demo_neigh_rep Hh eq_refl)
    as (ret & t & w & Hrun & Hv & [(-> & _ & Hr)|(_ & _ & [[x Hx]|[m Hm]])]).
  - unfold known_neigh. rewrite Hrun. split; [exact Hv|]. exists ∅. exact Hr.
  - discriminate Hx.
  - discriminate Hm.
Qed.

Definition routed_thread : thread quota :=
  Thread [demo_port 0; demo_port 3] demo_buf [(demo_neigh, demo_nworld1); known_neigh]
    [(NeighTable 4096 true hash_init, demo_nworld1); (NeighTable 4096 true hash_init, demo_nworld1)]
    routed_fib (quota_fib 9) [5; 6].

Lemma routed_thread_ok : thread_ok routed_thread [route_192] [] [∅; host_1_map] [∅; ∅].
Proof.
  pose proof demo_neigh_rep. pose proof demo_neigh6_rep. pose proof known_neigh_holds.
  assert (exists L0, fib_ok (quota_fib 9).2 (quota_fib 9).1 L0 []) as Hf by (exists ∅; apply quota_fib_ok).
  assert (neigh_holds false (demo_neigh, demo_nworld1) ∅) by (split; [reflexivity|eexists; eassumption]).
  assert (neigh_holds true (NeighTable 4096 true hash_init, demo_nworld1) ∅)
    by (split; [reflexivity|eexists; eassumption]).
  unfold routed_thread. split; cbn [fib_inet fib_inet6 neigh_inet neigh_inet6 th_ports tun_fds];
    [exists ∅; exact routed_fib_ok|exact Hf|repeat (constructor; [assumption|]); constructor
    |repeat (constructor; [assumption|]); constructor|reflexivity|reflexivity|reflexivity| |constructor].
  clear. constructor; [|constructor]. split; [change (1 < 2); lia|]. apply copy_ok. apply bytes_ok.
  unfold is_byte. repeat (apply Forall_cons; split; [lia|]). constructor.
Qed.

(** A packet that arrives with TTL zero is forwarded, with TTL 255: only a
    TTL of one is tested for. *)
Theorem forward_ttl_zero_wraps {A} `{AllocatorSpec A} (th : thread A) As As6 Ns Ns6 i pk m out mac p :
  thread_ok th As As6 Ns Ns6 -> 0 <= i < Z.of_nat (length (th_ports th)) -> mem_ok m ->
  m (slot_buf pk + off_ttl) = 0 ->
  ip_verdict 4 As Ns 0 (at_addr m (slot_buf pk + off_daddr)) = Send out mac ->
  load (th_ports th) out = Some p -> length mac = 6%nat -> length (mac_addr p) = 6%nat ->
  exists m', forward_ip_process th i pk m = Some (out, m', []) /\ m' (slot_buf pk + off_ttl) = 255.
Proof.
  intros Hok Hi Hm Ht Hv Hp Hl1 Hl2. destruct Hok as [[L0 Hf] _ Hn _ Hl _ Htun Hr _].
  assert (performed th i pk m (ip_decrease_ttl m (slot_buf pk)) (Send out mac) (forward_ip_process th i pk m)) as Hd.
  { rewrite <- Hv, <- Ht. apply (route_packet th i pk m _ false _ _ L0 As (neigh_inet th)); try done.
    by apply at_addr_ok. }
  destruct Hd as (p' & Ep & ->). rewrite Hp in Ep. injection Ep as <-. eexists. split; [done|].
  rewrite !write_bytes_out by (rewrite ?Hl1, ?Hl2; unfold off_ttl, sizeof_ethhdr; lia).
  destruct (ip_decrease_ttl_bytes m (slot_buf pk) Hm) as (-> & _). by rewrite Ht.
Qed.

Lemma forward_ttl_zero_wraps_witness :
  exists m', forward_ip_process routed_thread 0 (Packet 0 34 0) (mem_of (demo_frame 0 0xee 0xd7)) = Some (1, m', []) /\
    m' 22 = 255.
Proof.
  apply (forward_ttl_zero_wraps routed_thread [route_192] [] [∅; host_1_map] [∅; ∅] 0 (Packet 0 34 0)
           (mem_of (demo_frame 0 0xee 0xd7)) 1 [2; 0; 0; 0; 0; 10] (demo_port 3) routed_thread_ok).
  - cbn. lia.
  - apply demo_frame_ok; unfold is_byte; lia.
  - reflexivity.
  - vm_compute. reflexivity.
  - reflexivity.
  - reflexivity.
  - reflexivity.
Defined.

(** C33: the slot of a packet that was queued for sending is freed at once.  When
    a handler chose an output port and the packet was queued there,
    [forward_process] still reaches its [packet_drop] label: the slot is in the
    transmit ring and no longer marked in flight, so the next refill of a receive
    ring may give its buffer to the card a second time. *)
Theorem forward_frees_queued_slot {A} `{Allocator A} (th : thread A) i pk m out m1 wr p base :
  forward_one th i pk m = Some (out, m1, wr) -> 0 <= out -> load (th_ports th) out = Some p ->
  wf_ring (num_tx_desc p) (tx_ring p) -> load (addr_dma (th_buf th)) out = Some base ->
  0 <= pk_slot_index pk < Z.of_nat (length (slots (th_buf th))) ->
  used (num_tx_desc p) (tx_ring p) < num_tx_desc p - 1 -> slot_size pk <= IXGBE_MAX_DATA_PER_TXD ->
  exists th' p', forward_process th i [pk] m = Some (th', m1, wr) /\
    load (th_ports th') out = Some p' /\ pk_slot_index pk ∈ tx_queue p' /\
    inflight (th_buf th') (pk_slot_index pk) = false.
Proof.
  intros Hone Hout Hp Hwf Hdma Hs Hu Hz. cbn [forward_process]. rewrite Hone. opt.
  rewrite (proj2 (Z.ltb_ge out 0)) by done. unfold thread_tx_assign. rewrite Hp. opt.
  destruct (tx_assign_ok out base pk p (th_buf th) Hwf Hdma Hs) as (p' & b' & -> & Hw & _ & (_ & _ & Hn & _) & _ & _ & Hc).
  opt. destruct Hc as [(_ & _ & -> & _ & Hq)|([Hc|Hc] & _)]; [|lia|lia].
  unfold thread_release. cbn [th_buf set_port]. destruct (release_spec (th_buf th) (pk_slot_index pk) Hs) as (b1 & -> & _ & Hfl).
  opt. eexists _, p'. split; [by rewrite app_nil_r|]. cbn [th_ports th_buf set_port]. pose proof (load_range _ _ _ Hp).
  split; [|split].
  - rewrite load_lookup by lia. apply list_lookup_insert_eq. lia.
  - unfold tx_queue. rewrite Hn, Hq, fmap_app. apply elem_of_app. right. left.
  - rewrite Hfl, bool_decide_eq_true_2 by done. by rewrite andb_false_r.
Qed.

(** Port and writes of an outcome. *)
Definition sent_by (o : option outcome) : option (Z * list tun_write) :=
  match o with Some (out, _, wr) => Some (out, wr) | None => None end.

Lemma sent_by_some o out wr : sent_by o = Some (out, wr) -> exists m, o = Some (out, m, wr).
Proof. destruct o as [[[x m] y]|]; [|done]. cbn. intros [= -> ->]. by exists m. Qed.

Lemma routed_one :
  sent_by (forward_one routed_thread 0 (Packet 0 34 0) (mem_of (demo_frame 64 0xae 0xd7))) = Some (1, []).
Proof. vm_compute. reflexivity. Qed.

Lemma forward_frees_queued_slot_witness :
  exists th' p' m1, forward_process routed_thread 0 [Packet 0 34 0] (mem_of (demo_frame 64 0xae 0xd7)) =
      Some (th', m1, []) /\ load (th_ports th') 1 = Some p' /\ 0 ∈ tx_queue p' /\ inflight (th_buf th') 0 = false.
Proof.
  destruct (sent_by_some _ _ _ routed_one) as (m1 & E).
  assert (wf_ring 4 demo_ring) as Hwf by (split; cbn; lia).
  destruct (forward_frees_queued_slot routed_thread 0 (Packet 0 34 0) (mem_of (demo_frame 64 0xae 0xd7)) 1 m1 []
              (demo_port 3) 0x90000 E ltac:(lia) eq_refl Hwf eq_refl ltac:(cbn; lia) eq_refl ltac:(by vm_compute))
    as (th' & p' & H).
  exists th', p', m1. exact H.
Defined.
