(* ===== verification/Tables.v ===== *)
(** * The tables of a thread in one memory

    A thread keeps its two FIBs and the neighbour tables of its ports in the
    memory of one allocator (src/src/thread.c, src/src/thread.h).  [Fib.v] and
    [Neigh.v] treat a table together with the allocator and leave open what else
    is allocated.  Here the allocator is shared: a table is the part of it that
    does not depend on memory ([fib_part], [neigh_part]) together with the
    addresses it owns, and what one table does leaves the others as they are. *)

From stdpp Require Import prelude fin_maps gmap list.
From S2P Require Import Prelude Alloc Lpm LpmFacts LpmAcct LpmAdd LpmTable Fib FibFacts FibProps Hash Neigh NeighProps.

(** ** Owners of memory *)

(** Sets of addresses without overlap. *)
Fixpoint apart (Xs : list (gset Z)) : Prop :=
  match Xs with
  | [] => True
  | X :: Xs => X ## ⋃ Xs /\ apart Xs
  end.

Lemma union_list_perm (Xs Ys : list (gset Z)) : Xs ≡ₚ Ys -> ⋃ Xs = ⋃ Ys.
Proof. induction 1; cbn; set_solver. Qed.

Lemma apart_perm Xs Ys : Xs ≡ₚ Ys -> apart Xs -> apart Ys.
Proof.
  induction 1 as [|X Xs Ys HP IH|X Y Xs|Xs Ys Zs _ IH1 _ IH2]; cbn; [done| | |by auto].
  - rewrite (union_list_perm _ _ HP). naive_solver.
  - set_solver.
Qed.

#[export] Instance apart_proper : Proper ((≡ₚ) ==> iff) apart.
Proof. intros Xs Ys E. split; by apply apart_perm. Qed.

(** A goal about the sets [X] and [Y], from the hypotheses about them. *)
Ltac pure_sets X Y :=
  repeat match goal with
    | Hx : _ |- _ => lazymatch type of Hx with
        | _ ## _ => revert Hx | _ ∉ _ => revert Hx | _ => fail end end;
  generalize X; generalize Y; clear; intros; set_solver.

Section Parts.

Context {A : Type} `{AllocatorSpec A}.

(** All live memory has exactly one of these owners. *)
Definition owned_by (a : A) (Xs : list (gset Z)) : Prop :=
  exists C, al_inv a C /\ dom C = ⋃ Xs /\ apart Xs.

#[export] Instance owned_by_proper a : Proper ((≡ₚ) ==> iff) (owned_by a).
Proof.
  intros Xs Ys E. unfold owned_by. split; intros (C & Ha & Hd & Hp); exists C; split_and!; try done.
  - by rewrite <- (union_list_perm _ _ E).
  - by rewrite <- E.
  - by rewrite (union_list_perm _ _ E).
  - by rewrite E.
Qed.

Lemma owned_by_merge a X Y Xs : owned_by a (X :: Y :: Xs) -> owned_by a (X ∪ Y :: Xs).
Proof.
  intros (C & Ha & Hd & Hp). exists C. cbn in *. split_and!; [done|set_solver| |tauto]. set_solver.
Qed.

Lemma owned_by_split a X Y Xs : X ## Y -> owned_by a (X ∪ Y :: Xs) -> owned_by a (X :: Y :: Xs).
Proof.
  intros Hd (C & Ha & HC & Hp). exists C. cbn in *. split_and!; [done|set_solver|set_solver|set_solver|tauto].
Qed.

(** ** The parts of a FIB *)

Definition fib_own (x : fib * gmap Z fib_entry) : gset Z :=
  {[fib_addr x.1]} ∪ addrs (flat_map fp (fib_table x.1)) ∪ dom x.2.

Definition fib_part (x : fib * gmap Z fib_entry) (As : list frec) : Prop :=
  let l := flat_map fp (fib_table x.1) in
  exists FL, As = strip <$> FL /\ lpm_tbl (fib_table x.1) FL.*1 /\ NoDup (item_addr <$> l) /\
    (forall a p, IEnt a p ∈ l -> is_Some (cat_of FL.*1 !! p)) /\
    objs (cat_of FL.*1) l = obj_of <$> x.2 /\
    (forall p e, x.2 !! p = Some e -> data_map FL !! p = Some (fe_data e)) /\
    fib_addr x.1 ∉ addrs l /\ ({[fib_addr x.1]} ∪ addrs l) ## dom x.2.

Lemma fib_ok_parts a f E L As :
  fib_ok (FibWorld a E) f L As <->
  fib_part (f, E) As /\ exists C, al_inv a C /\ dom C = fib_own (f, E) ∪ L /\ fib_own (f, E) ## L.
Proof.
  unfold fib_own, fib_part. cbn [fst snd]. set (l := flat_map fp (fib_table f)). split.
  - intros (FL & (Hfa & Ht & [(C & Ha & Hd & Hdis & HO & HD) Hn Hf Hc]) & HAs). cbn [fw_mem fw_ents] in *.
    fold l in Hd, Hdis, HO, Hn, Hf, Hc. split.
    + exists FL. split; [exact HAs|]. split; [exact Ht|]. split; [exact Hn|]. split; [exact Hc|]. split; [exact HO|].
      split; [exact HD|]. pure_sets (addrs l) (dom E).
    + exists C. split; [exact Ha|]. rewrite Hd. pure_sets (addrs l) (dom E).
  - intros ((FL & HAs & Ht & Hn & Hc & HO & HD & Hfa & Hdis) & C & Ha & Hd & Hap). exists FL. split; [|exact HAs].
    split; [pure_sets (addrs l) (dom E)|]. split; [exact Ht|]. fold l. split; [|exact Hn| |exact Hc].
    + exists C. cbn [fw_mem fw_ents]. split; [exact Ha|]. split; [rewrite Hd; pure_sets (addrs l) (dom E)|].
      split; [pure_sets (addrs l) (dom E)|]. split; [exact HO|exact HD].
    + pure_sets (addrs l) (dom E).
Qed.

(** ** The parts of a neighbour table *)

Definition neigh_own (x : neigh_table * gmap Z neigh_entry) : gset Z := {[nt_addr x.1]} ∪ dom x.2.

Definition neigh_part (x : neigh_table * gmap Z neigh_entry) (N : gmap (list Z) (list Z)) : Prop :=
  nt_addr x.1 ∉ dom x.2 /\
  exists D M, hash_rep (H1 := neigh_hash_spec (nt_v6 x.1) ∅ D) (nt_heads x.1) M /\
    (forall p e, x.2 !! p = Some e ->
      ne_key e = p + offset_dst_addr /\ length (dst_addr e) = key_len (nt_v6 x.1) /\
      Forall is_byte (dst_addr e) /\ D !! p = Some (dst_mac e)) /\
    (forall k p, M !! k = Some p <-> (dst_addr <$> x.2) !! p = Some k) /\
    (forall k, N !! k = M !! k ≫= fun p => D !! p).

(** Only the hash function of the interface matters to the chains. *)
Lemma hash_rep_any v6 L D L' D' t M :
  hash_rep (W := neigh_world A) (H1 := neigh_hash_spec v6 L D) t M -> hash_rep (W := neigh_world A) (H1 := neigh_hash_spec v6 L' D') t M.
Proof. by intros [Hl Hn Hi]. Qed.

Lemma neigh_rep_parts a t E L N :
  neigh_rep t (NeighWorld a E) L N <->
  neigh_part (t, E) N /\ exists C, al_inv a C /\ dom C = neigh_own (t, E) ∪ L /\ neigh_own (t, E) ## L.
Proof.
  unfold neigh_own, neigh_part. cbn [fst snd]. split.
  - intros (Ha & D & E' & M & Hr & ((C & Hal & Hd) & Hdis & -> & He) & Hex & HN). cbn [nw_mem nw_ents] in *. split.
    + split; [set_solver|]. exists D, M. split_and!; try done. by eapply hash_rep_any.
    + exists C. split_and!; [done| |]; set_solver.
  - intros ((Ha & D & M & Hr & He & Hex & HN) & C & Hal & Hd & Hap). split; [set_solver|].
    exists D, (dst_addr <$> E), M. split_and!; try done; [by eapply hash_rep_any|].
    split; cbn [nw_mem nw_ents]; [|split; [|done]].
    + exists C. split; [done|]. set_solver.
    + set_solver.
Qed.

(** ** A table among other owners *)

Lemma fib_ok_owned a f E Xs As :
  fib_ok (FibWorld a E) f (⋃ Xs) As -> apart Xs -> fib_part (f, E) As /\ owned_by a (fib_own (f, E) :: Xs).
Proof.
  intros (Hp & C & Ha & Hd & Hdis)%fib_ok_parts Hap. split; [done|]. exists C. by split_and!.
Qed.

Lemma owned_fib_ok a f E Xs As :
  fib_part (f, E) As -> owned_by a (fib_own (f, E) :: Xs) -> fib_ok (FibWorld a E) f (⋃ Xs) As.
Proof. intros Hp (C & Ha & Hd & Hdis & _). apply fib_ok_parts. split; [done|]. by exists C. Qed.

Lemma neigh_rep_owned a t E Xs N :
  neigh_rep t (NeighWorld a E) (⋃ Xs) N -> apart Xs -> neigh_part (t, E) N /\ owned_by a (neigh_own (t, E) :: Xs).
Proof.
  intros (Hp & C & Ha & Hd & Hdis)%neigh_rep_parts Hap. split; [done|]. exists C. by split_and!.
Qed.

Lemma owned_neigh_rep a t E Xs N :
  neigh_part (t, E) N -> owned_by a (neigh_own (t, E) :: Xs) -> neigh_rep t (NeighWorld a E) (⋃ Xs) N.
Proof. intros Hp (C & Ha & Hd & Hdis & _). apply neigh_rep_parts. split; [done|]. by exists C. Qed.

Lemma owned_apart a Xs : owned_by a Xs -> apart Xs.
Proof. by intros (C & _ & _ & ?). Qed.

End Parts.
