(* ===== verification/Netlink.v ===== *)
(** * Netlink messages (src/src/netlink.c)

    The kernel's notifications about routes and neighbours, parsed from the bytes
    a thread has read and applied to its tables.  The macros of the system's
    headers that walk over messages and attributes are written out.  [None] is
    undefined behaviour: an attribute longer than the array it is copied to, or
    what the tables leave undefined. *)

From stdpp Require Import prelude fin_maps gmap list.
From S2P Require Import Prelude Alloc Lpm Fib Hash Neigh Forward.

Definition RTM_NEWROUTE : Z := 24.
Definition RTM_DELROUTE : Z := 25.
Definition RTM_NEWNEIGH : Z := 28.
Definition RTM_DELNEIGH : Z := 29.
Definition RTA_DST : Z := 1.
Definition RTA_OIF : Z := 4.
Definition RTA_GATEWAY : Z := 5.
Definition NDA_DST : Z := 1.
Definition NDA_LLADDR : Z := 2.
Definition RT_TABLE_LOCAL : Z := 255.

(** ** Layout: [struct nlmsghdr], [struct rtmsg], [struct ndmsg], [struct rtattr] *)

Definition sizeof_nlmsghdr : Z := 16.
Definition sizeof_rtmsg : Z := 12.
Definition sizeof_rtattr : Z := 4.

Definition get32 (m : memory) (a : Z) : Z := load32 (at_addr m a) 0.

Definition nlmsg_len (m : memory) (nlh : Z) : Z := get32 m nlh.
Definition nlmsg_type (m : memory) (nlh : Z) : Z := load16 m (nlh + 4).
Definition NLMSG_DATA (nlh : Z) : Z := nlh + sizeof_nlmsghdr.
Definition rtm_family (m : memory) (r : Z) : Z := m r.
Definition rtm_dst_len (m : memory) (r : Z) : Z := m (r + 1).
Definition rtm_table (m : memory) (r : Z) : Z := m (r + 4).
Definition ndm_family (m : memory) (r : Z) : Z := m r.
Definition ndm_ifindex (m : memory) (r : Z) : Z := s32 (get32 m (r + 4)).
Definition rta_len (m : memory) (rta : Z) : Z := load16 m rta.
Definition rta_type (m : memory) (rta : Z) : Z := load16 m (rta + 2).

(** [NLMSG_ALIGN] and [RTA_ALIGN]. *)
Definition align4 (n : Z) : Z := Z.land (n + 3) (Z.lnot 3).

Definition NLMSG_OK (m : memory) (nlh len : Z) : bool :=
  (sizeof_nlmsghdr <=? len) && (sizeof_nlmsghdr <=? nlmsg_len m nlh) && (nlmsg_len m nlh <=? u32 len).

Definition RTA_OK (m : memory) (rta len : Z) : bool :=
  (sizeof_rtattr <=? len) && (sizeof_rtattr <=? rta_len m rta) && (rta_len m rta <=? len).

Definition RTM_RTA (r : Z) : Z := r + align4 sizeof_rtmsg.
Definition RTM_PAYLOAD (m : memory) (nlh : Z) : Z :=
  s32 (nlmsg_len m nlh - align4 (sizeof_nlmsghdr + sizeof_rtmsg)).

(** [memcpy] of [n] bytes to the beginning of the array [l]. *)
Definition copy_into (l : list Z) (src : view) (n : Z) : option (list Z) :=
  if Z.of_nat (length l) <? n then None
  else Some (copy_bytes src (Z.to_nat n) ++ drop (Z.to_nat n) l).

(** The loop over attributes: [step] is given the type, where the data is and
    how long it is. *)
Fixpoint rta_loop {S} (fuel : nat) (m : memory) (step : Z -> Z -> Z -> S -> option S) (rta len : Z) (s : S)
  : option S :=
  if RTA_OK m rta len then
    match fuel with
    | O => None
    | Datatypes.S fuel =>
        s ← step (rta_type m rta) (rta + sizeof_rtattr) (rta_len m rta - sizeof_rtattr) s;
        rta_loop fuel m step (rta + align4 (rta_len m rta)) (len - align4 (rta_len m rta)) s
    end
  else Some s.

(** ** Routes *)

(** The local variables the attributes of a route set. *)
Record route_vars := RouteVars { rv_prefix : list Z; rv_nexthop : list Z; rv_ifindex : Z; rv_type : fib_type }.

Definition route_attr (m : memory) (type data payload : Z) (v : route_vars) : option route_vars :=
  if type =? RTA_DST then
    p ← copy_into (rv_prefix v) (at_addr m data) payload;
    Some (RouteVars p (rv_nexthop v) (rv_ifindex v) (rv_type v))
  else if type =? RTA_GATEWAY then
    n ← copy_into (rv_nexthop v) (at_addr m data) payload;
    Some (RouteVars (rv_prefix v) n (rv_ifindex v) FIB_TYPE_FORWARD)
  else if type =? RTA_OIF then
    Some (RouteVars (rv_prefix v) (rv_nexthop v) (s32 (get32 m data)) (rv_type v))
  else Some v.

(** The port whose TAP device has the index, or -1.  The comparison is one of
    unsigned numbers. *)
Fixpoint find_port (i : Z) (ports : list Z) (ifindex : Z) : Z :=
  match ports with
  | [] => -1
  | p :: ports => if p =? u32 ifindex then i else find_port (i + 1) ports ifindex
  end.

Section Netlink.

Context {A : Type} `{Allocator A}.

(** The tables of [struct ixmapfwd_thread], in the memory of one allocator; each
    with the objects it consists of. *)
Record tables := Tables {
  tb_mem : A;
  tb_fib : fib * gmap Z fib_entry;
  tb_fib6 : fib * gmap Z fib_entry;
  tb_neigh : list (neigh_table * gmap Z neigh_entry);
  tb_neigh6 : list (neigh_table * gmap Z neigh_entry)
}.

(** A call on the FIB or on a neighbour table of a family. *)
Definition with_fib (v6 : bool) (call : fib -> fib_world A -> option (Z * fib * fib_world A)) (tb : tables)
  : option tables :=
  let x := if v6 then tb_fib6 tb else tb_fib tb in
  '(_, f, w) ← call (fst x) (FibWorld (tb_mem tb) (snd x));
  let y := (f, fw_ents w) in
  Some (if v6 then Tables (fw_mem w) (tb_fib tb) y (tb_neigh tb) (tb_neigh6 tb)
        else Tables (fw_mem w) y (tb_fib6 tb) (tb_neigh tb) (tb_neigh6 tb)).

Definition with_neigh (v6 : bool) (port : Z)
    (call : neigh_table -> neigh_world A -> option (Z * neigh_table * neigh_world A)) (tb : tables)
  : option tables :=
  let l := if v6 then tb_neigh6 tb else tb_neigh tb in
  x ← load l port;
  '(_, t, w) ← call (fst x) (NeighWorld (tb_mem tb) (snd x));
  l' ← store l port (t, nw_ents w);
  Some (if v6 then Tables (nw_mem w) (tb_fib tb) (tb_fib6 tb) (tb_neigh tb) l'
        else Tables (nw_mem w) (tb_fib tb) (tb_fib6 tb) l' (tb_neigh6 tb)).

(** The [switch] on the family: [None] for [goto out]. *)
Definition family_v6 (family : Z) : option bool :=
  if family =? AF_INET then Some false else if family =? AF_INET6 then Some true else None.

Definition netlink_route (ports : list Z) (m : memory) (nlh : Z) (tb : tables) : option tables :=
  let route_entry := NLMSG_DATA nlh in
  let family := rtm_family m route_entry in
  let prefix_len := rtm_dst_len m route_entry in
  let len := RTM_PAYLOAD m nlh in
  v ← rta_loop (Z.to_nat len) m (route_attr m) (RTM_RTA route_entry) len
        (RouteVars (replicate 16 0) (replicate 16 0) (-1) FIB_TYPE_LINK);
  let type := if rtm_table m route_entry =? RT_TABLE_LOCAL then FIB_TYPE_LOCAL else rv_type v in
  let port_index := find_port 0 ports (rv_ifindex v) in
  match family_v6 family with
  | None => Some tb
  | Some v6 =>
      if nlmsg_type m nlh =? RTM_NEWROUTE then
        with_fib v6 (fun f w => fib_route_update f family type (view_of (rv_prefix v)) prefix_len
                                  (view_of (rv_nexthop v)) port_index (rv_ifindex v) w) tb
      else if nlmsg_type m nlh =? RTM_DELROUTE then
        with_fib v6 (fun f w => fib_route_delete f family (view_of (rv_prefix v)) prefix_len (rv_ifindex v) w) tb
      else Some tb
  end.

(** ** Neighbours *)

Record neigh_vars := NeighVars { nv_dst_addr : list Z; nv_dst_mac : list Z }.

Definition neigh_attr (m : memory) (type data payload : Z) (v : neigh_vars) : option neigh_vars :=
  if type =? NDA_DST then
    d ← copy_into (nv_dst_addr v) (at_addr m data) payload; Some (NeighVars d (nv_dst_mac v))
  else if type =? NDA_LLADDR then
    a ← copy_into (nv_dst_mac v) (at_addr m data) payload; Some (NeighVars (nv_dst_addr v) a)
  else Some v.

Definition netlink_neigh (ports : list Z) (m : memory) (nlh : Z) (tb : tables) : option tables :=
  let neigh_entry := NLMSG_DATA nlh in
  let family := ndm_family m neigh_entry in
  let port_index := find_port 0 ports (ndm_ifindex m neigh_entry) in
  if port_index <? 0 then Some tb
  else
    let len := RTM_PAYLOAD m nlh in
    v ← rta_loop (Z.to_nat len) m (neigh_attr m) (RTM_RTA neigh_entry) len
          (NeighVars (replicate 16 0) (replicate ETH_ALEN 0));
    match family_v6 family with
    | None => Some tb
    | Some v6 =>
        if nlmsg_type m nlh =? RTM_NEWNEIGH then
          with_neigh v6 port_index
            (fun t w => neigh_add t family (view_of (nv_dst_addr v)) (view_of (nv_dst_mac v)) w) tb
        else if nlmsg_type m nlh =? RTM_DELNEIGH then
          with_neigh v6 port_index (fun t w => neigh_delete t family (view_of (nv_dst_addr v)) w) tb
        else Some tb
    end.

(** ** The loop over messages *)

Definition netlink_one (ports : list Z) (m : memory) (nlh : Z) (tb : tables) : option tables :=
  let type := nlmsg_type m nlh in
  if (type =? RTM_NEWROUTE) || (type =? RTM_DELROUTE) then netlink_route ports m nlh tb
  else if (type =? RTM_NEWNEIGH) || (type =? RTM_DELNEIGH) then netlink_neigh ports m nlh tb
  else Some tb.

Fixpoint netlink_loop (fuel : nat) (ports : list Z) (m : memory) (nlh len : Z) (tb : tables) : option tables :=
  if NLMSG_OK m nlh len then
    match fuel with
    | O => None
    | S fuel =>
        tb ← netlink_one ports m nlh tb;
        netlink_loop fuel ports m (nlh + align4 (nlmsg_len m nlh)) (len - align4 (nlmsg_len m nlh)) tb
    end
  else Some tb.

Definition netlink_process (ports : list Z) (m : memory) (read_buf read_size : Z) (tb : tables) : option tables :=
  netlink_loop (Z.to_nat read_size) ports m read_buf read_size tb.

End Netlink.

Arguments tables : clear implicits.
