(* ===== verification/NetlinkWire.v ===== *)
(** * Netlink messages as bytes

    The encoding of messages and attributes that the kernel uses, and that the
    loops of [Netlink.v] read back exactly the attributes and messages that were
    encoded. *)

From stdpp Require Import prelude fin_maps gmap list.
From S2P Require Import Prelude Alloc Lpm Fib Hash Neigh Forward ForwardProps Netlink.

(** ** Bytes in memory *)

(** The bytes [l] are in memory from address [a] on. *)
Definition holds (m : memory) (a : Z) (l : list Z) : Prop :=
  forall i x, l !! i = Some x -> m (a + Z.of_nat i) = x.

Lemma holds_app m a l1 l2 : holds m a (l1 ++ l2) <-> holds m a l1 /\ holds m (a + Z.of_nat (length l1)) l2.
Proof.
  split.
  - intros H. split.
    + intros i x Hi. apply H. by apply lookup_app_l_Some.
    + intros i x Hi. rewrite <- Z.add_assoc, <- Nat2Z.inj_add. apply H.
      rewrite lookup_app_r by lia. by replace (length l1 + i - length l1)%nat with i by lia.
  - intros [H1 H2] i x [Hi|[Hl Hi]]%lookup_app_Some; [by apply H1|].
    replace (a + Z.of_nat i) with (a + Z.of_nat (length l1) + Z.of_nat (i - length l1)) by lia. by apply H2.
Qed.

Lemma holds_cons m a x l : holds m a (x :: l) <-> m a = x /\ holds m (a + 1) l.
Proof.
  change (x :: l) with ([x] ++ l). rewrite holds_app. cbn [length]. split; intros [H1 H2]; split; try done.
  - rewrite <- (H1 0%nat x eq_refl). f_equal. lia.
  - intros [|i] y E; cbn in E; [|done]. injection E as <-. rewrite <- H1. f_equal. lia.
Qed.

Lemma holds_copy m a l : holds m a l -> copy_bytes (at_addr m a) (length l) = l.
Proof.
  intros H. apply list_eq_same_length with (length l); [done|apply copy_length|]. intros i x y Hi Hx Hy.
  unfold copy_bytes in Hx. rewrite list_lookup_fmap, lookup_seq_lt in Hx by done. cbn in Hx.
  injection Hx as <-. by apply H.
Qed.

Definition le16 (x : Z) : list Z := [x mod 2 ^ 8; x / 2 ^ 8 mod 2 ^ 8].
Definition le32 (x : Z) : list Z := [x mod 2 ^ 8; x / 2 ^ 8 mod 2 ^ 8; x / 2 ^ 16 mod 2 ^ 8; x / 2 ^ 24 mod 2 ^ 8].

Lemma holds_le16 m a x : holds m a (le16 x) -> 0 <= x < 2 ^ 16 -> load16 m a = x.
Proof.
  unfold le16. rewrite !holds_cons. intros (H1 & H2 & _) Hx. unfold load16. rewrite H1, H2.
  Z.to_euclidean_division_equations. lia.
Qed.

Lemma holds_le32 m a x : holds m a (le32 x) -> 0 <= x < 2 ^ 32 -> get32 m a = x.
Proof.
  unfold le32. rewrite !holds_cons. intros (H1 & H2 & H3 & H4 & _) Hx. unfold get32, load32, at_addr. cbn [Nat.mul Nat.add].
  change (Z.of_nat 0) with 0. change (Z.of_nat 1) with 1. change (Z.of_nat 2) with 2. change (Z.of_nat 3) with 3.
  replace (a + 0) with a by lia. replace (a + 2) with (a + 1 + 1) by lia. replace (a + 3) with (a + 1 + 1 + 1) by lia.
  rewrite H1, H2, H3, H4. Z.to_euclidean_division_equations. lia.
Qed.

(** ** Encoding *)

Lemma align4_eq n : align4 n = (n + 3) / 4 * 4.
Proof.
  unfold align4. change 3 with (Z.ones 2) at 2. rewrite <- Z.ldiff_land, Z.ldiff_ones_r by lia.
  rewrite Z.shiftr_div_pow2, Z.shiftl_mul_pow2 by lia. done.
Qed.

Definition padding (n : Z) : list Z := replicate (Z.to_nat (align4 n - n)) 0.

Lemma align4_bounds n : n <= align4 n < n + 4.
Proof. rewrite align4_eq. pose proof (Z.div_mod (n + 3) 4). pose proof (Z.mod_pos_bound (n + 3) 4). lia. Qed.

Record attr := Attr { at_type : Z; at_data : list Z }.

Definition at_len (a : attr) : Z := Z.of_nat (length (at_data a)).

Definition attr_wf (a : attr) : Prop := 0 <= at_type a < 2 ^ 16 /\ 4 + at_len a < 2 ^ 16 /\ Forall is_byte (at_data a).

Definition encode_attr (a : attr) : list Z :=
  le16 (4 + at_len a) ++ le16 (at_type a) ++ at_data a ++ padding (4 + at_len a).

Lemma encode_attr_length a : Z.of_nat (length (encode_attr a)) = align4 (4 + at_len a).
Proof.
  unfold encode_attr, padding. rewrite !length_app, length_replicate. cbn [length le16].
  pose proof (align4_bounds (4 + at_len a)). unfold at_len in *. lia.
Qed.

Definition encode_attrs (l : list attr) : list Z := concat (encode_attr <$> l).

Lemma encode_attrs_cons a l : encode_attrs (a :: l) = encode_attr a ++ encode_attrs l.
Proof. done. Qed.

Section Attributes.

Context {S : Type} (m : memory) (step : Z -> Z -> Z -> S -> option S) (astep : attr -> S -> option S).
Context (ok : attr -> Prop).

(** [step] reads nothing but the data of the attribute. *)
Hypothesis step_astep : forall a d s, ok a -> holds m d (at_data a) ->
  step (at_type a) d (at_len a) s = astep a s.

Fixpoint attrs_run (l : list attr) (s : S) : option S :=
  match l with
  | [] => Some s
  | a :: l => s ← astep a s; attrs_run l s
  end.

(** The loop visits the attributes that were encoded, in order. *)
Lemma rta_loop_encoded l fuel rta s :
  Forall attr_wf l -> Forall ok l -> holds m rta (encode_attrs l) -> (length l <= fuel)%nat ->
  rta_loop fuel m step rta (Z.of_nat (length (encode_attrs l))) s = attrs_run l s.
Proof.
  revert fuel rta s. induction l as [|a l IH]; intros fuel rta s Hwf Hok Hh Hf; [by destruct fuel|].
  apply Forall_cons in Hwf as [Ha Hwf]. apply Forall_cons in Hok as [Hao Hok]. rewrite encode_attrs_cons, length_app, Nat2Z.inj_add, encode_attr_length in *.
  apply holds_app in Hh as [Hh Hrest]. rewrite encode_attr_length in Hrest.
  unfold encode_attr in Hh. rewrite !holds_app in Hh. destruct Hh as (Hlen & Hty & Hdata & _).
  change (Z.of_nat (length (le16 _))) with 2 in *. destruct Ha as (Ht & Hl & Hb).
  assert (0 <= at_len a) as Hpos by (unfold at_len; lia).
  apply holds_le16 in Hlen; [|lia]. apply holds_le16 in Hty; [|lia].
  destruct fuel as [|fuel]; [cbn in Hf; lia|]. cbn [rta_loop length] in *.
  pose proof (align4_bounds (4 + at_len a)). unfold RTA_OK, rta_len, rta_type, sizeof_rtattr.
  rewrite Hlen, Hty, !(proj2 (Z.leb_le _ _)) by lia. cbn [andb attrs_run].
  replace (4 + at_len a - 4) with (at_len a) by lia. replace (rta + 4) with (rta + 2 + 2) by lia.
  rewrite step_astep by done. destruct (astep a s) as [s'|]; [|done]. opt.
  replace (_ + _ - _) with (Z.of_nat (length (encode_attrs l))) by lia. apply IH; [done..|lia].
Qed.

End Attributes.

(** ** Messages *)

(** A notification: a route, a neighbour, or something else.  [u] is what the code
    does not look at: flags, sequence number and port of the header, and the other
    fields of [struct rtmsg] and [struct ndmsg], which may hold anything. *)
Inductive nlmsg :=
| RouteMsg (u : view) (new : bool) (family dst_len table : Z) (attrs : list attr)
| NeighMsg (u : view) (new : bool) (family ifindex : Z) (attrs : list attr)
| OtherMsg (u : view) (type : Z) (payload : list Z).

Definition ms_unread (g : nlmsg) : view :=
  match g with RouteMsg u _ _ _ _ _ => u | NeighMsg u _ _ _ _ => u | OtherMsg u _ _ => u end.

Definition ms_type (g : nlmsg) : Z :=
  match g with
  | RouteMsg _ new _ _ _ _ => if new then RTM_NEWROUTE else RTM_DELROUTE
  | NeighMsg _ new _ _ _ => if new then RTM_NEWNEIGH else RTM_DELNEIGH
  | OtherMsg _ type _ => type
  end.

(** [struct rtmsg] (with source length, type of service, protocol, scope, type
    and flags), [struct ndmsg] (with state, flags and type), or anything. *)
Definition ms_body (g : nlmsg) : list Z :=
  match g with
  | RouteMsg u _ family dst_len table _ =>
      [family; dst_len; u 10%nat; u 11%nat; table; u 12%nat; u 13%nat; u 14%nat; u 15%nat; u 16%nat; u 17%nat; u 18%nat]
  | NeighMsg u _ family ifindex _ =>
      [family; u 10%nat; u 11%nat; u 12%nat] ++ le32 (u32 ifindex) ++ [u 13%nat; u 14%nat; u 15%nat; u 16%nat]
  | OtherMsg _ _ payload => payload
  end.

Definition ms_attrs (g : nlmsg) : list attr :=
  match g with RouteMsg _ _ _ _ _ l => l | NeighMsg _ _ _ _ l => l | OtherMsg _ _ _ => [] end.

Definition ms_len (g : nlmsg) : Z := 16 + Z.of_nat (length (ms_body g)) + Z.of_nat (length (encode_attrs (ms_attrs g))).

Definition encode_msg (g : nlmsg) : list Z :=
  le32 (ms_len g) ++ le16 (ms_type g) ++ copy_bytes (ms_unread g) 10 ++ ms_body g ++ encode_attrs (ms_attrs g) ++
  padding (ms_len g).

Definition encode_msgs (l : list nlmsg) : list Z := concat (encode_msg <$> l).

Lemma align4_mult n : n mod 4 = 0 -> align4 n = n.
Proof. intros Hn. rewrite align4_eq. Z.to_euclidean_division_equations. lia. Qed.

Lemma align4_mod n : align4 n mod 4 = 0.
Proof. rewrite align4_eq. apply Z.mod_mul. lia. Qed.

Lemma encode_attrs_mod l : Z.of_nat (length (encode_attrs l)) mod 4 = 0.
Proof.
  induction l as [|a l IH]; [done|]. rewrite encode_attrs_cons, length_app, Nat2Z.inj_add, encode_attr_length.
  rewrite Z.add_mod, align4_mod, IH by lia. done.
Qed.

Lemma encode_msg_length g : Z.of_nat (length (encode_msg g)) = align4 (ms_len g).
Proof.
  unfold encode_msg, padding. rewrite !length_app, copy_length, length_replicate. cbn [length le32 le16].
  pose proof (align4_bounds (ms_len g)). unfold ms_len in *. lia.
Qed.

(** What a message in memory looks like to the code. *)
Lemma holds_msg m nlh g :
  holds m nlh (encode_msg g) -> ms_len g < 2 ^ 31 -> 0 <= ms_type g < 2 ^ 16 ->
  nlmsg_len m nlh = ms_len g /\ nlmsg_type m nlh = ms_type g /\ holds m (NLMSG_DATA nlh) (ms_body g) /\
  (length (ms_body g) = 12%nat -> holds m (RTM_RTA (NLMSG_DATA nlh)) (encode_attrs (ms_attrs g)) /\
     RTM_PAYLOAD m nlh = Z.of_nat (length (encode_attrs (ms_attrs g)))).
Proof.
  unfold encode_msg. rewrite !holds_app, copy_length. intros (H1 & H2 & _ & H3 & H4 & _) Hl Ht.
  cbn [length le32 le16] in *. assert (16 <= ms_len g) as Hpos by (unfold ms_len; lia).
  apply holds_le32 in H1; [|lia]. apply holds_le16 in H2; [|lia].
  assert (nlmsg_len m nlh = ms_len g) as E by done. split; [done|]. split; [done|].
  unfold RTM_RTA, NLMSG_DATA, sizeof_nlmsghdr, sizeof_rtmsg. change (align4 12) with 12.
  replace (nlh + 16) with (nlh + Z.of_nat 4 + Z.of_nat 2 + Z.of_nat 10) by lia. split; [done|]. intros Hb.
  rewrite Hb in H4. split; [done|]. unfold RTM_PAYLOAD. rewrite E. change (align4 _) with 28. unfold ms_len in *. rewrite Hb in *.
  replace (_ - 28) with (Z.of_nat (length (encode_attrs (ms_attrs g)))) by lia.
  unfold s32, u32. rewrite Z.mod_small, (proj2 (Z.ltb_lt _ _)) by lia. done.
Qed.

Definition msg_wf (g : nlmsg) : Prop := ms_len g < 2 ^ 31 /\ 0 <= ms_type g < 2 ^ 16.

Section Messages.

Context {A : Type} `{Allocator A}.

Fixpoint msgs_run (f : nlmsg -> tables A -> option (tables A)) (l : list nlmsg) (tb : tables A) : option (tables A) :=
  match l with
  | [] => Some tb
  | g :: l => tb ← f g tb; msgs_run f l tb
  end.

(** The loop visits the messages that were encoded, in order. *)
Lemma netlink_loop_encoded ports m f l fuel nlh tb :
  (forall g a tb, g ∈ l -> holds m a (encode_msg g) -> netlink_one ports m a tb = f g tb) ->
  Forall msg_wf l -> holds m nlh (encode_msgs l) -> Z.of_nat (length (encode_msgs l)) < 2 ^ 31 ->
  (length l <= fuel)%nat ->
  netlink_loop fuel ports m nlh (Z.of_nat (length (encode_msgs l))) tb = msgs_run f l tb.
Proof.
  revert fuel nlh tb. induction l as [|g l IH]; intros fuel nlh tb Hf Hwf Hh Hlen Hfuel; [by destruct fuel|].
  apply Forall_cons in Hwf as [[Hl Ht] Hwf]. unfold encode_msgs in *. cbn [fmap list_fmap concat] in *.
  rewrite length_app, Nat2Z.inj_add, encode_msg_length in *. apply holds_app in Hh as [Hg Hrest].
  rewrite encode_msg_length in Hrest. destruct (holds_msg m nlh g Hg Hl Ht) as (E & _).
  destruct fuel as [|fuel]; [cbn in Hfuel; lia|]. cbn [netlink_loop msgs_run length] in *.
  assert (16 <= ms_len g) by (unfold ms_len; lia). pose proof (align4_bounds (ms_len g)).
  unfold NLMSG_OK, sizeof_nlmsghdr. rewrite E.
  assert (u32 (align4 (ms_len g) + Z.of_nat (length (concat (encode_msg <$> l)))) =
    align4 (ms_len g) + Z.of_nat (length (concat (encode_msg <$> l)))) as Eu
    by (unfold u32; apply Z.mod_small; lia).
  rewrite Eu, !(proj2 (Z.leb_le _ _)) by lia. cbn [andb]. rewrite (Hf g) by (done || by left).
  destruct (f g tb) as [tb'|]; [|done]. opt. rewrite Z.add_simpl_l.
  apply IH; [|done|done|lia|lia]. intros g' a tb'' Hg'. apply Hf. by right.
Qed.

End Messages.
