(* ===== verification/NetlinkProps.v ===== *)
(** * Netlink: what the notifications do to the tables

    The tables of a thread as an abstract object ([net]): routes of two families
    and, for each port, the neighbours of two families.  [net_step] says what a
    notification means; [netlink_process], run on the bytes of any sequence of
    notifications, does exactly that to tables that share one allocator. *)

From stdpp Require Import prelude fin_maps gmap list.
From S2P Require Import Prelude Alloc Quota Lpm LpmFacts LpmAcct LpmAdd LpmTable Fib FibFacts FibProps Hash Neigh NeighProps.
From S2P Require Import DriverProps Forward ForwardProps Tables Netlink NetlinkWire.

(** ** The abstract tables *)

Notation hosts := (gmap (list Z) (list Z)).

Record net := Net { n_routes : list frec; n_routes6 : list frec; n_hosts : list hosts; n_hosts6 : list hosts }.

Definition get_routes (v6 : bool) (n : net) : list frec := if v6 then n_routes6 n else n_routes n.

Definition set_routes (v6 : bool) (As : list frec) (n : net) : net :=
  if v6 then Net (n_routes n) As (n_hosts n) (n_hosts6 n) else Net As (n_routes6 n) (n_hosts n) (n_hosts6 n).

Definition get_hosts (v6 : bool) (n : net) : list hosts := if v6 then n_hosts6 n else n_hosts n.

Definition set_hosts (v6 : bool) (l : list hosts) (n : net) : net :=
  if v6 then Net (n_routes n) (n_routes6 n) (n_hosts n) l else Net (n_routes n) (n_routes6 n) l (n_hosts6 n).

(** ** What a notification means *)

Fixpoint attr_get (t : Z) (l : list attr) : option (list Z) :=
  match l with
  | [] => None
  | a :: l => if at_type a =? t then Some (at_data a) else attr_get t l
  end.

(** The value of an attribute, padded with zeros; all zeros when there is none. *)
Definition attr_bytes (t : Z) (n : nat) (l : list attr) : list Z :=
  let d := default [] (attr_get t l) in d ++ replicate (n - length d) 0.

Definition attr_oif (l : list attr) : Z :=
  match attr_get RTA_OIF l with Some d => s32 (load32 (view_of d) 0) | None => -1 end.

Definition route_type (table : Z) (l : list attr) : fib_type :=
  if table =? RT_TABLE_LOCAL then FIB_TYPE_LOCAL
  else match attr_get RTA_GATEWAY l with Some _ => FIB_TYPE_FORWARD | None => FIB_TYPE_LINK end.

Definition route_op (ports : list Z) (new : bool) (family dst_len table : Z) (l : list attr) : fop :=
  let dst := view_of (attr_bytes RTA_DST 16 l) in
  if new then FUpdate family (route_type table l) dst dst_len (view_of (attr_bytes RTA_GATEWAY 16 l))
                (find_port 0 ports (attr_oif l)) (attr_oif l)
  else FDelete family dst dst_len (attr_oif l).

Definition neigh_op (new : bool) (l : list attr) : nop :=
  let dst := view_of (attr_bytes NDA_DST 16 l) in
  if new then NAdd dst (view_of (attr_bytes NDA_LLADDR ETH_ALEN l)) else NDelete dst.

Definition net_step (ports : list Z) (g : nlmsg) (n : net) : net :=
  match g with
  | RouteMsg u new family dst_len table l =>
      match family_v6 family with
      | None => n
      | Some v6 => set_routes v6 (spec_step (route_op ports new family dst_len table l) (get_routes v6 n)).2 n
      end
  | NeighMsg u new family ifindex l =>
      match family_v6 family with
      | None => n
      | Some v6 =>
          let i := find_port 0 ports ifindex in
          if i <? 0 then n
          else set_hosts v6 (alter (fun N => (nspec_step (key_len v6) false (neigh_op new l) N).2) (Z.to_nat i)
                               (get_hosts v6 n)) n
      end
  | OtherMsg _ _ _ => n
  end.

Definition net_run (ports : list Z) (l : list nlmsg) (n : net) : net := foldl (fun n g => net_step ports g n) n l.

(** ** Messages the kernel sends *)

(** An attribute that is copied fits the array it is copied to; an interface
    index has four bytes. *)
Definition route_attr_ok (a : attr) : Prop :=
  ((at_type a = RTA_DST \/ at_type a = RTA_GATEWAY) -> at_len a <= 16) /\ (at_type a = RTA_OIF -> at_len a = 4).

Definition neigh_attr_ok (a : attr) : Prop :=
  (at_type a = NDA_DST -> at_len a <= 16) /\ (at_type a = NDA_LLADDR -> at_len a <= 6).

Definition msg_ok (g : nlmsg) : Prop :=
  msg_wf g /\ Forall attr_wf (ms_attrs g) /\ NoDup (at_type <$> ms_attrs g) /\
  match g with
  | RouteMsg _ _ family dst_len table l =>
      Forall is_byte [family; dst_len; table] /\ dst_len <= 128 /\ Forall route_attr_ok l
  | NeighMsg _ _ family ifindex l => is_byte family /\ - 2 ^ 31 <= ifindex < 2 ^ 31 /\ Forall neigh_attr_ok l
  | OtherMsg _ type _ => type ∉ [RTM_NEWROUTE; RTM_DELROUTE; RTM_NEWNEIGH; RTM_DELNEIGH]
  end.

(** ** The attributes, read *)

Lemma attr_get_notin t l : t ∉ at_type <$> l -> attr_get t l = None.
Proof.
  induction l as [|a l IH]; [done|]. cbn. intros [Hn ?]%not_elem_of_cons.
  rewrite (proj2 (Z.eqb_neq _ _)) by done. auto.
Qed.

(** An array after the attributes have been copied into it. *)
Definition filled (t : Z) (l : list attr) (old : list Z) : list Z :=
  match attr_get t l with Some d => d ++ drop (length d) old | None => old end.

Lemma filled_zero t n l :
  filled t l (replicate n 0) = attr_bytes t n l.
Proof.
  unfold filled, attr_bytes. destruct (attr_get t l) as [d|]; cbn; [by rewrite drop_replicate|].
  by rewrite Nat.sub_0_r.
Qed.

Lemma copy_into_holds m d a old :
  holds m d (at_data a) ->
  copy_into old (at_addr m d) (at_len a) = copy_into old (view_of (at_data a)) (at_len a).
Proof.
  intros Hh. unfold copy_into, at_len. rewrite Nat2Z.id, (holds_copy m d), copy_self by done. done.
Qed.

Lemma copy_into_fits a old :
  at_len a <= Z.of_nat (length old) ->
  copy_into old (view_of (at_data a)) (at_len a) = Some (at_data a ++ drop (length (at_data a)) old).
Proof. intros Hl. unfold copy_into, at_len in *. rewrite Nat2Z.id, copy_self, (proj2 (Z.ltb_ge _ _)) by lia. done. Qed.

Lemma get32_holds m d l : holds m d l -> length l = 4%nat -> get32 m d = load32 (view_of l) 0.
Proof.
  intros Hh Hl. unfold get32. apply load32_ext. intros i Hi.
  destruct (lookup_lt_is_Some_2 l i) as [x Hx]; [lia|]. unfold view_of. rewrite Hx. by apply Hh.
Qed.


(** The step of a loop, on an attribute rather than on bytes. *)
Definition route_astep (a : attr) (v : route_vars) : option route_vars :=
  if at_type a =? RTA_DST then
    p ← copy_into (rv_prefix v) (view_of (at_data a)) (at_len a);
    Some (RouteVars p (rv_nexthop v) (rv_ifindex v) (rv_type v))
  else if at_type a =? RTA_GATEWAY then
    n ← copy_into (rv_nexthop v) (view_of (at_data a)) (at_len a);
    Some (RouteVars (rv_prefix v) n (rv_ifindex v) FIB_TYPE_FORWARD)
  else if at_type a =? RTA_OIF then
    Some (RouteVars (rv_prefix v) (rv_nexthop v) (s32 (load32 (view_of (at_data a)) 0)) (rv_type v))
  else Some v.

Definition neigh_astep (a : attr) (v : neigh_vars) : option neigh_vars :=
  if at_type a =? NDA_DST then
    d ← copy_into (nv_dst_addr v) (view_of (at_data a)) (at_len a); Some (NeighVars d (nv_dst_mac v))
  else if at_type a =? NDA_LLADDR then
    x ← copy_into (nv_dst_mac v) (view_of (at_data a)) (at_len a); Some (NeighVars (nv_dst_addr v) x)
  else Some v.

Lemma route_attr_astep m a d v :
  route_attr_ok a -> holds m d (at_data a) -> route_attr m (at_type a) d (at_len a) v = route_astep a v.
Proof.
  intros [_ Ho] Hh. unfold route_attr, route_astep. rewrite !(copy_into_holds m d) by done.
  destruct (Z.eqb_spec (at_type a) RTA_DST); [done|]. destruct (Z.eqb_spec (at_type a) RTA_GATEWAY); [done|].
  destruct (Z.eqb_spec (at_type a) RTA_OIF) as [E|]; [|done].
  rewrite (get32_holds m d (at_data a)); [done|done|]. specialize (Ho E). unfold at_len in Ho. lia.
Qed.

Lemma neigh_attr_astep m a d v :
  neigh_attr_ok a -> holds m d (at_data a) -> neigh_attr m (at_type a) d (at_len a) v = neigh_astep a v.
Proof. intros _ Hh. unfold neigh_attr, neigh_astep. by rewrite !(copy_into_holds m d). Qed.


Lemma filled_notin t l old : t ∉ at_type <$> l -> filled t l old = old.
Proof. intros Hn. unfold filled. by rewrite attr_get_notin. Qed.

Lemma route_attrs_run l v :
  Forall route_attr_ok l -> NoDup (at_type <$> l) -> length (rv_prefix v) = 16%nat -> length (rv_nexthop v) = 16%nat ->
  attrs_run route_astep l v =
    Some (RouteVars (filled RTA_DST l (rv_prefix v)) (filled RTA_GATEWAY l (rv_nexthop v))
            (match attr_get RTA_OIF l with Some d => s32 (load32 (view_of d) 0) | None => rv_ifindex v end)
            (match attr_get RTA_GATEWAY l with Some _ => FIB_TYPE_FORWARD | None => rv_type v end)).
Proof.
  revert v. induction l as [|a l IH]; intros v Hok Hnd Hp Hn; [by destruct v|].
  apply Forall_cons in Hok as [[Ha _] Hok]. cbn [fmap list_fmap] in Hnd. apply NoDup_cons in Hnd as [Hni Hnd].
  cbn [attrs_run]. unfold route_astep, filled. cbn [attr_get].
  destruct (Z.eqb_spec (at_type a) RTA_DST) as [E|N1].
  { rewrite copy_into_fits by (rewrite Hp; apply Ha; by left). opt. rewrite IH; cbn [rv_prefix rv_nexthop rv_ifindex rv_type];
      [|done|done| |done].
    - rewrite E in Hni. rewrite (filled_notin RTA_DST), E by done. done.
    - specialize (Ha (or_introl E)). unfold at_len in Ha. rewrite length_app, length_drop. lia. }
  destruct (Z.eqb_spec (at_type a) RTA_GATEWAY) as [E|N2].
  { rewrite copy_into_fits by (rewrite Hn; apply Ha; by right). opt. rewrite IH; cbn [rv_prefix rv_nexthop rv_ifindex rv_type];
      [|done|done|done|].
    - rewrite E in Hni. rewrite (filled_notin RTA_GATEWAY), (attr_get_notin RTA_GATEWAY l), E by done. done.
    - specialize (Ha (or_intror E)). unfold at_len in Ha. rewrite length_app, length_drop. lia. }
  destruct (Z.eqb_spec (at_type a) RTA_OIF) as [E|N3].
  { opt. rewrite IH by done. cbn [rv_prefix rv_nexthop rv_ifindex rv_type].
    rewrite E in Hni. by rewrite (attr_get_notin RTA_OIF l). }
  opt. by rewrite IH.
Qed.

Lemma neigh_attrs_run l v :
  Forall neigh_attr_ok l -> NoDup (at_type <$> l) -> length (nv_dst_addr v) = 16%nat -> length (nv_dst_mac v) = 6%nat ->
  attrs_run neigh_astep l v =
    Some (NeighVars (filled NDA_DST l (nv_dst_addr v)) (filled NDA_LLADDR l (nv_dst_mac v))).
Proof.
  revert v. induction l as [|a l IH]; intros v Hok Hnd Hp Hn; [by destruct v|].
  apply Forall_cons in Hok as [[Ha Hm] Hok]. cbn [fmap list_fmap] in Hnd. apply NoDup_cons in Hnd as [Hni Hnd].
  cbn [attrs_run]. unfold neigh_astep, filled. cbn [attr_get].
  destruct (Z.eqb_spec (at_type a) NDA_DST) as [E|N1].
  { rewrite copy_into_fits by (rewrite Hp; by apply Ha). opt. rewrite IH; cbn [nv_dst_addr nv_dst_mac]; [|done|done| |done].
    - rewrite E in Hni. rewrite (filled_notin NDA_DST), E by done. done.
    - specialize (Ha E). unfold at_len in Ha. rewrite length_app, length_drop. lia. }
  destruct (Z.eqb_spec (at_type a) NDA_LLADDR) as [E|N2].
  { rewrite copy_into_fits by (rewrite Hn; by apply Hm). opt. rewrite IH; cbn [nv_dst_addr nv_dst_mac]; [|done|done|done|].
    - rewrite E in Hni. by rewrite (filled_notin NDA_LLADDR).
    - specialize (Hm E). unfold at_len in Hm. rewrite length_app, length_drop. lia. }
  opt. by rewrite IH.
Qed.

(** ** The handlers, on the bytes of a message *)

Lemma encode_attrs_size l : Z.of_nat (length l) <= Z.of_nat (length (encode_attrs l)).
Proof.
  induction l as [|a l IH]; [done|]. rewrite encode_attrs_cons, length_app, Nat2Z.inj_add, encode_attr_length.
  pose proof (align4_bounds (4 + at_len a)). unfold at_len in *. cbn [length]. lia.
Qed.

(** The attributes of a message, read by the loop of its handler. *)
Lemma attrs_read {S} (m : memory) nlh g (step : Z -> Z -> Z -> S -> option S) astep (ok : attr -> Prop) s :
  (forall a d s, ok a -> holds m d (at_data a) -> step (at_type a) d (at_len a) s = astep a s) ->
  holds m nlh (encode_msg g) -> msg_wf g -> length (ms_body g) = 12%nat -> Forall attr_wf (ms_attrs g) -> Forall ok (ms_attrs g) ->
  rta_loop (Z.to_nat (RTM_PAYLOAD m nlh)) m step (RTM_RTA (NLMSG_DATA nlh)) (RTM_PAYLOAD m nlh) s =
    attrs_run astep (ms_attrs g) s.
Proof.
  intros Hstep Hh [Hl Ht] Hb Ha Hok. destruct (holds_msg m nlh g Hh Hl Ht) as (_ & _ & _ & Hat). destruct (Hat Hb) as [Hat' ->].
  apply (rta_loop_encoded m step astep ok); try done. pose proof (encode_attrs_size (ms_attrs g)). lia.
Qed.

Lemma s32_u32 x : - 2 ^ 31 <= x < 2 ^ 31 -> s32 (u32 x) = x.
Proof. intros Hx. unfold s32, u32. rewrite Z.mod_mod by lia. destruct (Z.ltb_spec (x mod 2 ^ 32) (2 ^ 31));
  Z.to_euclidean_division_equations; lia. Qed.

Section Handlers.

Context {A : Type} `{AllocatorSpec A}.

(** A route notification is one call on the FIB of its family. *)
Lemma netlink_route_call ports m nlh u new family dst_len table l (tb : tables A) :
  let g := RouteMsg u new family dst_len table l in
  holds m nlh (encode_msg g) -> msg_ok g ->
  netlink_one ports m nlh tb =
    match family_v6 family with
    | None => Some tb
    | Some v6 => with_fib v6 (fib_step (route_op ports new family dst_len table l)) tb
    end.
Proof.
  intros g Hh (Hwf & Hat & Hnd & Hb & Hd & Hok). pose proof Hwf as [Hl Ht].
  destruct (holds_msg m nlh g Hh Hl Ht) as (_ & Ety & Hbody & _).
  cbn [ms_body g] in Hbody. rewrite !holds_cons in Hbody. destruct Hbody as (Ef & El & _ & _ & Etb & _).
  unfold netlink_one. rewrite Ety.
  replace ((_ =? _) || _) with true by (by destruct new). cbn match. unfold netlink_route.
  rewrite (attrs_read m nlh g (route_attr m) route_astep route_attr_ok)
    by (done || intros; by apply route_attr_astep).
  rewrite route_attrs_run by done. cbn [rv_prefix rv_nexthop rv_ifindex rv_type]. opt.
  rewrite !filled_zero. unfold rtm_family, rtm_dst_len, rtm_table. rewrite Ef, El.
  replace (NLMSG_DATA nlh + 4) with (NLMSG_DATA nlh + 1 + 1 + 1 + 1) by lia. rewrite Etb, Ety.
  destruct (family_v6 family) as [v6|]; [|done]. by destruct new.
Qed.

(** A neighbour notification for a known port is one call on a neighbour table. *)
Lemma netlink_neigh_call ports m nlh u new family ifindex l (tb : tables A) :
  let g := NeighMsg u new family ifindex l in
  let i := find_port 0 ports ifindex in
  holds m nlh (encode_msg g) -> msg_ok g ->
  netlink_one ports m nlh tb =
    if i <? 0 then Some tb else
    match family_v6 family with
    | None => Some tb
    | Some v6 => with_neigh v6 i (neigh_step family (neigh_op new l)) tb
    end.
Proof.
  intros g i Hh (Hwf & Hat & Hnd & Hb & Hi & Hok). pose proof Hwf as [Hl Ht].
  destruct (holds_msg m nlh g Hh Hl Ht) as (_ & Ety & Hbody & _).
  cbn [ms_body g] in Hbody. rewrite !holds_app in Hbody. destruct Hbody as (Hf & Hif & _).
  rewrite holds_cons in Hf. destruct Hf as [Ef _]. change (Z.of_nat (length [_; _; _; _])) with 4 in Hif.
  apply holds_le32 in Hif; [|unfold u32; apply Z.mod_pos_bound; lia].
  unfold netlink_one. rewrite Ety.
  replace ((_ =? _) || (_ =? _)) with false by (by destruct new). cbn match.
  replace ((_ =? _) || (_ =? _)) with true by (by destruct new). cbn match. unfold netlink_neigh.
  unfold ndm_ifindex, ndm_family. rewrite Hif, s32_u32, Ef by done. fold i.
  destruct (i <? 0); [done|].
  rewrite (attrs_read m nlh g (neigh_attr m) neigh_astep neigh_attr_ok)
    by (done || intros; by apply neigh_attr_astep).
  rewrite neigh_attrs_run by done. cbn [nv_dst_addr nv_dst_mac]. opt. rewrite !filled_zero, Ety.
  destruct (family_v6 family) as [v6|]; [|done]. by destruct new.
Qed.

End Handlers.

(** ** The tables refine the abstract object *)

Section Refine.

Context {A : Type} `{AllocatorSpec A}.

(** Every live block belongs to exactly one table or is one of [L0]; each table
    stands for its part of [n]. *)
Definition tables_own (tb : tables A) : list (gset Z) :=
  fib_own (tb_fib tb) :: fib_own (tb_fib6 tb) :: (neigh_own <$> tb_neigh tb) ++ (neigh_own <$> tb_neigh6 tb).

Definition neighs_part (v6 : bool) : list (neigh_table * gmap Z neigh_entry) -> list hosts -> Prop :=
  Forall2 (fun x N => nt_v6 x.1 = v6 /\ neigh_part (A := A) x N).

Definition tables_ok (L0 : gset Z) (tb : tables A) (n : net) : Prop :=
  owned_by (tb_mem tb) (L0 :: tables_own tb) /\
  fib_part (tb_fib tb) (n_routes n) /\ fib_part (tb_fib6 tb) (n_routes6 n) /\
  neighs_part false (tb_neigh tb) (n_hosts n) /\ neighs_part true (tb_neigh6 tb) (n_hosts6 n).

(** A call on one of several tables leaves the others alone. *)
Lemma fib_call_ok op x a Xs As :
  never_fails (A := A) -> fop_ok op -> fib_part x As -> owned_by a (fib_own x :: Xs) ->
  exists ret f w, fib_step op x.1 (FibWorld a x.2) = Some (ret, f, w) /\
    fib_part (f, fw_ents w) (spec_step op As).2 /\ owned_by (fw_mem w) (fib_own (f, fw_ents w) :: Xs).
Proof.
  intros Hnf Hop Hp Ho. destruct x as [f E]. cbn [fst snd].
  destruct (fib_step_ok op f (FibWorld a E) (⋃ Xs) As) as [(f' & w' & Es & Hok)|(Hf & _)]; [|done| |].
  - by apply owned_fib_ok.
  - exists (spec_step op As).1, f', w'. split; [exact Es|]. destruct w' as [a' E'].
    apply fib_ok_owned; [exact Hok|]. destruct Ho as (C & _ & _ & _ & ?). done.
  - destruct Hf as (k & b & b' & Eb). by destruct (Hnf k b b').
Qed.

Lemma neigh_call_ok o family x a Xs N :
  never_fails (A := A) -> nop_ok o -> family_bytes family = Some (key_len (nt_v6 x.1)) ->
  neigh_part (A := A) x N -> owned_by a (neigh_own x :: Xs) ->
  exists ret t w, neigh_step family o x.1 (NeighWorld a x.2) = Some (ret, t, w) /\ nt_v6 t = nt_v6 x.1 /\
    neigh_part (A := A) (t, nw_ents w) (nspec_step (key_len (nt_v6 x.1)) false o N).2 /\
    owned_by (nw_mem w) (neigh_own (t, nw_ents w) :: Xs).
Proof.
  intros Hnf Hop Hfam Hp Ho. destruct x as [t E]. cbn [fst snd] in *.
  destruct (neigh_step_ok family o t (NeighWorld a E) (⋃ Xs) N) as (ret & t' & w' & Es & Hv & _ & Hr); [|done|done|].
  - by apply owned_neigh_rep.
  - exists ret, t', w'. split; [exact Es|]. split; [exact Hv|]. rewrite (exhausted_never _ Hnf) in Hr. destruct w' as [a' E'].
    apply neigh_rep_owned; [exact Hr|]. destruct Ho as (C & _ & _ & _ & ?). done.
Qed.

Lemma with_fib_ok v6 op tb n L0 :
  never_fails (A := A) -> fop_ok op -> tables_ok L0 tb n ->
  exists tb', with_fib v6 (fib_step op) tb = Some tb' /\
    tables_ok L0 tb' (set_routes v6 (spec_step op (get_routes v6 n)).2 n).
Proof.
  intros Hnf Hop (Ho & Hf & Hf6 & Hn & Hn6). unfold with_fib, tables_own in *.
  set (Xs := (neigh_own <$> tb_neigh tb) ++ _) in *. destruct v6.
  - destruct (fib_call_ok op _ (tb_mem tb) (L0 :: fib_own (tb_fib tb) :: Xs) _ Hnf Hop Hf6)
      as (ret & f & w & -> & Hp & Hw).
    { eapply owned_by_proper; [|exact Ho]. solve_Permutation. }
    opt. eexists. split; [done|]. split_and!; try done. eapply owned_by_proper; [|exact Hw].
    unfold tables_own. cbn. fold Xs. solve_Permutation.
  - destruct (fib_call_ok op _ (tb_mem tb) (L0 :: fib_own (tb_fib6 tb) :: Xs) _ Hnf Hop Hf)
      as (ret & f & w & -> & Hp & Hw).
    { eapply owned_by_proper; [|exact Ho]. solve_Permutation. }
    opt. eexists. split; [done|]. split_and!; try done. eapply owned_by_proper; [|exact Hw].
    unfold tables_own. cbn. fold Xs. solve_Permutation.
Qed.

Lemma insert_delete_own {X} (f : X -> gset Z) (l : list X) i x :
  l !! i = Some x -> f <$> l ≡ₚ f x :: (f <$> delete i l).
Proof.
  intros Hi. rewrite <- fmap_cons. apply fmap_Permutation. by apply delete_Permutation.
Qed.

(** A call on the neighbour table of port [i], in a list of tables of a family. *)
Lemma neighs_call_ok v6 o family l Ns i (a : A) Xs :
  never_fails (A := A) -> nop_ok o -> family_bytes family = Some (key_len v6) -> (i < length l)%nat ->
  neighs_part v6 l Ns -> owned_by a ((neigh_own <$> l) ++ Xs) ->
  exists x ret t (w : neigh_world A), l !! i = Some x /\ neigh_step family o x.1 (NeighWorld a x.2) = Some (ret, t, w) /\
    neighs_part v6 (<[i := (t, nw_ents w)]> l)
      (alter (fun N => (nspec_step (key_len v6) false o N).2) i Ns) /\
    owned_by (nw_mem w) ((neigh_own <$> <[i := (t, nw_ents w)]> l) ++ Xs).
Proof.
  intros Hnf Hop Hfam Hi Hl Ho. destruct (lookup_lt_is_Some_2 l i Hi) as [x Hx].
  destruct (Forall2_lookup_l _ _ _ _ _ Hl Hx) as (N & HN & Hv & Hp).
  rewrite (insert_delete_own _ _ _ _ Hx) in Ho. rewrite <- Hv in Hfam.
  destruct (neigh_call_ok o family x a _ N Hnf Hop Hfam Hp Ho) as (ret & t & w & Es & Hv' & Hp' & Ho').
  exists x, ret, t, w. split; [done|]. split; [done|]. rewrite <- Hv. split.
  - apply Forall2_lookup. intros j. destruct (decide (j = i)) as [->|Hne].
    + rewrite list_lookup_insert_eq, list_lookup_alter_eq, HN by done. cbn. by constructor.
    + rewrite list_lookup_insert_ne, list_lookup_alter_ne by done. rewrite Hv. by apply Forall2_lookup.
  - rewrite (insert_delete_own neigh_own _ i (t, nw_ents w)) by (by apply list_lookup_insert_eq).
    by rewrite delete_insert_same.
Qed.

Lemma with_neigh_ok v6 i o family tb n L0 :
  never_fails (A := A) -> nop_ok o -> family_bytes family = Some (key_len v6) ->
  0 <= i < Z.of_nat (length (if v6 then tb_neigh6 tb else tb_neigh tb)) -> tables_ok L0 tb n ->
  exists tb', with_neigh v6 i (neigh_step family o) tb = Some tb' /\
    tables_ok L0 tb' (set_hosts v6 (alter (fun N => (nspec_step (key_len v6) false o N).2) (Z.to_nat i)
                                      (get_hosts v6 n)) n).
Proof.
  intros Hnf Hop Hfam Hi (Ho & Hf & Hf6 & Hn & Hn6). unfold with_neigh, tables_own in *.
  assert (Z.to_nat i < length (if v6 then tb_neigh6 tb else tb_neigh tb))%nat as Hi' by lia. destruct v6.
  - destruct (neighs_call_ok true o family _ _ (Z.to_nat i) (tb_mem tb)
                (L0 :: fib_own (tb_fib tb) :: fib_own (tb_fib6 tb) :: (neigh_own <$> tb_neigh tb)) Hnf Hop Hfam Hi' Hn6)
      as (x & ret & t & w & Hx & Es & Hp & Hw).
    { eapply owned_by_proper; [|exact Ho]. solve_Permutation. }
    rewrite (load_lookup _ i) by lia. rewrite Hx. opt. rewrite Es. opt. rewrite store_some by lia. opt.
    eexists. split; [done|]. split_and!; try done. eapply owned_by_proper; [|exact Hw].
    unfold tables_own. cbn. solve_Permutation.
  - destruct (neighs_call_ok false o family _ _ (Z.to_nat i) (tb_mem tb)
                (L0 :: fib_own (tb_fib tb) :: fib_own (tb_fib6 tb) :: (neigh_own <$> tb_neigh6 tb)) Hnf Hop Hfam Hi' Hn)
      as (x & ret & t & w & Hx & Es & Hp & Hw).
    { eapply owned_by_proper; [|exact Ho]. solve_Permutation. }
    rewrite (load_lookup _ i) by lia. rewrite Hx. opt. rewrite Es. opt. rewrite store_some by lia. opt.
    eexists. split; [done|]. split_and!; try done. eapply owned_by_proper; [|exact Hw].
    unfold tables_own. cbn. solve_Permutation.
Qed.

(** Link-layer addresses are bytes. *)
Definition macs_ok : list hosts -> Prop := Forall (map_Forall (fun _ mac => Forall is_byte mac)).

(** The abstract tables are those of a thread with these ports. *)
Definition net_ok (ports : list Z) (n : net) : Prop :=
  length (n_hosts n) = length ports /\ length (n_hosts6 n) = length ports /\
  routes_ok (length ports) (n_routes n) /\ routes_ok (length ports) (n_routes6 n) /\
  macs_ok (n_hosts n) /\ macs_ok (n_hosts6 n).

Lemma find_port_range i ports x : 0 <= i -> find_port i ports x = -1 \/ i <= find_port i ports x < i + Z.of_nat (length ports).
Proof.
  revert i. induction ports as [|p ports IH]; intros i Hi; cbn [find_port length]; [by left|].
  destruct (p =? u32 x); [right; lia|]. destruct (IH (i + 1)); [lia|by left|right; lia].
Qed.

Lemma attr_bytes_ok t n l : Forall attr_wf l -> Forall is_byte (attr_bytes t n l).
Proof.
  intros Hl. unfold attr_bytes. apply Forall_app. split.
  - induction Hl as [|a l (_ & _ & Ha) _ IH]; cbn; [constructor|]. by destruct (at_type a =? t).
  - apply Forall_replicate. by unfold is_byte.
Qed.

Lemma family_v6_bytes family v6 : family_v6 family = Some v6 -> family_bytes family = Some (key_len v6).
Proof.
  unfold family_v6, family_bytes. destruct (family =? AF_INET); [by intros [= <-]|].
  destruct (family =? AF_INET6); [by intros [= <-]|done].
Qed.

Lemma route_op_ok ports u new family dst_len table l v6 :
  msg_ok (RouteMsg u new family dst_len table l) -> family_v6 family = Some v6 ->
  fop_ok (route_op ports new family dst_len table l).
Proof.
  intros (_ & Ha & _ & Hb & Hd & _) Hv%family_v6_bytes. rewrite !Forall_cons in Hb. destruct Hb as (_ & [Hb _] & _).
  unfold route_op. destruct new; cbn; rewrite ?Hv; split_and!; try done; by apply bytes_ok, attr_bytes_ok.
Qed.

Lemma neigh_op_ok u new family ifindex l : msg_ok (NeighMsg u new family ifindex l) -> nop_ok (neigh_op new l).
Proof. intros (_ & Ha & _). destruct new; by apply bytes_ok, attr_bytes_ok. Qed.

Lemma spec_step_routes_ok n ports u new family dst_len table l v6 As :
  msg_ok (RouteMsg u new family dst_len table l) -> family_v6 family = Some v6 -> length ports = n -> routes_ok n As ->
  routes_ok n (spec_step (route_op ports new family dst_len table l) As).2.
Proof.
  intros (_ & Ha & _) Hv <- HAs. unfold route_op, routes_ok in *. destruct new; cbn; destruct (existsb _ As); cbn; try done.
  - apply Forall_cons. split; [|done]. cbn. split.
    + destruct (find_port_range 0 ports (attr_oif l)); lia.
    + apply copy_ok. by apply bytes_ok, attr_bytes_ok.
  - rewrite Forall_forall in *. intros a [_ Hin]%list_elem_of_filter. by apply HAs.
Qed.

Lemma nspec_macs_ok v6 u new family ifindex l i Ns :
  msg_ok (NeighMsg u new family ifindex l) -> macs_ok Ns ->
  macs_ok (alter (fun N => (nspec_step (key_len v6) false (neigh_op new l) N).2) i Ns).
Proof.
  intros (_ & Ha & _) HN. apply Forall_alter; [done|]. intros N _ Hi. unfold neigh_op. destruct new; cbn [nspec_step].
  - case_match; cbn [snd]; [done|]. apply map_Forall_insert_2; [|done]. by apply copy_ok, bytes_ok, attr_bytes_ok.
  - by apply map_Forall_delete.
Qed.

Lemma net_step_ok ports g n : msg_ok g -> net_ok ports n -> net_ok ports (net_step ports g n).
Proof.
  intros Hg (H1 & H2 & H3 & H4 & H5 & H6). destruct g as [u new family dst_len table l|u new family ifindex l|u type l]; cbn [net_step]; [| |done].
  - destruct (family_v6 family) as [v6|] eqn:E; [|done].
    destruct v6; split_and!; try done; cbn; by eapply spec_step_routes_ok.
  - destruct (family_v6 family) as [v6|]; [|done]. destruct (_ <? 0); [done|].
    destruct v6; split_and!; cbn [n_hosts n_hosts6 n_routes n_routes6 set_hosts get_hosts]; rewrite ?length_alter;
      try done; by eapply nspec_macs_ok.
Qed.

(** What the handlers come down to: a call on one table, or nothing. *)
Definition msg_call (ports : list Z) (g : nlmsg) (tb : tables A) : option (tables A) :=
  match g with
  | RouteMsg u new family dst_len table l =>
      match family_v6 family with
      | None => Some tb
      | Some v6 => with_fib v6 (fib_step (route_op ports new family dst_len table l)) tb
      end
  | NeighMsg u new family ifindex l =>
      let i := find_port 0 ports ifindex in
      if i <? 0 then Some tb else
      match family_v6 family with
      | None => Some tb
      | Some v6 => with_neigh v6 i (neigh_step family (neigh_op new l)) tb
      end
  | OtherMsg _ _ _ => Some tb
  end.

Lemma netlink_one_call ports m nlh g tb :
  msg_ok g -> holds m nlh (encode_msg g) -> netlink_one ports m nlh tb = msg_call ports g tb.
Proof.
  intros Hg Hh. destruct g as [u new family dst_len table l|u new family ifindex l|u type l].
  - by eapply netlink_route_call.
  - by eapply netlink_neigh_call.
  - destruct Hg as (Hwf & _ & _ & Ht). destruct Hwf as [Hlen Hty].
    destruct (holds_msg m nlh _ Hh Hlen Hty) as (_ & Ety & _). unfold netlink_one. rewrite Ety. cbn [ms_type].
    apply not_elem_of_cons in Ht as [N1 Ht]. apply not_elem_of_cons in Ht as [N2 Ht].
    apply not_elem_of_cons in Ht as [N3 Ht]. apply not_elem_of_cons in Ht as [N4 _].
    by rewrite !(proj2 (Z.eqb_neq type _)).
Qed.

Lemma msg_call_ok ports g tb n L0 :
  never_fails (A := A) -> msg_ok g -> net_ok ports n -> tables_ok L0 tb n ->
  exists tb', msg_call ports g tb = Some tb' /\ tables_ok L0 tb' (net_step ports g n).
Proof.
  intros Hnf Hg (Hl & Hl6 & _) Hok. destruct g as [u new family dst_len table l|u new family ifindex l|u type l];
    cbn [net_step msg_call].
  - destruct (family_v6 family) as [v6|] eqn:E; [|by exists tb]. apply with_fib_ok; [done| |done]. by eapply route_op_ok.
  - destruct (Z.ltb_spec (find_port 0 ports ifindex) 0); [destruct (family_v6 family); by exists tb|].
    destruct (family_v6 family) as [v6|] eqn:E; [|by exists tb].
    apply with_neigh_ok; [done|by eapply neigh_op_ok|by apply family_v6_bytes| |done].
    destruct Hok as (_ & _ & _ & Hn%Forall2_length & Hn6%Forall2_length).
    destruct (find_port_range 0 ports ifindex); [lia|lia|]. destruct v6; lia.
  - by exists tb.
Qed.

Lemma msgs_run_ok ports l tb n L0 :
  never_fails (A := A) -> Forall msg_ok l -> net_ok ports n -> tables_ok L0 tb n ->
  exists tb', msgs_run (msg_call ports) l tb = Some tb' /\ tables_ok L0 tb' (net_run ports l n) /\
    net_ok ports (net_run ports l n).
Proof.
  intros Hnf Hl. revert tb n. induction Hl as [|g l Hg _ IH]; intros tb n Hn Hok; [by exists tb|].
  destruct (msg_call_ok ports g tb n L0 Hnf Hg Hn Hok) as (tb1 & E & Hok1). cbn [msgs_run]. rewrite E. opt.
  apply (IH tb1 (net_step ports g n)); [by apply net_step_ok|done].
Qed.

Lemma encode_msgs_size l : Z.of_nat (length l) <= Z.of_nat (length (encode_msgs l)).
Proof.
  unfold encode_msgs. induction l as [|g l IH]; [done|]. cbn [fmap list_fmap concat length].
  rewrite length_app, Nat2Z.inj_add, encode_msg_length. pose proof (align4_bounds (ms_len g)). unfold ms_len in *. lia.
Qed.

Lemma netlink_process_ok ports l m buf tb n L0 :
  never_fails (A := A) -> tables_ok L0 tb n -> net_ok ports n -> Forall msg_ok l ->
  holds m buf (encode_msgs l) -> Z.of_nat (length (encode_msgs l)) < 2 ^ 31 ->
  exists tb', netlink_process ports m buf (Z.of_nat (length (encode_msgs l))) tb = Some tb' /\
    tables_ok L0 tb' (net_run ports l n) /\ net_ok ports (net_run ports l n).
Proof.
  intros Hnf Hok Hn Hl Hh Hlen. unfold netlink_process.
  rewrite (netlink_loop_encoded ports m (msg_call ports)); [by apply msgs_run_ok| |by eapply Forall_impl; [done|]; intros g [? _]|done|done|].
  - intros g a tb' Hg. apply netlink_one_call. by eapply Forall_forall in Hl.
  - pose proof (encode_msgs_size l). lia.
Qed.

(** What lookups in the tables find. *)
Definition lookups_agree (tb : tables A) (n : net) : Prop :=
  (forall (v6 : bool) dst, view_ok dst ->
    let x := if v6 then tb_fib6 tb else tb_fib tb in
    match best_frec (get_routes v6 n) dst with
    | None => fib_lookup x.1 dst = Some None
    | Some a => exists p e, fib_lookup x.1 dst = Some (Some p) /\ x.2 !! p = Some e /\
                  fe_data e = fr_data a /\ fe_prefix_len e = fr_len a
    end) /\
  (forall (v6 : bool) i x N dst, view_ok dst ->
    (if v6 then tb_neigh6 tb else tb_neigh tb) !! i = Some x -> get_hosts v6 n !! i = Some N ->
    match N !! copy_bytes dst (key_len v6) with
    | None => neigh_lookup x.1 dst (NeighWorld (tb_mem tb) x.2) = Some None
    | Some mac => exists p e, neigh_lookup x.1 dst (NeighWorld (tb_mem tb) x.2) = Some (Some p) /\
                    x.2 !! p = Some e /\ dst_mac e = mac
    end).

(** The tables of a thread, each on its own. *)
Lemma tables_fib tb n L0 (v6 : bool) :
  tables_ok L0 tb n -> exists L, fib_ok (FibWorld (tb_mem tb) (if v6 then tb_fib6 tb else tb_fib tb).2)
    (if v6 then tb_fib6 tb else tb_fib tb).1 L (get_routes v6 n).
Proof.
  intros (Ho & Hf & Hf6 & _ & _). unfold tables_own in Ho. destruct v6; cbn [get_routes]; eexists.
  - apply owned_fib_ok; [by destruct (tb_fib6 tb)|]. eapply owned_by_proper; [|exact Ho].
    destruct (tb_fib6 tb). apply (Permutation_middle [L0; fib_own (tb_fib tb)]).
  - apply owned_fib_ok; [by destruct (tb_fib tb)|]. eapply owned_by_proper; [|exact Ho].
    destruct (tb_fib tb). apply Permutation_swap.
Qed.

Lemma tables_neigh tb n L0 (v6 : bool) i x N :
  tables_ok L0 tb n -> (if v6 then tb_neigh6 tb else tb_neigh tb) !! i = Some x -> get_hosts v6 n !! i = Some N ->
  nt_v6 x.1 = v6 /\ exists L, neigh_rep x.1 (NeighWorld (tb_mem tb) x.2) L N.
Proof.
  intros (Ho & _ & _ & Hn & Hn6) Hx HN. unfold tables_own in Ho.
  assert (nt_v6 x.1 = v6 /\ neigh_part (A := A) x N) as [Hv Hp].
  { destruct v6; cbn [get_hosts] in HN; [eapply (Forall2_lookup_lr _ _ _ _ _ _ Hn6)|eapply (Forall2_lookup_lr _ _ _ _ _ _ Hn)]; done. }
  split; [done|]. destruct x as [t E]. destruct v6; eexists; (apply owned_neigh_rep; [exact Hp|]);
    (eapply owned_by_proper; [|exact Ho]); rewrite (insert_delete_own neigh_own _ _ _ Hx).
  - apply (Permutation_middle (L0 :: fib_own (tb_fib tb) :: fib_own (tb_fib6 tb) :: (neigh_own <$> tb_neigh tb))).
  - apply (Permutation_middle [L0; fib_own (tb_fib tb); fib_own (tb_fib6 tb)]).
Qed.

Lemma tables_lookup tb n L0 : tables_ok L0 tb n -> lookups_agree tb n.
Proof.
  intros Hok. split.
  - intros v6 dst Hd. destruct (tables_fib tb n L0 v6 Hok) as [L Hf]. exact (fib_ok_lookup _ _ L _ dst Hf Hd).
  - intros v6 i x N dst Hd Hx HN. destruct (tables_neigh tb n L0 v6 i x N Hok Hx HN) as (<- & L & Hr).
    exact (neigh_lookup_ok x.1 _ L N dst Hr Hd).
Qed.

End Refine.
