(* ===== verification/Os.v ===== *)
(** * System resources

    The programs acquire memory, file descriptors, mappings and threads from the
    operating system, any of which may fail.  Here is the small monad their code
    is written in: a list of [answers] decides what the system grants, a
    [ledger] records what is held, and giving back something that is not held
    is undefined ([None]), as is an access out of bounds.  [triple] is the logic
    the clean-up code is proved in: what a piece of code needs to hold and what
    it holds afterwards, next to resources it does not know. *)

From stdpp Require Import prelude list.
From S2P Require Import Prelude.

Inductive kind :=
| KMalloc | KNuma | KMmap | KFd | KFile | KMnode | KThread | KPage | KSgTable | KSgMap | KIomap
| KPci | KRegions | KMsix | KIrq | KEventfd | KMisc
| KDma (fd : Z).

#[export] Instance kind_eq_dec : EqDecision kind.
Proof. solve_decision. Defined.

(** What is held: its kind, its address or number, its size. *)
Definition res := (kind * Z * Z)%type.

Record os := Os { answers : list (option Z); ledger : list res }.

Definition M (A : Type) := os -> option (A * os).

#[export] Instance M_ret : MRet M := fun A x s => Some (x, s).
#[export] Instance M_bind : MBind M := fun A B f m s =>
  match m s with Some (x, s') => f x s' | None => None end.

Definition undefined {A} : M A := fun _ => None.
Definition lift {A} (o : option A) : M A := fun s => match o with Some x => Some (x, s) | None => None end.

(** A system call: the value it returns, [None] for failure. *)
Definition ask : M (option Z) := fun s =>
  match answers s with
  | [] => Some (None, s)
  | a :: l => Some (a, Os l (ledger s))
  end.

Definition hold (r : res) : M unit := fun s => Some (tt, Os (answers s) (r :: ledger s)).

(** A system call that yields something to give back later. *)
Definition acquire (k : kind) (size : Z) : M (option Z) :=
  r ← ask;
  match r with
  | None => mret None
  | Some x => hold (k, x, size) ;; mret (Some x)
  end.

Fixpoint remove_res (r : res) (l : list res) : option (list res) :=
  match l with
  | [] => None
  | x :: l => if decide (x = r) then Some l else (cons x) <$> remove_res r l
  end.

Definition release (k : kind) (x size : Z) : M unit := fun s =>
  match remove_res (k, x, size) (ledger s) with
  | Some l => Some (tt, Os (answers s) l)
  | None => None
  end.

(** [munmap] of no bytes fails and has no effect. *)
Definition munmap (x size : Z) : M unit := if size =? 0 then mret tt else release KMmap x size.

(** A loop over a list, in order. *)
Fixpoint for_each {A} (f : A -> M unit) (l : list A) : M unit :=
  match l with
  | [] => mret tt
  | x :: l => f x ;; for_each f l
  end.

(** ** Ownership *)

(** With [need] held, next to any other resources, [m] runs to its end and then
    holds [post] of its result instead. *)
Definition triple {A} (need : list res) (m : M A) (post : A -> list res) : Prop :=
  forall s L, ledger s ≡ₚ need ++ L ->
    exists x s', m s = Some (x, s') /\ ledger s' ≡ₚ post x ++ L.

Lemma t_ret {A} (x : A) R (post : A -> list res) : R ≡ₚ post x -> triple R (mret x) post.
Proof. intros Hp s L Hs. exists x, s. split; [done|]. by rewrite Hs, Hp. Qed.

Lemma t_bind {A B} (m : M A) (f : A -> M B) R mid post :
  triple R m mid -> (forall x, triple (mid x) (f x) post) -> triple R (m ≫= f) post.
Proof.
  intros Hm Hf s L Hs. destruct (Hm s L Hs) as (x & s1 & E & H1). destruct (Hf x s1 L H1) as (y & s2 & E2 & H2).
  exists y, s2. split; [|done]. unfold mbind, M_bind. by rewrite E.
Qed.

Lemma t_need {A} (m : M A) R R' post : R ≡ₚ R' -> triple R' m post -> triple R m post.
Proof. intros Hp Hm s L Hs. apply Hm. by rewrite Hs, Hp. Qed.

Lemma t_post {A} (m : M A) R post post' :
  triple R m post -> (forall x, post x ≡ₚ post' x) -> triple R m post'.
Proof.
  intros Hm Hp s L Hs. destruct (Hm s L Hs) as (x & s' & E & H'). exists x, s'. split; [done|]. by rewrite <- Hp.
Qed.

(** What [m] does not need stays. *)
Lemma t_frame {A} (m : M A) R F post : triple R m post -> triple (R ++ F) m (fun x => post x ++ F).
Proof.
  intros Hm s L Hs. destruct (Hm s (F ++ L)) as (x & s' & E & H'); [by rewrite Hs, (assoc_L (++))|].
  exists x, s'. split; [done|]. by rewrite H', (assoc_L (++)).
Qed.

Lemma t_ask R : triple R ask (fun _ => R).
Proof.
  intros s L Hs. unfold ask. destruct (answers s) as [|a l]; eexists _, _; (split; [done|]); done.
Qed.

Lemma t_acquire k size R :
  triple R (acquire k size) (fun r => match r with Some x => (k, x, size) :: R | None => R end).
Proof.
  eapply t_bind; [apply t_ask|]. intros [x|].
  - intros s L Hs. eexists _, _. split; [done|]. cbn [ledger]. by rewrite Hs.
  - by apply t_ret.
Qed.

Lemma remove_res_perm r l L : l ≡ₚ r :: L -> exists l', remove_res r l = Some l' /\ l' ≡ₚ L.
Proof.
  revert L. induction l as [|x l IH]; intros L Hp.
  - apply Permutation_nil_l in Hp. done.
  - cbn [remove_res]. destruct (decide (x = r)) as [->|Hne].
    + exists l. split; [done|]. by apply Permutation_cons_inv in Hp.
    + assert (x ∈ r :: L) as [?|Hx]%elem_of_cons by (rewrite <- Hp; left); [done|].
      apply elem_of_Permutation in Hx as [L' HL].
      destruct (IH L') as (l' & -> & Hl').
      { apply (Permutation_cons_inv (a := x)). rewrite Hp, HL. apply perm_swap. }
      exists (x :: l'). split; [done|]. by rewrite Hl', HL.
Qed.

Lemma t_release k x size R : triple ((k, x, size) :: R) (release k x size) (fun _ => R).
Proof.
  intros s L Hs. unfold release. destruct (remove_res_perm (k, x, size) (ledger s) (R ++ L) Hs) as (l' & -> & Hl').
  eexists _, _. by split.
Qed.

Lemma t_munmap x size R :
  size <> 0 -> triple ((KMmap, x, size) :: R) (munmap x size) (fun _ => R).
Proof. intros Hs. unfold munmap. rewrite (proj2 (Z.eqb_neq size 0)) by done. apply t_release. Qed.

Lemma t_munmap_none x R : triple R (munmap x 0) (fun _ => R).
Proof. by apply t_ret. Qed.

Lemma t_lift {A} (o : option A) x R post : o = Some x -> R ≡ₚ post x -> triple R (lift o) post.
Proof. intros -> Hp s L Hs. exists x, s. split; [done|]. by rewrite Hs, Hp. Qed.

Lemma t_lift_bind {A B} (o : option A) x (f : A -> M B) R post :
  o = Some x -> triple R (f x) post -> triple R (lift o ≫= f) post.
Proof. intros -> Hf s L Hs. exact (Hf s L Hs). Qed.

(** A loop that gives back what belongs to each element. *)
Lemma t_for_each {A} (f : A -> M unit) (own : A -> list res) l R :
  (forall x S, x ∈ l -> triple (own x ++ S) (f x) (fun _ => S)) ->
  triple (concat (own <$> l) ++ R) (for_each f l) (fun _ => R).
Proof.
  intros Hf. induction l as [|x l IH]; cbn [for_each fmap list_fmap concat].
  - by apply t_ret.
  - eapply t_bind.
    + rewrite <- (assoc_L (++)). apply Hf. left.
    + intros u. apply IH. intros y S Hy. apply Hf. by right.
Qed.

(** What is held afterwards may depend on more than the result. *)
Definition outcomes {A} (need : list res) (m : M A) (post : A -> list res -> Prop) : Prop :=
  forall s L, ledger s ≡ₚ need ++ L ->
    exists x s' R, m s = Some (x, s') /\ post x R /\ ledger s' ≡ₚ R ++ L.

Lemma o_triple {A} R (m : M A) mid (post : A -> list res -> Prop) :
  triple R m mid -> (forall x, post x (mid x)) -> outcomes R m post.
Proof.
  intros Hm Hp s L Hs. destruct (Hm s L Hs) as (x & s' & E & H'). by exists x, s', (mid x).
Qed.

Lemma o_ret {A} (x : A) R (post : A -> list res -> Prop) : post x R -> outcomes R (mret x) post.
Proof. intros Hp s L Hs. by exists x, s, R. Qed.

Lemma o_bind {A B} (m : M A) (f : A -> M B) R mid post :
  triple R m mid -> (forall x, outcomes (mid x) (f x) post) -> outcomes R (m ≫= f) post.
Proof.
  intros Hm Hf s L Hs. destruct (Hm s L Hs) as (x & s1 & E & H1). destruct (Hf x s1 L H1) as (y & s2 & R' & E2 & H2).
  exists y, s2, R'. split; [|done]. unfold mbind, M_bind. by rewrite E.
Qed.

Lemma o_bind2 {A B} (m : M A) (f : A -> M B) R mid post :
  outcomes R m mid -> (forall x R', mid x R' -> outcomes R' (f x) post) -> outcomes R (m ≫= f) post.
Proof.
  intros Hm Hf s L Hs. destruct (Hm s L Hs) as (x & s1 & R1 & E & Hx & H1).
  destruct (Hf x R1 Hx s1 L H1) as (y & s2 & R' & E2 & H2).
  exists y, s2, R'. split; [|done]. unfold mbind, M_bind. by rewrite E.
Qed.

(** ** Automation *)

Create HintDb own.

Lemma bring_cons (x y : res) l R : l ≡ₚ x :: R -> y :: l ≡ₚ x :: y :: R.
Proof. intros ->. apply perm_swap. Qed.
Lemma bring_app (x : res) (B : list res) l R : l ≡ₚ x :: R -> B ++ l ≡ₚ x :: (B ++ R).
Proof. intros ->. solve_Permutation. Qed.
Lemma bring_block_cons (B : list res) (y : res) l R : l ≡ₚ B ++ R -> y :: l ≡ₚ B ++ y :: R.
Proof. intros ->. solve_Permutation. Qed.
Lemma bring_block_app (B C : list res) l R : l ≡ₚ B ++ R -> C ++ l ≡ₚ B ++ (C ++ R).
Proof. intros ->. solve_Permutation. Qed.

(** Bring what is needed next to the front of what is held. *)
Ltac bring :=
  first
    [ reflexivity
    | simple apply bring_cons; bring
    | simple apply bring_app; bring
    | simple apply bring_block_cons; bring
    | simple apply bring_block_app; bring ].

#[export] Hint Resolve t_acquire t_ask : own.

(** One step of straight-line code: the rules for acquiring and asking, and the
    [own] database for the functions of a component. *)
Ltac own_step :=
  lazymatch goal with
  | |- triple _ (mret _) _ => apply t_ret; cbn [app]; solve_Permutation
  | |- triple _ (release _ _ _) _ => eapply t_need; [|apply t_release]; [bring]
  | |- triple _ (release _ _ _ ≫= _) _ =>
      eapply t_bind; [eapply t_need; [|apply t_release]; [bring]|]; intros ?; cbv beta
  | |- triple _ (munmap _ _ ≫= _) _ =>
      eapply t_bind; [eapply t_need; [|apply t_munmap; assumption]; [bring]|]; intros ?; cbv beta
  | |- triple _ (munmap _ _) _ => eapply t_need; [|apply t_munmap; assumption]; [bring]
  | |- triple _ (_ ≫= _) _ =>
      first
        [ eapply t_bind; [solve [simple eapply t_acquire | simple eapply t_ask | eauto 1 with own]|];
          intros [?|]; cbv beta iota
        | eapply t_bind; [eapply t_need; [|solve [eauto 1 with own]]; [bring]|]; intros ?; cbv beta ]
  end.
Ltac own := repeat own_step.

(** The same where what is held is to be described afterwards. *)
Ltac own_out :=
  repeat lazymatch goal with
  | |- outcomes _ (release _ _ _ ≫= _) _ =>
      eapply o_bind; [eapply t_need; [|apply t_release]; [bring]|]; intros ?; cbv beta
  | |- outcomes _ (munmap _ 0 ≫= _) _ => eapply o_bind; [apply t_munmap_none|]; intros ?; cbv beta
  | |- outcomes _ (_ ≫= _) _ =>
      eapply o_bind; [solve [simple eapply t_acquire | simple eapply t_ask | eauto 1 with own]|];
      intros [?|]; cbv beta iota
  end.

(** ** Results *)

(** Whatever [m] returns satisfies [Q]. *)
Definition yields {A} (m : M A) (Q : A -> Prop) : Prop := forall s x s', m s = Some (x, s') -> Q x.

Lemma y_ret {A} (x : A) (Q : A -> Prop) : Q x -> yields (mret x) Q.
Proof. intros Hq s y s' [= <- _]. done. Qed.

Lemma y_any {A} (m : M A) : yields m (fun _ => True).
Proof. done. Qed.

Lemma y_bind {A B} (m : M A) (f : A -> M B) P Q :
  yields m P -> (forall x, P x -> yields (f x) Q) -> yields (m ≫= f) Q.
Proof.
  intros Hm Hf s y s2 E. unfold mbind, M_bind in E. destruct (m s) as [[x s1]|] eqn:Em; [|done].
  exact (Hf x (Hm s x s1 Em) s1 y s2 E).
Qed.

(** The result of the first part does not matter. *)
Lemma y_then {A B} (m : M A) (f : A -> M B) Q : (forall x, yields (f x) Q) -> yields (m ≫= f) Q.
Proof. intros Hf. apply (y_bind m f (fun _ => True)); [apply y_any|]. intros x _. apply Hf. Qed.

Lemma y_lift {A} (o : option A) (Q : A -> Prop) : (forall x, o = Some x -> Q x) -> yields (lift o) Q.
Proof. intros Hq s x s' E. unfold lift in E. destruct o as [y|]; [|done]. injection E as <- _. by apply Hq. Qed.

(** Ownership after a part whose result is known to satisfy [Q]. *)
Lemma t_bind_y {A B} (m : M A) (f : A -> M B) (Q : A -> Prop) R mid post :
  triple R m mid -> yields m Q -> (forall x, Q x -> triple (mid x) (f x) post) -> triple R (m ≫= f) post.
Proof.
  intros Hm Hy Hf s L Hs. destruct (Hm s L Hs) as (x & s1 & E & H1).
  destruct (Hf x (Hy _ _ _ E) s1 L H1) as (y & s2 & E2 & H2).
  exists y, s2. split; [|done]. unfold mbind, M_bind. by rewrite E.
Qed.

Lemma y_weaken {A} (m : M A) (P Q : A -> Prop) : yields m P -> (forall x, P x -> Q x) -> yields m Q.
Proof. intros Hm HPQ s x s' E. apply HPQ. by eapply Hm. Qed.

Lemma o_bind_y {A B} (m : M A) (f : A -> M B) (Q : A -> Prop) R mid post :
  triple R m mid -> yields m Q -> (forall x, Q x -> outcomes (mid x) (f x) post) -> outcomes R (m ≫= f) post.
Proof.
  intros Hm Hy Hf s L Hs. destruct (Hm s L Hs) as (x & s1 & E & H1).
  destruct (Hf x (Hy _ _ _ E) s1 L H1) as (y & s2 & R' & E2 & H2).
  exists y, s2, R'. split; [|done]. unfold mbind, M_bind. by rewrite E.
Qed.
