(* ===== verification/Plane.v ===== *)
(** * The user-space driver's set-up (src/lib/ixmap.c)

    Opening a device, its interrupts, the descriptor rings of a core, the packet
    buffers and the per-core view of the ports, with every failure path.  The
    state of a ring and of the buffers is that of Driver.v; what the system
    grants is the monad of Os.v.  Sizes are those of a 64-bit machine. *)

From stdpp Require Import prelude list.
From S2P Require Import Prelude Os Driver.

(** ** Constants *)

Definition ALIGN64 (x a : Z) : Z := Z.land (u64 (x + (a - 1))) (Z.lxor (a - 1) (2 ^ 64 - 1)).
Definition SIZE_1GB : Z := Z.shiftl 1 30.
Definition L1_CACHE_BYTES : Z := Z.shiftl 1 6.

Definition sizeof_ixmap_handle : Z := 112.
Definition sizeof_ixmap_ring : Z := 40.
Definition sizeof_ixmap_plane : Z := 8.
Definition sizeof_ixmap_port : Z := 136.
Definition sizeof_ixmap_desc : Z := 24.
Definition sizeof_ixmap_buf : Z := 32.
Definition sizeof_irq_handle : Z := 24.
Definition sizeof_adv_desc : Z := 16.

Definition IXGBE_EIMS_EX (i : Z) : Z := 0x00AA0 + i * 4.

(** ** Data *)

(** [struct ixmap_ring], with the address of its slot array. *)
Record hring := HRing { hr_virt : Z; hr_dma : Z; hr_slot_ptr : Z; hr_tail : Z; hr_ring : ring }.

(** [struct ixmap_handle]; the ring arrays with their addresses. *)
Record handle := Handle {
  h_ptr : Z;
  h_fd : Z;
  h_bar : Z;
  h_bar_size : Z;
  h_rx_ptr : Z;
  h_tx_ptr : Z;
  h_rx : list hring;
  h_tx : list hring;
  h_num_rx_desc : Z;
  h_num_tx_desc : Z;
  h_rx_budget : Z;
  h_tx_budget : Z;
  h_num_queues : Z;
  h_num_interrupt_rate : Z;
  h_promisc : Z;
  h_mtu_frame : Z;
  h_buf_size : Z;
  h_mac_addr : list Z
}.

(** What the kernel module tells about a device ([struct ixmap_info_req]). *)
Record info_req := InfoReq {
  mmio_size : Z;
  info_mac_addr : list Z;
  max_interrupt_rate : Z;
  max_rx_queues : Z;
  max_tx_queues : Z
}.

Inductive ixmap_irq_type := IXMAP_IRQ_RX | IXMAP_IRQ_TX.

Record irq_handle := IrqHandle { irq_ptr : Z; irq_fd : Z; qmask : Z; irq_vector : Z }.

(** [struct ixmap_port]: the fields of Driver.v and the rest. *)
Record pport := PPort {
  pp_port : port;
  rx_irq : irq_handle;
  tx_irq : irq_handle;
  irqreg : Z * Z;
  pp_num_queues : Z;
  pp_mtu_frame : Z
}.

Record iplane := IPlane { pl_ptr : Z; pl_ports_ptr : Z; pl_ports : list pport }.

Record ibuf := IBuf { ib_ptr : Z; ib_dma_ptr : Z; ib_slots_ptr : Z; ib_buf : buf }.

(** [struct ixmap_desc]; [da_mem] is the area given to the memory allocator. *)
Record desc_area := DescArea { da_ptr : Z; da_virt : Z; da_node : Z; da_core : Z; da_mem : Z * Z }.

(** ** Interrupts *)

(** [1 << n] on an [int], as the processor computes it. *)
Definition int_shl (n : Z) : Z := s32 (Z.shiftl 1 (n mod 32)).

(** The masks written to smp_affinity: the low and the high word. *)
Definition affinity_masks (core_id : Z) : Z * Z :=
  (if core_id <=? 31 then u32 (int_shl core_id) else 0,
   if core_id <=? 31 then 0 else u32 (int_shl (core_id - 31))).

Definition ixmap_irq_setaffinity (vector core_id : Z) : M Z :=
  file ← acquire KFile 0;
  match file with
  | None => mret (-1)
  | Some file =>
      ret ← ask;
      release KFile file 0 ;;
      mret (match ret with None => -1 | Some _ => 0 end)
  end.

(** The queue mask of an interrupt: an [int] converted to 64 bits. *)
Definition irq_qmask (type : ixmap_irq_type) (core_id num_queues : Z) : Z :=
  match type with
  | IXMAP_IRQ_RX => u64 (int_shl core_id)
  | IXMAP_IRQ_TX => u64 (int_shl (u32 (core_id + num_queues)))
  end.

Definition ixmap_irq_open (ih : handle) (core_id : Z) (type : ixmap_irq_type) : M (option irq_handle) :=
  if h_num_queues ih <=? core_id then mret None
  else
    efd ← acquire KFd 0;
    match efd with
    | None => mret None
    | Some efd =>
      vector ← ask;
      match vector with
      | None => release KFd efd 0 ;; mret None
      | Some vector =>
        ret ← ixmap_irq_setaffinity vector core_id;
        if ret <? 0 then release KFd efd 0 ;; mret None
        else
          irqh ← acquire KNuma sizeof_irq_handle;
          match irqh with
          | None => release KFd efd 0 ;; mret None
          | Some irqh => mret (Some (IrqHandle irqh efd (irq_qmask type core_id (h_num_queues ih)) vector))
          end
      end
    end.

Definition ixmap_irq_close (irqh : irq_handle) : M unit :=
  release KFd (irq_fd irqh) 0 ;;
  release KNuma (irq_ptr irqh) sizeof_irq_handle.

Definition ixmap_irq_handle (pl : iplane) (port_index : Z) (type : ixmap_irq_type) : option irq_handle :=
  p ← load (pl_ports pl) port_index;
  Some (match type with IXMAP_IRQ_RX => rx_irq p | IXMAP_IRQ_TX => tx_irq p end).

Definition ixmap_irq_fd (pl : iplane) (port_index : Z) (type : ixmap_irq_type) : option Z :=
  irq_fd <$> ixmap_irq_handle pl port_index type.

(** ** DMA mappings *)

Definition ixmap_dma_map (ih : handle) (addr_virt size : Z) : M (option Z) := acquire (KDma (h_fd ih)) 0.
Definition ixmap_dma_unmap (ih : handle) (addr_dma : Z) : M unit := release (KDma (h_fd ih)) addr_dma 0.

(** ** Opening a device *)

Definition mmap (size : Z) : M (option Z) := if size =? 0 then mret None else acquire KMmap size.

Definition empty_hring : hring := HRing 0 0 0 0 (Ring 0 0 [] [] 0).

Definition ixmap_open (info : info_req) (num_queues_req intr_rate rx_budget tx_budget mtu_frame promisc
    num_rx_desc num_tx_desc : Z) : M (option handle) :=
  ih ← acquire KMalloc sizeof_ixmap_handle;
  match ih with
  | None => mret None
  | Some ih =>
    fd ← acquire KFd 0;
    match fd with
    | None => release KMalloc ih sizeof_ixmap_handle ;; mret None
    | Some fd =>
      let err_ioctl : M (option handle) :=
        release KFd fd 0 ;; release KMalloc ih sizeof_ixmap_handle ;; mret None in
      r ← ask;
      match r with
      | None => err_ioctl
      | Some _ =>
        let rate := Z.min intr_rate (max_interrupt_rate info) in
        let num_queues := Z.min num_queues_req (Z.min (max_rx_queues info) (max_tx_queues info)) in
        r ← ask;
        match r with
        | None => err_ioctl
        | Some _ =>
          bar ← mmap (mmio_size info);
          match bar with
          | None => err_ioctl
          | Some bar =>
            (* the structure was cleared, and [bar_size] is set at the end *)
            let bar_size := 0 in
            rx ← acquire KMalloc (sizeof_ixmap_ring * num_queues);
            match rx with
            | None => munmap bar bar_size ;; err_ioctl
            | Some rx =>
              tx ← acquire KMalloc (sizeof_ixmap_ring * num_queues);
              match tx with
              | None =>
                  release KMalloc rx (sizeof_ixmap_ring * num_queues) ;; munmap bar bar_size ;; err_ioctl
              | Some tx =>
                  let rings := replicate (Z.to_nat num_queues) empty_hring in
                  mret (Some (Handle ih fd bar (mmio_size info) rx tx rings rings num_rx_desc num_tx_desc
                    rx_budget tx_budget num_queues rate (if promisc =? 0 then 0 else 1) mtu_frame 0
                    (info_mac_addr info)))
              end
            end
          end
        end
      end
    end
  end.

Definition ixmap_close (ih : handle) : M unit :=
  release KMalloc (h_tx_ptr ih) (sizeof_ixmap_ring * h_num_queues ih) ;;
  release KMalloc (h_rx_ptr ih) (sizeof_ixmap_ring * h_num_queues ih) ;;
  munmap (h_bar ih) (h_bar_size ih) ;;
  release KFd (h_fd ih) 0 ;;
  release KMalloc (h_ptr ih) sizeof_ixmap_handle.

(** ** The descriptor rings of a core *)

Definition set_rx_hring (core : Z) (r : hring) (ih : handle) : option handle :=
  l ← store (h_rx ih) core r;
  Some (Handle (h_ptr ih) (h_fd ih) (h_bar ih) (h_bar_size ih) (h_rx_ptr ih) (h_tx_ptr ih) l (h_tx ih)
    (h_num_rx_desc ih) (h_num_tx_desc ih) (h_rx_budget ih) (h_tx_budget ih) (h_num_queues ih)
    (h_num_interrupt_rate ih) (h_promisc ih) (h_mtu_frame ih) (h_buf_size ih) (h_mac_addr ih)).

Definition set_tx_hring (core : Z) (r : hring) (ih : handle) : option handle :=
  l ← store (h_tx ih) core r;
  Some (Handle (h_ptr ih) (h_fd ih) (h_bar ih) (h_bar_size ih) (h_rx_ptr ih) (h_tx_ptr ih) (h_rx ih) l
    (h_num_rx_desc ih) (h_num_tx_desc ih) (h_rx_budget ih) (h_tx_budget ih) (h_num_queues ih)
    (h_num_interrupt_rate ih) (h_promisc ih) (h_mtu_frame ih) (h_buf_size ih) (h_mac_addr ih)).

(** A ring just set up, in zeroed memory. *)
Definition new_hring (virt dma slot_ptr num : Z) : hring :=
  HRing virt dma slot_ptr 0
    (Ring 0 0 (replicate (Z.to_nat num) 0) (replicate (Z.to_nat num) (AdvDesc 0 0)) 0).

(** The two ring sizes of a port, aligned. *)
Definition size_rx_desc (ih : handle) : Z := ALIGN64 (u64 (sizeof_adv_desc * h_num_rx_desc ih)) 128.
Definition size_tx_desc (ih : handle) : Z := ALIGN64 (u64 (sizeof_adv_desc * h_num_tx_desc ih)) 128.

(** One iteration: the handle with its rings and the next address, or the
    handle as it was left by a failure that has been cleaned up. *)
Definition desc_port (core_id addr_virt : Z) (ih : handle) : M (handle * option Z) :=
  rx_dma ← ixmap_dma_map ih addr_virt (size_rx_desc ih);
  match rx_dma with
  | None => mret (ih, None)
  | Some rx_dma =>
    rx_slots ← acquire KNuma (4 * h_num_rx_desc ih);
    match rx_slots with
    | None => ixmap_dma_unmap ih rx_dma ;; mret (ih, None)
    | Some rx_slots =>
      ih1 ← lift (set_rx_hring core_id (new_hring addr_virt rx_dma rx_slots (h_num_rx_desc ih)) ih);
      let addr_tx := addr_virt + size_rx_desc ih in
      tx_dma ← ixmap_dma_map ih addr_tx (size_tx_desc ih);
      match tx_dma with
      | None =>
          release KNuma rx_slots (4 * h_num_rx_desc ih) ;; ixmap_dma_unmap ih rx_dma ;; mret (ih1, None)
      | Some tx_dma =>
        tx_slots ← acquire KNuma (4 * h_num_tx_desc ih);
        match tx_slots with
        | None =>
            ixmap_dma_unmap ih tx_dma ;; release KNuma rx_slots (4 * h_num_rx_desc ih) ;;
            ixmap_dma_unmap ih rx_dma ;; mret (ih1, None)
        | Some tx_slots =>
            ih2 ← lift (set_tx_hring core_id (new_hring addr_tx tx_dma tx_slots (h_num_tx_desc ih)) ih1);
            mret (ih2, Some (addr_tx + size_rx_desc ih))
        end
      end
    end
  end.

(** The loop: all handles set up and the address after the last ring, or, when
    a port failed, the handles set up and those left. *)
Fixpoint desc_loop (core_id addr_virt : Z) (l : list handle)
  : M (list handle * Z + list handle * list handle) :=
  match l with
  | [] => mret (inl ([], addr_virt))
  | ih :: l =>
      '(ih', next) ← desc_port core_id addr_virt ih;
      match next with
      | None => mret (inr ([], ih' :: l))
      | Some next =>
          r ← desc_loop core_id next l;
          mret (match r with
                | inl (hs, last) => inl (ih' :: hs, last)
                | inr (ok, rest) => inr (ih' :: ok, rest)
                end)
      end
  end.

Definition desc_unport (core_id : Z) (ih : handle) : M unit :=
  tx ← lift (load (h_tx ih) core_id);
  rx ← lift (load (h_rx ih) core_id);
  release KNuma (hr_slot_ptr tx) (4 * h_num_tx_desc ih) ;;
  ixmap_dma_unmap ih (hr_dma tx) ;;
  release KNuma (hr_slot_ptr rx) (4 * h_num_rx_desc ih) ;;
  ixmap_dma_unmap ih (hr_dma rx).

(** [ixmap_mem_init] on the memory left after the rings: the allocator of Mem.v,
    of which only the root node is acquired here. *)
Definition ixmap_mem_node (addr_mem size_mem : Z) : M (option Z) := acquire KMnode 0.

Definition ixmap_desc_alloc (ih_list : list handle) (core_id : Z) : M (list handle * option desc_area) :=
  desc ← acquire KNuma sizeof_ixmap_desc;
  match desc with
  | None => mret (ih_list, None)
  | Some desc =>
    addr_virt ← mmap SIZE_1GB;
    match addr_virt with
    | None => release KNuma desc sizeof_ixmap_desc ;; mret (ih_list, None)
    | Some addr_virt =>
      r ← desc_loop core_id addr_virt ih_list;
      let err_desc_assign (ok rest : list handle) : M (list handle * option desc_area) :=
        for_each (desc_unport core_id) ok ;;
        munmap addr_virt SIZE_1GB ;;
        release KNuma desc sizeof_ixmap_desc ;;
        mret (ok ++ rest, None) in
      match r with
      | inr (ok, rest) => err_desc_assign ok rest
      | inl (hs, next) =>
        let addr_mem := ALIGN64 next L1_CACHE_BYTES in
        let size_mem := u64 (SIZE_1GB - (addr_mem - addr_virt)) in
        node ← ixmap_mem_node addr_mem size_mem;
        match node with
        | None => err_desc_assign hs []
        | Some node => mret (hs, Some (DescArea desc addr_virt node core_id (addr_mem, size_mem)))
        end
      end
    end
  end.

Definition ixmap_desc_release (ih_list : list handle) (core_id : Z) (desc : desc_area) : M unit :=
  release KMnode (da_node desc) 0 ;;
  for_each (desc_unport core_id) ih_list ;;
  munmap (da_virt desc) SIZE_1GB ;;
  release KNuma (da_ptr desc) sizeof_ixmap_desc.

(** ** The packet buffers of a core *)

Definition buf_bytes (ih_num count buf_size : Z) : Z := u32 (buf_size * u32 (ih_num * count)).

(** The bus addresses obtained; complete unless some port failed. *)
Fixpoint buf_map_loop (addr_virt size : Z) (l : list handle) : M (list Z * bool) :=
  match l with
  | [] => mret ([], true)
  | ih :: l =>
      r ← ixmap_dma_map ih addr_virt size;
      match r with
      | None => mret ([], false)
      | Some dma => '(dmas, ok) ← buf_map_loop addr_virt size l; mret (dma :: dmas, ok)
      end
  end.

Definition buf_unmap (l : list handle) (dmas : list Z) : M unit :=
  for_each (fun x => ixmap_dma_unmap x.1 x.2) (zip l dmas).

Definition ixmap_buf_alloc (ih_list : list handle) (count buf_size : Z) : M (option ibuf) :=
  let ih_num := Z.of_nat (length ih_list) in
  buf ← acquire KNuma sizeof_ixmap_buf;
  match buf with
  | None => mret None
  | Some buf =>
    dma_ptr ← acquire KNuma (8 * ih_num);
    match dma_ptr with
    | None => release KNuma buf sizeof_ixmap_buf ;; mret None
    | Some dma_ptr =>
      let size := buf_bytes ih_num count buf_size in
      addr_virt ← mmap size;
      match addr_virt with
      | None => release KNuma dma_ptr (8 * ih_num) ;; release KNuma buf sizeof_ixmap_buf ;; mret None
      | Some addr_virt =>
        '(dmas, ok) ← buf_map_loop addr_virt size ih_list;
        let err : M (option ibuf) :=
          buf_unmap ih_list dmas ;;
          munmap addr_virt size ;;
          release KNuma dma_ptr (8 * ih_num) ;;
          release KNuma buf sizeof_ixmap_buf ;;
          mret None in
        if negb ok then err
        else
          slots ← acquire KNuma (4 * u32 (count * ih_num));
          match slots with
          | None => err
          | Some slots =>
              mret (Some (IBuf buf dma_ptr slots
                (Buf addr_virt dmas buf_size count (replicate (Z.to_nat (u32 (count * ih_num))) 0))))
          end
      end
    end
  end.

Definition ixmap_buf_release (b : ibuf) (ih_list : list handle) : M unit :=
  let ih_num := Z.of_nat (length ih_list) in
  release KNuma (ib_slots_ptr b) (4 * u32 (count (ib_buf b) * ih_num)) ;;
  buf_unmap ih_list (addr_dma (ib_buf b)) ;;
  munmap (addr_virt (ib_buf b)) (buf_bytes ih_num (count (ib_buf b)) (buf_size (ib_buf b))) ;;
  release KNuma (ib_dma_ptr b) (8 * ih_num) ;;
  release KNuma (ib_ptr b) sizeof_ixmap_buf.

(** ** The ports as one core sees them *)

(** The assignments at the head of the loop; [None] past the rings of a port. *)
Definition plane_port (ih : handle) (b : buf) (i core_id : Z) : option port :=
  rx ← load (h_rx ih) core_id;
  tx ← load (h_tx ih) core_id;
  Some (Port (hr_ring rx) (hr_ring tx) 0 (u32 (i * count b)) 0 (h_num_rx_desc ih) (h_num_tx_desc ih)
          (h_rx_budget ih) (h_tx_budget ih) (h_mac_addr ih) 0 0 0 0).

Definition close_port (p : pport) : M unit := ixmap_irq_close (rx_irq p) ;; ixmap_irq_close (tx_irq p).

(** The ports assigned; complete unless an interrupt could not be opened. *)
Fixpoint plane_loop (b : buf) (core_id i : Z) (l : list handle) : M (list pport * bool) :=
  match l with
  | [] => mret ([], true)
  | ih :: l =>
      p ← lift (plane_port ih b i core_id);
      rx ← ixmap_irq_open ih core_id IXMAP_IRQ_RX;
      match rx with
      | None => mret ([], false)
      | Some rx =>
        tx ← ixmap_irq_open ih core_id IXMAP_IRQ_TX;
        match tx with
        | None => ixmap_irq_close rx ;; mret ([], false)
        | Some tx =>
            '(ps, ok) ← plane_loop b core_id (i + 1) l;
            mret (PPort p rx tx (h_bar ih + IXGBE_EIMS_EX 0, h_bar ih + IXGBE_EIMS_EX 1)
                    (h_num_queues ih) (h_mtu_frame ih) :: ps, ok)
        end
      end
  end.

Definition ixmap_plane_alloc (ih_list : list handle) (b : buf) (core_id : Z) : M (option iplane) :=
  let ih_num := Z.of_nat (length ih_list) in
  plane ← acquire KNuma sizeof_ixmap_plane;
  match plane with
  | None => mret None
  | Some plane =>
    ports ← acquire KNuma (sizeof_ixmap_port * ih_num);
    match ports with
    | None => release KNuma plane sizeof_ixmap_plane ;; mret None
    | Some ports =>
      '(ps, ok) ← plane_loop b core_id 0 ih_list;
      if ok : bool then mret (Some (IPlane plane ports ps))
      else
        for_each close_port ps ;;
        release KNuma ports (sizeof_ixmap_port * ih_num) ;;
        release KNuma plane sizeof_ixmap_plane ;;
        mret None
    end
  end.

Definition ixmap_plane_release (pl : iplane) (ih_num : Z) : M unit :=
  for_each close_port (pl_ports pl) ;;
  release KNuma (pl_ports_ptr pl) (sizeof_ixmap_port * ih_num) ;;
  release KNuma (pl_ptr pl) sizeof_ixmap_plane.

Definition ixmap_bufsize_get (ih : handle) : Z := h_buf_size ih.
Definition ixmap_macaddr_default (ih : handle) : list Z := h_mac_addr ih.
Definition ixmap_mtu_get (ih : handle) : Z := h_mtu_frame ih.
