(* ===== verification/PlaneProps.v ===== *)
(** * Set-up: who holds what

    Every function of src/lib/ixmap.c that acquires something either returns it
    or gives all of it back, and its counterpart gives back exactly what it
    returned.  The descriptor rings do not overlap when a port has no more
    transmit than receive descriptors, and the state that results is the one
    Driver.v starts from. *)

From stdpp Require Import prelude list.
From S2P Require Import Prelude Os Driver DriverFacts DriverProps Plane.

(** ** What each object owns *)

Definition handle_res (ih : handle) : list res :=
  [(KMalloc, h_tx_ptr ih, sizeof_ixmap_ring * h_num_queues ih);
   (KMalloc, h_rx_ptr ih, sizeof_ixmap_ring * h_num_queues ih);
   (KMmap, h_bar ih, h_bar_size ih); (KFd, h_fd ih, 0); (KMalloc, h_ptr ih, sizeof_ixmap_handle)].

Definition irq_res (h : irq_handle) : list res := [(KFd, irq_fd h, 0); (KNuma, irq_ptr h, sizeof_irq_handle)].

Definition port_res (p : pport) : list res := irq_res (rx_irq p) ++ irq_res (tx_irq p).

Definition plane_res (n : Z) (pl : iplane) : list res :=
  concat (port_res <$> pl_ports pl) ++
  [(KNuma, pl_ports_ptr pl, sizeof_ixmap_port * n); (KNuma, pl_ptr pl, sizeof_ixmap_plane)].

Definition ring_res (core : Z) (ih : handle) : list res :=
  match load (h_tx ih) core, load (h_rx ih) core with
  | Some tx, Some rx =>
      [(KNuma, hr_slot_ptr tx, 4 * h_num_tx_desc ih); (KDma (h_fd ih), hr_dma tx, 0);
       (KNuma, hr_slot_ptr rx, 4 * h_num_rx_desc ih); (KDma (h_fd ih), hr_dma rx, 0)]
  | _, _ => []
  end.

Definition desc_res (core : Z) (l : list handle) (d : desc_area) : list res :=
  (KMnode, da_node d, 0) :: concat (ring_res core <$> l) ++
  [(KMmap, da_virt d, SIZE_1GB); (KNuma, da_ptr d, sizeof_ixmap_desc)].

Definition dma_res (l : list handle) (dmas : list Z) : list res :=
  concat ((fun x : handle * Z => [(KDma (h_fd x.1), x.2, 0)]) <$> zip l dmas).

Definition buf_res (l : list handle) (b : ibuf) : list res :=
  let n := Z.of_nat (length l) in
  (KNuma, ib_slots_ptr b, 4 * u32 (count (ib_buf b) * n)) :: dma_res l (addr_dma (ib_buf b)) ++
  [(KMmap, addr_virt (ib_buf b), buf_bytes n (count (ib_buf b)) (buf_size (ib_buf b)));
   (KNuma, ib_dma_ptr b, 8 * n); (KNuma, ib_ptr b, sizeof_ixmap_buf)].

(** What is held next to [R] when a function returned an object or not. *)
Definition maybe {A} (own : A -> list res) (R : list res) (r : option A) : list res :=
  match r with Some x => own x ++ R | None => R end.

(** ** Interrupts *)

Lemma t_setaffinity v c R : triple R (ixmap_irq_setaffinity v c) (fun _ => R).
Proof. unfold ixmap_irq_setaffinity. own. Qed.

Lemma t_irq_open ih c ty R : triple R (ixmap_irq_open ih c ty) (maybe irq_res R).
Proof.
  unfold ixmap_irq_open. destruct (h_num_queues ih <=? c); own.
  eapply t_bind; [apply t_setaffinity|]. intros ret. cbv beta. destruct (ret <? 0); own.
Qed.

Lemma t_irq_close h R : triple (irq_res h ++ R) (ixmap_irq_close h) (fun _ => R).
Proof. unfold ixmap_irq_close, irq_res. cbn [app]. own. Qed.

#[export] Hint Resolve t_irq_open t_irq_close : own.

(** ** The device *)

Lemma t_mmap size R :
  triple R (mmap size) (fun r => match r with Some x => (KMmap, x, size) :: R | None => R end).
Proof. unfold mmap. destruct (size =? 0); [by apply t_ret|apply t_acquire]. Qed.

#[export] Hint Resolve t_mmap : own.

(** A handle as [ixmap_open] returns it. *)
Record opened (info : info_req) (nq nrx ntx : Z) (ih : handle) : Prop := {
  op_bar : h_bar_size ih = mmio_size info;
  op_queues : h_num_queues ih = Z.min nq (Z.min (max_rx_queues info) (max_tx_queues info));
  op_rx : length (h_rx ih) = Z.to_nat (h_num_queues ih);
  op_tx : length (h_tx ih) = Z.to_nat (h_num_queues ih);
  op_nrx : h_num_rx_desc ih = nrx;
  op_ntx : h_num_tx_desc ih = ntx
}.

(** On failure the mapping of the registers may be left behind. *)
Definition open_post (info : info_req) (nq nrx ntx : Z) (R : list res) (r : option handle) (R' : list res) : Prop :=
  match r with
  | Some ih => R' ≡ₚ handle_res ih ++ R /\ opened info nq nrx ntx ih
  | None => R' ≡ₚ R \/ exists bar, R' ≡ₚ (KMmap, bar, mmio_size info) :: R
  end.

Lemma o_open info nq rate rxb txb mtu pr nrx ntx R :
  outcomes R (ixmap_open info nq rate rxb txb mtu pr nrx ntx) (open_post info nq nrx ntx R).
Proof.
  unfold ixmap_open. cbv zeta. own_out; apply o_ret; cbn [open_post]; try (by left); try (right; eauto; fail).
  split; [done|]. split; cbn; rewrite ?length_replicate; done.
Qed.

Lemma t_close ih R : h_bar_size ih <> 0 -> triple (handle_res ih ++ R) (ixmap_close ih) (fun _ => R).
Proof. intros Hb. unfold ixmap_close, handle_res. cbn [app]. own. Qed.

(** ** The rings *)

(** The handle has rings for the core. *)
Definition has_core (core : Z) (ih : handle) : Prop :=
  0 <= core < Z.of_nat (length (h_rx ih)) /\ core < Z.of_nat (length (h_tx ih)).

Lemma t_dma_map ih a n R :
  triple R (ixmap_dma_map ih a n) (fun r => match r with Some x => (KDma (h_fd ih), x, 0) :: R | None => R end).
Proof. apply t_acquire. Qed.

#[export] Hint Resolve t_dma_map : own.

Lemma t_desc_port core a ih R :
  has_core core ih ->
  triple R (desc_port core a ih) (fun r => match r.2 with Some _ => ring_res core r.1 ++ R | None => R end).
Proof.
  intros [Hrx Htx]. unfold desc_port, ixmap_dma_unmap. own; cbn [snd].
  unfold set_rx_hring, set_tx_hring. rewrite store_some by lia. opt. eapply t_lift_bind; [done|]. cbv zeta. own; cbn [snd].
  cbn [h_tx]. rewrite store_some by lia. opt. eapply t_lift_bind; [done|]. apply t_ret. cbn [fst snd].
  unfold ring_res. cbn [h_tx h_rx]. rewrite !load_lookup, !list_lookup_insert_eq by lia. done.
Qed.

(** The rings of the core are set up, from address [a] on, and the rest of the
    handle is as it was. *)
Record rings_set (core a : Z) (ih ih' : handle) : Prop := {
  rs_rx : exists dma sl, load (h_rx ih') core = Some (new_hring a dma sl (h_num_rx_desc ih));
  rs_tx : exists dma sl, load (h_tx ih') core =
            Some (new_hring (a + size_rx_desc ih) dma sl (h_num_tx_desc ih));
  rs_nrx : h_num_rx_desc ih' = h_num_rx_desc ih;
  rs_ntx : h_num_tx_desc ih' = h_num_tx_desc ih;
  rs_fd : h_fd ih' = h_fd ih;
  rs_queues : h_num_queues ih' = h_num_queues ih;
  rs_lens : length (h_rx ih') = length (h_rx ih) /\ length (h_tx ih') = length (h_tx ih)
}.

Lemma y_desc_port core a ih :
  has_core core ih ->
  yields (desc_port core a ih)
    (fun r => match r.2 with
              | Some next => rings_set core a ih r.1 /\ next = a + 2 * size_rx_desc ih
              | None => True
              end).
Proof.
  intros [Hrx Htx]. unfold desc_port. apply y_then. intros [rd|]; [|by apply y_ret].
  apply y_then. intros [rs|]; [|apply y_then; intros ?; by apply y_ret].
  unfold set_rx_hring. rewrite store_some by lia. opt.
  eapply y_bind; [apply y_lift; intros x Hx; exact Hx|]. intros ih1 [= <-]. cbv zeta.
  apply y_then. intros [td|]; [|do 2 (apply y_then; intros ?); by apply y_ret].
  apply y_then. intros [ts|]; [|do 3 (apply y_then; intros ?); by apply y_ret].
  unfold set_tx_hring. cbn [h_tx]. rewrite store_some by lia. opt.
  eapply y_bind; [apply y_lift; intros x Hx; exact Hx|]. intros ih2 [= <-]. apply y_ret. cbn [fst snd].
  split; [|lia]. split; cbn [h_rx h_tx h_num_rx_desc h_num_tx_desc h_fd h_num_queues]; try done.
  - exists rd, rs. rewrite load_lookup, list_lookup_insert_eq by lia. done.
  - exists td, ts. rewrite load_lookup, list_lookup_insert_eq by lia. done.
  - by rewrite !length_insert.
Qed.

(** The rings of all ports, one port after the other. *)
Fixpoint layout (core a : Z) (l l' : list handle) (last : Z) : Prop :=
  match l, l' with
  | [], [] => last = a
  | ih :: l, ih' :: l' => rings_set core a ih ih' /\ layout core (a + 2 * size_rx_desc ih) l l' last
  | _, _ => False
  end.

Lemma y_desc_loop core a l :
  Forall (has_core core) l ->
  yields (desc_loop core a l)
    (fun r => match r with
              | inl (hs, last) => layout core a l hs last
              | inr (ok, _) => exists l1 l2 last, l = l1 ++ l2 /\ layout core a l1 ok last
              end).
Proof.
  intros Hl. revert a. induction Hl as [|ih l Hih _ IH]; intros a; cbn [desc_loop].
  { by apply y_ret. }
  eapply y_bind; [by apply y_desc_port|]. intros [ih' [next|]]; cbn [fst snd].
  - intros [Hs ->]. eapply y_bind; [apply IH|]. intros [[hs last]|[ok rest]] Hr; apply y_ret.
    + done.
    + destruct Hr as (l1 & l2 & last & -> & Hlay). by exists (ih :: l1), l2, last.
  - intros _. apply y_ret. by exists [], (ih :: l), a.
Qed.

Lemma layout_loaded core a l l' last :
  layout core a l l' last -> Forall (fun ih => is_Some (load (h_rx ih) core) /\ is_Some (load (h_tx ih) core)) l'.
Proof.
  revert a l. induction l' as [|ih' l' IH]; intros a [|ih l]; [by constructor|by constructor|done|].
  intros [[(? & ? & Hr) (? & ? & Ht) _ _ _ _ _] Hlay]. constructor; [by rewrite Hr, Ht|]. by eapply IH.
Qed.

Lemma t_desc_loop core a l R :
  Forall (has_core core) l ->
  triple R (desc_loop core a l)
    (fun r => concat (ring_res core <$> match r with inl x => x.1 | inr x => x.1 end) ++ R).
Proof.
  intros Hl. revert a R. induction Hl as [|ih l Hih _ IH]; intros a R; cbn [desc_loop].
  { by apply t_ret. }
  eapply t_bind; [by apply t_desc_port|]. intros [ih' [next|]]; cbn [fst snd].
  - eapply t_bind; [apply IH|]. intros [[hs last]|[ok rest]]; apply t_ret; cbn; solve_Permutation.
  - by apply t_ret.
Qed.

Lemma t_desc_unport core ih R :
  is_Some (load (h_rx ih) core) -> is_Some (load (h_tx ih) core) ->
  triple (ring_res core ih ++ R) (desc_unport core ih) (fun _ => R).
Proof.
  intros [rx Erx] [tx Etx]. unfold ring_res, desc_unport. rewrite Etx, Erx.
  eapply t_lift_bind; [done|]. eapply t_lift_bind; [done|]. unfold ixmap_dma_unmap. cbn [app]. own.
Qed.

Lemma t_unport_all core a l l' last R :
  layout core a l l' last ->
  triple (concat (ring_res core <$> l') ++ R) (for_each (desc_unport core) l') (fun _ => R).
Proof.
  intros Hlay%layout_loaded. apply t_for_each. intros ih S Hin.
  rewrite Forall_forall in Hlay. destruct (Hlay ih Hin). by apply t_desc_unport.
Qed.

Definition desc_post (core : Z) (l : list handle) (R : list res) (r : list handle * option desc_area) : list res :=
  match r.2 with Some d => desc_res core r.1 d ++ R | None => R end.

Lemma t_desc_alloc core l R :
  Forall (has_core core) l -> triple R (ixmap_desc_alloc l core) (desc_post core l R).
Proof.
  intros Hl. unfold ixmap_desc_alloc. own; cbn [snd desc_post].
  eapply t_bind_y; [by apply t_desc_loop|by apply y_desc_loop|].
  assert (forall ok rest n l1, layout core z0 l1 ok n ->
    triple (concat (ring_res core <$> ok) ++ (KMmap, z0, SIZE_1GB) :: (KNuma, z, sizeof_ixmap_desc) :: R)
      (for_each (desc_unport core) ok ;; munmap z0 SIZE_1GB ;; release KNuma z sizeof_ixmap_desc ;;
       mret (ok ++ rest, None)) (desc_post core l R)) as Herr.
  { intros ok rest n l1 Hlay. eapply t_bind; [by eapply t_unport_all|]. intros ?. cbv beta.
    eapply t_bind; [by apply t_munmap|]. intros ?. own. }
  intros [[hs last]|[ok rest]]; cbn [fst].
  - intros Hlay. cbv zeta. unfold ixmap_mem_node. eapply t_bind; [apply t_acquire|]. intros [node|].
    + apply t_ret. unfold desc_post, desc_res. cbn. solve_Permutation.
    + by apply (Herr hs [] last l).
  - intros (l1 & l2 & n & _ & Hlay). by apply (Herr ok rest n l1).
Qed.

Lemma t_desc_release core a l l' last d R :
  layout core a l l' last ->
  triple (desc_res core l' d ++ R) (ixmap_desc_release l' core d) (fun _ => R).
Proof.
  intros Hlay. unfold ixmap_desc_release, desc_res. cbn [app]. own_step. rewrite <- (assoc_L (++)). cbn [app].
  eapply t_bind; [by eapply t_unport_all|]. intros ?. cbv beta.
  eapply t_bind; [by apply t_munmap|]. intros ?. own.
Qed.

(** ** The buffers *)

Lemma t_buf_map a n l R :
  triple R (buf_map_loop a n l) (fun r => dma_res l r.1 ++ R).
Proof.
  revert R. induction l as [|ih l IH]; intros R; cbn [buf_map_loop]; [by apply t_ret|].
  eapply t_bind; [apply t_dma_map|]. intros [x|]; [|by apply t_ret].
  eapply t_bind; [apply IH|]. intros [dmas ok]. apply t_ret. unfold dma_res. cbn. solve_Permutation.
Qed.

Lemma t_buf_unmap l dmas R : triple (dma_res l dmas ++ R) (buf_unmap l dmas) (fun _ => R).
Proof.
  unfold buf_unmap, dma_res. apply t_for_each. intros [ih x] S _. cbn [fst snd app]. apply t_release.
Qed.

Lemma y_mmap size : yields (mmap size) (fun r => match r with Some _ => size <> 0 | None => True end).
Proof.
  unfold mmap. destruct (Z.eqb_spec size 0); [by apply y_ret|].
  eapply y_weaken; [apply y_any|]. by intros [x|] _.
Qed.

Lemma y_buf_map a n l :
  yields (buf_map_loop a n l) (fun r => r.2 = true -> length r.1 = length l).
Proof.
  induction l as [|ih l IH]; cbn [buf_map_loop]; [by apply y_ret|].
  apply y_then. intros [x|]; [|by apply y_ret]. eapply y_bind; [apply IH|]. intros [dmas ok] Hd. apply y_ret.
  cbn in *. intros Hok. by rewrite Hd.
Qed.

Lemma t_buf_alloc l c n R :
  triple R (ixmap_buf_alloc l c n) (maybe (buf_res l) R).
Proof.
  unfold ixmap_buf_alloc. cbv zeta. eapply t_bind; [apply t_acquire|]. intros [b|]; [|own].
  eapply t_bind; [apply t_acquire|]. intros [d|]; [|own].
  set (size := buf_bytes _ _ _). eapply t_bind_y; [apply t_mmap|apply y_mmap|]. intros [a|] Hsize; [|own].
  eapply t_bind; [apply t_buf_map|]. intros [dmas ok]. cbn [fst].
  assert (triple (dma_res l dmas ++ (KMmap, a, size) :: (KNuma, d, 8 * Z.of_nat (length l)) ::
                  (KNuma, b, sizeof_ixmap_buf) :: R)
    (buf_unmap l dmas ;; munmap a size ;; release KNuma d (8 * Z.of_nat (length l)) ;;
     release KNuma b sizeof_ixmap_buf ;; mret None) (maybe (buf_res l) R)) as Herr.
  { eapply t_bind; [apply t_buf_unmap|]. intros ?. cbv beta. own. }
  destruct ok; cbn [negb]; [|exact Herr]. eapply t_bind; [apply t_acquire|]. intros [sl|]; [|exact Herr].
  apply t_ret. unfold maybe, buf_res. cbn. solve_Permutation.
Qed.

Lemma y_buf_alloc l c n :
  yields (ixmap_buf_alloc l c n)
    (fun r => match r with
              | Some b => buf_bytes (Z.of_nat (length l)) c n <> 0 /\ count (ib_buf b) = c /\
                          buf_size (ib_buf b) = n /\ length (addr_dma (ib_buf b)) = length l /\
                          slots (ib_buf b) = replicate (Z.to_nat (u32 (c * Z.of_nat (length l)))) 0
              | None => True
              end).
Proof.
  unfold ixmap_buf_alloc. cbv zeta. apply y_then. intros [b|]; [|by apply y_ret].
  apply y_then. intros [d|]; [|apply y_then; intros ?; by apply y_ret].
  eapply y_bind; [apply y_mmap|]. intros [a|] Hs; [|do 2 (apply y_then; intros ?); by apply y_ret].
  eapply y_bind; [apply y_buf_map|]. intros [dmas ok] Hd. cbn [fst snd] in Hd.
  destruct ok; cbn [negb]; [|do 4 (apply y_then; intros ?); by apply y_ret].
  apply y_then. intros [sl|]; [|do 4 (apply y_then; intros ?); by apply y_ret]. apply y_ret. cbn.
  split; [done|]. do 2 (split; [done|]). split; [by apply Hd|done].
Qed.

Lemma t_buf_release l b R :
  buf_bytes (Z.of_nat (length l)) (count (ib_buf b)) (buf_size (ib_buf b)) <> 0 ->
  triple (buf_res l b ++ R) (ixmap_buf_release b l) (fun _ => R).
Proof.
  intros Hs. unfold ixmap_buf_release, buf_res. cbv zeta. cbn [app]. own_step. rewrite <- (assoc_L (++)). cbn [app].
  eapply t_bind; [apply t_buf_unmap|]. intros ?. cbv beta. own.
Qed.

(** ** The ports *)

Lemma t_close_port p R : triple (port_res p ++ R) (close_port p) (fun _ => R).
Proof.
  unfold close_port, port_res. rewrite <- (assoc_L (++)).
  eapply t_bind; [apply t_irq_close|]. intros ?. apply t_irq_close.
Qed.

Lemma plane_port_some ih b i core : has_core core ih -> is_Some (plane_port ih b i core).
Proof.
  intros [Hr Ht]. unfold plane_port. destruct (load_some (h_rx ih) core) as [rx ->]; [lia|]. opt.
  destruct (load_some (h_tx ih) core) as [tx ->]; [lia|]. done.
Qed.

Lemma t_plane_loop b core i l R :
  Forall (has_core core) l ->
  triple R (plane_loop b core i l) (fun r => concat (port_res <$> r.1) ++ R).
Proof.
  intros Hl. revert i R. induction Hl as [|ih l Hih _ IH]; intros i R; cbn [plane_loop]; [by apply t_ret|].
  destruct (plane_port_some ih b i core Hih) as [p Ep]. eapply t_lift_bind; [exact Ep|].
  eapply t_bind; [apply t_irq_open|]. intros [rx|]; cbn [maybe]; [|by apply t_ret].
  eapply t_bind; [apply t_irq_open|]. intros [tx|]; cbn [maybe].
  - eapply t_bind; [apply IH|]. intros [ps ok]. apply t_ret. unfold port_res. cbn [fst fmap list_fmap concat rx_irq tx_irq].
    solve_Permutation.
  - eapply t_bind; [apply t_irq_close|]. intros ?. by apply t_ret.
Qed.

Lemma t_plane_alloc l b core R :
  Forall (has_core core) l ->
  triple R (ixmap_plane_alloc l b core) (maybe (plane_res (Z.of_nat (length l))) R).
Proof.
  intros Hl. unfold ixmap_plane_alloc. cbv zeta. eapply t_bind; [apply t_acquire|]. intros [pl|]; [|own].
  eapply t_bind; [apply t_acquire|]. intros [po|]; [|own].
  eapply t_bind; [by apply t_plane_loop|]. intros [ps ok]. cbn [fst]. destruct ok.
  - apply t_ret. unfold maybe, plane_res. cbn. solve_Permutation.
  - eapply t_bind; [apply t_for_each; intros p S _; apply t_close_port|]. intros ?. cbv beta. own.
Qed.

Lemma t_plane_release n pl R : triple (plane_res n pl ++ R) (ixmap_plane_release pl n) (fun _ => R).
Proof.
  unfold ixmap_plane_release, plane_res. rewrite <- (assoc_L (++)). cbn [app].
  eapply t_bind; [apply t_for_each; intros p S _; apply t_close_port|]. intros ?. cbv beta. own.
Qed.

(** The ports of a plane are those of the handles, in order. *)
Lemma y_plane_loop b core i l :
  yields (plane_loop b core i l)
    (fun r => r.2 = true ->
       Forall2 (fun ip p => plane_port ip.2 b ip.1 core = Some (pp_port p)) (zip (seqZ i (Z.of_nat (length l))) l) r.1).
Proof.
  revert i. induction l as [|ih l IH]; intros i; cbn [plane_loop]; [apply y_ret; by intros _|].
  eapply y_bind; [apply y_lift; intros p Hp; exact Hp|]. intros p Hp.
  apply y_then. intros [rx|]; [|by apply y_ret]. apply y_then. intros [tx|]; [|apply y_then; intros ?; by apply y_ret].
  eapply y_bind; [apply IH|]. intros [ps ok] Hps. apply y_ret. cbn [fst snd] in *. intros Hok.
  cbn [length]. rewrite Nat2Z.inj_succ, seqZ_cons by lia. cbn [zip zip_with]. constructor; [done|].
  replace (Z.succ i) with (i + 1) by lia. replace (Z.pred (Z.succ (Z.of_nat (length l)))) with (Z.of_nat (length l)) by lia.
  by apply Hps.
Qed.

(** ** The state that results *)

Lemma y_desc_alloc core l :
  Forall (has_core core) l ->
  yields (ixmap_desc_alloc l core)
    (fun r => match r.2 with
              | Some d => exists last, layout core (da_virt d) l r.1 last /\
                  da_mem d = (ALIGN64 last L1_CACHE_BYTES,
                              u64 (SIZE_1GB - (ALIGN64 last L1_CACHE_BYTES - da_virt d)))
              | None => True
              end).
Proof.
  intros Hl. unfold ixmap_desc_alloc. apply y_then. intros [d|]; [|by apply y_ret].
  apply y_then. intros [a|]; [|apply y_then; intros ?; by apply y_ret].
  eapply y_bind; [by apply y_desc_loop|]. intros [[hs last]|[ok rest]] Hr; cbv zeta.
  - apply y_then. intros [nd|]; [apply y_ret; cbn; by exists last|]. do 3 (apply y_then; intros ?). by apply y_ret.
  - do 3 (apply y_then; intros ?). by apply y_ret.
Qed.

Lemma y_plane_alloc l b core :
  yields (ixmap_plane_alloc l b core)
    (fun r => match r with
              | Some pl => Forall2 (fun ip p => plane_port ip.2 b ip.1 core = Some (pp_port p))
                             (zip (seqZ 0 (Z.of_nat (length l))) l) (pl_ports pl)
              | None => True
              end).
Proof.
  unfold ixmap_plane_alloc. cbv zeta. apply y_then. intros [pl|]; [|by apply y_ret].
  apply y_then. intros [po|]; [|apply y_then; intros ?; by apply y_ret].
  eapply y_bind; [apply y_plane_loop|]. intros [ps ok] Hps. cbn [fst snd] in *. destruct ok.
  - apply y_ret. by apply Hps.
  - do 3 (apply y_then; intros ?). by apply y_ret.
Qed.

Definition descs_ok (ih : handle) : Prop :=
  2 <= h_num_rx_desc ih < 2 ^ 16 /\ 2 <= h_num_tx_desc ih < 2 ^ 16.

Lemma new_ring_wf a d sl n : 2 <= n < 2 ^ 16 -> wf_ring n (hr_ring (new_hring a d sl n)).
Proof. intros Hn. split; cbn; rewrite ?length_replicate; lia. Qed.

Lemma layout_length core a l l' last : layout core a l l' last -> length l' = length l.
Proof.
  revert a l'. induction l as [|ih l IH]; intros a [|ih' l']; try done. cbn [layout length].
  intros [_ H]. by rewrite (IH _ l' H).
Qed.

(** The rings of a core just set up: well-formed and empty. *)
Definition fresh_rings (core : Z) (ih : handle) (rx tx : hring) : Prop :=
  load (h_rx ih) core = Some rx /\ load (h_tx ih) core = Some tx /\
  wf_ring (h_num_rx_desc ih) (hr_ring rx) /\ wf_ring (h_num_tx_desc ih) (hr_ring tx) /\
  next_to_clean (hr_ring rx) = next_to_use (hr_ring rx) /\
  next_to_clean (hr_ring tx) = next_to_use (hr_ring tx).

Lemma layout_rings core a l l' last i ih' :
  layout core a l l' last -> Forall descs_ok l -> l' !! i = Some ih' -> exists rx tx, fresh_rings core ih' rx tx.
Proof.
  intros Hlay Hdesc. revert a l' i Hlay. induction Hdesc as [|ih l Hih _ IH]; intros a [|ih0 l'] i; try done.
  cbn [layout]. intros [[(d1 & s1 & E1) (d2 & s2 & E2) N1 N2 _ _ _] Hrest]. destruct i as [|i]; intros Hx.
  - injection Hx as <-. destruct Hih. unfold fresh_rings. rewrite N1, N2. eexists _, _.
    split; [exact E1|]. split; [exact E2|]. split; [by apply new_ring_wf|]. split; [by apply new_ring_wf|]. done.
  - by eapply (IH _ l').
Qed.

(** Port [i] of a plane, from handle [i]. *)
Lemma plane_ports_of core l b ps i p rx tx :
  Forall2 (fun ip p => plane_port ip.2 b ip.1 core = Some (pp_port p)) (zip (seqZ 0 (Z.of_nat (length l))) l) ps ->
  ps !! i = Some p ->
  exists ih, l !! i = Some ih /\ (fresh_rings core ih rx tx ->
    pp_port p = Port (hr_ring rx) (hr_ring tx) 0 (u32 (Z.of_nat i * count b)) 0 (h_num_rx_desc ih)
      (h_num_tx_desc ih) (h_rx_budget ih) (h_tx_budget ih) (h_mac_addr ih) 0 0 0 0).
Proof.
  intros Hp Hi. destruct (Forall2_lookup_r _ _ _ _ _ Hp Hi) as ([j ih] & Hz & Hpp).
  apply lookup_zip_Some in Hz as [Hj Hih]. cbn [fst snd] in Hj, Hpp. apply lookup_seqZ in Hj as [-> Hj].
  exists ih. split; [done|]. intros (Erx & Etx & _). unfold plane_port in Hpp. rewrite Erx in Hpp. cbn in Hpp.
  rewrite Etx in Hpp. cbn in Hpp. by injection Hpp as <-.
Qed.

(** Port [i] of a plane just set up: empty rings, and [count] buffers from
    [i * count] on. *)
Record fresh_port (b : buf) (i : nat) (p : port) : Prop := {
  fp_ok : port_ok p b;
  fp_empty : next_to_clean (rx_ring p) = next_to_use (rx_ring p) /\
             next_to_clean (tx_ring p) = next_to_use (tx_ring p);
  fp_share : rx_slot_offset p = Z.of_nat i * count b
}.

Lemma plane_fresh_port core l l' a last b ps i p :
  layout core a l l' last -> Forall descs_ok l -> 1 <= count b -> count b * Z.of_nat (length l) < 2 ^ 32 ->
  length (slots b) = Z.to_nat (count b * Z.of_nat (length l)) -> length ps = length l ->
  Forall2 (fun ip p => plane_port ip.2 b ip.1 core = Some (pp_port p)) (zip (seqZ 0 (Z.of_nat (length l'))) l') ps ->
  ps !! i = Some p -> fresh_port b i (pp_port p).
Proof.
  intros Hlay Hdesc Hc Hsmall Hslots Hlp Hp Hi.
  destruct (plane_ports_of core l' b _ i p empty_hring empty_hring Hp Hi) as (ih & Hih & _).
  destruct (layout_rings core _ l l' last i ih Hlay Hdesc Hih) as (rx & tx & Hf).
  destruct (plane_ports_of core l' b _ i p rx tx Hp Hi) as (ih2 & Hih2 & Heq).
  rewrite Hih in Hih2. injection Hih2 as <-. rewrite (Heq Hf). destruct Hf as (_ & _ & W1 & W2 & C1 & C2).
  apply lookup_lt_Some in Hi. unfold u32. rewrite Z.mod_small by nia.
  split; cbn; [|done|done]. split; cbn; [done|done|]. split; cbn; rewrite ?Hslots; nia.
Qed.

(** C29: the set-up of a core produces the state its ports start from.  When the
    rings, [c] buffers for each port and the ports of a core have been set up, one
    after the other and with anything in between, all rings are empty, no buffer is
    in flight, and the buffers are divided up: port [i] has those from [i * c] on,
    and each buffer is in the share of exactly one port.  This is for rings of 2 to
    65535 descriptors and fewer than 2^32 buffers in all. *)
Theorem setup_gives_fresh_plane core l c n s0 l' d s1 s2 b s3 s4 pl s5 :
  Forall (has_core core) l -> Forall descs_ok l -> 1 <= c -> c * Z.of_nat (length l) < 2 ^ 32 ->
  ixmap_desc_alloc l core s0 = Some ((l', Some d), s1) ->
  ixmap_buf_alloc l' c n s2 = Some (Some b, s3) ->
  ixmap_plane_alloc l' (ib_buf b) core s4 = Some (Some pl, s5) ->
  let ps := pp_port <$> pl_ports pl in
  plane_fresh (DriverProps.Plane ps (ib_buf b) []) /\
  count (ib_buf b) = c /\ length (slots (ib_buf b)) = Z.to_nat (c * Z.of_nat (length l)) /\
  (forall i p, ps !! i = Some p -> rx_slot_offset p = Z.of_nat i * c) /\
  (forall s, 0 <= s < Z.of_nat (length (slots (ib_buf b))) ->
     exists! i, exists p, ps !! i = Some p /\ in_share p (ib_buf b) s).
Proof.
  intros Hcore Hdesc Hc Hsmall Hd Hb Hp ps.
  apply y_desc_alloc in Hd; [|done]. destruct Hd as (last & Hlay & _). cbn [fst snd] in Hlay.
  apply y_buf_alloc in Hb. destruct Hb as (_ & Hcnt & _ & Hdma & Hslots). apply y_plane_alloc in Hp.
  pose proof (layout_length _ _ _ _ _ Hlay) as Hlen.
  rewrite Hlen in Hslots. unfold u32 in Hslots. rewrite Z.mod_small in Hslots by lia.
  assert (length (pl_ports pl) = length l) as Hlp.
  { apply Forall2_length in Hp. rewrite length_zip_with, length_seqZ in Hp. lia. }
  assert (length (slots (ib_buf b)) = Z.to_nat (c * Z.of_nat (length l))) as Hsl
    by (rewrite Hslots, length_replicate; f_equal; lia).
  assert (forall i p, ps !! i = Some p -> fresh_port (ib_buf b) i p) as Hall.
  { intros i p Hi. apply list_lookup_fmap_Some in Hi as (q & -> & Hi).
    eapply plane_fresh_port; try rewrite Hcnt; eassumption. }
  split; [|split; [done|split; [done|split]]].
  - split; cbn [ports pool held]; [| | |done|by rewrite Hslots; apply Forall_replicate].
    + apply Forall_lookup_2. intros i p Hi. apply (Hall i p Hi).
    + apply Forall_lookup_2. intros i p Hi. apply (Hall i p Hi).
    + unfold ps. rewrite length_fmap. congruence.
  - intros i p Hi. rewrite (fp_share _ _ _ (Hall i p Hi)), Hcnt. done.
  - intros s Hs. rewrite Hsl in Hs.
    assert (is_Some (ps !! Z.to_nat (s / c))) as [p Hi].
    { apply lookup_lt_is_Some. unfold ps. rewrite length_fmap, Hlp.
      assert (s / c < Z.of_nat (length l)) by (apply Z.div_lt_upper_bound; lia).
      pose proof (Z.div_pos s c). lia. }
    exists (Z.to_nat (s / c)). pose proof (Z.div_mod s c). pose proof (Z.mod_pos_bound s c). pose proof (Z.div_pos s c).
    split.
    + exists p. split; [done|]. unfold in_share. rewrite (fp_share _ _ _ (Hall _ _ Hi)), Hcnt. nia.
    + intros j (q & Hj & Hq). unfold in_share in Hq. rewrite (fp_share _ _ _ (Hall _ _ Hj)), Hcnt in Hq. nia.
Qed.

(** Two devices with [nrx] and [ntx] descriptors and one queue. *)
Definition demo_handle (fd nrx ntx : Z) : handle :=
  Handle 0x10 fd 0x7000 0x80000 0x20 0x30 [empty_hring] [empty_hring] nrx ntx 2 2 1 200 0 1522 2048 [2; 0; 0; 0; 0; 1].
Definition demo_handles (nrx ntx : Z) : list handle := [demo_handle 3 nrx ntx; demo_handle 4 nrx ntx].
Definition demo_os : os := Os (replicate 40 (Some 0x10000)) [].

Lemma demo_has_core nrx ntx : Forall (has_core 0) (demo_handles nrx ntx).
Proof. repeat constructor; cbn; lia. Qed.

(** Set-up in one go, for concrete runs. *)
Definition setup (l : list handle) (core c n : Z) : M (option (list handle * desc_area * ibuf * iplane)) :=
  '(l', d) ← ixmap_desc_alloc l core;
  b ← ixmap_buf_alloc l' c n;
  match d, b with
  | Some d, Some b =>
      pl ← ixmap_plane_alloc l' (ib_buf b) core;
      mret (match pl with Some pl => Some (l', d, b, pl) | None => None end)
  | _, _ => mret None
  end.

Lemma setup_inv l core c n s l' d b pl s5 :
  setup l core c n s = Some (Some (l', d, b, pl), s5) ->
  exists s1 s3, ixmap_desc_alloc l core s = Some ((l', Some d), s1) /\
    ixmap_buf_alloc l' c n s1 = Some (Some b, s3) /\ ixmap_plane_alloc l' (ib_buf b) core s3 = Some (Some pl, s5).
Proof.
  unfold setup, mbind, M_bind. destruct (ixmap_desc_alloc l core s) as [[[l1 d1] s1]|]; [|done].
  destruct (ixmap_buf_alloc l1 c n s1) as [[b1 s3]|] eqn:E2; [|done]. destruct d1 as [d1|]; [|done]. destruct b1 as [b1|]; [|done].
  destruct (ixmap_plane_alloc l1 (ib_buf b1) core s3) as [[[pl1|] s6]|] eqn:E3; [|done|done].
  intros [= <- <- <- <- <-]. by exists s1, s3.
Qed.

Lemma setup_gives_fresh_plane_witness :
  exists b pl, plane_fresh (DriverProps.Plane (pp_port <$> pl_ports pl) (ib_buf b) []) /\
    rx_slot_offset <$> (pp_port <$> pl_ports pl) = [0; 3] /\
    exists! i, exists p, (pp_port <$> pl_ports pl) !! i = Some p /\ in_share p (ib_buf b) 4.
Proof.
  destruct (setup (demo_handles 4 4) 0 3 2048 demo_os) as [[[[[[l' d] b] pl]|] s5]|] eqn:E;
    [|vm_compute in E; discriminate|vm_compute in E; discriminate].
  destruct (setup_inv _ _ _ _ _ _ _ _ _ _ E) as (s1 & s3 & E1 & E2 & E3). exists b, pl.
  destruct (setup_gives_fresh_plane 0 (demo_handles 4 4) 3 2048 demo_os l' d s1 s1 b s3 s3 pl s5)
    as (Hf & _ & Hl & _ & Hu); try assumption;
    [apply demo_has_core|repeat constructor; cbn; lia|lia|cbn; lia|].
  split; [exact Hf|]. split; [|apply Hu; rewrite Hl; cbn; lia].
  clear E1 E2 E3 Hf Hl Hu. vm_compute in E. injection E as _ _ _ <- _. reflexivity.
Defined.

(** ** The layout of the rings *)

Lemma ALIGN64_up x k :
  0 <= k < 64 -> 0 <= x -> x + 2 ^ k <= 2 ^ 64 -> x <= ALIGN64 x (2 ^ k) < x + 2 ^ k.
Proof.
  intros Hk Hx Hlt. assert (0 < 2 ^ k) by lia. unfold ALIGN64, u64. rewrite Z.mod_small by lia.
  rewrite land_not by lia. pose proof (Z.div_mod (x + (2 ^ k - 1)) (2 ^ k) ltac:(lia)).
  pose proof (Z.mod_pos_bound (x + (2 ^ k - 1)) (2 ^ k) ltac:(lia)). lia.
Qed.

(** Start and length of the rings of a core. *)
Definition ring_areas (core : Z) (ih : handle) : list (Z * Z) :=
  match load (h_rx ih) core, load (h_tx ih) core with
  | Some rx, Some tx =>
      [(hr_virt rx, sizeof_adv_desc * h_num_rx_desc ih); (hr_virt tx, sizeof_adv_desc * h_num_tx_desc ih)]
  | _, _ => []
  end.

(** The areas lie one after the other between [a] and [last]. *)
Fixpoint in_order (a : Z) (l : list (Z * Z)) (last : Z) : Prop :=
  match l with
  | [] => a <= last
  | (x, n) :: l => a <= x /\ 0 <= n /\ in_order (x + n) l last
  end.

Lemma in_order_app a l1 l2 mid last : in_order a l1 mid -> in_order mid l2 last -> in_order a (l1 ++ l2) last.
Proof.
  revert a. induction l1 as [|[x n] l1 IH]; intros a; cbn.
  - intros Ha H2. destruct l2 as [|[y m] l2]; cbn in *; [lia|]. destruct H2 as (? & ? & ?). split; [lia|done].
  - intros (? & ? & ?) H2. split; [done|]. split; [done|]. by apply IH.
Qed.

Lemma in_order_apart a l last i j x n y m :
  in_order a l last -> (i < j)%nat -> l !! i = Some (x, n) -> l !! j = Some (y, m) -> x + n <= y.
Proof.
  assert (forall l a j y m, in_order a l last -> l !! j = Some (y, m) -> a <= y) as Hfirst.
  { clear. induction l as [|[x n] l IH]; intros a j y m; [done|]. cbn. intros (? & ? & H). destruct j as [|j].
    - intros [= <- <-]. done.
    - intros Hj. specialize (IH _ _ _ _ H Hj). lia. }
  revert a i j. induction l as [|[z k] l IH]; intros a i j; [done|]. cbn [in_order]. intros (? & ? & H) Hij Hi Hj.
  destruct j as [|j]; [lia|]. destruct i as [|i].
  - injection Hi as <- <-. by eapply Hfirst.
  - eapply (IH _ i j); [done|lia|done|done].
Qed.

(** No more transmit than receive descriptors. *)
Definition tx_fits (ih : handle) : Prop := 0 <= h_num_tx_desc ih <= h_num_rx_desc ih /\ h_num_rx_desc ih < 2 ^ 32.

Lemma layout_in_order core a l l' last :
  layout core a l l' last -> Forall tx_fits l -> in_order a (concat (ring_areas core <$> l')) last.
Proof.
  intros Hlay Hfit. revert a l' Hlay. induction Hfit as [|ih l [Ht Hr] _ IH]; intros a [|ih' l'] Hlay; try done.
  { cbn in *. lia. }
  destruct Hlay as [[(d1 & s1 & E1) (d2 & s2 & E2) N1 N2 _ _ _] Hrest]. cbn [fmap list_fmap concat].
  eapply in_order_app; [|by apply IH]. unfold ring_areas. rewrite E1, E2, N1, N2. unfold sizeof_adv_desc.
  assert (16 * h_num_rx_desc ih <= size_rx_desc ih) as Hs.
  { unfold size_rx_desc, sizeof_adv_desc, u64. rewrite Z.mod_small by lia. change 128 with (2 ^ 7). apply ALIGN64_up; lia. }
  cbn [in_order hr_virt new_hring]. split_and!; lia.
Qed.

(** The rings of a core and the memory behind them do not overlap.  When every
    port has at most as many transmit as receive descriptors and the rings fit the
    area, any two of the receive rings, the transmit rings and the allocator's
    memory are disjoint, and all of them lie in the area. *)
Theorem desc_rings_apart core l s l' d s1 :
  Forall (has_core core) l -> Forall tx_fits l ->
  ixmap_desc_alloc l core s = Some ((l', Some d), s1) ->
  0 <= da_virt d -> da_virt d + SIZE_1GB <= 2 ^ 62 ->
  foldr (fun ih n => 2 * size_rx_desc ih + n) 0 l <= SIZE_1GB - 64 ->
  in_order (da_virt d) (concat (ring_areas core <$> l') ++ [da_mem d]) (da_virt d + SIZE_1GB) /\
  forall i j x n y m, (i < j)%nat -> (concat (ring_areas core <$> l') ++ [da_mem d]) !! i = Some (x, n) ->
    (concat (ring_areas core <$> l') ++ [da_mem d]) !! j = Some (y, m) -> x + n <= y.
Proof.
  intros Hcore Hfit Hrun H0 Hmax Hsum. apply y_desc_alloc in Hrun; [|done].
  destruct Hrun as (last & Hlay & Hmem). cbn [fst snd] in *.
  assert (last = da_virt d + foldr (fun ih n => 2 * size_rx_desc ih + n) 0 l) as Hlast.
  { clear -Hlay. revert Hlay. generalize (da_virt d). revert l'. induction l as [|ih l IH]; intros [|ih' l'] a; try done.
    - cbn. lia.
    - cbn [layout foldr]. intros [_ H]. rewrite (IH l' _ H). lia. }
  assert (da_virt d <= last) as Hge.
  { pose proof (layout_in_order _ _ _ _ _ Hlay Hfit) as Ho. clear -Ho. revert Ho. generalize (da_virt d).
    induction (concat (ring_areas core <$> l')) as [|[x n] k IH]; intros a; cbn; [done|].
    intros (? & ? & H). specialize (IH _ H). lia. }
  assert (in_order (da_virt d) (concat (ring_areas core <$> l') ++ [da_mem d]) (da_virt d + SIZE_1GB)) as Hin.
  { eapply in_order_app; [by eapply layout_in_order|]. rewrite Hmem. unfold SIZE_1GB, L1_CACHE_BYTES in *.
    change (Z.shiftl 1 30) with (2 ^ 30) in *. change (Z.shiftl 1 6) with (2 ^ 6) in *.
    pose proof (ALIGN64_up last 6 ltac:(lia) ltac:(lia) ltac:(lia)). cbn [in_order]. unfold u64.
    rewrite Z.mod_small by lia. split_and!; lia. }
  split; [done|]. intros i j x n y m Hij Hi Hj. by eapply in_order_apart.
Qed.

Lemma desc_rings_apart_witness :
  exists l' d s1, ixmap_desc_alloc (demo_handles 512 256) 0 demo_os = Some ((l', Some d), s1) /\
    in_order (da_virt d) (concat (ring_areas 0 <$> l') ++ [da_mem d]) (da_virt d + SIZE_1GB).
Proof.
  destruct (ixmap_desc_alloc (demo_handles 512 256) 0 demo_os) as [[[l' [d|]] s1]|] eqn:E;
    [|vm_compute in E; discriminate|vm_compute in E; discriminate].
  exists l', d, s1. split; [reflexivity|].
  assert (da_virt d = 0x10000) as Ed by (vm_compute in E; injection E as _ <- _; reflexivity).
  destruct (desc_rings_apart 0 (demo_handles 512 256) demo_os l' d s1) as [H _];
    [apply demo_has_core|repeat constructor; cbn; lia|exact E|rewrite Ed; lia|rewrite Ed; vm_compute; discriminate
    |vm_compute; discriminate|exact H].
Defined.

(** With more transmit than receive descriptors they do.  The loop advances by
    the size of the receive ring after the transmit ring too, so the receive ring
    of the second port starts inside the transmit ring of the first. *)
Theorem desc_rings_overlap :
  exists l' d s1 tx rx x n y m,
    ixmap_desc_alloc (demo_handles 256 512) 0 demo_os = Some ((l', Some d), s1) /\
    concat (ring_areas 0 <$> l') = [rx; (x, n); (y, m); tx] /\ x < y < x + n.
Proof.
  eexists _, _, _, _, _, _, _, _, _. split; [vm_compute; reflexivity|]. split; [reflexivity|]. vm_compute. done.
Qed.

(** The interrupts of cores from 32 on are bound to the wrong core: the upper
    word of the mask has the bit of the core's successor. *)
Theorem irq_affinity_next_core core_id :
  32 <= core_id <= 62 ->
  (affinity_masks core_id).1 + (affinity_masks core_id).2 * 2 ^ 32 = 2 ^ (core_id + 1).
Proof.
  intros Hc. unfold affinity_masks. rewrite (proj2 (Z.leb_gt core_id 31)) by lia. cbn [fst snd].
  unfold int_shl. rewrite (Z.mod_small (core_id - 31)) by lia. rewrite Z.shiftl_1_l.
  assert (0 < 2 ^ (core_id - 31) < 2 ^ 32) as Hp by (split; [lia|apply Z.pow_lt_mono_r; lia]).
  assert (u32 (s32 (2 ^ (core_id - 31))) = 2 ^ (core_id - 31)) as ->.
  { unfold s32, u32. rewrite (Z.mod_small (2 ^ (core_id - 31))) by lia.
    destruct (2 ^ (core_id - 31) <? 2 ^ 31); [by rewrite Z.mod_small by lia|].
    symmetry. apply Z.mod_unique with (-1); lia. }
  rewrite Z.add_0_l, <- Z.pow_add_r by lia. f_equal. lia.
Qed.

Lemma irq_affinity_next_core_witness : affinity_masks 32 = (0, 2) /\
  (affinity_masks 32).1 + (affinity_masks 32).2 * 2 ^ 32 = 2 ^ (32 + 1).
Proof. split; [reflexivity|]. apply (irq_affinity_next_core 32). lia. Defined.
