(* ===== verification/Tun.v ===== *)
(** * TAP devices and event descriptors (src/src/iftap.c, src/src/epoll.c, and
    the set-up of a thread's descriptors in src/src/thread.c)

    In the monad of Os.v, as Plane.v. *)

From stdpp Require Import prelude list.
From S2P Require Import Prelude Os Driver Plane.

Definition sizeof_tun_handle : Z := 16.
Definition sizeof_tun_port : Z := 12.
Definition sizeof_tun_plane : Z := 8.
Definition sizeof_epoll_desc : Z := 40.

Record tun_handle := TunHandle {
  tn_ptr : Z;
  tn_queues_ptr : Z;
  tn_queues : list Z;
  tn_ifindex : Z;
  tn_mtu_frame : Z
}.

Record tun_port := TunPort { tp_fd : Z; tp_ifindex : Z; tp_mtu_frame : Z }.
Record tun_plane := TunPlane { tpl_ptr : Z; tpl_ports_ptr : Z; tpl_ports : list tun_port }.

(** ** TAP devices *)

(** A request that succeeds or fails. *)
Definition request : M Z := r ← ask; mret (match r with Some _ => 0 | None => -1 end).

Definition tun_assign (fd : Z) : M Z := request.
Definition tun_mac (fd : Z) (src_mac : list Z) : M Z := request.
Definition tun_mtu (fd mtu_frame : Z) : M Z := request.
Definition tun_up (fd : Z) : M Z := request.
Definition tun_ifindex (fd : Z) : M Z := r ← ask; mret (match r with Some i => i | None => -1 end).

(** The queues opened; complete unless one failed. *)
Fixpoint tun_queue_loop (n : nat) : M (list Z * bool) :=
  match n with
  | O => mret ([], true)
  | S n =>
      q ← acquire KFd 0;
      match q with
      | None => mret ([], false)
      | Some q =>
          ret ← tun_assign q;
          if ret <? 0 then release KFd q 0 ;; mret ([], false)
          else '(qs, ok) ← tun_queue_loop n; mret (q :: qs, ok)
      end
  end.

Definition close_fds (l : list Z) : M unit := for_each (fun fd => release KFd fd 0) l.

Definition tun_open (num_cores : nat) (ih : handle) : M (option tun_handle) :=
  tunh ← acquire KMalloc sizeof_tun_handle;
  match tunh with
  | None => mret None
  | Some tunh =>
    queues ← acquire KMalloc (4 * Z.of_nat num_cores);
    match queues with
    | None => release KMalloc tunh sizeof_tun_handle ;; mret None
    | Some queues =>
      sock ← acquire KFd 0;
      match sock with
      | None =>
          release KMalloc queues (4 * Z.of_nat num_cores) ;;
          release KMalloc tunh sizeof_tun_handle ;; mret None
      | Some sock =>
        '(qs, ok) ← tun_queue_loop num_cores;
        let err_queues : M (option tun_handle) :=
          close_fds qs ;; release KFd sock 0 ;;
          release KMalloc queues (4 * Z.of_nat num_cores) ;;
          release KMalloc tunh sizeof_tun_handle ;; mret None in
        if negb ok then err_queues
        else
          ret ← tun_mac sock (ixmap_macaddr_default ih);
          if ret <? 0 then err_queues
          else
            ret ← tun_ifindex sock;
            (* stored in, and compared as, an [unsigned int] *)
            let ifindex := u32 ret in
            if ifindex <? 0 then err_queues
            else
              ret ← tun_mtu sock (ixmap_mtu_get ih);
              if ret <? 0 then err_queues
              else
                ret ← tun_up sock;
                if ret <? 0 then err_queues
                else
                  release KFd sock 0 ;;
                  mret (Some (TunHandle tunh queues qs ifindex (ixmap_mtu_get ih)))
      end
    end
  end.

Definition tun_close (num_cores : nat) (t : tun_handle) : M unit :=
  close_fds (tn_queues t) ;;
  release KMalloc (tn_queues_ptr t) (4 * Z.of_nat num_cores) ;;
  release KMalloc (tn_ptr t) sizeof_tun_handle.

Definition tun_plane_alloc (ts : list tun_handle) (core_id : Z) : M (option tun_plane) :=
  plane ← acquire KNuma sizeof_tun_plane;
  match plane with
  | None => mret None
  | Some plane =>
    ports ← acquire KNuma (sizeof_tun_port * Z.of_nat (length ts));
    match ports with
    | None => release KNuma plane sizeof_tun_plane ;; mret None
    | Some ports =>
      ps ← lift (mapM (fun t => fd ← load (tn_queues t) core_id; Some (TunPort fd (tn_ifindex t) (tn_mtu_frame t))) ts);
      mret (Some (TunPlane plane ports ps))
    end
  end.

Definition tun_plane_release (pl : tun_plane) (num_ports : Z) : M unit :=
  release KNuma (tpl_ports_ptr pl) (sizeof_tun_port * num_ports) ;;
  release KNuma (tpl_ptr pl) sizeof_tun_plane.

(** ** Event descriptors *)

Inductive epoll_type := EPOLL_IRQ_RX | EPOLL_IRQ_TX | EPOLL_TUN | EPOLL_SIGNAL | EPOLL_NETLINK.

(** [ep_data] is the interrupt handle [data] points to, where it is set. *)
Record epoll_desc := EpollDesc {
  ep_ptr : Z;
  ep_fd : Z;
  ep_type : epoll_type;
  ep_port_index : Z;
  ep_data : option irq_handle
}.

Definition epoll_add (fd_ep fd : Z) : M Z := request.
Definition epoll_del (fd_ep fd : Z) : M Z := request.

Definition epoll_desc_alloc_irq (pl : iplane) (port_index : Z) (type : ixmap_irq_type) : M (option epoll_desc) :=
  ep ← acquire KNuma sizeof_epoll_desc;
  match ep with
  | None => mret None
  | Some ep =>
      fd ← lift (ixmap_irq_fd pl port_index type);
      mret (Some (EpollDesc ep fd (match type with IXMAP_IRQ_RX => EPOLL_IRQ_RX | IXMAP_IRQ_TX => EPOLL_IRQ_TX end)
                    port_index (ixmap_irq_handle pl port_index type)))
  end.

Definition epoll_desc_release_irq (e : epoll_desc) : M unit := release KNuma (ep_ptr e) sizeof_epoll_desc.

Definition epoll_desc_alloc_signalfd : M (option epoll_desc) :=
  ep ← acquire KNuma sizeof_epoll_desc;
  match ep with
  | None => mret None
  | Some ep =>
    fd ← acquire KFd 0;
    match fd with
    | None => release KNuma ep sizeof_epoll_desc ;; mret None
    | Some fd => mret (Some (EpollDesc ep fd EPOLL_SIGNAL 0 None))
    end
  end.

Definition epoll_desc_release_signalfd (e : epoll_desc) : M unit :=
  release KFd (ep_fd e) 0 ;; release KNuma (ep_ptr e) sizeof_epoll_desc.

Definition epoll_desc_alloc_tun (tp : tun_plane) (port_index : Z) : M (option epoll_desc) :=
  ep ← acquire KNuma sizeof_epoll_desc;
  match ep with
  | None => mret None
  | Some ep =>
      p ← lift (load (tpl_ports tp) port_index);
      mret (Some (EpollDesc ep (tp_fd p) EPOLL_TUN port_index None))
  end.

Definition epoll_desc_release_tun (e : epoll_desc) : M unit := release KNuma (ep_ptr e) sizeof_epoll_desc.

Definition epoll_desc_alloc_netlink : M (option epoll_desc) :=
  ep ← acquire KNuma sizeof_epoll_desc;
  match ep with
  | None => mret None
  | Some ep =>
    fd ← acquire KFd 0;
    match fd with
    | None => release KNuma ep sizeof_epoll_desc ;; mret None
    | Some fd =>
        ret ← request;
        if ret <? 0 then release KFd fd 0 ;; release KNuma ep sizeof_epoll_desc ;; mret None
        else mret (Some (EpollDesc ep fd EPOLL_NETLINK 0 None))
    end
  end.

Definition epoll_desc_release_netlink (e : epoll_desc) : M unit :=
  release KFd (ep_fd e) 0 ;; release KNuma (ep_ptr e) sizeof_epoll_desc.

(** ** The descriptors of a thread *)

(** The [switch] of [thread_fd_destroy]. *)
Definition fd_destroy_one (fd_ep : Z) (e : epoll_desc) : M unit :=
  epoll_del fd_ep (ep_fd e) ;;
  match ep_type e with
  | EPOLL_IRQ_RX | EPOLL_IRQ_TX => epoll_desc_release_irq e
  | EPOLL_SIGNAL => epoll_desc_release_signalfd e
  | EPOLL_TUN => epoll_desc_release_tun e
  | EPOLL_NETLINK => mret tt
  end.

Definition thread_fd_destroy (descs : list epoll_desc) (fd_ep : Z) : M unit :=
  for_each (fd_destroy_one fd_ep) descs ;;
  release KFd fd_ep 0.

(** Allocate a descriptor, put it at the head of the list, register it; what
    the list holds, and whether all went well. *)
Definition fd_add (fd_ep : Z) (alloc : M (option epoll_desc)) (descs : list epoll_desc)
  : M (list epoll_desc * bool) :=
  e ← alloc;
  match e with
  | None => mret (descs, false)
  | Some e =>
      ret ← epoll_add fd_ep (ep_fd e);
      mret (e :: descs, negb (ret <? 0))
  end.

(** Descriptors in order, until one fails. *)
Fixpoint fd_add_all (fd_ep : Z) (allocs : list (M (option epoll_desc))) (descs : list epoll_desc)
  : M (list epoll_desc * bool) :=
  match allocs with
  | [] => mret (descs, true)
  | alloc :: allocs =>
      '(descs, ok) ← fd_add fd_ep alloc descs;
      if ok : bool then fd_add_all fd_ep allocs descs else mret (descs, false)
  end.

(** What each port registers, then the signal and the netlink descriptors. *)
Definition fd_allocs (pl : iplane) (tp : tun_plane) (num_ports : nat) : list (M (option epoll_desc)) :=
  concat ((fun i =>
    [epoll_desc_alloc_irq pl (Z.of_nat i) IXMAP_IRQ_RX; epoll_desc_alloc_irq pl (Z.of_nat i) IXMAP_IRQ_TX;
     epoll_desc_alloc_tun tp (Z.of_nat i)]) <$> seq 0 num_ports)
  ++ [epoll_desc_alloc_signalfd; epoll_desc_alloc_netlink].

Definition thread_fd_prepare (pl : iplane) (tp : tun_plane) (num_ports : nat)
  : M (option (Z * list epoll_desc)) :=
  fd_ep ← acquire KFd 0;
  match fd_ep with
  | None => mret None
  | Some fd_ep =>
      '(descs, ok) ← fd_add_all fd_ep (fd_allocs pl tp num_ports) [];
      if ok : bool then mret (Some (fd_ep, descs))
      else thread_fd_destroy descs fd_ep ;; mret None
  end.
