(* ===== verification/Main.v ===== *)
(** * The forwarder's main program (src/src/main.c)

    From the parsed options (Options.v) to the end: devices, rings, TAP devices
    and one thread for each core, with the clean-up of every failure.  Logging and
    what the threads do are not part of it.  In the monad of Os.v. *)

From stdpp Require Import prelude list.
From S2P Require Import Prelude Os Driver Plane Tun.

Definition IXMAP_RX_BUDGET : Z := 1024.
Definition IXMAP_TX_BUDGET : Z := 4096.
Definition IXGBE_MAX_RXD : Z := 4096.
Definition IXGBE_MAX_TXD : Z := 4096.
Definition sizeof_ixmapfwd_thread : Z := 96.
Definition EAGAIN : Z := 11.
Definition EINVAL : Z := 22.

(** [struct ixmapfwd] after the options, and what the devices report. *)
Record config := Config {
  c_num_cores : nat;
  c_infos : list info_req;
  c_promisc : Z;
  c_mtu_frame : Z;
  c_buf_count : Z;
  c_intr_rate : Z
}.

(** ** Devices *)

(** The handles opened; complete unless one failed. *)
Fixpoint open_loop (cfg : config) (infos : list info_req) : M (list handle * bool) :=
  match infos with
  | [] => mret ([], true)
  | info :: infos =>
      ih ← ixmap_open info (Z.of_nat (c_num_cores cfg)) (c_intr_rate cfg) IXMAP_RX_BUDGET IXMAP_TX_BUDGET
             (c_mtu_frame cfg) (c_promisc cfg) IXGBE_MAX_RXD IXGBE_MAX_TXD;
      match ih with
      | None => mret ([], false)
      | Some ih => '(l, ok) ← open_loop cfg infos; mret (ih :: l, ok)
      end
  end.

(** Rings for [n] cores from core [i] on: the handles, the areas by core, and
    whether all succeeded. *)
Fixpoint desc_core_loop (n : nat) (i : Z) (l : list handle) : M (list handle * list (Z * desc_area) * bool) :=
  match n with
  | O => mret (l, [], true)
  | S n =>
      '(l1, d) ← ixmap_desc_alloc l i;
      match d with
      | None => mret (l1, [], false)
      | Some d => '(l2, ds, ok) ← desc_core_loop n (i + 1) l1; mret (l2, (i, d) :: ds, ok)
      end
  end.

(** What [ixmap_configure_rx] and [ixmap_configure_tx] do to a handle; the
    registers they program are the subject of [Init]. *)
Definition set_frame (mtu_frame buf_size : Z) (ih : handle) : handle :=
  Handle (h_ptr ih) (h_fd ih) (h_bar ih) (h_bar_size ih) (h_rx_ptr ih) (h_tx_ptr ih) (h_rx ih) (h_tx ih)
    (h_num_rx_desc ih) (h_num_tx_desc ih) (h_rx_budget ih) (h_tx_budget ih) (h_num_queues ih)
    (h_num_interrupt_rate ih) (h_promisc ih) mtu_frame buf_size (h_mac_addr ih).

Definition rx_buffer_len (ih : handle) : handle :=
  let mtu := u32 ((if h_mtu_frame ih <? 1514 + 4 then 1514 + 4 else h_mtu_frame ih) + 4) in
  let size := Z.land (u32 (mtu + 1023)) (not32 1023) in
  set_frame mtu (if 16384 <? size then 16384 else size) ih.

Definition with_rings (rx tx : list hring) (ih : handle) : handle :=
  Handle (h_ptr ih) (h_fd ih) (h_bar ih) (h_bar_size ih) (h_rx_ptr ih) (h_tx_ptr ih) rx tx
    (h_num_rx_desc ih) (h_num_tx_desc ih) (h_rx_budget ih) (h_tx_budget ih) (h_num_queues ih)
    (h_num_interrupt_rate ih) (h_promisc ih) (h_mtu_frame ih) (h_buf_size ih) (h_mac_addr ih).

Definition set_tail (tail : Z) (r : hring) : hring :=
  HRing (hr_virt r) (hr_dma r) (hr_slot_ptr r) tail (hr_ring r).

(** Every ring with the address of its tail register. *)
Definition configured (ih : handle) : handle :=
  let ih := rx_buffer_len ih in
  with_rings (imap (fun i => set_tail (h_bar ih + (0x01018 + u8 (Z.of_nat i) * 0x40))) (h_rx ih))
    (imap (fun i => set_tail (h_bar ih + (0x06018 + u8 (Z.of_nat i) * 0x40))) (h_tx ih)) ih.

(** The largest buffer any port needs. *)
Definition max_buf_size (l : list handle) : Z :=
  fold_left (fun m ih => if m <? ixmap_bufsize_get ih then ixmap_bufsize_get ih else m) l 0.

(** ** TAP devices and signals *)

Fixpoint tun_loop (num_cores : nat) (l : list handle) : M (list tun_handle * bool) :=
  match l with
  | [] => mret ([], true)
  | ih :: l =>
      t ← tun_open num_cores ih;
      match t with
      | None => mret ([], false)
      | Some t => '(ts, ok) ← tun_loop num_cores l; mret (t :: ts, ok)
      end
  end.

(** Four signals added to the set, and the mask: each may fail. *)
Fixpoint requests (n : nat) : M Z :=
  match n with
  | O => mret 0
  | S n => ret ← request; if ret =? 0 then requests n else mret (-1)
  end.

Definition ixmapfwd_set_signal : M Z := requests 5.

(** ** Threads *)

(** [pthread_create] returns 0 or a positive error number; it can fail only if
    [refuse] says that the system may refuse a thread. *)
Definition pthread_create (refuse : bool) : M (Z * option Z) :=
  r ← acquire KThread 0;
  match r with
  | Some tid => mret (0, Some tid)
  | None => if refuse then mret (EAGAIN, None) else hold (KThread, 0, 0) ;; mret (0, Some 0)
  end.

Definition pthread_setaffinity_np (tid : Z) : M Z :=
  r ← ask; mret (match r with Some _ => 0 | None => EINVAL end).

Definition ixmapfwd_thread_kill (tid : Z) : M unit := release KThread tid 0.

(** The result and the thread's identifier; using an identifier that was never
    set is undefined. *)
Definition ixmapfwd_thread_create (refuse : bool) : M (Z * Z) :=
  '(ret, tid) ← pthread_create refuse;
  if ret <? 0 then mret (-1, 0)
  else
    tid ← lift tid;
    ret ← pthread_setaffinity_np tid;
    if ret <? 0 then ixmapfwd_thread_kill tid ;; mret (-1, 0)
    else mret (0, tid).

(** ** Cores *)

Record core := Core { co_buf : ibuf; co_plane : iplane; co_tun : tun_plane; co_tid : Z }.

Definition core_start (cfg : config) (refuse : bool) (l : list handle) (ts : list tun_handle) (buf_size i : Z)
  : M (option core) :=
  let n := Z.of_nat (length l) in
  b ← ixmap_buf_alloc l (c_buf_count cfg) buf_size;
  match b with
  | None => mret None
  | Some b =>
    pl ← ixmap_plane_alloc l (ib_buf b) i;
    match pl with
    | None => ixmap_buf_release b l ;; mret None
    | Some pl =>
      tp ← tun_plane_alloc ts i;
      match tp with
      | None => ixmap_plane_release pl n ;; ixmap_buf_release b l ;; mret None
      | Some tp =>
        '(ret, tid) ← ixmapfwd_thread_create refuse;
        if ret <? 0 then
          tun_plane_release tp n ;; ixmap_plane_release pl n ;; ixmap_buf_release b l ;; mret None
        else mret (Some (Core b pl tp tid))
      end
    end
  end.

Definition core_stop (l : list handle) (c : core) : M unit :=
  let n := Z.of_nat (length l) in
  ixmapfwd_thread_kill (co_tid c) ;;
  tun_plane_release (co_tun c) n ;;
  ixmap_plane_release (co_plane c) n ;;
  ixmap_buf_release (co_buf c) l.

Fixpoint core_loop (cfg : config) (refuse : bool) (l : list handle) (ts : list tun_handle) (buf_size : Z)
    (n : nat) (i : Z) : M (list core * bool) :=
  match n with
  | O => mret ([], true)
  | S n =>
      c ← core_start cfg refuse l ts buf_size i;
      match c with
      | None => mret ([], false)
      | Some c => '(cs, ok) ← core_loop cfg refuse l ts buf_size n (i + 1); mret (c :: cs, ok)
      end
  end.

(** ** main *)

(** After the TAP devices: signals, cores, the wait for a signal, and the
    clean-up of the cores.  The loop around [sigwait] holds nothing. *)
Definition main_cores (cfg : config) (refuse : bool) (l : list handle) (ts : list tun_handle) (buf_size : Z) : M Z :=
  ret ← ixmapfwd_set_signal;
  if negb (ret =? 0) then mret ret
  else
    '(cs, ok) ← core_loop cfg refuse l ts buf_size (c_num_cores cfg) 0;
    for_each (core_stop l) cs ;;
    mret (if ok : bool then 0 else -1).

Definition main_tun (cfg : config) (refuse : bool) (l : list handle) : M Z :=
  let l := configured <$> l in
  '(ts, ok) ← tun_loop (c_num_cores cfg) l;
  ret ← (if ok : bool then main_cores cfg refuse l ts (max_buf_size l) else mret (-1));
  for_each (tun_close (c_num_cores cfg)) ts ;;
  mret ret.

Definition main_desc (cfg : config) (refuse : bool) (l : list handle) : M Z :=
  '(l1, ds, ok) ← desc_core_loop (c_num_cores cfg) 0 l;
  ret ← (if ok : bool then main_tun cfg refuse l1 else mret (-1));
  for_each (fun d => ixmap_desc_release l1 d.1 d.2) ds ;;
  for_each ixmap_close l1 ;;
  mret ret.

Definition main (cfg : config) (refuse : bool) : M Z :=
  let num_ports := Z.of_nat (length (c_infos cfg)) in
  ih_array ← acquire KMalloc (8 * num_ports);
  match ih_array with
  | None => mret (-1)
  | Some ih_array =>
    tunh_array ← acquire KMalloc (8 * num_ports);
    match tunh_array with
    | None => release KMalloc ih_array (8 * num_ports) ;; mret (-1)
    | Some tunh_array =>
      threads ← acquire KMalloc (sizeof_ixmapfwd_thread * Z.of_nat (c_num_cores cfg));
      match threads with
      | None =>
          release KMalloc tunh_array (8 * num_ports) ;; release KMalloc ih_array (8 * num_ports) ;; mret (-1)
      | Some threads =>
          '(l, ok) ← open_loop cfg (c_infos cfg);
          ret ← (if ok : bool then main_desc cfg refuse l else for_each ixmap_close l ;; mret (-1));
          release KMalloc threads (sizeof_ixmapfwd_thread * Z.of_nat (c_num_cores cfg)) ;;
          release KMalloc tunh_array (8 * num_ports) ;;
          release KMalloc ih_array (8 * num_ports) ;;
          mret ret
      end
    end
  end.
