(* ===== verification/MainProps.v ===== *)
(** * The main program gives everything back

    Ownership of TAP devices, event descriptors and cores, and the theorem that
    the main program returns with what it started with, whatever the system
    refuses, apart from the leaks that are proved here too. *)

From stdpp Require Import prelude list.
From S2P Require Import Prelude Os Driver DriverFacts DriverProps Plane PlaneProps Tun Main.

(** ** TAP devices *)

Definition fd_res (fd : Z) : list res := [(KFd, fd, 0)].

Definition tun_res (n : nat) (t : tun_handle) : list res :=
  concat (fd_res <$> tn_queues t) ++
  [(KMalloc, tn_queues_ptr t, 4 * Z.of_nat n); (KMalloc, tn_ptr t, sizeof_tun_handle)].

Definition tun_plane_res (n : Z) (t : tun_plane) : list res :=
  [(KNuma, tpl_ports_ptr t, sizeof_tun_port * n); (KNuma, tpl_ptr t, sizeof_tun_plane)].

Lemma t_request R : triple R request (fun _ => R).
Proof. unfold request. eapply t_bind; [apply t_ask|]. intros [x|]; by apply t_ret. Qed.

Lemma t_close_fds l R : triple (concat (fd_res <$> l) ++ R) (close_fds l) (fun _ => R).
Proof. apply t_for_each. intros fd S _. apply t_release. Qed.

Lemma t_queue_loop n R : triple R (tun_queue_loop n) (fun r => concat (fd_res <$> r.1) ++ R).
Proof.
  revert R. induction n as [|n IH]; intros R; cbn [tun_queue_loop]; [by apply t_ret|].
  eapply t_bind; [apply t_acquire|]. intros [q|]; [|by apply t_ret].
  eapply t_bind; [apply t_request|]. intros ret. cbv beta. destruct (ret <? 0); [own|].
  eapply t_bind; [apply IH|]. intros [qs ok]. apply t_ret. cbn. solve_Permutation.
Qed.

Lemma y_queue_loop n : yields (tun_queue_loop n) (fun r => r.2 = true -> length r.1 = n).
Proof.
  induction n as [|n IH]; cbn [tun_queue_loop]; [by apply y_ret|].
  apply y_then. intros [q|]; [|by apply y_ret]. apply y_then. intros ret.
  destruct (ret <? 0); [apply y_then; intros ?; by apply y_ret|].
  eapply y_bind; [apply IH|]. intros [qs ok] Hq. apply y_ret. cbn in *. intros Hok. by rewrite Hq.
Qed.

Lemma t_tun_open n ih R : triple R (tun_open n ih) (maybe (tun_res n) R).
Proof.
  unfold tun_open. own. eapply t_bind; [apply t_queue_loop|]. intros [qs ok]. cbn [fst]. cbv zeta.
  match goal with |- triple ?h (if _ then ?e else _) _ => assert (triple h e (maybe (tun_res n) R)) as Herr end.
  { eapply t_bind; [apply t_close_fds|]. intros ?. cbv beta. own. }
  destruct (negb ok); [exact Herr|].
  eapply t_bind; [apply t_request|]. intros r1. cbv beta. destruct (r1 <? 0); [exact Herr|].
  eapply (t_bind _ _ _ (fun _ => _)).
  { unfold tun_ifindex. eapply t_bind; [apply t_ask|]. intros [x|]; apply t_ret; reflexivity. }
  intros r2. cbv zeta. destruct (u32 r2 <? 0); [exact Herr|].
  eapply t_bind; [apply t_request|]. intros r3. cbv beta. destruct (r3 <? 0); [exact Herr|].
  eapply t_bind; [apply t_request|]. intros r4. cbv beta. destruct (r4 <? 0); [exact Herr|].
  own_step. apply t_ret. unfold maybe, tun_res. cbn. solve_Permutation.
Qed.

Lemma y_tun_open n ih :
  yields (tun_open n ih) (fun r => match r with Some t => length (tn_queues t) = n | None => True end).
Proof.
  unfold tun_open. apply y_then. intros [t|]; [|by apply y_ret].
  apply y_then. intros [q|]; [|apply y_then; intros ?; by apply y_ret].
  apply y_then. intros [k|]; [|do 2 (apply y_then; intros ?); by apply y_ret].
  eapply y_bind; [apply y_queue_loop|]. intros [qs ok] Hq. cbn [fst snd] in Hq. cbv zeta.
  match goal with |- yields (if _ then ?e else _) ?Q => assert (yields e Q) as Herr end.
  { do 4 (apply y_then; intros ?). by apply y_ret. }
  destruct ok; cbn [negb]; [|exact Herr].
  do 4 (apply y_then; intros ?; match goal with |- yields (if ?c then _ else _) _ => destruct c; [exact Herr|] end).
  apply y_then. intros ?. apply y_ret. by apply Hq.
Qed.

Lemma t_tun_close n t R : triple (tun_res n t ++ R) (tun_close n t) (fun _ => R).
Proof.
  unfold tun_close, tun_res. rewrite <- (assoc_L (++)). cbn [app].
  eapply t_bind; [apply t_close_fds|]. intros ?. cbv beta. own.
Qed.

Lemma t_tun_plane_alloc ts core R :
  Forall (fun t => 0 <= core < Z.of_nat (length (tn_queues t))) ts ->
  triple R (tun_plane_alloc ts core) (maybe (tun_plane_res (Z.of_nat (length ts))) R).
Proof.
  intros Hts. unfold tun_plane_alloc. own.
  match goal with |- triple _ (lift ?o ≫= _) _ => assert (is_Some o) as [ps Eps] end.
  { apply mapM_is_Some_2. eapply Forall_impl; [exact Hts|]. intros t Ht. unfold compose. cbv beta in *.
    destruct (load_some (tn_queues t) core Ht) as [fd E]. by rewrite E. }
  eapply t_lift_bind; [exact Eps|]. by apply t_ret.
Qed.

Lemma t_tun_plane_release n t R : triple (tun_plane_res n t ++ R) (tun_plane_release t n) (fun _ => R).
Proof. unfold tun_plane_release, tun_plane_res. cbn [app]. own. Qed.

(** ** Event descriptors *)

Definition ep_res (e : epoll_desc) : list res :=
  match ep_type e with
  | EPOLL_SIGNAL | EPOLL_NETLINK => [(KFd, ep_fd e, 0); (KNuma, ep_ptr e, sizeof_epoll_desc)]
  | _ => [(KNuma, ep_ptr e, sizeof_epoll_desc)]
  end.

(** What the destruction of a descriptor leaves behind. *)
Definition ep_left (e : epoll_desc) : list res :=
  match ep_type e with EPOLL_NETLINK => ep_res e | _ => [] end.

Lemma t_destroy_one fd_ep e S :
  triple (ep_res e ++ S) (fd_destroy_one fd_ep e) (fun _ => ep_left e ++ S).
Proof.
  unfold fd_destroy_one, ep_left, ep_res. eapply t_bind; [apply t_request|]. intros ?. cbv beta.
  destruct (ep_type e); cbn [app]; try apply t_release; [|by apply t_ret].
  unfold epoll_desc_release_signalfd. own.
Qed.

Lemma t_fd_destroy descs fd_ep R :
  triple (concat (ep_res <$> descs) ++ (KFd, fd_ep, 0) :: R) (thread_fd_destroy descs fd_ep)
    (fun _ => concat (ep_left <$> descs) ++ R).
Proof.
  assert (forall S, triple (concat (ep_res <$> descs) ++ S) (for_each (fd_destroy_one fd_ep) descs)
    (fun _ => concat (ep_left <$> descs) ++ S)) as Hloop.
  { induction descs as [|e descs IH]; intros S; cbn [for_each fmap list_fmap concat]; [by apply t_ret|].
    rewrite <- (assoc_L (++)). eapply t_bind; [apply t_destroy_one|]. intros ?. cbv beta.
    eapply t_need; [|eapply t_post; [apply (IH (ep_left e ++ S))|]]; intros; solve_Permutation. }
  unfold thread_fd_destroy. eapply t_bind; [apply Hloop|]. intros ?. cbv beta. own_step.
Qed.

(** A descriptor that is not registered is not held either. *)
Definition alloc_ok (alloc : M (option epoll_desc)) : Prop := forall R, triple R alloc (maybe ep_res R).

Lemma fd_allocs_ok pl tp n :
  (n <= length (pl_ports pl))%nat -> (n <= length (tpl_ports tp))%nat -> Forall alloc_ok (fd_allocs pl tp n).
Proof.
  intros Hp Ht. unfold fd_allocs. apply Forall_app. split.
  - apply Forall_concat, Forall_fmap, Forall_forall. intros i Hi%elem_of_seq.
    destruct (load_some (pl_ports pl) (Z.of_nat i)) as [p Ep]; [lia|].
    destruct (load_some (tpl_ports tp) (Z.of_nat i)) as [t Et]; [lia|].
    assert (forall ty, alloc_ok (epoll_desc_alloc_irq pl (Z.of_nat i) ty)) as Hirq.
    { intros ty R. unfold epoll_desc_alloc_irq, ixmap_irq_fd, ixmap_irq_handle. rewrite Ep. opt. own.
      eapply t_lift_bind; [done|]. apply t_ret. by destruct ty. }
    constructor; [apply Hirq|]. constructor; [apply Hirq|]. constructor; [|constructor].
    intros R. unfold epoll_desc_alloc_tun. rewrite Et. own. eapply t_lift_bind; [done|]. by apply t_ret.
  - constructor; [|constructor; [|constructor]]; intros R.
    + unfold epoll_desc_alloc_signalfd. own.
    + unfold epoll_desc_alloc_netlink. own. eapply t_bind; [apply t_request|]. intros r. cbv beta.
      destruct (r <? 0); own.
Qed.

Lemma t_fd_add_all fd_ep allocs descs R :
  Forall alloc_ok allocs ->
  triple (concat (ep_res <$> descs) ++ R) (fd_add_all fd_ep allocs descs)
    (fun r => concat (ep_res <$> r.1) ++ R).
Proof.
  intros Ha. revert descs. induction Ha as [|al allocs Hal _ IH]; intros descs; cbn [fd_add_all]; [by apply t_ret|].
  eapply (t_bind _ _ _ (fun r => concat (ep_res <$> r.1) ++ R)).
  - unfold fd_add. eapply t_bind; [apply Hal|]. intros [e|]; cbn [maybe]; [|by apply t_ret].
    eapply t_bind; [apply t_request|]. intros r. apply t_ret. cbn. solve_Permutation.
  - intros [ds ok]. cbn [fst]. destruct ok; [apply IH|by apply t_ret].
Qed.

(** The only descriptor left behind is the netlink one. *)
Lemma y_fd_add_all fd_ep allocs descs :
  Forall (fun al => yields al (fun r => match r with Some e => ep_left e = [] | None => True end)) allocs ->
  concat (ep_left <$> descs) = [] ->
  yields (fd_add_all fd_ep (allocs ++ [epoll_desc_alloc_netlink]) descs)
    (fun r => if r.2 then exists e, ep_type e = EPOLL_NETLINK /\ concat (ep_left <$> r.1) = ep_res e
              else True).
Proof.
  intros Ha. revert descs. induction Ha as [|al allocs Hal _ IH]; intros descs Hd; cbn [fd_add_all app].
  - eapply (y_bind _ _ (fun r => r.2 = true ->
      exists e, ep_type e = EPOLL_NETLINK /\ concat (ep_left <$> r.1) = ep_res e)).
    + unfold fd_add.
      eapply (y_bind _ _ (fun r => match r with Some e => ep_type e = EPOLL_NETLINK | None => True end)).
      * unfold epoll_desc_alloc_netlink. apply y_then. intros [ep|]; [|by apply y_ret].
        apply y_then. intros [fd|]; [|apply y_then; intros ?; by apply y_ret].
        apply y_then. intros r. destruct (r <? 0); [do 2 (apply y_then; intros ?); by apply y_ret|by apply y_ret].
      * intros [e|] He; [|by apply y_ret]. apply y_then. intros r. apply y_ret. intros _. exists e.
        split; [done|]. cbn. unfold ep_left at 1. by rewrite He, Hd, app_nil_r.
    + intros [ds ok] Hds. cbn [fst snd] in Hds. destruct ok; apply y_ret; cbn; [by apply Hds|done].
  - eapply (y_bind _ _ (fun r => concat (ep_left <$> r.1) = [])).
    + unfold fd_add. eapply y_bind; [exact Hal|]. intros [e|] He; [|by apply y_ret].
      apply y_then. intros r. apply y_ret. cbn. by rewrite He, Hd.
    + intros [ds ok] Hds. destruct ok; [by apply IH|by apply y_ret].
Qed.

(** ** Cores *)

(** A handle after the rings of core [i] were set up, or after an attempt. *)
Record touched (i : Z) (ih ih' : handle) : Prop := {
  tc_handle : handle_res ih' = handle_res ih;
  tc_bar : h_bar_size ih' = h_bar_size ih;
  tc_fd : h_fd ih' = h_fd ih;
  tc_nrx : h_num_rx_desc ih' = h_num_rx_desc ih;
  tc_ntx : h_num_tx_desc ih' = h_num_tx_desc ih;
  tc_lrx : length (h_rx ih') = length (h_rx ih);
  tc_ltx : length (h_tx ih') = length (h_tx ih);
  tc_rx : forall j, j <> i -> load (h_rx ih') j = load (h_rx ih) j;
  tc_tx : forall j, j <> i -> load (h_tx ih') j = load (h_tx ih) j
}.

Lemma touched_refl i ih : touched i ih ih.
Proof. by split. Qed.

Lemma touched_core i j ih ih' : touched i ih ih' -> has_core j ih -> has_core j ih'.
Proof. intros [_ _ _ _ _ H1 H2 _ _] [Hr Ht]. split; rewrite ?H1, ?H2; done. Qed.

Lemma touched_rings i j ih ih' : touched i ih ih' -> j <> i -> ring_res j ih' = ring_res j ih.
Proof.
  intros [_ _ Hfd Hn1 Hn2 _ _ Hr Ht] Hj. unfold ring_res. by rewrite Hr, Ht, Hfd, Hn1, Hn2 by done.
Qed.

Lemma set_rx_touched i r ih ih' : set_rx_hring i r ih = Some ih' -> touched i ih ih'.
Proof.
  unfold set_rx_hring. destruct (store (h_rx ih) i r) as [l|] eqn:E; [|done]. intros [= <-].
  split; cbn; try done; [by apply store_length in E|]. intros j Hj. rewrite (load_store _ _ _ j _ E). by rewrite decide_False.
Qed.

Lemma set_tx_touched i r ih ih' : set_tx_hring i r ih = Some ih' -> touched i ih ih'.
Proof.
  unfold set_tx_hring. destruct (store (h_tx ih) i r) as [l|] eqn:E; [|done]. intros [= <-].
  split; cbn; try done; [by apply store_length in E|]. intros j Hj. rewrite (load_store _ _ _ j _ E). by rewrite decide_False.
Qed.

Lemma touched_trans i a b c : touched i a b -> touched i b c -> touched i a c.
Proof.
  intros [H1 H2 H3 H4 H5 H6 H7 H8 H9] [K1 K2 K3 K4 K5 K6 K7 K8 K9].
  split; try congruence; intros j Hj; rewrite ?K8, ?K9, ?H8, ?H9 by done; done.
Qed.

Lemma y_desc_port_touched i a ih : yields (desc_port i a ih) (fun r => touched i ih r.1).
Proof.
  unfold desc_port. apply y_then. intros [rd|]; [|apply y_ret, touched_refl].
  apply y_then. intros [rs|]; [|apply y_then; intros ?; apply y_ret, touched_refl].
  eapply y_bind; [apply y_lift; intros x Hx; exact (set_rx_touched _ _ _ _ Hx)|]. intros ih1 H1. cbv zeta.
  apply y_then. intros [td|]; [|do 2 (apply y_then; intros ?); by apply y_ret].
  apply y_then. intros [ts|]; [|do 3 (apply y_then; intros ?); by apply y_ret].
  eapply y_bind; [apply y_lift; intros x Hx; exact (set_tx_touched _ _ _ _ Hx)|]. intros ih2 H2. apply y_ret.
  cbn [fst]. by eapply touched_trans.
Qed.

Lemma y_desc_loop_touched i a l :
  yields (desc_loop i a l)
    (fun r => Forall2 (touched i) l match r with inl x => x.1 | inr x => x.1 ++ x.2 end).
Proof.
  revert a. induction l as [|ih l IH]; intros a; cbn [desc_loop]; [by apply y_ret|].
  eapply y_bind; [apply y_desc_port_touched|]. intros [ih' [next|]] Ht; cbn [fst] in Ht.
  - eapply y_bind; [apply IH|]. intros [[hs last]|[ok rest]] Hl; apply y_ret; cbn in *; by constructor.
  - apply y_ret. cbn. constructor; [done|]. apply Forall_Forall2_diag, Forall_true. apply touched_refl.
Qed.

Lemma y_desc_alloc_touched i l : yields (ixmap_desc_alloc l i) (fun r => Forall2 (touched i) l r.1).
Proof.
  assert (Forall2 (touched i) l l) as Hrefl by (apply Forall_Forall2_diag, Forall_true; apply touched_refl).
  unfold ixmap_desc_alloc. apply y_then. intros [d|]; [|by apply y_ret].
  apply y_then. intros [a|]; [|apply y_then; intros ?; by apply y_ret].
  eapply y_bind; [apply y_desc_loop_touched|]. intros [[hs last]|[ok rest]] Hl; cbn [fst snd] in Hl; cbv zeta.
  - apply y_then. intros [nd|]; [by apply y_ret|]. do 3 (apply y_then; intros ?). apply y_ret. cbn. by rewrite app_nil_r.
  - do 3 (apply y_then; intros ?). by apply y_ret.
Qed.

(** Handles after the rings of cores from [i] on were set up. *)
Record later (i : Z) (ih ih' : handle) : Prop := {
  lt_handle : handle_res ih' = handle_res ih;
  lt_bar : h_bar_size ih' = h_bar_size ih;
  lt_lrx : length (h_rx ih') = length (h_rx ih);
  lt_ltx : length (h_tx ih') = length (h_tx ih);
  lt_rings : forall j, j < i -> ring_res j ih' = ring_res j ih
}.

Lemma later_refl i ih : later i ih ih.
Proof. by split. Qed.

Lemma touched_later i a b c : touched i a b -> later (i + 1) b c -> later i a c.
Proof.
  intros Ht [H1 H2 H3 H4 H5]. pose proof Ht as [K1 K2 _ _ _ K3 K4 _ _]. split; try congruence.
  intros j Hj. rewrite H5 by lia. eapply touched_rings; [done|lia].
Qed.

Lemma touched_later_l i l l1 l2 : Forall2 (touched i) l l1 -> Forall2 (later (i + 1)) l1 l2 -> Forall2 (later i) l l2.
Proof.
  intros H1. revert l2. induction H1 as [|a b l l1 Hab _ IH]; intros l2 H2; inversion H2; subst; constructor.
  - by eapply touched_later.
  - by apply IH.
Qed.

Lemma later_rings i j l l' : Forall2 (later i) l l' -> j < i -> (ring_res j <$> l') = (ring_res j <$> l).
Proof.
  intros H Hj. induction H as [|a b l l' Hab _ IH]; [done|]. cbn. rewrite IH. by rewrite (lt_rings _ _ _ Hab).
Qed.

Definition cores_from (i : Z) (n : nat) (ih : handle) : Prop := forall j, i <= j < i + Z.of_nat n -> has_core j ih.

Lemma y_core_descs n i l :
  yields (desc_core_loop n i l) (fun r => Forall2 (later i) l r.1.1 /\
    Forall (fun d => i <= d.1 < i + Z.of_nat n) r.1.2).
Proof.
  revert i l. induction n as [|n IH]; intros i l; cbn [desc_core_loop].
  { apply y_ret. split; [|constructor]. apply Forall_Forall2_diag, Forall_true. apply later_refl. }
  eapply y_bind; [apply y_desc_alloc_touched|]. intros [l1 [d|]] Ht; cbn [fst] in Ht.
  - eapply y_bind; [apply IH|]. intros [[l2 ds] ok] [Hl Hds]. apply y_ret. cbn [fst snd] in *.
    split; [by eapply touched_later_l|]. constructor; [cbn; lia|]. eapply Forall_impl; [exact Hds|].
    intros [j x] Hj. cbn in *. lia.
  - apply y_ret. split; [|constructor]. eapply touched_later_l; [exact Ht|].
    apply Forall_Forall2_diag, Forall_true. apply later_refl.
Qed.

Definition areas_res (l : list handle) (ds : list (Z * desc_area)) : list res :=
  concat ((fun d => desc_res d.1 l d.2) <$> ds).

Lemma touched_cores i j n l l1 :
  Forall2 (touched i) l l1 -> Forall (cores_from j n) l -> Forall (cores_from j n) l1.
Proof.
  intros Ht Hc. revert Hc. induction Ht as [|a b l l1 Hab _ IH]; intros Hc; [constructor|].
  inversion Hc; subst. constructor; [|by apply IH]. intros k Hk. eapply touched_core; [done|]. by apply H1.
Qed.

Lemma t_core_descs n i l R :
  Forall (cores_from i n) l ->
  triple R (desc_core_loop n i l) (fun r => areas_res r.1.1 r.1.2 ++ R).
Proof.
  revert i l R. induction n as [|n IH]; intros i l R Hc; cbn [desc_core_loop]; [by apply t_ret|].
  eapply t_bind_y; [apply t_desc_alloc|apply y_desc_alloc_touched|].
  { eapply Forall_impl; [exact Hc|]. intros ih H. apply H. lia. }
  intros [l1 [d|]] Ht; cbn [fst snd desc_post] in *; [|by apply t_ret].
  eapply t_bind_y; [apply IH|apply y_core_descs|].
  { eapply touched_cores; [exact Ht|]. eapply Forall_impl; [exact Hc|]. intros ih H j Hj. apply H. lia. }
  intros [[l2 ds] ok] [Hl _]. apply t_ret. unfold areas_res. cbn [fst snd fmap list_fmap concat] in *.
  replace (desc_res i l2 d) with (desc_res i l1 d); [solve_Permutation|].
  unfold desc_res. by rewrite (later_rings (i + 1) i l1 l2 Hl) by lia.
Qed.

Lemma t_desc_release_core core l d R :
  Forall (has_core core) l -> triple (desc_res core l d ++ R) (ixmap_desc_release l core d) (fun _ => R).
Proof.
  intros Hl. unfold ixmap_desc_release, desc_res. cbn [app]. own_step. rewrite <- (assoc_L (++)). cbn [app].
  eapply t_bind.
  { apply t_for_each. intros ih S Hin. rewrite Forall_forall in Hl. destruct (Hl ih Hin).
    apply t_desc_unport; apply load_some; lia. }
  intros ?. cbv beta. eapply t_bind; [by apply t_munmap|]. intros ?. own.
Qed.

Lemma t_thread_create R :
  triple R (ixmapfwd_thread_create false) (fun r => if r.1 <? 0 then R else (KThread, r.2, 0) :: R).
Proof.
  assert (forall tid, triple ((KThread, tid, 0) :: R)
    (ret ← pthread_setaffinity_np tid;
     if ret <? 0 then ixmapfwd_thread_kill tid ;; mret (-1, 0) else mret (0, tid))
    (fun r : Z * Z => if r.1 <? 0 then R else (KThread, r.2, 0) :: R)) as Htail.
  { intros tid. eapply (t_bind _ _ _ (fun _ => (KThread, tid, 0) :: R)).
    - unfold pthread_setaffinity_np. eapply t_bind; [apply t_ask|]. intros [x|]; by apply t_ret.
    - intros r. destruct (r <? 0); [|by apply t_ret].
      eapply t_bind; [apply t_release|]. intros ?. by apply t_ret. }
  unfold ixmapfwd_thread_create.
  eapply (t_bind_y _ _ (fun r => r.1 = 0 /\ is_Some r.2) _
            (fun r => match r.2 with Some tid => (KThread, tid, 0) :: R | None => R end)).
  - unfold pthread_create. eapply t_bind; [apply t_acquire|]. intros [tid|]; [by apply t_ret|].
    intros s L Hs. eexists _, _. split; [done|]. cbn. by rewrite Hs.
  - unfold pthread_create. apply y_then. intros [tid|]; [apply y_ret; cbn; eauto|].
    apply y_then. intros ?. apply y_ret. cbn. eauto.
  - intros [ret tid] [Hr [t Ht]]. cbn [fst snd] in *. subst. cbn [Z.ltb Z.compare]. eapply t_lift_bind; [done|]. apply Htail.
Qed.

Definition core_res (l : list handle) (c : core) : list res :=
  let n := Z.of_nat (length l) in
  (KThread, co_tid c, 0) :: tun_plane_res n (co_tun c) ++ plane_res n (co_plane c) ++ buf_res l (co_buf c).

Definition buf_good (l : list handle) (b : ibuf) : Prop :=
  buf_bytes (Z.of_nat (length l)) (count (ib_buf b)) (buf_size (ib_buf b)) <> 0.

Lemma t_core_start cfg l ts n i R :
  Forall (has_core i) l -> Forall (fun t => 0 <= i < Z.of_nat (length (tn_queues t))) ts ->
  length ts = length l ->
  triple R (core_start cfg false l ts n i) (maybe (core_res l) R).
Proof.
  intros Hl Hts Hlen. unfold core_start. cbv zeta.
  eapply t_bind_y; [apply t_buf_alloc|apply y_buf_alloc|].
  intros [b|] Hb; cbn [maybe] in *; [|by apply t_ret]. destruct Hb as (Hsz & Hc & Hn & _).
  assert (forall S, triple (buf_res l b ++ S) (ixmap_buf_release b l) (fun _ => S)) as Hrel.
  { intros S. apply t_buf_release. by rewrite Hc, Hn. }
  eapply t_bind; [by apply t_plane_alloc|]. intros [pl|]; cbn [maybe].
  2:{ eapply t_bind; [apply Hrel|]. intros ?. by apply t_ret. }
  eapply t_bind; [by apply t_tun_plane_alloc|]. intros [tp|]; cbn [maybe].
  2:{ eapply t_bind; [apply t_plane_release|]. intros ?. cbv beta. eapply t_bind; [apply Hrel|]. intros ?. by apply t_ret. }
  rewrite Hlen. eapply t_bind; [apply t_thread_create|]. intros [ret tid]. cbn [fst snd]. destruct (ret <? 0).
  - eapply t_bind; [apply t_tun_plane_release|]. intros ?. cbv beta.
    eapply t_bind; [apply t_plane_release|]. intros ?. cbv beta. eapply t_bind; [apply Hrel|]. intros ?. by apply t_ret.
  - apply t_ret. unfold maybe, core_res. cbn [co_tid co_tun co_plane co_buf]. solve_Permutation.
Qed.

Lemma y_core_start cfg rf l ts n i :
  yields (core_start cfg rf l ts n i) (fun r => match r with Some c => buf_good l (co_buf c) | None => True end).
Proof.
  unfold core_start. cbv zeta. eapply y_bind; [apply y_buf_alloc|]. intros [b|] Hb; [|by apply y_ret].
  apply y_then. intros [pl|]; [|apply y_then; intros ?; by apply y_ret].
  apply y_then. intros [tp|]; [|do 2 (apply y_then; intros ?); by apply y_ret].
  apply y_then. intros [ret tid]. destruct (ret <? 0); [do 3 (apply y_then; intros ?); by apply y_ret|].
  apply y_ret. destruct Hb as (Hs & Hc & Hn & _). unfold buf_good. cbn. by rewrite Hc, Hn.
Qed.

Lemma t_core_stop l c R : buf_good l (co_buf c) -> triple (core_res l c ++ R) (core_stop l c) (fun _ => R).
Proof.
  intros Hb. unfold core_stop, core_res. cbv zeta. cbn [app]. rewrite <- !(assoc_L (++)).
  eapply t_bind; [apply t_release|]. intros ?. cbv beta. eapply t_bind; [apply t_tun_plane_release|]. intros ?. cbv beta.
  eapply t_bind; [apply t_plane_release|]. intros ?. cbv beta. by apply t_buf_release.
Qed.

Lemma t_core_loop cfg l ts sz n i R :
  Forall (cores_from i n) l -> Forall (fun t => 0 <= i /\ i + Z.of_nat n <= Z.of_nat (length (tn_queues t))) ts ->
  length ts = length l ->
  triple R (core_loop cfg false l ts sz n i) (fun r => concat (core_res l <$> r.1) ++ R).
Proof.
  revert i R. induction n as [|n IH]; intros i R Hl Hts Hlen; cbn [core_loop]; [by apply t_ret|].
  eapply t_bind; [apply t_core_start; [| |done]|].
  - eapply Forall_impl; [exact Hl|]. intros ih H. apply H. lia.
  - eapply Forall_impl; [exact Hts|]. intros t H. cbv beta in *. lia.
  - intros [c|]; cbn [maybe]; [|by apply t_ret]. eapply t_bind; [apply IH; [| |done]|].
    + eapply Forall_impl; [exact Hl|]. intros ih H j Hj. apply H. lia.
    + eapply Forall_impl; [exact Hts|]. intros t H. cbv beta in *. lia.
    + intros [cs ok]. apply t_ret. cbn [fst fmap list_fmap concat]. solve_Permutation.
Qed.

Lemma y_core_loop cfg rf l ts sz n i :
  yields (core_loop cfg rf l ts sz n i) (fun r => Forall (fun c => buf_good l (co_buf c)) r.1).
Proof.
  revert i. induction n as [|n IH]; intros i; cbn [core_loop]; [apply y_ret; constructor|].
  eapply y_bind; [apply y_core_start|]. intros [c|] Hc; [|apply y_ret; constructor].
  eapply y_bind; [apply IH|]. intros [cs ok] Hcs. apply y_ret. by constructor.
Qed.

(** ** The parts of [main] *)

Lemma t_requests n R : triple R (requests n) (fun _ => R).
Proof.
  induction n as [|n IH]; cbn [requests]; [by apply t_ret|].
  eapply t_bind; [apply t_request|]. intros r. cbv beta. destruct (r =? 0); [done|by apply t_ret].
Qed.

Lemma t_main_cores cfg l ts sz R :
  Forall (cores_from 0 (c_num_cores cfg)) l -> Forall (fun t => length (tn_queues t) = c_num_cores cfg) ts ->
  length ts = length l -> triple R (main_cores cfg false l ts sz) (fun _ => R).
Proof.
  intros Hl Hts Hlen. unfold main_cores. eapply t_bind; [apply t_requests|]. intros r. cbv beta.
  destruct (negb (r =? 0)); [by apply t_ret|].
  eapply t_bind_y; [apply t_core_loop; [done| |done]|apply y_core_loop|].
  { eapply Forall_impl; [exact Hts|]. intros t H. cbv beta in *. lia. }
  intros [cs ok] Hcs. cbn [fst] in *. rewrite Forall_forall in Hcs. eapply t_bind.
  - apply t_for_each. intros c S Hin. apply t_core_stop. by apply Hcs.
  - intros ?. by apply t_ret.
Qed.

Lemma t_tun_loop n l R : triple R (tun_loop n l) (fun r => concat (tun_res n <$> r.1) ++ R).
Proof.
  revert R. induction l as [|ih l IH]; intros R; cbn [tun_loop]; [by apply t_ret|].
  eapply t_bind; [apply t_tun_open|]. intros [t|]; cbn [maybe]; [|by apply t_ret].
  eapply t_bind; [apply IH|]. intros [ts ok]. apply t_ret. cbn [fst fmap list_fmap concat]. solve_Permutation.
Qed.

Lemma y_tun_loop n l :
  yields (tun_loop n l) (fun r => Forall (fun t => length (tn_queues t) = n) r.1 /\
    (r.2 = true -> length r.1 = length l)).
Proof.
  induction l as [|ih l IH]; cbn [tun_loop]; [apply y_ret; split; [constructor|done]|].
  eapply y_bind; [apply y_tun_open|]. intros [t|] Ht; [|apply y_ret; split; [constructor|done]].
  eapply y_bind; [apply IH|]. intros [ts ok] [Hts Hl]. apply y_ret. cbn in *. split; [by constructor|].
  intros Hok. by rewrite Hl.
Qed.

Lemma configured_core j ih : has_core j ih -> has_core j (configured ih).
Proof. intros [Hr Ht]. split; cbn; by rewrite length_imap. Qed.

Lemma t_main_tun cfg l R :
  Forall (cores_from 0 (c_num_cores cfg)) l -> triple R (main_tun cfg false l) (fun _ => R).
Proof.
  intros Hl. unfold main_tun. cbv zeta. eapply t_bind_y; [apply t_tun_loop|apply y_tun_loop|].
  intros [ts ok] [Hts Hlen]. cbn [fst snd] in *.
  eapply (t_bind _ _ _ (fun _ => concat (tun_res (c_num_cores cfg) <$> ts) ++ R)).
  - destruct ok; [|by apply t_ret]. apply t_main_cores; [|done|by apply Hlen].
    apply Forall_fmap. eapply Forall_impl; [exact Hl|]. intros ih H j Hj. by apply configured_core, H.
  - intros r. eapply t_bind; [apply t_for_each; intros t S _; apply t_tun_close|]. intros ?. by apply t_ret.
Qed.

Definition good (n : nat) (ih : handle) : Prop := cores_from 0 n ih /\ h_bar_size ih <> 0.

Lemma later_good n l l' : Forall2 (later 0) l l' -> Forall (good n) l ->
  Forall (good n) l' /\ (handle_res <$> l') = (handle_res <$> l).
Proof.
  intros H. induction H as [|a b l l' [H1 H2 H3 H4 _] _ IH]; intros Hg; [done|]. inversion Hg as [|? ? [Hc Hb] Hg']; subst.
  destruct (IH Hg') as [Hg1 E1]. split; [|cbn; by rewrite E1, H1]. constructor; [|done]. split; [|congruence].
  intros j Hj. destruct (Hc j Hj). split; rewrite ?H3, ?H4; done.
Qed.

Lemma t_main_desc cfg l R :
  Forall (good (c_num_cores cfg)) l ->
  triple (concat (handle_res <$> l) ++ R) (main_desc cfg false l) (fun _ => R).
Proof.
  intros Hg. assert (Forall (cores_from 0 (c_num_cores cfg)) l) as Hc.
  { eapply Forall_impl; [exact Hg|]. by intros ih [H _]. }
  unfold main_desc. eapply t_bind_y; [by apply t_core_descs|apply y_core_descs|].
  intros [[l1 ds] ok] [Hlat Hds]. cbn [fst snd] in *. destruct (later_good _ _ _ Hlat Hg) as [Hg1 <-].
  assert (Forall (cores_from 0 (c_num_cores cfg)) l1) as Hc1.
  { eapply Forall_impl; [exact Hg1|]. by intros ih [H _]. }
  eapply (t_bind _ _ _ (fun _ => areas_res l1 ds ++ concat (handle_res <$> l1) ++ R)).
  { destruct ok; [by apply t_main_tun|by apply t_ret]. }
  intros r. cbv beta. eapply t_bind.
  { apply t_for_each. intros d S Hd. apply t_desc_release_core. rewrite Forall_forall in Hds. specialize (Hds d Hd).
    eapply Forall_impl; [exact Hc1|]. intros ih H. apply H. lia. }
  intros ?. cbv beta. rewrite Forall_forall in Hg1. eapply t_bind.
  - apply t_for_each. intros ih S Hin. apply t_close. by apply Hg1.
  - intros ?. by apply t_ret.
Qed.

(** ** Theorems *)

(** A device with enough queues for the cores. *)
Definition info_ok (n : nat) (info : info_req) : Prop :=
  mmio_size info <> 0 /\ Z.of_nat n <= max_rx_queues info /\ Z.of_nat n <= max_tx_queues info.

Definition leaked (leak : list res) : Prop := leak = [] \/ exists bar size, leak = [(KMmap, bar, size)].

Lemma opened_good n info ih : info_ok n info -> opened info (Z.of_nat n) IXGBE_MAX_RXD IXGBE_MAX_TXD ih -> good n ih.
Proof.
  intros (Hm & Hr & Ht) [Hb Hq Hrx Htx _ _]. split; [|congruence]. intros j Hj.
  split; rewrite ?Hrx, ?Htx, Hq; lia.
Qed.

Lemma o_open_loop cfg infos R :
  Forall (info_ok (c_num_cores cfg)) infos ->
  outcomes R (open_loop cfg infos) (fun r R' => exists leak, leaked leak /\ (r.2 = true -> leak = []) /\
    R' ≡ₚ leak ++ concat (handle_res <$> r.1) ++ R /\ Forall (good (c_num_cores cfg)) r.1).
Proof.
  intros Hi. revert R. induction Hi as [|info infos Hinfo _ IH]; intros R; cbn [open_loop].
  { apply o_ret. exists []. split; [by left|]. split; [done|]. split; [done|constructor]. }
  eapply o_bind2; [apply o_open|]. intros [ih|] R1 Hpost; cbn [open_post] in Hpost.
  - destruct Hpost as [Hperm Hop]. eapply o_bind2; [apply IH|].
    intros [l ok] R2 (leak & Hlk & Hok & HR2 & Hg). apply o_ret. exists leak. cbn [fst snd] in *.
    split; [done|]. split; [done|]. split.
    + rewrite HR2, Hperm. cbn [fmap list_fmap concat]. solve_Permutation.
    + constructor; [by eapply opened_good|done].
  - apply o_ret. destruct Hpost as [Hperm|[bar Hperm]].
    + exists []. split; [by left|]. split; [done|]. split; [done|constructor].
    + exists [(KMmap, bar, mmio_size info)]. split; [right; eauto|]. split; [done|]. split; [done|constructor].
Qed.

Lemma t_close_all n l R :
  Forall (good n) l -> triple (concat (handle_res <$> l) ++ R) (for_each ixmap_close l) (fun _ => R).
Proof.
  intros Hg. apply t_for_each. intros ih S Hin. apply t_close. rewrite Forall_forall in Hg. by apply (Hg ih Hin).
Qed.

(** C28: the main program gives back what it acquires.  Whatever the system
    refuses and whenever, provided that it grants threads and that every device
    has a queue for each core, [main] returns, has released nothing twice, and
    holds what it held at the start; all that may be left is the register mapping
    of a device whose opening failed, and then it reports failure. *)
Theorem main_gives_back cfg s :
  Forall (info_ok (c_num_cores cfg)) (c_infos cfg) ->
  exists ret s' leak, main cfg false s = Some (ret, s') /\ ledger s' ≡ₚ leak ++ ledger s /\
    (leak = [] \/ ret = -1 /\ exists bar size, leak = [(KMmap, bar, size)]).
Proof.
  intros Hi.
  enough (outcomes [] (main cfg false) (fun ret R => exists leak, R ≡ₚ leak /\
    (leak = [] \/ ret = -1 /\ exists bar size, leak = [(KMmap, bar, size)]))) as H.
  { destruct (H s (ledger s)) as (ret & s' & R & E & (leak & HR & Hl) & HL); [done|].
    exists ret, s', leak. split; [done|]. by rewrite HL, HR. }
  unfold main. cbv zeta. own_out; try (apply o_ret; exists []; split; [done|by left]).
  eapply o_bind2; [by apply o_open_loop|]. intros [l ok] R1 (leak & Hlk & Hok & HR1 & Hg). cbn [fst snd] in *.
  set (base := [_; _; _]) in HR1.
  eapply (o_bind2 _ _ _ (fun ret R => R ≡ₚ leak ++ base /\ (ok = false -> ret = -1))).
  - destruct ok.
    + eapply o_triple; [eapply t_need; [|apply (t_main_desc cfg l (leak ++ base) Hg)]|].
      * rewrite HR1. solve_Permutation.
      * intros ret. split; [done|]. done.
    + eapply o_bind; [eapply t_need; [|apply (t_close_all _ l (leak ++ base) Hg)]|].
      * rewrite HR1. solve_Permutation.
      * intros ?. by apply o_ret.
  - intros ret R2 [HR2 Hret]. eapply o_bind.
    { eapply t_need; [|apply t_release]; [rewrite HR2; unfold base; bring]. }
    intros ?. cbv beta. own_out. apply o_ret.
    exists leak. split; [by rewrite app_nil_r|]. destruct Hlk as [->|Hlk]; [by left|].
    destruct ok; [left; by apply Hok|]. right. split; [by apply Hret|]. done.
Qed.

(** One device with eight queues. *)
Definition demo_info : info_req := InfoReq 0x80000 [2; 0; 0; 0; 0; 1] 0xFFFF 8 8.
Definition demo_config (cores : nat) : config := Config cores [demo_info] 0 0 8192 200.

Lemma main_gives_back_witness :
  exists ret s', main (demo_config 1) false (Os (replicate 12 (Some 1)) []) = Some (ret, s').
Proof.
  destruct (main_gives_back (demo_config 1) (Os (replicate 12 (Some 1)) [])) as (ret & s' & leak & E & _).
  - constructor; [|constructor]. split; [cbn; lia|cbn; lia].
  - exists ret, s'. exact E.
Defined.

(** A thread that cannot be created is not noticed.  [pthread_create] reports
    errors as positive numbers and [ixmapfwd_thread_create] tests for negative
    ones, so it goes on with an identifier that was never set. *)
Theorem main_thread_refused_undefined :
  Forall (info_ok (c_num_cores (demo_config 1))) (c_infos (demo_config 1)) /\
  main (demo_config 1) true (Os (replicate 50 (Some 1)) []) = None.
Proof.
  split; [|vm_compute; reflexivity]. constructor; [|constructor]. split; [cbn; lia|cbn; lia].
Qed.

(** A core without a queue writes past the rings.  [ixmap_open] gives a device
    no more rings than it has queues, and [ixmap_desc_alloc] uses the number of the
    core as index unchecked: with more cores than queues its assignment is out of
    bounds. *)
Theorem main_more_cores_than_queues :
  Forall (fun info => max_rx_queues info = 8) (c_infos (demo_config 9)) /\
  main (demo_config 9) false (Os (replicate 100 (Some 1)) []) = None.
Proof. split; [by repeat constructor|]. vm_compute. reflexivity. Qed.

(** The register mapping leaks when the rings cannot be allocated:
    [bar_size] is still zero when the failure path of [ixmap_open] unmaps
    [bar_size] bytes. *)
Theorem open_leaks_mapping :
  option_map (fun x => (x.1, ledger x.2))
    (ixmap_open demo_info 1 200 1024 4096 0 0 4096 4096 (Os [Some 1; Some 3; Some 0; Some 0; Some 0x7000] [])) =
  Some (None, [(KMmap, 0x7000, 0x80000)]).
Proof. vm_compute. reflexivity. Qed.

(** Every thread leaves its netlink socket open.  [thread_fd_destroy] releases
    all descriptors that [thread_fd_prepare] registered but the netlink one, whose
    socket and memory stay. *)
Theorem thread_fds_leak_netlink pl tp n s fd descs s1 :
  (n <= length (pl_ports pl))%nat -> (n <= length (tpl_ports tp))%nat ->
  thread_fd_prepare pl tp n s = Some (Some (fd, descs), s1) ->
  exists s2 ptr sock, thread_fd_destroy descs fd s1 = Some (tt, s2) /\
    ledger s2 ≡ₚ [(KFd, sock, 0); (KNuma, ptr, sizeof_epoll_desc)] ++ ledger s.
Proof.
  intros Hp Ht Hrun. pose proof (fd_allocs_ok pl tp n Hp Ht) as Hal.
  unfold thread_fd_prepare in Hrun. unfold mbind at 1, M_bind at 1 in Hrun.
  destruct (t_acquire KFd 0 [] s (ledger s)) as (r & s0 & E0 & H0); [done|]. rewrite E0 in Hrun.
  destruct r as [ep|]; [|done]. cbn [app] in H0. unfold mbind at 1, M_bind at 1 in Hrun.
  destruct (t_fd_add_all ep _ [] [(KFd, ep, 0)] Hal s0 (ledger s)) as ([ds ok] & s3 & E3 & H3); [done|].
  rewrite E3 in Hrun. cbn [fst] in H3. pose proof E3 as Ey.
  unfold fd_allocs in Ey.
  change [epoll_desc_alloc_signalfd; epoll_desc_alloc_netlink]
    with ([epoll_desc_alloc_signalfd] ++ [epoll_desc_alloc_netlink]) in Ey.
  rewrite (assoc_L (++)) in Ey. apply y_fd_add_all in Ey.
  - destruct ok.
    + injection Hrun as <- <- <-. destruct Ey as (e & He & Hleft). cbn [fst] in Hleft.
      destruct (t_fd_destroy ds ep [] s3 (ledger s)) as ([] & s2 & E2 & H2).
      { rewrite H3, <- !(assoc_L (++)). done. }
      exists s2, (ep_ptr e), (ep_fd e). split; [done|].
      assert (ledger s2 ≡ₚ ep_res e ++ ledger s) as H2'.
      { rewrite <- Hleft. etransitivity; [exact H2|]. by rewrite app_nil_r. }
      unfold ep_res in H2'. by rewrite He in H2'.
    + exfalso. unfold mbind, M_bind in Hrun. by destruct (thread_fd_destroy ds ep s3) as [[[] ?]|].
  - apply Forall_app. split.
    + apply Forall_concat, Forall_fmap, Forall_forall. intros i _.
      assert (forall ty, yields (epoll_desc_alloc_irq pl (Z.of_nat i) ty)
        (fun r => match r with Some e => ep_left e = [] | None => True end)) as Hirq.
      { intros ty. apply y_then. intros [x|]; [|by apply y_ret]. apply y_then. intros y. apply y_ret. by destruct ty. }
      repeat (constructor; [apply Hirq|]). constructor; [|constructor].
      apply y_then. intros [x|]; [|by apply y_ret]. apply y_then. intros y. by apply y_ret.
    + constructor; [|constructor]. apply y_then. intros [x|]; [|by apply y_ret].
      apply y_then. intros [y|]; [by apply y_ret|]. apply y_then. intros ?. by apply y_ret.
  - done.
Qed.

Definition demo_irq : irq_handle := IrqHandle 0x100 7 1 40.
Definition demo_iplane : iplane :=
  IPlane 0x200 0x300 [PPort (demo_port 0) demo_irq demo_irq (0, 0) 8 1522].
Definition demo_tun_plane : tun_plane := TunPlane 0x400 0x500 [TunPort 8 3 1522].

Lemma thread_fds_leak_netlink_witness :
  exists fd descs s1 s2, thread_fd_prepare demo_iplane demo_tun_plane 1 (Os (replicate 20 (Some 9)) []) =
      Some (Some (fd, descs), s1) /\ thread_fd_destroy descs fd s1 = Some (tt, s2) /\ length (ledger s2) = 2%nat.
Proof.
  destruct (thread_fd_prepare demo_iplane demo_tun_plane 1 (Os (replicate 20 (Some 9)) []))
    as [[[[fd descs]|] s1]|] eqn:E; [|vm_compute in E; discriminate|vm_compute in E; discriminate].
  destruct (thread_fds_leak_netlink demo_iplane demo_tun_plane 1 (Os (replicate 20 (Some 9)) []) fd descs s1)
    as (s2 & ptr & sock & E2 & H2); [cbn; lia|cbn; lia|exact E|].
  exists fd, descs, s1, s2. split; [reflexivity|]. split; [exact E2|]. by rewrite H2.
Defined.
