(* ===== verification/Rings.v ===== *)
(** * Rings whose buffers are not accounted for

    [DriverProps.v] accounts for every packet buffer, under the condition that a
    buffer is released by its owner.  The forwarding code releases a buffer that
    it has queued for transmission (src/src/forward.c), so that accounting does
    not hold for the thread.  What does hold is weaker: the indices of the rings
    stay in range, and every buffer a ring refers to is one of the pool.  That is
    enough to show that no access is out of bounds. *)

From stdpp Require Import prelude fin_maps gmap list.
From S2P Require Import Prelude Driver DriverFacts DriverProps.

Definition slot_in (b : buf) (s : Z) : Prop := 0 <= s < Z.of_nat (length (slots b)).

Definition port_safe (b : buf) (p : port) : Prop :=
  port_ok p b /\ Forall (slot_in b) (port_slots p) /\ Forall is_byte (mac_addr p).

Definition rings_ok (ps : list port) (b : buf) : Prop :=
  Forall (port_safe b) ps /\ length (addr_dma b) = length ps.

Lemma slot_in_same b b' s : same_buf b b' -> slot_in b s -> slot_in b' s.
Proof. intros (_ & _ & _ & _ & Hl). unfold slot_in. by rewrite Hl. Qed.

Lemma port_safe_same b b' p : same_buf b b' -> port_safe b p -> port_safe b' p.
Proof.
  intros Hs (Hp & Hf & Hm). split_and!; [by eapply port_ok_buf| |done].
  eapply Forall_impl; [done|]. intros s. by apply slot_in_same.
Qed.

Lemma rings_insert ps b i p' b' :
  rings_ok ps b -> same_buf b b' -> port_safe b' p' -> rings_ok (<[i := p']> ps) b'.
Proof.
  intros [Hps Hd] Hs Hp. split.
  - apply Forall_insert; [|done]. eapply Forall_impl; [done|]. intros p. by apply port_safe_same.
  - destruct Hs as (_ & -> & _). by rewrite length_insert.
Qed.

Lemma rings_buf ps b b' : rings_ok ps b -> same_buf b b' -> rings_ok ps b'.
Proof.
  intros [Hps Hd] Hs. split; [eapply Forall_impl; [done|]; intros p; by apply port_safe_same|].
  by destruct Hs as (_ & -> & _).
Qed.

(** The parts of a port that decide whether it is safe. *)
Lemma port_safe_move b b' p p' :
  port_safe b p -> same_buf b b' -> same_port p p' -> wf_ring (num_rx_desc p) (rx_ring p') ->
  wf_ring (num_tx_desc p) (tx_ring p') -> 0 <= rx_slot_next p' < count b ->
  Forall (slot_in b) ((ringq (num_rx_desc p) (rx_ring p')).*1 ++ (ringq (num_tx_desc p) (tx_ring p')).*1) ->
  port_safe b' p'.
Proof.
  intros ([_ _ [? ? ? ?]] & _ & Hm) Hs (Ho & Hn & Hn' & _ & _ & Hmac) Hr Ht Hx Hf. pose proof Hs as (_ & _ & _ & Hc & Hl).
  split_and!.
  - split; [by rewrite Hn|by rewrite Hn'|]. split; rewrite ?Ho, ?Hc, ?Hl; lia.
  - unfold port_slots, rx_queue, tx_queue. rewrite Hn, Hn'. eapply Forall_impl; [done|]. intros s. by apply slot_in_same.
  - by rewrite Hmac.
Qed.

Lemma port_safe_slots b p :
  port_safe b p -> Forall (slot_in b) (ringq (num_rx_desc p) (rx_ring p)).*1 /\
    Forall (slot_in b) (ringq (num_tx_desc p) (tx_ring p)).*1 /\ 0 <= rx_slot_next p < count b.
Proof. intros ([_ _ []] & Hf & _). unfold port_slots in Hf. apply Forall_app in Hf as [? ?]. split; [done|]. by split. Qed.

Lemma same_port_refl p : same_port p p.
Proof. by split_and!. Qed.

(** ** The operations *)

Lemma rx_assign_safe i p b :
  port_safe b p -> is_Some (load (addr_dma b) i) ->
  exists p' b', ixmap_rx_assign i p b = Some (p', b') /\ port_safe b' p' /\ same_buf b b'.
Proof.
  intros Hp [base Hb]. pose proof Hp as ([Hr Ht Hs] & _ & _). destruct (port_safe_slots b p Hp) as (Hf & Hf' & Hx).
  destruct (rx_assign_ok i base p b Hr Hs Hb) as (new & p' & b' & E & Hpost & _). exists p', b'. split; [done|].
  destruct Hpost as (Hw & Htx & _ & Hsp & Hs' & Hsb & Hq & _ & Hnew & _). split; [|done].
  eapply port_safe_move; try done; [by rewrite Htx| |].
  - destruct Hs' as [_ _ _ Hx']. destruct Hsb as (_ & _ & _ & Hc & _). by rewrite Hc in Hx'.
  - rewrite Htx, Hq, fmap_app, <- list_fmap_compose.
    apply Forall_app. split; [|done]. apply Forall_app. split; [done|].
    apply Forall_fmap, Forall_forall. intros s Hs0. cbn. destruct (Hnew s Hs0) as [Hin _]. destruct Hs. unfold in_share in Hin.
    unfold slot_in. lia.
Qed.

Lemma tx_clean_safe p b :
  port_safe b p -> exists p' b', ixmap_tx_clean p b = Some (p', b') /\ port_safe b' p' /\ same_buf b b'.
Proof.
  intros Hp. pose proof Hp as ([Hr Ht Hs] & _ & _). destruct (port_safe_slots b p Hp) as (Hf & Hf' & Hx). unfold ixmap_tx_clean.
  destruct (tx_clean_loop_spec (Z.to_nat (tx_budget p)) p b Ht Hf') as (p' & b' & -> & Hw & Hrx & _ & Hsp & Hx' & Hsb & Hq & _).
  opt. eexists _, _. split; [done|]. split; [|done].
  apply (port_safe_move b b' p); try done; cbn [add_counts rx_ring tx_ring rx_slot_next]; [by rewrite Hrx|by rewrite Hx'|].
  rewrite Hrx. apply Forall_app. split; [done|]. rewrite Hq, fmap_app in Hf'. by apply Forall_app in Hf' as [_ ?].
Qed.

Lemma tx_assign_safe i pk p b :
  port_safe b p -> is_Some (load (addr_dma b) i) -> slot_in b (pk_slot_index pk) ->
  exists p' b', ixmap_tx_assign i pk p b = Some (p', b') /\ port_safe b' p' /\ same_buf b b'.
Proof.
  intros Hp [base Hb] Hpk. pose proof Hp as ([Hr Ht Hs] & _ & _). destruct (port_safe_slots b p Hp) as (Hf & Hf' & Hx).
  destruct (tx_assign_ok i base pk p b Ht Hb Hpk) as (p' & b' & E & Hw & Hrx & Hsp & Hx' & Hsb & Hc). exists p', b'.
  split; [done|]. split; [|done]. apply (port_safe_move b b' p); try done; [by rewrite Hrx|by rewrite Hx'|].
  rewrite Hrx. apply Forall_app. split; [done|]. destruct Hc as [(_ & _ & _ & _ & Hq)|(_ & Htx & _)].
  - rewrite Hq, fmap_app. apply Forall_app. split; [done|]. by apply Forall_singleton.
  - by rewrite Htx.
Qed.

Lemma tx_xmit_safe p b : port_safe b p -> port_safe b (ixmap_tx_xmit p).
Proof.
  intros Hp. unfold ixmap_tx_xmit. destruct (tx_suspended p =? 0); [done|]. destruct Hp as ([Hr Ht [? ? ? ?]] & Hf & Hm).
  split_and!; [|done|done]. split; [done|by apply write_tail_wf|by split].
Qed.

Lemma rx_clean_safe p b :
  port_safe b p ->
  exists pks p', ixmap_rx_clean b p = Some (pks, p') /\ port_safe b p' /\ Forall (fun pk => slot_in b (pk_slot_index pk)) pks.
Proof.
  intros Hp. pose proof Hp as ([Hr Ht Hs] & _ & _). destruct (port_safe_slots b p Hp) as (Hf & Hf' & Hx). unfold ixmap_rx_clean.
  destruct (rx_clean_loop_spec (Z.to_nat (rx_budget p)) b p Hr) as (p' & -> & Hw & Htx & _ & Hsp & Hx' & Hq). opt.
  rewrite Hq, fmap_app in Hf. apply Forall_app in Hf as [Hf1 Hf2].
  eexists _, _. split; [done|]. split.
  - apply (port_safe_move b b p); try done; cbn [add_counts rx_ring tx_ring rx_slot_next];
      [by rewrite Htx|by rewrite Hx'|]. rewrite Htx. by apply Forall_app.
  - apply Forall_fmap. by rewrite Forall_fmap in Hf1.
Qed.

Lemma slot_assign_safe p b :
  port_safe b p ->
  exists slot p' b', ixmap_slot_assign b p = Some (slot, p', b') /\ port_safe b' p' /\ same_buf b b' /\
    (slot = -1 \/ slot_in b' slot).
Proof.
  intros Hp. pose proof Hp as ([Hr Ht Hs] & Hfs & Hm). destruct (port_safe_slots b p Hp) as (Hf & Hf' & Hx).
  destruct (slot_assign_spec p b Hs) as (slot & p' & b' & E & Hc). exists slot, p', b'. split; [done|].
  destruct Hc as [(-> & -> & -> & _)|(Hin & _ & (nx & Hnx & ->) & Hsb & _)].
  - split; [done|]. split; [by apply same_buf_refl|by left].
  - split; [|split; [done|]].
    + apply (port_safe_move b b' p); try done.
    + right. apply (slot_in_same b); [done|]. destruct Hs. unfold in_share in Hin. unfold slot_in. lia.
Qed.

Lemma hardware_safe p b rx tx :
  port_safe b p -> length rx = length (descs (rx_ring p)) -> length tx = length (descs (tx_ring p)) ->
  port_safe b (set_tx (with_descs tx (tx_ring p)) (tx_suspended p) (set_rx (with_descs rx (rx_ring p)) p)).
Proof.
  intros ([Hr Ht [? ? ? ?]] & Hf & Hm) H1 H2. split_and!; [|by unfold port_slots, rx_queue, tx_queue; cbn; rewrite !with_descs_slots|done].
  split; [by apply with_descs_wf|by apply with_descs_wf|by split].
Qed.
