(* ===== verification/Thread.v ===== *)
(** * The worker thread (src/src/thread.c, src/src/thread.h)

    The tables a thread allocates and releases, and its event loop, which
    receives, forwards and transmits packets, refills the rings and applies the
    kernel's notifications.  What the card, the devices and [epoll_wait] do is
    input: a list of batches of events and, for each event handled, what the card
    has written meanwhile and what [read] returns.  [None] is undefined
    behaviour. *)

From stdpp Require Import prelude fin_maps gmap list.
From S2P Require Import Prelude Alloc Lpm Fib Hash Neigh Driver DriverProps Forward Netlink Os Plane Tun.

(** The size of a pointer to a neighbour table. *)
Definition sizeof_pointer : Z := 8.

Section Tables.

Context {A : Type} `{Allocator A}.

(** ** Set-up and clean-up of the tables *)

(** [fib_alloc], [fib_release], [neigh_alloc] and [neigh_release] of a table
    among others in the same memory. *)
Definition fib_new (a : A) : option (option (fib * gmap Z fib_entry) * A) :=
  '(r, w) ← fib_alloc (FibWorld a ∅);
  Some (option_map (fun f => (f, fw_ents w)) r, fw_mem w).

Definition fib_end (x : fib * gmap Z fib_entry) (a : A) : option A :=
  fw_mem <$> fib_release (fst x) (FibWorld a (snd x)).

Definition neigh_new (family : Z) (a : A) : option (option (neigh_table * gmap Z neigh_entry) * A) :=
  '(r, w) ← neigh_alloc family (NeighWorld a ∅);
  Some (option_map (fun t => (t, nw_ents w)) r, nw_mem w).

Definition neigh_end (x : neigh_table * gmap Z neigh_entry) (a : A) : option A :=
  nw_mem <$> neigh_release (fst x) (NeighWorld a (snd x)).

Notation nt := (neigh_table * gmap Z neigh_entry)%type.

(** The loop over ports; [false] when a table could not be allocated. *)
Fixpoint neigh_loop (n : nat) (a : A) : option (list (nt * nt) * bool * A) :=
  match n with
  | O => Some ([], true, a)
  | S n =>
      '(t, a1) ← neigh_new AF_INET a;
      match t with
      | None => Some ([], false, a1)
      | Some t =>
        '(t6, a2) ← neigh_new AF_INET6 a1;
        match t6 with
        | None => a3 ← neigh_end t a2; Some ([], false, a3)
        | Some t6 => '(l, ok, a3) ← neigh_loop n a2; Some ((t, t6) :: l, ok, a3)
        end
      end
  end.

(** The loop at [err_assign_ports]. *)
Fixpoint neigh_end_loop (l : list (nt * nt)) (a : A) : option A :=
  match l with
  | [] => Some a
  | (t, t6) :: l => a1 ← neigh_end t6 a; a2 ← neigh_end t a1; neigh_end_loop l a2
  end.

(** The tables and the two arrays of pointers to them. *)
Record thread_tables := ThreadTables { tt_tables : tables A; tt_neigh : Z; tt_neigh6 : Z }.

(** From [err_assign_ports] on. *)
Definition tables_end (f f6 : fib * gmap Z fib_entry) (l : list (nt * nt)) (neigh neigh6 : Z) (a : A) : option A :=
  a ← neigh_end_loop l a;
  a ← al_free neigh6 a;
  a ← al_free neigh a;
  a ← fib_end f6 a;
  fib_end f a.

Definition thread_tables_alloc (num_ports : nat) (a : A) : option (option thread_tables * A) :=
  '(f, a) ← fib_new a;
  match f with
  | None => Some (None, a)
  | Some f =>
    '(f6, a) ← fib_new a;
    match f6 with
    | None => a ← fib_end f a; Some (None, a)
    | Some f6 =>
      '(neigh, a) ← al_alloc (sizeof_pointer * Z.of_nat num_ports) a;
      match neigh with
      | None => a ← fib_end f6 a; a ← fib_end f a; Some (None, a)
      | Some neigh =>
        '(neigh6, a) ← al_alloc (sizeof_pointer * Z.of_nat num_ports) a;
        match neigh6 with
        | None => a ← al_free neigh a; a ← fib_end f6 a; a ← fib_end f a; Some (None, a)
        | Some neigh6 =>
          '(l, ok, a) ← neigh_loop num_ports a;
          if ok : bool then Some (Some (ThreadTables (Tables a f f6 l.*1 l.*2) neigh neigh6), a)
          else a ← tables_end f f6 l neigh neigh6 a; Some (None, a)
        end
      end
    end
  end.

Definition thread_tables_release (x : thread_tables) : option A :=
  let tb := tt_tables x in
  tables_end (tb_fib tb) (tb_fib6 tb) (zip (tb_neigh tb) (tb_neigh6 tb)) (tt_neigh x) (tt_neigh6 x) (tb_mem tb).

(** ** The event loop *)

(** What leaves the thread: packets for the kernel, and values written to the
    interrupt registers of a port. *)
Inductive output :=
| TunWrite (w : tun_write)
| WriteReg (port_index : Z) (reg : nat) (v : Z).

Record worker := Worker {
  wk_ports : list port;
  wk_buf : buf;
  wk_tb : tables A;
  wk_tun : list tun_port;
  wk_mem : memory;
  wk_out : list output
}.

(** The thread as [forward.c] sees it. *)
Definition thread_of (w : worker) : thread A :=
  let tb := wk_tb w in
  Thread (wk_ports w) (wk_buf w)
    ((fun x => (x.1, NeighWorld (tb_mem tb) x.2)) <$> tb_neigh tb)
    ((fun x => (x.1, NeighWorld (tb_mem tb) x.2)) <$> tb_neigh6 tb)
    ((tb_fib tb).1, FibWorld (tb_mem tb) (tb_fib tb).2)
    ((tb_fib6 tb).1, FibWorld (tb_mem tb) (tb_fib6 tb).2)
    (tp_fd <$> wk_tun w).

Definition set_rings (ps : list port) (b : buf) (w : worker) : worker :=
  Worker ps b (wk_tb w) (wk_tun w) (wk_mem w) (wk_out w).
Definition set_mem (m : memory) (w : worker) : worker :=
  Worker (wk_ports w) (wk_buf w) (wk_tb w) (wk_tun w) m (wk_out w).
Definition emit (l : list output) (w : worker) : worker :=
  Worker (wk_ports w) (wk_buf w) (wk_tb w) (wk_tun w) (wk_mem w) (wk_out w ++ l).

(** A descriptor the card has written: the port, whether it is of the receive
    ring, its index and its contents. *)
Record card_write := CardWrite { cw_port : nat; cw_rx : bool; cw_index : nat; cw_desc : adv_desc }.

(** What happens around one event: what the card writes to descriptors and
    memory, and the bytes [read] returns, [None] for an error. *)
Record input := Input {
  in_descs : list card_write;
  in_mem : memory;
  in_read : option (list Z)
}.

(** Writes outside of a ring do not happen. *)
Definition card_store (c : card_write) (ps : list port) : list port :=
  alter (fun p =>
           let put r := with_descs (<[cw_index c := cw_desc c]> (descs r)) r in
           if cw_rx c then set_rx (put (rx_ring p)) p else set_tx (put (tx_ring p)) (tx_suspended p) p)
    (cw_port c) ps.

Definition card_writes (i : input) (w : worker) : worker :=
  set_mem (in_mem i) (set_rings (foldr card_store (wk_ports w) (in_descs i)) (wk_buf w) w).

(** [ixmap_rx_assign] on each port in turn. *)
Fixpoint rx_assign_all (n : nat) (i : nat) (ps : list port) (b : buf) : option (list port * buf) :=
  match n with
  | O => Some (ps, b)
  | S n =>
      p ← ps !! i;
      '(p', b') ← ixmap_rx_assign (Z.of_nat i) p b;
      rx_assign_all n (S i) (<[i := p']> ps) b'
  end.

Definition tx_xmit_all (w : worker) : worker := set_rings (ixmap_tx_xmit <$> wk_ports w) (wk_buf w) w.

Definition unmask (ep : epoll_desc) (w : worker) : option worker :=
  irqh ← ep_data ep;
  Some (emit ((fun x => WriteReg (ep_port_index ep) x.1 x.2) <$> ixmap_irq_unmask_queues (qmask irqh)) w).

Section Loop.

(** The address of the buffer that is read into. *)
Context (read_buf : Z).

(** What [read] returns, with the bytes in memory, or the way out. *)
Definition after_read (i : input) (w : worker) (k : list Z -> worker -> option (option Z * worker))
  : option (option Z * worker) :=
  match in_read i with
  | None => Some (Some (-1), w)
  | Some bytes => k bytes (set_mem (write_bytes (wk_mem w) read_buf bytes) w)
  end.

(** One iteration of the loop over events: the value [thread_wait] returns with,
    or [None] to go on. *)
Definition handle_event (ep : epoll_desc) (i : input) (w : worker) : option (option Z * worker) :=
  match ep_type ep with
  | EPOLL_IRQ_RX =>
      p ← load (wk_ports w) (ep_port_index ep);
      '(pks, p') ← ixmap_rx_clean (wk_buf w) p;
      let w := set_rings (<[Z.to_nat (ep_port_index ep) := p']> (wk_ports w)) (wk_buf w) w in
      '(th, m, wr) ← forward_process (thread_of w) (ep_port_index ep) pks (wk_mem w);
      let w := emit (TunWrite <$> wr) (set_mem m (set_rings (th_ports th) (th_buf th) w)) in
      after_read i (tx_xmit_all w) (fun _ w => w' ← unmask ep w; Some (None, w'))
  | EPOLL_IRQ_TX =>
      p ← load (wk_ports w) (ep_port_index ep);
      '(p', b') ← ixmap_tx_clean p (wk_buf w);
      '(ps, b) ← rx_assign_all (length (wk_ports w)) 0 (<[Z.to_nat (ep_port_index ep) := p']> (wk_ports w)) b';
      after_read i (set_rings ps b w) (fun _ w => w' ← unmask ep w; Some (None, w'))
  | EPOLL_TUN =>
      after_read i w (fun bytes w =>
        '(th, m) ← forward_process_tun (thread_of w) (ep_port_index ep) bytes (wk_mem w);
        Some (None, tx_xmit_all (set_mem m (set_rings (th_ports th) (th_buf th) w))))
  | EPOLL_NETLINK =>
      after_read i w (fun bytes w =>
        tb ← netlink_process (tp_ifindex <$> wk_tun w) (wk_mem w) read_buf (Z.of_nat (length bytes)) (wk_tb w);
        Some (None, Worker (wk_ports w) (wk_buf w) tb (wk_tun w) (wk_mem w) (wk_out w)))
  | EPOLL_SIGNAL => after_read i w (fun _ w => Some (Some 0, w))
  end.

(** The handlers of these events run their own loop over ports with the index of
    the loop over events, and leave it at the number of ports. *)
Definition resets (t : epoll_type) : bool :=
  match t with EPOLL_IRQ_RX | EPOLL_IRQ_TX | EPOLL_TUN => true | EPOLL_SIGNAL | EPOLL_NETLINK => false end.

Definition next_event (num_ports i : nat) (t : epoll_type) : nat := S (if resets t then num_ports else i).

Inductive loop_result :=
| Finished (w : worker)
| Returned (ret : Z) (w : worker)
| Waiting (i : nat) (w : worker).

(** The loop over the events of a batch, from index [i] on; it waits when there
    is no further input. *)
Fixpoint events_loop (evs : list epoll_desc) (ins : list input) (i : nat) (w : worker) : option loop_result :=
  match evs !! i with
  | None => Some (Finished w)
  | Some ep =>
      match ins with
      | [] => Some (Waiting i w)
      | inp :: ins =>
          '(r, w') ← handle_event ep inp (card_writes inp w);
          match r with
          | Some ret => Some (Returned ret w')
          | None => events_loop evs ins (next_event (length (wk_ports w)) i (ep_type ep)) w'
          end
      end
  end.

(** [thread_wait]: what [epoll_wait] returns, [None] for an error, and the input
    while the batch is worked through. *)
Fixpoint thread_wait (bs : list (option (list epoll_desc) * list input)) (w : worker) : option loop_result :=
  match bs with
  | [] => Some (Finished w)
  | (None, _) :: _ => Some (Returned (-1) w)
  | (Some evs, ins) :: bs =>
      r ← events_loop evs ins 0 w;
      match r with
      | Finished w' => thread_wait bs w'
      | r => Some r
      end
  end.

End Loop.

(** ** The thread *)

(** The size of the buffer: a page, or the largest frame of a port. *)
Definition read_size_of (page_size : Z) (ports : list tun_port) : Z :=
  fold_left (fun n p => if n <? tp_mtu_frame p then tp_mtu_frame p else n) ports page_size.

(** [thread_process_interrupt], run with the batches [bs]: memory when it has
    ended, [None] while it is in its loop. *)
Definition thread_process_interrupt (page_size : Z) (pl : iplane) (tp : tun_plane) (ps : list port) (b : buf)
    (m : memory) (bs : list (option (list epoll_desc) * list input)) (a : A) : M (option A) :=
  let num_ports := length ps in
  '(r, a) ← lift (thread_tables_alloc num_ports a);
  match r with
  | None => mret (Some a)
  | Some x =>
      let read_size := read_size_of page_size (tpl_ports tp) in
      read_buf ← acquire KNuma read_size;
      match read_buf with
      | None => a ← lift (thread_tables_release x); mret (Some a)
      | Some read_buf =>
          fds ← thread_fd_prepare pl tp num_ports;
          match fds with
          | None =>
              release KNuma read_buf read_size ;;
              a ← lift (thread_tables_release x); mret (Some a)
          | Some (fd_ep, descs) =>
              '(ps, b) ← lift (rx_assign_all num_ports 0 ps b);
              r ← lift (thread_wait read_buf bs (Worker ps b (tt_tables x) (tpl_ports tp) m []));
              match r with
              | Returned _ w =>
                  thread_fd_destroy descs fd_ep ;;
                  release KNuma read_buf read_size ;;
                  a ← lift (thread_tables_release (ThreadTables (wk_tb w) (tt_neigh x) (tt_neigh6 x)));
                  mret (Some a)
              | _ => mret None
              end
          end
      end
  end.

End Tables.

Arguments thread_tables : clear implicits.
Arguments worker : clear implicits.
Arguments loop_result : clear implicits.
