(* ===== verification/ThreadTables.v ===== *)
(** * The tables of a worker thread, from set-up to clean-up

    Set-up and clean-up account for every block of the allocator the tables share,
    on every path; in between, the notifications of the kernel do to the tables
    what they say.  The loops over notifications end whatever the bytes are. *)

From stdpp Require Import prelude fin_maps gmap list.
From S2P Require Import Prelude Alloc Quota Lpm LpmFacts LpmAcct LpmAdd LpmTable Fib FibFacts FibProps Hash Neigh NeighProps.
From S2P Require Import Driver DriverFacts DriverProps Forward ForwardProps Tables Netlink NetlinkWire NetlinkProps.
From S2P Require Import Os Plane Tun Thread.

(** ** Set-up and clean-up of the tables *)

Section TableSetup.

Context {A : Type} `{AllocatorSpec A}.

Lemma block_alloc a n Xs :
  owned_by a Xs -> 0 < n <= max_request ->
  exists r a', al_alloc n a = Some (r, a') /\
    match r with Some x => owned_by a' ({[x]} :: Xs) | None => owned_by a' Xs end.
Proof.
  intros (C & Ha & Hd & Hp) Hn. destruct (al_alloc_spec a C n Ha Hn) as (r & a' & E & Hr).
  exists r, a'. split; [done|]. destruct r as [x|]; [|by exists C].
  destruct Hr as (Hx%not_elem_of_dom & c & _ & Hi). exists (<[x := c]> C). split; [done|].
  rewrite dom_insert_L, Hd. split; [done|]. split; [|done]. rewrite <- Hd. set_solver.
Qed.

Lemma block_free a x Xs : owned_by a ({[x]} :: Xs) -> exists a', al_free x a = Some a' /\ owned_by a' Xs.
Proof.
  intros (C & Ha & Hd & Hx & Hp). cbn in Hd. assert (x ∈ dom C) as [c Hc]%elem_of_dom by set_solver.
  destruct (al_free_spec a C x c Ha Hc) as (a' & E & Hi). exists a'. split; [done|]. exists (delete x C).
  split; [done|]. split; [|done]. rewrite dom_delete_L, Hd. set_solver.
Qed.

Lemma fib_new_ok a Xs :
  owned_by a Xs ->
  exists r a', fib_new a = Some (r, a') /\
    match r with Some x => fib_part x [] /\ owned_by a' (fib_own x :: Xs) | None => owned_by a' Xs end.
Proof.
  intros (C & Ha & Hd & Hp). unfold fib_new.
  destruct (fib_alloc_rep (FibWorld a ∅) C Ha) as (r & [a' E] & -> & Hr); [done|]. opt. cbn [fw_mem fw_ents] in *.
  eexists _, _. split; [done|]. destruct r as [f|]; cbn [option_map].
  - apply fib_ok_owned; [|done]. rewrite <- Hd. by exists [].
  - exists C. by destruct Hr.
Qed.

Lemma fib_end_ok x As a Xs :
  fib_part x As -> owned_by a (fib_own x :: Xs) -> exists a', fib_end x a = Some a' /\ owned_by a' Xs.
Proof.
  intros Hx Ho. destruct x as [f E]. unfold fib_end. cbn [fst snd].
  pose proof (owned_fib_ok _ _ _ _ _ Hx Ho) as (FL & Hr & _).
  destruct (fib_release_ok _ _ _ _ Hr) as (w & C & -> & Hi & HC & _). exists (fw_mem w). split; [done|].
  exists C. split; [done|]. split; [done|]. by apply owned_apart in Ho as [_ ?].
Qed.

Lemma neigh_new_ok family v6 a Xs :
  (family, v6) ∈ [(AF_INET, false); (AF_INET6, true)] -> owned_by a Xs ->
  exists r a', neigh_new family a = Some (r, a') /\
    match r with
    | Some x => nt_v6 x.1 = v6 /\ neigh_part (A := A) x ∅ /\ owned_by a' (neigh_own x :: Xs)
    | None => owned_by a' Xs
    end.
Proof.
  intros Hf (C & Ha & Hd & Hp). unfold neigh_new.
  destruct (neigh_alloc_rep family (NeighWorld a ∅) (⋃ Xs) v6 Hf) as (r & [a' E] & -> & Hr); [by exists C|done|].
  opt. cbn [nw_mem nw_ents] in *. eexists _, _. split; [done|]. destruct r as [t|]; cbn [option_map fst].
  - destruct Hr as [Hv Hr]. split; [done|]. by apply neigh_rep_owned.
  - destruct Hr as (C' & Hi & Hd'). exists C'. by split_and!.
Qed.

Lemma neigh_end_ok x N a Xs :
  neigh_part (A := A) x N -> owned_by a (neigh_own x :: Xs) -> exists a', neigh_end x a = Some a' /\ owned_by a' Xs.
Proof.
  intros Hx Ho. destruct x as [t E]. unfold neigh_end. cbn [fst snd].
  pose proof (owned_neigh_rep _ _ _ _ _ Hx Ho) as Hr.
  destruct (neigh_release_ok _ _ _ _ Hr) as (w & C & -> & Hi & HC & _). exists (nw_mem w). split; [done|].
  exists C. split; [done|]. split; [done|]. by apply owned_apart in Ho as [_ ?].
Qed.

Notation nt := (neigh_table * gmap Z neigh_entry)%type.

(** Two tables of a port, holding some addresses. *)
Definition pair_part (p : nt * nt) (Ns : hosts * hosts) : Prop :=
  (nt_v6 p.1.1 = false /\ neigh_part (A := A) p.1 Ns.1) /\ (nt_v6 p.2.1 = true /\ neigh_part (A := A) p.2 Ns.2).

Definition pairs_own (l : list (nt * nt)) : list (gset Z) := flat_map (fun p => [neigh_own p.2; neigh_own p.1]) l.

Lemma neigh_loop_ok n a Xs :
  owned_by a Xs ->
  exists l ok a', neigh_loop n a = Some (l, ok, a') /\ owned_by a' (pairs_own l ++ Xs) /\
    Forall2 pair_part l (replicate (length l) (∅, ∅)) /\ (ok = true -> length l = n).
Proof.
  revert a Xs. induction n as [|n IH]; intros a Xs Ho; [by exists [], true, a|]. cbn [neigh_loop].
  destruct (neigh_new_ok AF_INET false a Xs) as (r & a1 & -> & Hr); [left|done|]. opt.
  destruct r as [t|]; [|exists [], false, a1; by split_and!]. destruct Hr as (Hv & Ht & Ho1).
  destruct (neigh_new_ok AF_INET6 true a1 _ ltac:(right; left) Ho1) as (r & a2 & -> & Hr). opt.
  destruct r as [t6|].
  - destruct Hr as (Hv6 & Ht6 & Ho2). destruct (IH a2 _ Ho2) as (l & ok & a3 & -> & Ho3 & Hl & Hok). opt.
    exists ((t, t6) :: l), ok, a3. split; [done|]. split.
    { cbn. eapply owned_by_proper; [|exact Ho3]. solve_Permutation. }
    split; [|intros ?; cbn; by rewrite Hok]. cbn. constructor; [|done]. by split.
  - destruct (neigh_end_ok t ∅ a2 _ Ht Hr) as (a3 & -> & Ho3). opt. exists [], false, a3. by split_and!.
Qed.

Lemma neigh_end_loop_ok l Ns a Xs :
  Forall2 pair_part l Ns -> owned_by a (pairs_own l ++ Xs) ->
  exists a', neigh_end_loop l a = Some a' /\ owned_by a' Xs.
Proof.
  intros Hl. revert a. induction Hl as [|[t t6] N l Ns [[_ Ht] [_ Ht6]] _ IH]; intros a Ho; [by exists a|].
  cbn [neigh_end_loop pairs_own flat_map app fst snd] in *.
  destruct (neigh_end_ok t6 _ a _ Ht6 Ho) as (a1 & -> & Ho1). opt.
  destruct (neigh_end_ok t _ a1 _ Ht Ho1) as (a2 & -> & Ho2). opt. by apply IH.
Qed.

Lemma tables_end_ok f f6 l neigh neigh6 a As As6 Ns Xs :
  fib_part f As -> fib_part f6 As6 -> Forall2 pair_part l Ns ->
  owned_by a (pairs_own l ++ {[neigh6]} :: {[neigh]} :: fib_own f6 :: fib_own f :: Xs) ->
  exists a', tables_end f f6 l neigh neigh6 a = Some a' /\ owned_by a' Xs.
Proof.
  intros Hf Hf6 Hl Ho. unfold tables_end.
  destruct (neigh_end_loop_ok l Ns a _ Hl Ho) as (a1 & -> & Ho1). opt.
  destruct (block_free a1 _ _ Ho1) as (a2 & -> & Ho2). opt.
  destruct (block_free a2 _ _ Ho2) as (a3 & -> & Ho3). opt.
  destruct (fib_end_ok f6 _ a3 _ Hf6 Ho3) as (a4 & -> & Ho4). opt. by eapply fib_end_ok.
Qed.

Lemma pairs_split l Ns :
  Forall2 pair_part l Ns ->
  neighs_part (A := A) false l.*1 Ns.*1 /\ neighs_part (A := A) true l.*2 Ns.*2 /\
  pairs_own l ≡ₚ (neigh_own <$> l.*1) ++ (neigh_own <$> l.*2).
Proof.
  intros Hl. induction Hl as [|p N l Ns [H1 H2] _ (IH1 & IH2 & IH3)]; [split_and!; [constructor..|done]|].
  split; [by constructor|]. split; [by constructor|]. cbn [pairs_own flat_map fmap list_fmap app].
  rewrite IH3. solve_Permutation.
Qed.

Definition empty_net (n : nat) : net := Net [] [] (replicate n ∅) (replicate n ∅).

Definition arrays_own (x : thread_tables A) (L0 : gset Z) : gset Z := {[tt_neigh6 x]} ∪ ({[tt_neigh x]} ∪ L0).

(** Set-up yields empty tables, or fails and leaves memory as it was. *)
Lemma tables_alloc_ok n a L0 :
  owned_by a [L0] -> 0 < sizeof_pointer * Z.of_nat n <= max_request ->
  exists r a', thread_tables_alloc n a = Some (r, a') /\
    match r with
    | Some x => tables_ok (arrays_own x L0) (tt_tables x) (empty_net n) /\ tb_mem (tt_tables x) = a' /\
                 {[tt_neigh6 x]} ## {[tt_neigh x]} ∪ L0 /\ {[tt_neigh x]} ## L0
    | None => owned_by a' [L0]
    end.
Proof.
  intros Ho Hn. unfold thread_tables_alloc.
  destruct (fib_new_ok a _ Ho) as (r & a1 & -> & Hr). opt. destruct r as [f|]; [|eexists None, _; by split].
  destruct Hr as [Hf Ho1]. destruct (fib_new_ok a1 _ Ho1) as (r & a2 & -> & Hr). opt.
  destruct r as [f6|]; [|destruct (fib_end_ok f _ a2 _ Hf Hr) as (a3 & -> & Ho3); opt; eexists None, _; by split].
  destruct Hr as [Hf6 Ho2].
  destruct (block_alloc a2 _ _ Ho2 Hn) as (r & a3 & -> & Hr). opt. destruct r as [neigh|].
  2: { destruct (fib_end_ok f6 _ a3 _ Hf6 Hr) as (a4 & -> & Ho4). opt.
       destruct (fib_end_ok f _ a4 _ Hf Ho4) as (a5 & -> & Ho5). opt. eexists None, _; by split. }
  destruct (block_alloc a3 _ _ Hr Hn) as (r & a4 & -> & Hr4). opt. destruct r as [neigh6|].
  2: { destruct (block_free a4 _ _ Hr4) as (a5 & -> & Ho5). opt.
       destruct (fib_end_ok f6 _ a5 _ Hf6 Ho5) as (a6 & -> & Ho6). opt.
       destruct (fib_end_ok f _ a6 _ Hf Ho6) as (a7 & -> & Ho7). opt. eexists None, _; by split. }
  destruct (neigh_loop_ok n a4 _ Hr4) as (l & ok & a5 & -> & Ho5 & Hl & Hlen). opt. destruct ok.
  2: { destruct (tables_end_ok f f6 l neigh neigh6 a5 [] [] _ _ Hf Hf6 Hl Ho5) as (a6 & -> & Ho6). opt.
       eexists None, _; by split. }
  eexists (Some _), _. split; [done|]. cbn [tt_tables tt_neigh tt_neigh6 tb_mem]. rewrite (Hlen eq_refl) in Hl.
  destruct (pairs_split l _ Hl) as (Hl1 & Hl2 & Hown). rewrite !fmap_replicate in *.
  assert (owned_by a5 ({[neigh6]} :: {[neigh]} :: L0 :: fib_own f :: fib_own f6 :: pairs_own l)) as Ho6.
  { eapply owned_by_proper; [|exact Ho5]. solve_Permutation. }
  pose proof (owned_apart _ _ Ho6) as (Hd1 & Hd2 & _). cbn in Hd1, Hd2. split; [|split; [done|set_solver]].
  split; [|by split_and!]. unfold tables_own, arrays_own. cbn. rewrite <- Hown.
  apply owned_by_merge. apply (owned_by_proper a5 ({[neigh]} ∪ L0 :: {[neigh6]} :: fib_own f :: fib_own f6 :: pairs_own l));
    [solve_Permutation|]. apply owned_by_merge. eapply owned_by_proper; [|exact Ho6]. solve_Permutation.
Qed.

Lemma zip_pairs l l6 Ns Ns6 :
  neighs_part (A := A) false l Ns -> neighs_part (A := A) true l6 Ns6 -> length l = length l6 ->
  Forall2 pair_part (zip l l6) (zip Ns Ns6) /\ pairs_own (zip l l6) ≡ₚ (neigh_own <$> l) ++ (neigh_own <$> l6).
Proof.
  intros Hl. revert l6 Ns6. induction Hl as [|t N l Ns Ht _ IH]; intros l6 Ns6 Hl6 Hlen.
  - destruct l6; [|done]. split; [constructor|done].
  - destruct Hl6 as [|t6 N6 l6 Ns6 Ht6 Hl6]; [done|]. destruct (IH l6 Ns6 Hl6) as [IH1 IH2]; [by injection Hlen|].
    split; [by constructor|]. cbn [zip zip_with pairs_own flat_map fmap list_fmap app fst snd]. fold (pairs_own (zip l l6)).
    unfold zip in IH2. rewrite IH2. solve_Permutation.
Qed.

(** Clean-up gives back every block of the tables, whatever they hold. *)
Lemma tables_release_ok x tb n L0 :
  tables_ok (arrays_own x L0) tb n -> length (tb_neigh tb) = length (tb_neigh6 tb) ->
  {[tt_neigh6 x]} ## {[tt_neigh x]} ∪ L0 -> {[tt_neigh x]} ## L0 ->
  exists a', thread_tables_release (ThreadTables tb (tt_neigh x) (tt_neigh6 x)) = Some a' /\ owned_by a' [L0].
Proof.
  intros (Ho & Hf & Hf6 & Hn & Hn6) Hlen Hd1 Hd2. unfold thread_tables_release. cbn [tt_tables tt_neigh tt_neigh6].
  destruct (zip_pairs _ _ _ _ Hn Hn6 Hlen) as [Hz Hown].
  apply (tables_end_ok _ _ _ _ _ _ _ _ (zip (n_hosts n) (n_hosts6 n)) _ Hf Hf6 Hz).
  rewrite Hown. unfold tables_own, arrays_own in Ho. apply owned_by_split in Ho; [|done].
  set (N := (neigh_own <$> tb_neigh tb) ++ _) in *.
  assert (owned_by (tb_mem tb) ({[tt_neigh x]} ∪ L0 :: {[tt_neigh6 x]} :: fib_own (tb_fib tb) :: fib_own (tb_fib6 tb) :: N)) as Ho'
    by (eapply owned_by_proper; [|exact Ho]; solve_Permutation).
  apply owned_by_split in Ho'; [|done]. eapply owned_by_proper; [|exact Ho']. solve_Permutation.
Qed.

End TableSetup.

(** ** Theorems *)

(** C25: the life of a thread's tables.  Setting them up either fails, with the
    allocator as it was, or yields empty tables; and whatever routes and
    neighbours the tables hold later, clean-up frees every block of them exactly
    once and nothing else. *)
Theorem thread_tables_life {A} `{AllocatorSpec A} num_ports (a : A) L0 :
  owned_by a [L0] -> 0 < sizeof_pointer * Z.of_nat num_ports <= max_request ->
  exists r a', thread_tables_alloc num_ports a = Some (r, a') /\
    match r with
    | None => owned_by a' [L0]
    | Some x =>
        tables_ok (arrays_own x L0) (tt_tables x) (empty_net num_ports) /\
        forall tb n, tables_ok (arrays_own x L0) tb n -> length (tb_neigh tb) = length (tb_neigh6 tb) ->
          exists a'', thread_tables_release (ThreadTables tb (tt_neigh x) (tt_neigh6 x)) = Some a'' /\ owned_by a'' [L0]
    end.
Proof.
  intros Ho Hn. destruct (tables_alloc_ok num_ports a L0 Ho Hn) as (r & a' & E & Hr). exists r, a'. split; [done|].
  destruct r as [x|]; [|done]. destruct Hr as (Hok & _ & Hd1 & Hd2). split; [done|]. intros tb n Htb Hl.
  by eapply tables_release_ok.
Qed.

Definition demo_bump : bump := Bump 4096 ∅.

Lemma demo_bump_owned : owned_by demo_bump [∅].
Proof.
  exists ∅. split; [by split_and!|]. split; [rewrite dom_empty_L; set_solver|]. split; [set_solver|done].
Qed.

Lemma thread_tables_life_witness :
  exists r a', thread_tables_alloc 2 demo_bump = Some (r, a').
Proof.
  destruct (thread_tables_life 2 demo_bump ∅ demo_bump_owned) as (r & a' & E & _).
  - split; [reflexivity|vm_compute; discriminate].
  - exists r, a'. exact E.
Defined.

(** C7: notifications refine the abstract tables.  Run on the bytes of any
    sequence of notifications, whatever the fields hold that the code does not read,
    [netlink_process] returns, and the two FIBs and the neighbour tables of the ports,
    which share one allocator that does not run out of memory, have changed as the
    abstract tables of [net_run]: routes and neighbours of both families are added
    and deleted in the table a notification is about and in no other, and the
    announcement of a route or neighbour that is already there changes nothing, as in
    the code.  Lookups then find exactly what the abstract tables hold.  In a
    notification no attribute comes twice, addresses have at most 16 bytes,
    link-layer addresses at most 6, and an interface index has 4. *)
Theorem netlink_refines {A} `{AllocatorSpec A} ports l m buf (tb : tables A) n L0 :
  never_fails (A := A) -> tables_ok L0 tb n -> net_ok ports n -> Forall msg_ok l ->
  holds m buf (encode_msgs l) -> Z.of_nat (length (encode_msgs l)) < 2 ^ 31 ->
  exists tb', netlink_process ports m buf (Z.of_nat (length (encode_msgs l))) tb = Some tb' /\
    tables_ok L0 tb' (net_run ports l n) /\ net_ok ports (net_run ports l n) /\
    lookups_agree tb' (net_run ports l n).
Proof.
  intros Hnf Hok Hn Hl Hh Hlen.
  destruct (netlink_process_ok ports l m buf tb n L0) as (tb' & E & Hok' & Hn'); try done.
  exists tb'. split_and!; try done. by eapply tables_lookup.
Qed.

(** Empty tables of a thread with two ports. *)
Definition demo_tt : option (thread_tables bump) :=
  match thread_tables_alloc 2 demo_bump with Some (r, _) => r | None => None end.

Lemma demo_tt_some : match demo_tt with Some _ => true | None => false end = true.
Proof. vm_compute. reflexivity. Qed.

Lemma demo_tt_ok : exists x, demo_tt = Some x /\ tables_ok (arrays_own x ∅) (tt_tables x) (empty_net 2).
Proof.
  pose proof demo_tt_some as Hs. unfold demo_tt in *.
  destruct (tables_alloc_ok 2 demo_bump ∅ demo_bump_owned) as (r & a' & E & Hr); [by vm_compute|].
  rewrite E in *. destruct r as [x|]; [|done]. exists x. split; [done|]. apply Hr.
Qed.

(** Flags, a sequence number and a port; then as the kernel fills in [struct rtmsg]
    for a static route: protocol 3, scope 0, type 1. *)
Definition demo_unread : view := view_of [0; 6; 1; 2; 3; 4; 39; 16; 0; 0; 0; 0; 3; 0; 1; 0; 0; 0; 0].

(** A route to 192.0.2.0/24 through a gateway, the gateway's address, and a
    message of another kind with a payload that is not aligned. *)
Definition demo_msgs : list nlmsg :=
  [RouteMsg demo_unread true AF_INET 24 254
     [Attr RTA_DST [192; 0; 2; 0]; Attr RTA_GATEWAY [10; 0; 0; 1]; Attr RTA_OIF (le32 4)];
   NeighMsg demo_unread true AF_INET 4 [Attr NDA_DST [10; 0; 0; 1]; Attr NDA_LLADDR [2; 0; 0; 0; 0; 10]];
   OtherMsg demo_unread 16 [1; 0; 0; 0; 7]].

#[local] Instance attr_wf_dec a : Decision (attr_wf a).
Proof. unfold attr_wf, is_byte. apply _. Defined.
#[local] Instance msg_ok_dec g : Decision (msg_ok g).
Proof. unfold msg_ok, msg_wf, route_attr_ok, neigh_attr_ok, is_byte. destruct g; apply _. Defined.

Lemma demo_msgs_ok : Forall msg_ok demo_msgs.
Proof. apply (bool_decide_unpack _). vm_compute. exact I. Qed.

Lemma mem_of_holds l : holds (mem_of l) 0 l.
Proof.
  intros i x Hi. unfold mem_of. rewrite (proj2 (Z.ltb_ge _ 0)) by lia. unfold view_of.
  replace (Z.to_nat (0 + Z.of_nat i)) with i by lia. by rewrite Hi.
Qed.

Lemma empty_net_ok ports : net_ok ports (empty_net (length ports)).
Proof.
  unfold net_ok, empty_net, routes_ok, macs_ok. cbn. rewrite length_replicate. split_and!; try done;
    apply Forall_replicate; apply map_Forall_empty.
Qed.

Lemma netlink_refines_witness :
  exists x tb', demo_tt = Some x /\
    netlink_process [3; 4] (mem_of (encode_msgs demo_msgs)) 0 (Z.of_nat (length (encode_msgs demo_msgs))) (tt_tables x) = Some tb' /\
    lookups_agree tb' (net_run [3; 4] demo_msgs (empty_net 2)).
Proof.
  destruct demo_tt_ok as (x & Ex & Hx).
  destruct (netlink_refines [3; 4] demo_msgs (mem_of (encode_msgs demo_msgs)) 0 (tt_tables x) (empty_net 2) (arrays_own x ∅))
    as (tb' & E & _ & _ & Hl).
  - exact bump_total.
  - exact Hx.
  - exact (empty_net_ok [3; 4]).
  - exact demo_msgs_ok.
  - apply mem_of_holds.
  - reflexivity.
  - exists x, tb'. split; [exact Ex|]. split; [exact E|exact Hl].
Defined.

(** The route leads through port 1, and the gateway is known there. *)
Example demo_net_lookup :
  let n := net_run [3; 4] demo_msgs (empty_net 2) in
  ip_verdict 4 (n_routes n) (n_hosts n) 64 (view_of [192; 0; 2; 77]) = Send 1 [2; 0; 0; 0; 0; 10].
Proof. vm_compute. reflexivity. Qed.

(** ** The loops end *)

(** A handler on each element in turn. *)
Fixpoint in_turn {X S} (f : X -> S -> option S) (l : list X) (s : S) : option S :=
  match l with
  | [] => Some s
  | x :: l => s ← f x s; in_turn f l s
  end.

Lemma rta_loop_visits m fuel rta len :
  len <= 4 * Z.of_nat fuel ->
  exists l, 4 * Z.of_nat (length l) <= Z.max 0 len /\
    forall S (step : Z -> Z -> Z -> S -> option S) s,
      rta_loop fuel m step rta len s =
        in_turn (fun a => step (rta_type m a) (a + sizeof_rtattr) (rta_len m a - sizeof_rtattr)) l s.
Proof.
  revert rta len. induction fuel as [|fuel IH]; intros rta len Hl; destruct (RTA_OK m rta len) eqn:E.
  2, 4: exists []; split; [cbn; lia|]; intros S step s; cbn [rta_loop]; by rewrite E.
  - apply andb_true_iff in E as [[E _]%andb_true_iff _]. apply Z.leb_le in E. unfold sizeof_rtattr in E. lia.
  - pose proof E as [[E1%Z.leb_le E2%Z.leb_le]%andb_true_iff _]%andb_true_iff. unfold sizeof_rtattr in *.
    pose proof (align4_bounds (rta_len m rta)).
    destruct (IH (rta + align4 (rta_len m rta)) (len - align4 (rta_len m rta))) as (l & Hlen & Hrun); [lia|].
    exists (rta :: l). split; [cbn [length]; lia|]. intros S step s. cbn [rta_loop in_turn]. rewrite E. unfold sizeof_rtattr.
    destruct (step _ _ _ s) as [s'|]; [|done]. opt. apply Hrun.
Qed.

Lemma netlink_loop_visits m fuel nlh len :
  len <= 16 * Z.of_nat fuel ->
  exists l, 16 * Z.of_nat (length l) <= Z.max 0 len /\
    forall A (H : Allocator A) ports (tb : tables A),
      netlink_loop fuel ports m nlh len tb = in_turn (netlink_one ports m) l tb.
Proof.
  revert nlh len. induction fuel as [|fuel IH]; intros nlh len Hl; destruct (NLMSG_OK m nlh len) eqn:E.
  2, 4: exists []; split; [cbn; lia|]; intros A H ports tb; cbn [netlink_loop]; by rewrite E.
  - apply andb_true_iff in E as [[E _]%andb_true_iff _]. apply Z.leb_le in E. unfold sizeof_nlmsghdr in E. lia.
  - pose proof E as [[E1%Z.leb_le E2%Z.leb_le]%andb_true_iff _]%andb_true_iff. unfold sizeof_nlmsghdr in *.
    pose proof (align4_bounds (nlmsg_len m nlh)).
    destruct (IH (nlh + align4 (nlmsg_len m nlh)) (len - align4 (nlmsg_len m nlh))) as (l & Hlen & Hrun); [lia|].
    exists (nlh :: l). split; [cbn [length]; lia|]. intros A H' ports tb. cbn [netlink_loop in_turn]. rewrite E.
    destruct (netlink_one ports m nlh tb) as [tb'|]; [|done]. opt. apply Hrun.
Qed.

(** C24: the loops over notifications end, whatever was read.  The loop of
    [netlink_process] is the handler applied to finitely many messages in turn, at
    most one for every 16 bytes, and the loop over attributes that of its step on
    at most one attribute for every four bytes, for any step. *)
Theorem netlink_process_ends m buf size rta len :
  (exists l, 16 * Z.of_nat (length l) <= Z.max 0 size /\
    forall A (H : Allocator A) ports (tb : tables A),
      netlink_process ports m buf size tb = in_turn (netlink_one ports m) l tb) /\
  (exists l, 4 * Z.of_nat (length l) <= Z.max 0 len /\
    forall S (step : Z -> Z -> Z -> S -> option S) s,
      rta_loop (Z.to_nat len) m step rta len s =
        in_turn (fun a => step (rta_type m a) (a + sizeof_rtattr) (rta_len m a - sizeof_rtattr)) l s).
Proof. split; [apply netlink_loop_visits|apply rta_loop_visits]; lia. Qed.

(** An attribute longer than the array it is copied to writes past its end. *)
Lemma route_attr_overflow m data payload v :
  length (rv_prefix v) = 16%nat -> 16 < payload -> route_attr m RTA_DST data payload v = None.
Proof. intros Hl Hp. cbn. unfold copy_into. by rewrite Hl, (proj2 (Z.ltb_lt _ _)) by lia. Qed.
