(* ===== verification/ThreadSafe.v ===== *)
(** * Nothing the worker thread does is undefined

    Each handler of the event loop, and the loop: with rings in range
    ([Rings.v]), tables that stand for what the kernel has announced
    ([NetlinkProps.v]) and a card that writes within the rings, no access is out
    of bounds, and all of that still holds afterwards. *)

From stdpp Require Import prelude fin_maps gmap list.
From S2P Require Import Prelude Alloc Lpm Fib FibFacts FibProps Hash Neigh NeighProps.
From S2P Require Import Driver DriverFacts DriverProps Rings Forward ForwardProps Tables Netlink NetlinkWire NetlinkProps.
From S2P Require Import Os Plane Tun Thread.

(** ** Memory *)

Lemma store8_ok m a x : mem_ok m -> is_byte x -> mem_ok (store8 m a x).
Proof. intros Hm Hx b. unfold store8. by destruct (b =? a). Qed.

Lemma write_bytes_ok m a l : mem_ok m -> Forall is_byte l -> mem_ok (write_bytes m a l).
Proof.
  intros Hm Hl. revert m a Hm. induction Hl as [|x l Hx _ IH]; intros m a Hm; [done|]. cbn. apply IH. by apply store8_ok.
Qed.

Lemma u8_byte x : is_byte (u8 x).
Proof. unfold is_byte, u8. apply Z.mod_pos_bound. lia. Qed.

Lemma decrease_ttl_ok m a : mem_ok m -> mem_ok (ip_decrease_ttl m a).
Proof.
  intros Hm. unfold ip_decrease_ttl, store16. repeat apply store8_ok; try done; try apply u8_byte; unfold is_byte;
    apply Z.mod_pos_bound; lia.
Qed.

(** ** Forwarding *)

Section Forwarding.

Context {A : Type} `{AllocatorSpec A}.

(** A verdict that sends does so to a neighbour of the tables. *)
Lemma verdict_mac n As Ns hops dst out mac :
  ip_verdict n As Ns hops dst = Send out mac -> macs_ok Ns -> Forall is_byte mac.
Proof.
  unfold ip_verdict. destruct (best_frec As dst) as [a|]; [|done]. destruct (_ <? 0); [done|].
  intros Hv HN.
  assert (forall key, (Ns !! Z.to_nat (fe_port_index (fr_data a)) ≫= fun N => N !! copy_bytes key n) = Some mac ->
    Forall is_byte mac) as Hk.
  { intros key (N & HNs & Hl)%bind_Some. eapply Forall_lookup_1 in HN; [|done]. exact (HN _ _ Hl). }
  destruct (fe_type (fr_data a)); [| |done]; case_match eqn:Em; try done; destruct (hops =? 1); try done;
    injection Hv as _ ->; by eapply Hk.
Qed.

(** What any verdict leads to. *)
Lemma performed_ok th i pk m sent v r :
  performed (A := A) th i pk m sent v r -> mem_ok m -> mem_ok sent ->
  Forall (fun p => Forall is_byte (mac_addr p)) (th_ports th) ->
  (forall out mac, v = Send out mac -> Forall is_byte mac) ->
  exists ret m' wr, r = Some (ret, m', wr) /\ mem_ok m' /\ (ret = -1 \/ 0 <= ret < Z.of_nat (length (th_ports th))).
Proof.
  intros Hp Hm Hs Hps Hv. destruct v as [| |out mac]; cbn in Hp.
  - rewrite Hp. eexists _, _, _. split; [done|]. split; [done|by left].
  - destruct Hp as (fd & _ & ->). eexists _, _, _. split; [done|]. split; [done|by left].
  - destruct Hp as (p & Hl & ->). eexists _, _, _. split; [done|].
    pose proof (load_range _ _ _ Hl) as Hr. split; [|by right].
    rewrite load_lookup in Hl by lia. eapply Forall_lookup_1 in Hps; [|done].
    apply write_bytes_ok; [|done]. apply write_bytes_ok; [done|]. by eapply Hv.
Qed.

Lemma forward_one_ok th As As6 Ns Ns6 i pk m :
  thread_ok th As As6 Ns Ns6 -> macs_ok Ns -> macs_ok Ns6 ->
  Forall (fun p => Forall is_byte (mac_addr p)) (th_ports th) ->
  0 <= i < Z.of_nat (length (th_ports th)) -> mem_ok m ->
  exists ret m' wr, forward_one (A := A) th i pk m = Some (ret, m', wr) /\ mem_ok m' /\
    (ret = -1 \/ 0 <= ret < Z.of_nat (length (th_ports th))).
Proof.
  intros Hth HN HN6 Hps Hi Hm. unfold forward_one.
  assert (performed (A := A) th i pk m m Local (packet_local th i pk m)) as Hloc by (apply local_ok; [by destruct Hth|done]).
  destruct (_ =? ETH_P_ARP). { eapply (performed_ok th i pk m m Local); try done. }
  destruct (_ =? ETH_P_IP).
  { destruct Hth as [[L0 Hf] _ Hn _ Hl _ Ht Hr _].
    eapply performed_ok; [apply (route_packet th i pk m (ip_decrease_ttl m (slot_buf pk)) false _ _ L0 As (neigh_inet th)); try done; by apply at_addr_ok|done|by apply decrease_ttl_ok|done|].
    intros out mac Hv. by eapply verdict_mac. }
  destruct (_ =? ETH_P_IPV6); [|eapply (performed_ok th i pk m m Drop); try done].
  unfold forward_ip6_process. destruct (in6_is_addr_linklocal _); [by eapply (performed_ok th i pk m m Local)|].
  destruct Hth as [_ [L0 Hf] _ Hn _ Hl Ht _ Hr].
  eapply performed_ok; [apply (route_packet th i pk m _ true _ _ L0 As6 (neigh_inet6 th)); try done; by apply at_addr_ok|done| |done|].
  - apply store8_ok; [done|apply u8_byte].
  - intros out mac Hv. by eapply verdict_mac.
Qed.

(** Threads that differ in rings and buffers only. *)
Definition same_tables (th th' : thread A) : Prop :=
  neigh_inet th' = neigh_inet th /\ neigh_inet6 th' = neigh_inet6 th /\ fib_inet th' = fib_inet th /\
  fib_inet6 th' = fib_inet6 th /\ tun_fds th' = tun_fds th /\ length (th_ports th') = length (th_ports th).

Lemma same_tables_ok th th' As As6 Ns Ns6 :
  same_tables th th' -> thread_ok th As As6 Ns Ns6 -> thread_ok th' As As6 Ns Ns6.
Proof. intros (E1 & E2 & E3 & E4 & E5 & E6) []. split; rewrite ?E1, ?E2, ?E3, ?E4, ?E5, ?E6; done. Qed.

Lemma same_tables_trans th th1 th2 : same_tables th th1 -> same_tables th1 th2 -> same_tables th th2.
Proof. intros (?&?&?&?&?&?) (?&?&?&?&?&?). split_and!; congruence. Qed.

Lemma rings_port ps b i : rings_ok ps b -> 0 <= i < Z.of_nat (length ps) ->
  exists p, load ps i = Some p /\ ps !! Z.to_nat i = Some p /\ port_safe b p /\ is_Some (load (addr_dma b) i).
Proof.
  intros [Hps Hd] Hi. destruct (load_some ps i Hi) as [p Hp]. exists p. split; [done|].
  rewrite load_lookup in Hp by lia. split; [done|]. split; [by eapply Forall_lookup_1 in Hps|]. apply load_some. by rewrite Hd.
Qed.

Lemma rings_macs ps b : rings_ok ps b -> Forall (fun p => Forall is_byte (mac_addr p)) ps.
Proof. intros [Hps _]. eapply Forall_impl; [done|]. by intros p (_ & _ & ?). Qed.

Lemma thread_tx_assign_ok th out pk :
  rings_ok (th_ports th) (th_buf th) -> 0 <= out < Z.of_nat (length (th_ports th)) ->
  slot_in (th_buf th) (pk_slot_index pk) ->
  exists th', thread_tx_assign (A := A) th out pk = Some th' /\ rings_ok (th_ports th') (th_buf th') /\
    same_tables th th' /\ same_buf (th_buf th) (th_buf th').
Proof.
  intros Hr Ho Hs. destruct (rings_port _ _ _ Hr Ho) as (p & Hp & _ & Hsafe & Hd).
  destruct (tx_assign_safe out pk p _ Hsafe Hd Hs) as (p' & b' & E & Hsafe' & Hsb). unfold thread_tx_assign.
  rewrite Hp. opt. rewrite E. opt. eexists. split; [done|]. split; [by eapply rings_insert|]. split; [|done].
  split_and!; try done. apply length_insert.
Qed.

Lemma thread_release_ok th s :
  rings_ok (th_ports th) (th_buf th) -> slot_in (th_buf th) s ->
  exists th', thread_release (A := A) th s = Some th' /\ rings_ok (th_ports th') (th_buf th') /\
    same_tables th th' /\ same_buf (th_buf th) (th_buf th').
Proof.
  intros Hr Hs. destruct (release_spec _ _ Hs) as (b' & E & Hsb & _). unfold thread_release. rewrite E. opt.
  eexists. split; [done|]. split; [by eapply rings_buf|]. by split.
Qed.

Lemma forward_process_ok pks th As As6 Ns Ns6 i m :
  thread_ok th As As6 Ns Ns6 -> macs_ok Ns -> macs_ok Ns6 -> rings_ok (th_ports th) (th_buf th) ->
  0 <= i < Z.of_nat (length (th_ports th)) -> mem_ok m -> Forall (fun pk => slot_in (th_buf th) (pk_slot_index pk)) pks ->
  exists th' m' wr, forward_process (A := A) th i pks m = Some (th', m', wr) /\ mem_ok m' /\
    rings_ok (th_ports th') (th_buf th') /\ same_tables th th'.
Proof.
  intros Hth HN HN6. revert th m Hth. induction pks as [|pk pks IH]; intros th m Hth Hr Hi Hm Hpks.
  { exists th, m, []. by split_and!. }
  apply Forall_cons in Hpks as [Hpk Hpks]. cbn [forward_process].
  destruct (forward_one_ok th As As6 Ns Ns6 i pk m) as (ret & m1 & wr & -> & Hm1 & Hret); try done; [by eapply rings_macs|]. opt.
  assert (exists th1, (if ret <? 0 then Some th else thread_tx_assign th ret pk) = Some th1 /\
    rings_ok (th_ports th1) (th_buf th1) /\ same_tables th th1 /\ same_buf (th_buf th) (th_buf th1)) as (th1 & -> & Hr1 & Hs1 & Hb1).
  { destruct Hret as [->|Hret]; [by exists th|]. rewrite (proj2 (Z.ltb_ge ret 0)) by lia. by apply thread_tx_assign_ok. }
  opt. destruct (thread_release_ok th1 (pk_slot_index pk) Hr1) as (th2 & -> & Hr2 & Hs2 & Hb2); [by eapply slot_in_same|]. opt.
  pose proof (same_tables_trans _ _ _ Hs1 Hs2) as Hs. pose proof (same_buf_trans _ _ _ Hb1 Hb2) as Hb.
  destruct (IH th2 m1) as (th' & m' & wrs & -> & Hm' & Hr' & Hs'); try done.
  - by eapply same_tables_ok.
  - destruct Hs as (_ & _ & _ & _ & _ & ->). done.
  - eapply Forall_impl; [done|]. intros q. by apply slot_in_same.
  - opt. eexists _, _, _. split; [done|]. split_and!; try done. by eapply same_tables_trans.
Qed.

Lemma forward_process_tun_ok th i bytes m :
  rings_ok (th_ports th) (th_buf th) -> 0 <= i < Z.of_nat (length (th_ports th)) -> mem_ok m -> Forall is_byte bytes ->
  exists th' m', forward_process_tun (A := A) th i bytes m = Some (th', m') /\ mem_ok m' /\
    rings_ok (th_ports th') (th_buf th') /\ same_tables th th'.
Proof.
  intros Hr Hi Hm Hb. unfold forward_process_tun. destruct (_ <? _); [by exists th, m|].
  destruct (rings_port _ _ _ Hr Hi) as (p & -> & _ & Hsafe & Hd). opt.
  destruct (slot_assign_safe p _ Hsafe) as (slot & p1 & b1 & -> & Hsafe1 & Hsb1 & Hslot). opt.
  destruct (Z.ltb_spec slot 0).
  { eexists _, _. split; [done|]. split; [done|]. split; [by eapply rings_insert|]. split_and!; try done. apply length_insert. }
  destruct Hslot as [->|Hslot]; [lia|].
  destruct (tx_assign_safe i (Packet (ixmap_slot_addr_virt b1 slot) (Z.of_nat (length bytes)) slot) p1 b1)
    as (p2 & b2 & -> & Hsafe2 & Hsb2); [done|by destruct Hsb1 as (_ & -> & _)|done|]. opt.
  eexists _, _. split; [done|]. split; [by apply write_bytes_ok|].
  split; [eapply rings_insert; [done|by eapply same_buf_trans|done]|]. split_and!; try done. apply length_insert.
Qed.

End Forwarding.

(** ** The handlers *)

Section Handlers.

Context {A : Type} `{AllocatorSpec A}.

Record worker_ok (L0 : gset Z) (w : worker A) (n : net) : Prop := {
  wo_rings : rings_ok (wk_ports w) (wk_buf w);
  wo_tables : tables_ok L0 (wk_tb w) n;
  wo_net : net_ok (tp_ifindex <$> wk_tun w) n;
  wo_tun : length (wk_tun w) = length (wk_ports w);
  wo_mem : mem_ok (wk_mem w)
}.

(** An event of a thread with [n] ports. *)
Definition event_ok (n : nat) (ep : epoll_desc) : Prop :=
  match ep_type ep with
  | EPOLL_IRQ_RX | EPOLL_IRQ_TX => 0 <= ep_port_index ep < Z.of_nat n /\ is_Some (ep_data ep)
  | EPOLL_TUN => 0 <= ep_port_index ep < Z.of_nat n
  | EPOLL_SIGNAL | EPOLL_NETLINK => True
  end.

(** The messages an event brings. *)
Definition event_msgs (t : epoll_type) (r : option (list Z)) (l : list nlmsg) : Prop :=
  match t, r with
  | EPOLL_NETLINK, Some bytes =>
      bytes = encode_msgs l /\ Forall msg_ok l /\ Z.of_nat (length bytes) < 2 ^ 31
  | _, _ => l = []
  end.

(** The card and the devices yield bytes; the kernel sends well-formed
    notifications. *)
Definition input_ok (t : epoll_type) (i : input) : Prop :=
  mem_ok (in_mem i) /\ (forall bytes, in_read i = Some bytes -> Forall is_byte bytes) /\
  exists l, event_msgs t (in_read i) l.

(** How an event ends: an error of [read], the signal, or [None] to go on. *)
Definition event_result (t : epoll_type) (i : input) : option Z :=
  match in_read i, t with
  | None, _ => Some (-1)
  | Some _, EPOLL_SIGNAL => Some 0
  | Some _, _ => None
  end.

Lemma neighs_hold v6 L0 tb n :
  tables_ok L0 tb n ->
  Forall2 (neigh_holds (A := A) v6) ((fun x => (x.1, NeighWorld (tb_mem tb) x.2)) <$> (if v6 then tb_neigh6 tb else tb_neigh tb))
    (get_hosts v6 n).
Proof.
  intros Hok. pose proof Hok as (_ & _ & _ & Hn & Hn6). apply Forall2_fmap_l.
  assert (Forall2 (fun _ _ => True) (if v6 then tb_neigh6 tb else tb_neigh tb) (get_hosts v6 n)) as Hl.
  { destruct v6; (eapply Forall2_impl; [eassumption|done]). }
  apply Forall2_same_length_lookup_2; [by eapply Forall2_length|]. intros i x N Hx HN.
  destruct (tables_neigh tb n L0 v6 i x N Hok Hx HN) as (Hv & L & Hr). split; [done|by exists L].
Qed.

Lemma worker_thread_ok L0 w n :
  worker_ok L0 w n -> thread_ok (thread_of w) (n_routes n) (n_routes6 n) (n_hosts n) (n_hosts6 n).
Proof.
  intros [Hr Ht (Hh & Hh6 & Hro & Hro6 & _) Hlen _]. rewrite length_fmap, Hlen in *.
  pose proof Ht as (_ & _ & _ & Hn%Forall2_length & Hn6%Forall2_length).
  split; cbn [thread_of fib_inet fib_inet6 neigh_inet neigh_inet6 tun_fds th_ports fst snd]; rewrite ?length_fmap; try done.
  - exact (tables_fib _ _ _ false Ht).
  - exact (tables_fib _ _ _ true Ht).
  - exact (neighs_hold false _ _ _ Ht).
  - exact (neighs_hold true _ _ _ Ht).
  - congruence.
  - congruence.
Qed.

Lemma rings_alter ps b i f :
  rings_ok ps b -> (forall p, port_safe b p -> port_safe b (f p)) -> rings_ok (alter f i ps) b.
Proof. intros [Hps Hd] Hf. split; [|by rewrite length_alter]. apply Forall_alter; [done|]. intros p _. apply Hf. Qed.

Lemma card_store_ok c ps b : rings_ok ps b -> rings_ok (card_store c ps) b.
Proof.
  intros Hr. apply rings_alter; [done|]. intros p Hp. destruct (cw_rx c).
  - pose proof (hardware_safe p b (<[cw_index c := cw_desc c]> (descs (rx_ring p))) (descs (tx_ring p)) Hp) as Hs.
    rewrite length_insert in Hs. specialize (Hs eq_refl eq_refl). by destruct p as [? []].
  - pose proof (hardware_safe p b (descs (rx_ring p)) (<[cw_index c := cw_desc c]> (descs (tx_ring p))) Hp) as Hs.
    rewrite length_insert in Hs. specialize (Hs eq_refl eq_refl). by destruct p as [[] ?].
Qed.

Lemma card_length l ps : length (foldr card_store ps l) = length ps.
Proof. induction l as [|c l IH]; [done|]. cbn. unfold card_store at 1. by rewrite length_alter. Qed.

Lemma card_writes_ok L0 i w n : worker_ok L0 w n -> mem_ok (in_mem i) -> worker_ok L0 (card_writes i w) n.
Proof.
  intros [Hr Ht Hn Hl _] Hm. split; cbn; try done; [|by rewrite card_length].
  induction (in_descs i) as [|c l IH]; [done|]. cbn. by apply card_store_ok.
Qed.

Lemma rx_assign_all_ok n i ps b :
  rings_ok ps b -> (i + n = length ps)%nat ->
  exists ps' b', rx_assign_all n i ps b = Some (ps', b') /\ rings_ok ps' b' /\ length ps' = length ps.
Proof.
  revert i ps b. induction n as [|n IH]; intros i ps b Hr Hi; [by exists ps, b|]. cbn [rx_assign_all].
  destruct (rings_port ps b (Z.of_nat i) Hr) as (p & _ & Hp & Hsafe & Hd); [lia|]. rewrite Nat2Z.id in Hp. rewrite Hp. opt.
  destruct (rx_assign_safe _ p b Hsafe Hd) as (p' & b' & -> & Hsafe' & Hsb). opt.
  destruct (IH (S i) (<[i := p']> ps) b') as (ps' & b'' & -> & Hr' & Hl').
  - by eapply rings_insert.
  - rewrite length_insert. lia.
  - exists ps', b''. rewrite length_insert in Hl'. by split_and!.
Qed.

Lemma tx_xmit_all_ok L0 w n : worker_ok L0 w n -> worker_ok L0 (tx_xmit_all w) n.
Proof.
  intros [[Hps Hd] Ht Hn Hl Hm]. split; try done; cbn; rewrite ?length_fmap; try done. split; [|by rewrite length_fmap].
  apply Forall_fmap. eapply Forall_impl; [done|]. intros p. apply tx_xmit_safe.
Qed.

Lemma set_mem_ok L0 w n m : worker_ok L0 w n -> mem_ok m -> worker_ok L0 (set_mem m w) n.
Proof. intros [] Hm. by split. Qed.

Lemma set_rings_ok L0 w n ps b :
  worker_ok L0 w n -> rings_ok ps b -> length ps = length (wk_ports w) -> worker_ok L0 (set_rings ps b w) n.
Proof. intros [] Hr Hl. split; try done. cbn. congruence. Qed.

Lemma emit_ok L0 w n l : worker_ok L0 w n -> worker_ok L0 (emit l w) n.
Proof. intros []. by split. Qed.

Lemma unmask_ok L0 w n ep : worker_ok L0 w n -> is_Some (ep_data ep) ->
  exists w', unmask ep w = Some w' /\ worker_ok L0 w' n /\ wk_tun w' = wk_tun w.
Proof. intros Hw [h Hh]. unfold unmask. rewrite Hh. opt. eexists. split; [done|]. split; [by apply emit_ok|done]. Qed.

(** Each handler: it returns, as [event_result] says, and the tables change by the
    messages of the event. *)
Definition handles (rb : Z) (t : epoll_type) : Prop :=
  forall ep i w n L0 l, ep_type ep = t -> never_fails (A := A) -> worker_ok L0 w n -> event_ok (length (wk_ports w)) ep ->
    input_ok t i -> event_msgs t (in_read i) l ->
    exists w', handle_event rb ep i w = Some (event_result t i, w') /\ wk_tun w' = wk_tun w /\
      worker_ok L0 w' (net_run (tp_ifindex <$> wk_tun w) l n).

(** The end of the two interrupt handlers. *)
Lemma irq_end_ok rb ep i w n L0 :
  worker_ok L0 w n -> is_Some (ep_data ep) -> (forall bytes, in_read i = Some bytes -> Forall is_byte bytes) ->
  exists w', after_read rb i w (fun _ w => w' ← unmask ep w; Some (None, w')) =
      Some (match in_read i with None => Some (-1) | Some _ => None end, w') /\
    wk_tun w' = wk_tun w /\ worker_ok L0 w' n.
Proof.
  intros Hw Hd Hb. unfold after_read. destruct (in_read i) as [bytes|]; [|by exists w].
  destruct (unmask_ok L0 (set_mem (write_bytes (wk_mem w) rb bytes) w) n ep) as (w' & -> & Hw' & Ht); [|done|].
  - apply set_mem_ok; [done|]. apply write_bytes_ok; [by destruct Hw|by apply Hb].
  - opt. exists w'. by split_and!.
Qed.

Lemma handles_rx rb : handles rb EPOLL_IRQ_RX.
Proof.
  intros ep i w n L0 l E Hnf Hw Hev (_ & Hb & _) ->. unfold event_ok in Hev. rewrite E in Hev. destruct Hev as [Hp Hd].
  unfold handle_event. rewrite E. destruct (rings_port _ _ _ (wo_rings _ _ _ Hw) Hp) as (p & -> & _ & Hsafe & _). opt.
  destruct (rx_clean_safe _ _ Hsafe) as (pks & p' & -> & Hsafe' & Hpks). opt.
  set (w1 := set_rings _ _ w). assert (worker_ok L0 w1 n) as Hw1.
  { apply set_rings_ok; [done| |apply length_insert]. eapply rings_insert; [by destruct Hw|apply same_buf_refl|done]. }
  pose proof (worker_thread_ok _ _ _ Hw1) as Hth. destruct Hw1 as [Hr1 Ht1 (? & ? & ? & ? & HN & HN6) Hl1 Hm1].
  destruct (forward_process_ok pks (thread_of w1) _ _ _ _ (ep_port_index ep) (wk_mem w1) Hth HN HN6)
    as (th & m & wr & -> & Hm & Hr & Hs); try done.
  { cbn. by rewrite length_insert. }
  opt. change (net_run _ [] n) with n.
  destruct (irq_end_ok rb ep i (tx_xmit_all (emit (TunWrite <$> wr) (set_mem m (set_rings (th_ports th) (th_buf th) w1)))) n L0)
    as (w' & -> & Ht' & Hw'); [|done|done|].
  - apply tx_xmit_all_ok, emit_ok, set_mem_ok; [|done]. apply set_rings_ok; [by split|done|].
    destruct Hs as (_ & _ & _ & _ & _ & ->). done.
  - exists w'. split; [|done]. unfold event_result. by destruct (in_read i).
Qed.

Lemma handles_tx rb : handles rb EPOLL_IRQ_TX.
Proof.
  intros ep i w n L0 l E Hnf Hw Hev (_ & Hb & _) ->. unfold event_ok in Hev. rewrite E in Hev. destruct Hev as [Hp Hd].
  unfold handle_event. rewrite E. destruct (rings_port _ _ _ (wo_rings _ _ _ Hw) Hp) as (p & -> & _ & Hsafe & _). opt.
  destruct (tx_clean_safe _ _ Hsafe) as (p' & b' & -> & Hsafe' & Hsb). opt.
  destruct (rx_assign_all_ok (length (wk_ports w)) 0 (<[Z.to_nat (ep_port_index ep) := p']> (wk_ports w)) b')
    as (ps & b & -> & Hr & Hl).
  - eapply rings_insert; [by destruct Hw|done|done].
  - by rewrite length_insert.
  - opt. rewrite length_insert in Hl. change (net_run _ [] n) with n.
    destruct (irq_end_ok rb ep i (set_rings ps b w) n L0) as (w' & -> & Ht' & Hw'); [by apply set_rings_ok|done|done|].
    exists w'. split; [|done]. unfold event_result. by destruct (in_read i).
Qed.

Lemma handles_tun rb : handles rb EPOLL_TUN.
Proof.
  intros ep i w n L0 l E Hnf Hw Hev (_ & Hb & _) ->. unfold event_ok in Hev. rewrite E in Hev.
  unfold handle_event, after_read, event_result. rewrite E. change (net_run _ [] n) with n.
  destruct (in_read i) as [bytes|]; [|by exists w]. specialize (Hb bytes eq_refl).
  set (w1 := set_mem _ w). assert (worker_ok L0 w1 n) as Hw1.
  { apply set_mem_ok; [done|]. apply write_bytes_ok; [by destruct Hw|done]. }
  destruct (forward_process_tun_ok (thread_of w1) (ep_port_index ep) bytes (wk_mem w1)) as (th & m & -> & Hm & Hr & Hs);
    [by destruct Hw1|done|by destruct Hw1|done|].
  opt. eexists. split; [done|]. split; [done|]. apply tx_xmit_all_ok, set_mem_ok; [|done]. apply set_rings_ok; [done|done|].
  destruct Hs as (_ & _ & _ & _ & _ & ->). done.
Qed.

Lemma handles_netlink rb : handles rb EPOLL_NETLINK.
Proof.
  intros ep i w n L0 l E Hnf Hw _ (_ & Hb & _) Hl. unfold handle_event, after_read, event_result. rewrite E.
  cbn [event_msgs] in Hl. destruct (in_read i) as [bytes|]; [|subst l; by exists w]. destruct Hl as (-> & Hl & Hlen).
  specialize (Hb _ eq_refl). set (w1 := set_mem _ w). assert (worker_ok L0 w1 n) as Hw1.
  { apply set_mem_ok; [done|]. apply write_bytes_ok; [by destruct Hw|done]. }
  destruct Hw1 as [Hr1 Ht1 Hn1 Hl1 Hm1].
  destruct (netlink_process_ok (tp_ifindex <$> wk_tun w1) l (wk_mem w1) rb (wk_tb w1) n L0) as (tb & -> & Ht & Hn); try done.
  { intros k x Hk. by apply write_bytes_in. }
  opt. eexists. split; [done|]. split; [done|]. by split.
Qed.

Lemma handles_signal rb : handles rb EPOLL_SIGNAL.
Proof.
  intros ep i w n L0 l E Hnf Hw _ (_ & Hb & _) ->. unfold handle_event, after_read, event_result. rewrite E.
  change (net_run _ [] n) with n. destruct (in_read i) as [bytes|]; [|by exists w].
  eexists. split; [done|]. split; [done|]. apply set_mem_ok; [done|]. apply write_bytes_ok; [by destruct Hw|by apply Hb].
Qed.

Lemma handle_event_ok rb t : handles rb t.
Proof.
  destruct t; [apply handles_rx|apply handles_tx|apply handles_tun|apply handles_signal|apply handles_netlink].
Qed.

End Handlers.
