(* ===== verification/ThreadProps.v ===== *)
(** * The worker thread: the event loop

    Which batches of events the loop comes to the end of, that nothing it does is
    undefined, and that its tables are at any time those the kernel has
    announced. *)

From stdpp Require Import prelude fin_maps gmap list.
From S2P Require Import Prelude Alloc Quota Lpm LpmFacts LpmAcct LpmAdd LpmTable Fib FibFacts FibProps Hash Neigh NeighProps.
From S2P Require Import Driver DriverFacts DriverProps Rings Forward ForwardProps Tables Netlink NetlinkWire NetlinkProps.
From S2P Require Import Os Plane Tun Thread ThreadTables ThreadSafe.

(** ** Control flow of the event loop *)

(** Where the loop over events is after some input, without what it has done. *)
Inductive ctl := CFinished | CReturned (ret : Z) | CWaiting (i : nat).

Fixpoint control (n : nat) (evs : list epoll_desc) (ins : list input) (i : nat) : ctl :=
  match evs !! i with
  | None => CFinished
  | Some ep =>
      match ins with
      | [] => CWaiting i
      | inp :: ins =>
          match event_result (ep_type ep) inp with
          | Some ret => CReturned ret
          | None => control n evs ins (next_event n i (ep_type ep))
          end
      end
  end.

Fixpoint control_wait (n : nat) (bs : list (option (list epoll_desc) * list input)) : ctl :=
  match bs with
  | [] => CFinished
  | (None, _) :: _ => CReturned (-1)
  | (Some evs, ins) :: bs =>
      match control n evs ins 0 with
      | CFinished => control_wait n bs
      | c => c
      end
  end.

(** Each event that is handled gets input of its kind. *)
Fixpoint inputs_ok (n : nat) (evs : list epoll_desc) (ins : list input) (i : nat) : Prop :=
  match evs !! i, ins with
  | Some ep, inp :: ins => input_ok (ep_type ep) inp /\ inputs_ok n evs ins (next_event n i (ep_type ep))
  | _, _ => True
  end.

Definition batch_ok (n : nat) (b : option (list epoll_desc) * list input) : Prop :=
  match b with
  | (None, _) => True
  | (Some evs, ins) => Forall (event_ok n) evs /\ inputs_ok n evs ins 0
  end.

(** The messages that are read, in order. *)
Fixpoint loop_msgs (n : nat) (evs : list epoll_desc) (ins : list input) (i : nat) (l : list nlmsg) : Prop :=
  match evs !! i, ins with
  | Some ep, inp :: ins =>
      exists l1 l2, l = l1 ++ l2 /\ event_msgs (ep_type ep) (in_read inp) l1 /\
        match event_result (ep_type ep) inp with
        | Some _ => l2 = []
        | None => loop_msgs n evs ins (next_event n i (ep_type ep)) l2
        end
  | _, _ => l = []
  end.

Fixpoint wait_msgs (n : nat) (bs : list (option (list epoll_desc) * list input)) (l : list nlmsg) : Prop :=
  match bs with
  | (Some evs, ins) :: bs =>
      exists l1 l2, l = l1 ++ l2 /\ loop_msgs n evs ins 0 l1 /\
        match control n evs ins 0 with CFinished => wait_msgs n bs l2 | _ => l2 = [] end
  | _ => l = []
  end.

(** An event after the first [n] that restarts the loop there. *)
Definition restarts (n : nat) (evs : list epoll_desc) (j : nat) : Prop :=
  (n < j)%nat /\ exists ep, evs !! j = Some ep /\ resets (ep_type ep) = true.

Lemma control_ends n evs ins i :
  (forall j, ~ restarts n evs j) -> (length evs <= i + length ins)%nat -> forall k, control n evs ins i <> CWaiting k.
Proof.
  intros Hr. revert i. induction ins as [|inp ins IH]; intros i Hl k; cbn [control length] in *.
  - rewrite lookup_ge_None_2 by lia. done.
  - destruct (evs !! i) as [ep|] eqn:E; [|done]. destruct (event_result _ inp); [done|]. apply IH.
    unfold next_event. destruct (resets (ep_type ep)) eqn:Er; [|lia].
    destruct (decide (n < i)%nat) as [Hi|]; [|lia]. destruct (Hr i). split; [done|]. by exists ep.
Qed.

Lemma control_stuck n evs j ins i :
  restarts n evs j -> (forall k ep, (k <= j)%nat -> evs !! k = Some ep -> ep_type ep <> EPOLL_SIGNAL) ->
  Forall (fun inp => is_Some (in_read inp)) ins -> (i <= j)%nat ->
  exists k, (k <= j)%nat /\ control n evs ins i = CWaiting k.
Proof.
  intros (Hj & epj & Ej & Hr) Hs Hins. revert i. induction Hins as [|inp ins [bytes Hb] _ IH]; intros i Hi; cbn [control].
  - pose proof (lookup_lt_Some _ _ _ Ej). destruct (lookup_lt_is_Some_2 evs i) as [ep E]; [lia|]. rewrite E. by exists i.
  - pose proof (lookup_lt_Some _ _ _ Ej). destruct (lookup_lt_is_Some_2 evs i) as [ep E]; [lia|]. rewrite E.
    assert (event_result (ep_type ep) inp = None) as ->.
    { unfold event_result. rewrite Hb. pose proof (Hs i ep Hi E). by destruct (ep_type ep). }
    apply IH. unfold next_event. destruct (resets (ep_type ep)) eqn:Er; [lia|].
    destruct (decide (i = j)) as [->|]; [congruence|lia].
Qed.

(** ** The loop does what it should *)

Section Loop.

Context {A : Type} `{AllocatorSpec A}.

Definition shape (r : loop_result A) : ctl :=
  match r with Finished _ => CFinished | Returned ret _ => CReturned ret | Waiting i _ => CWaiting i end.

Definition worker_of (r : loop_result A) : worker A :=
  match r with Finished w => w | Returned _ w => w | Waiting _ w => w end.

Lemma worker_num_ports L0 w n (w' : worker A) n' :
  worker_ok L0 w n -> worker_ok L0 w' n' -> wk_tun w' = wk_tun w -> length (wk_ports w') = length (wk_ports w).
Proof. intros [_ _ _ H1 _] [_ _ _ H2 _] E. congruence. Qed.

Lemma net_run_app ports l1 l2 n : net_run ports (l1 ++ l2) n = net_run ports l2 (net_run ports l1 n).
Proof. apply foldl_app. Qed.

Lemma events_loop_ok rb evs ins i w n L0 :
  never_fails (A := A) -> worker_ok L0 w n -> Forall (event_ok (length (wk_ports w))) evs ->
  inputs_ok (length (wk_ports w)) evs ins i ->
  exists r l, events_loop rb evs ins i w = Some r /\ shape r = control (length (wk_ports w)) evs ins i /\
    loop_msgs (length (wk_ports w)) evs ins i l /\ wk_tun (worker_of r) = wk_tun w /\
    worker_ok L0 (worker_of r) (net_run (tp_ifindex <$> wk_tun w) l n).
Proof.
  intros Hnf. revert i w n. induction ins as [|inp ins IH]; intros i w n Hw Hevs Hins;
    cbn [events_loop control inputs_ok loop_msgs] in *;
    (destruct (evs !! i) as [ep|] eqn:E; [|by exists (Finished w), []]); [by exists (Waiting i w), []|].
  destruct Hins as [Hinp Hins]. pose proof Hinp as (Hm & _ & l1 & Hl1).
  destruct (handle_event_ok rb (ep_type ep) ep inp (card_writes inp w) n L0 l1) as (w1 & -> & Ht1 & Hw1); try done.
  { by apply card_writes_ok. }
  { cbn. rewrite card_length. by eapply Forall_lookup_1 in Hevs. }
  opt. change (wk_tun (card_writes inp w)) with (wk_tun w) in *.
  destruct (event_result (ep_type ep) inp) as [ret|].
  { exists (Returned ret w1), l1. split; [done|]. split; [done|]. split; [|by split].
    exists l1, []. by rewrite app_nil_r. }
  pose proof (worker_num_ports _ _ _ _ _ Hw Hw1 Ht1) as Hlen.
  destruct (IH (next_event (length (wk_ports w)) i (ep_type ep)) w1 _ Hw1) as (r & l2 & -> & Hsh & Hl2 & Ht2 & Hw2);
    [by rewrite Hlen|by rewrite Hlen|].
  rewrite Hlen, Ht1 in *. exists r, (l1 ++ l2). split; [done|]. split; [done|]. split; [by exists l1, l2|].
  split; [done|]. by rewrite net_run_app.
Qed.

Lemma thread_wait_ok rb bs w n L0 :
  never_fails (A := A) -> worker_ok L0 w n -> Forall (batch_ok (length (wk_ports w))) bs ->
  exists r l, thread_wait rb bs w = Some r /\ shape r = control_wait (length (wk_ports w)) bs /\
    wait_msgs (length (wk_ports w)) bs l /\
    worker_ok L0 (worker_of r) (net_run (tp_ifindex <$> wk_tun w) l n).
Proof.
  intros Hnf Hw Hbs. revert w n Hw Hbs. induction bs as [|[[evs|] ins] bs IH]; intros w n Hw Hbs.
  { by exists (Finished w), []. }
  2: { by exists (Returned (-1) w), []. }
  apply Forall_cons in Hbs as [[Hevs Hins] Hbs]. cbn [thread_wait control_wait wait_msgs].
  destruct (events_loop_ok rb evs ins 0 w n L0 Hnf Hw Hevs Hins) as (r & l1 & -> & <- & Hl1 & Ht1 & Hw1). opt.
  destruct r as [w1|ret w1|k w1]; cbn [shape worker_of] in *;
    [|exists (Returned ret w1), l1; split; [done|]; split; [done|]; split; [|done]; exists l1, []; by rewrite app_nil_r
     |exists (Waiting k w1), l1; split; [done|]; split; [done|]; split; [|done]; exists l1, []; by rewrite app_nil_r].
  pose proof (worker_num_ports _ _ _ _ _ Hw Hw1 Ht1) as Hlen.
  destruct (IH w1 _ Hw1) as (r & l2 & -> & Hsh & Hl2 & Hw2); [by rewrite Hlen|]. rewrite Hlen, Ht1 in *.
  exists r, (l1 ++ l2). split; [done|]. split; [done|]. split; [by exists l1, l2|]. by rewrite net_run_app.
Qed.

End Loop.

(** ** Theorems *)

(** A worker with two ports, empty rings and empty tables. *)
Definition demo_worker (x : thread_tables bump) : worker bump :=
  Worker [demo_port 0; demo_port 3] demo_buf (tt_tables x) [TunPort 5 3 1522; TunPort 6 4 1522] (mem_of []) [].

Lemma zero_mem_ok : mem_ok (mem_of []).
Proof. intros a. unfold mem_of. destruct (a <? 0); [by vm_compute|]. apply bytes_ok. constructor. Qed.

Lemma demo_worker_ok x :
  tables_ok (arrays_own x ∅) (tt_tables x) (empty_net 2) -> worker_ok (arrays_own x ∅) (demo_worker x) (empty_net 2).
Proof.
  intros Hx. split; [|exact Hx|exact (empty_net_ok [3; 4])|done|].
  - destruct demo_fresh as [Hps He Hd _ _]. split; [|exact Hd]. cbn [demo_worker wk_ports wk_buf].
    apply Forall_lookup_2. intros i p Hi. pose proof (Forall_lookup_1 _ _ _ _ Hps Hi) as Hp.
    destruct (Forall_lookup_1 _ _ _ _ He Hi) as [He1 He2]. split; [exact Hp|]. split.
    + destruct Hp. unfold port_slots, rx_queue, tx_queue. rewrite !ring_empty_queue by done. constructor.
    + destruct i as [|[|i]]; cbn in Hi; simplify_eq; unfold is_byte; repeat constructor; cbn; lia.
  - exact zero_mem_ok.
Qed.

Definition demo_event (t : epoll_type) (port : Z) : epoll_desc := EpollDesc 0x800 9 t port (Some (IrqHandle 0x100 7 1 40)).

(** The card is silent; [read] returns the bytes. *)
Definition quiet (bytes : list Z) : input := Input [] (mem_of []) (Some bytes).

Lemma quiet_ok t bytes :
  t <> EPOLL_NETLINK -> Forall is_byte bytes -> input_ok t (quiet bytes).
Proof.
  intros Ht Hb. split; [|split; [by intros b [= <-]|]].
  - exact zero_mem_ok.
  - exists []. destruct t; [done..|by destruct Ht].
Qed.

(** C8: the event loop is safe and keeps the tables up to date, as long as the
    allocator does not run out of memory ([never_fails]; when it does, a route
    update may be undefined, [fib_update_double_free]) and what is read from the
    netlink socket is a sequence of notifications ([msg_ok]).  Whatever the
    card writes, whatever packets arrive and in whatever order events come, nothing
    is undefined in [thread_wait]; it comes to where its control flow says; and in
    the state it is in then, the tables are what [net_run] makes of the notifications
    read so far, and every ring is within bounds. *)
Theorem thread_wait_safe {A} `{AllocatorSpec A} rb bs (w : worker A) n L0 :
  never_fails (A := A) -> worker_ok L0 w n -> Forall (batch_ok (length (wk_ports w))) bs ->
  exists r l, thread_wait rb bs w = Some r /\ shape r = control_wait (length (wk_ports w)) bs /\
    wait_msgs (length (wk_ports w)) bs l /\
    worker_ok L0 (worker_of r) (net_run (tp_ifindex <$> wk_tun w) l n).
Proof. apply thread_wait_ok. Qed.

Lemma demo_notified : input_ok EPOLL_NETLINK (quiet (encode_msgs demo_msgs)).
Proof.
  split; [|split].
  - exact zero_mem_ok.
  - intros b [= <-]. apply (bool_decide_unpack _). vm_compute. exact I.
  - exists demo_msgs. split; [done|]. split; [apply demo_msgs_ok|by vm_compute].
Qed.

Lemma demo_event_ok t port : port = 0 \/ port = 1 -> event_ok 2 (demo_event t port).
Proof. intros Hp. destruct t; cbn; try split; try lia; by eexists. Qed.

Lemma one_byte_ok b : 0 <= b < 256 -> Forall is_byte [b].
Proof. intros Hb. constructor; [exact Hb|constructor]. Qed.

(** Events other than notifications, with a byte to read for each. *)
Lemma quiet_inputs_ok n evs k b i :
  0 <= b < 256 -> Forall (fun ep => ep_type ep <> EPOLL_NETLINK) evs -> inputs_ok n evs (replicate k (quiet [b])) i.
Proof.
  intros Hb Hevs. revert i. induction k as [|k IH]; intros i; cbn; destruct (evs !! i) as [ep|] eqn:E; try done.
  split; [|apply IH]. apply quiet_ok; [by eapply Forall_lookup_1 in Hevs|by apply one_byte_ok].
Qed.

(** A notification, then an interrupt, then the signal. *)
Lemma thread_wait_safe_witness :
  exists x w' , demo_tt = Some x /\
    thread_wait 0x1000
      [(Some [demo_event EPOLL_NETLINK 0], [quiet (encode_msgs demo_msgs)]);
       (Some [demo_event EPOLL_IRQ_RX 1; demo_event EPOLL_SIGNAL 0], [quiet [1]]);
       (Some [demo_event EPOLL_SIGNAL 0], [quiet [2]])]
      (demo_worker x) = Some (Returned 0 w').
Proof.
  destruct demo_tt_ok as (x & Ex & Hx). exists x.
  destruct (thread_wait_safe 0x1000
      [(Some [demo_event EPOLL_NETLINK 0], [quiet (encode_msgs demo_msgs)]);
       (Some [demo_event EPOLL_IRQ_RX 1; demo_event EPOLL_SIGNAL 0], [quiet [1]]);
       (Some [demo_event EPOLL_SIGNAL 0], [quiet [2]])]
      (demo_worker x) (empty_net 2) (arrays_own x ∅)) as (r & l & E & Hs & _).
  - exact bump_total.
  - exact (demo_worker_ok x Hx).
  - repeat apply Forall_cons_2; try apply Forall_nil_2;
      (split; [repeat apply Forall_cons_2; try apply Forall_nil_2; apply demo_event_ok; lia|]).
    + split; [exact demo_notified|exact I].
    + apply (quiet_inputs_ok 2 _ 1 1); [lia|]. by repeat apply Forall_cons_2.
    + apply (quiet_inputs_ok 2 _ 1 2); [lia|]. by repeat apply Forall_cons_2.
  - assert (shape r = CReturned 0) as Hr by (rewrite Hs; reflexivity).
    destruct r as [|ret w'|]; try discriminate Hr. injection Hr as ->. exists w'. split; [exact Ex|exact E].
Defined.

(** C26: which batches end.  When no event after the first [n] (the number of
    ports) is an interrupt or a packet from the kernel, [events_loop] handles at
    most as many events as the batch has and leaves it.  The allocator does not
    run out of memory ([never_fails]), and what is read from the netlink socket is a
    sequence of notifications ([msg_ok]). *)
Theorem events_loop_ends {A} `{AllocatorSpec A} rb evs ins (w : worker A) n L0 :
  never_fails (A := A) -> worker_ok L0 w n -> Forall (event_ok (length (wk_ports w))) evs ->
  inputs_ok (length (wk_ports w)) evs ins 0 -> (length evs <= length ins)%nat ->
  (forall j, ~ restarts (length (wk_ports w)) evs j) ->
  exists r, events_loop rb evs ins 0 w = Some r /\ forall k w', r <> Waiting k w'.
Proof.
  intros Hnf Hw Hevs Hins Hlen Hr. destruct (events_loop_ok rb evs ins 0 w n L0 Hnf Hw Hevs Hins) as (r & l & E & Hsh & _).
  exists r. split; [done|]. intros k w' ->. cbn in Hsh. by eapply control_ends in Hr; [apply Hr|].
Qed.

Definition short_batch : list epoll_desc := [demo_event EPOLL_TUN 0; demo_event EPOLL_IRQ_TX 1; demo_event EPOLL_IRQ_RX 0].

Lemma events_loop_ends_witness :
  exists x r, demo_tt = Some x /\ events_loop 0x1000 short_batch (replicate 3 (quiet [0])) 0 (demo_worker x) = Some r /\
    forall k w', r <> Waiting k w'.
Proof.
  destruct demo_tt_ok as (x & Ex & Hx). exists x.
  destruct (events_loop_ends 0x1000 short_batch (replicate 3 (quiet [0])) (demo_worker x) (empty_net 2) (arrays_own x ∅))
    as (r & E & Hr).
  - exact bump_total.
  - exact (demo_worker_ok x Hx).
  - repeat apply Forall_cons_2; try apply Forall_nil_2; apply demo_event_ok; lia.
  - apply quiet_inputs_ok; [lia|]. by repeat apply Forall_cons_2.
  - cbn. lia.
  - intros j (Hj & ep & E & _). apply lookup_lt_Some in E. cbn in *. lia.
  - exists r. split; [exact Ex|]. split; [exact E|exact Hr].
Defined.

(** And which do not.  The handlers of interrupts and of packets from the
    kernel use the index of the loop over events for a loop over ports.  A batch
    with such an event after the first [n], and no signal up to it, is never left
    as long as [read] succeeds, however much input there is: the thread never
    asks [epoll_wait] again and never sees the signal that should stop it. *)
Theorem events_loop_stuck {A} `{AllocatorSpec A} rb evs ins j (w : worker A) n L0 :
  never_fails (A := A) -> worker_ok L0 w n -> Forall (event_ok (length (wk_ports w))) evs ->
  inputs_ok (length (wk_ports w)) evs ins 0 ->
  restarts (length (wk_ports w)) evs j ->
  (forall k ep, (k <= j)%nat -> evs !! k = Some ep -> ep_type ep <> EPOLL_SIGNAL) ->
  Forall (fun inp => is_Some (in_read inp)) ins ->
  exists k w', events_loop rb evs ins 0 w = Some (Waiting k w').
Proof.
  intros Hnf Hw Hevs Hins Hr Hs Hrd.
  destruct (events_loop_ok rb evs ins 0 w n L0 Hnf Hw Hevs Hins) as (r & l & E & Hsh & _).
  destruct (control_stuck _ evs j ins 0 Hr Hs Hrd) as (k & _ & Ec); [lia|]. rewrite Ec in Hsh.
  destruct r as [|?|k' w']; try done. by exists k', w'.
Qed.

(** Two ports; the fourth event is an interrupt, and the signal comes after it. *)
Definition long_batch : list epoll_desc :=
  [demo_event EPOLL_IRQ_RX 0; demo_event EPOLL_IRQ_TX 0; demo_event EPOLL_TUN 0; demo_event EPOLL_IRQ_RX 1;
   demo_event EPOLL_SIGNAL 0].

Lemma events_loop_stuck_witness :
  exists x, demo_tt = Some x /\ forall m, exists k w',
    events_loop 0x1000 long_batch (replicate m (quiet [0])) 0 (demo_worker x) = Some (Waiting k w').
Proof.
  destruct demo_tt_ok as (x & Ex & Hx). exists x. split; [exact Ex|]. intros m.
  apply (events_loop_stuck 0x1000 long_batch (replicate m (quiet [0])) 3 (demo_worker x) (empty_net 2) (arrays_own x ∅)).
  - exact bump_total.
  - exact (demo_worker_ok x Hx).
  - repeat apply Forall_cons_2; try apply Forall_nil_2; apply demo_event_ok; lia.
  - apply quiet_inputs_ok; [lia|]. by repeat apply Forall_cons_2.
  - split; [cbn; lia|]. exists (demo_event EPOLL_IRQ_RX 1). split; reflexivity.
  - intros k ep Hk E. destruct k as [|[|[|[|k]]]]; cbn in E; [injection E as <-; discriminate..|lia].
  - apply Forall_replicate. eexists. reflexivity.
Defined.
