(* ===== verification/ThreadLife.v ===== *)
(** * The life of a worker thread

    [thread_process_interrupt] from its tables to their release, with the system
    resources it holds in between: on every path all memory and all resources are
    given back, but for the netlink descriptor that [thread_fd_destroy] forgets. *)

From stdpp Require Import prelude fin_maps gmap list.
From S2P Require Import Prelude Alloc Quota Lpm Fib FibFacts FibProps Hash Neigh NeighProps.
From S2P Require Import Driver DriverFacts DriverProps Rings Forward ForwardProps Tables Netlink NetlinkWire NetlinkProps.
From S2P Require Import Os Plane PlaneProps Tun Main MainProps Thread ThreadTables ThreadSafe ThreadProps.

(** What netlink descriptors consist of, and nothing else. *)
Definition netlink_left (R : list res) : Prop := exists ds : list epoll_desc, R = concat (ep_left <$> ds).

Lemma netlink_left_nil : netlink_left [].
Proof. by exists []. Qed.

Lemma o_lift_bind {A B} (o : option A) x (f : A -> M B) R post :
  o = Some x -> outcomes R (f x) post -> outcomes R (lift o ≫= f) post.
Proof. intros -> Hf s L Hs. exact (Hf s L Hs). Qed.

Lemma o_fd_prepare pl tp n R :
  (n <= length (pl_ports pl))%nat -> (n <= length (tpl_ports tp))%nat ->
  outcomes R (thread_fd_prepare pl tp n) (fun r R' =>
    match r with
    | Some (fd, ds) => R' = concat (ep_res <$> ds) ++ (KFd, fd, 0) :: R
    | None => exists S, netlink_left S /\ R' = S ++ R
    end).
Proof.
  intros Hp Ht. pose proof (fd_allocs_ok pl tp n Hp Ht) as Hal. unfold thread_fd_prepare.
  eapply o_bind; [apply t_acquire|]. intros [fd|]; [|apply o_ret; exists []; by split; [apply netlink_left_nil|]].
  eapply o_bind; [apply (t_fd_add_all fd _ [] ((KFd, fd, 0) :: R) Hal)|]. intros [ds ok]. cbn [fst].
  destruct ok; [by apply o_ret|].
  eapply o_bind; [apply t_fd_destroy|]. intros ?. apply o_ret. eexists. split; [by exists ds|done].
Qed.

Section Life.

Context {A : Type} `{AllocatorSpec A}.

(** The end of a thread: its memory and what is left of its resources. *)
Definition thread_ended (L0 : gset Z) (r : option A) (R : list res) : Prop :=
  match r with Some a => owned_by a [L0] /\ netlink_left R | None => True end.

Lemma o_release_tables (x : thread_tables A) tb n L0 R :
  tables_ok (arrays_own x L0) tb n -> length (tb_neigh tb) = length (tb_neigh6 tb) ->
  {[tt_neigh6 x]} ## {[tt_neigh x]} ∪ L0 -> {[tt_neigh x]} ## L0 -> netlink_left R ->
  outcomes R (a ← lift (thread_tables_release (ThreadTables tb (tt_neigh x) (tt_neigh6 x))); mret (Some a))
    (thread_ended L0).
Proof.
  intros Hok Hl Hd1 Hd2 HR. destruct (tables_release_ok x tb n L0 Hok Hl Hd1 Hd2) as (a & E & Ho).
  eapply o_lift_bind; [done|]. apply o_ret. by split.
Qed.

Lemma tables_lengths L0 tb n ports : tables_ok (A := A) L0 tb n -> net_ok ports n -> length (tb_neigh tb) = length (tb_neigh6 tb).
Proof.
  intros (_ & _ & _ & Hn%Forall2_length & Hn6%Forall2_length) (H1 & H2 & _). congruence.
Qed.

Lemma process_ok page pl tp ps b m bs a L0 :
  never_fails (A := A) -> owned_by a [L0] -> 0 < sizeof_pointer * Z.of_nat (length ps) <= max_request ->
  (length ps <= length (pl_ports pl))%nat -> length (tpl_ports tp) = length ps ->
  rings_ok ps b -> mem_ok m -> Forall (batch_ok (length ps)) bs ->
  outcomes [] (thread_process_interrupt page pl tp ps b m bs a) (thread_ended L0).
Proof.
  intros Hnf Ho Hn Hpl Htp Hr Hm Hbs. unfold thread_process_interrupt.
  destruct (tables_alloc_ok (length ps) a L0 Ho Hn) as (r & a1 & E1 & Hx).
  eapply o_lift_bind; [exact E1|]. cbv beta iota. destruct r as [x|]; [|apply o_ret; split; [done|apply netlink_left_nil]].
  destruct Hx as (Hok & _ & Hd1 & Hd2).
  assert (net_ok (tp_ifindex <$> tpl_ports tp) (empty_net (length ps))) as Hnet.
  { rewrite <- Htp, <- (length_fmap tp_ifindex). apply empty_net_ok. }
  pose proof (tables_lengths _ _ _ _ Hok Hnet) as Hlen.
  assert (ThreadTables (tt_tables x) (tt_neigh x) (tt_neigh6 x) = x) as Ex by (by destruct x).
  eapply o_bind; [apply t_acquire|]. intros [rb|].
  2: { rewrite <- Ex at 1. by eapply o_release_tables; [..|apply netlink_left_nil]. }
  eapply o_bind2; [apply o_fd_prepare; [done|lia]|]. intros [[fd ds]|] R' HR.
  2: { destruct HR as (S & HS & ->). eapply o_bind; [eapply t_need; [|apply t_release]; bring|]. intros ?. cbv beta.
       rewrite <- Ex at 1. eapply o_release_tables; try done. by rewrite app_nil_r. }
  destruct (rx_assign_all_ok (length ps) 0 ps b Hr) as (ps' & b' & E2 & Hr' & Hl'); [done|].
  eapply o_lift_bind; [exact E2|]. cbv beta iota.
  set (w := Worker ps' b' (tt_tables x) (tpl_ports tp) m []).
  assert (worker_ok (arrays_own x L0) w (empty_net (length ps))) as Hw by (split; try done; cbn; congruence).
  destruct (thread_wait_ok rb bs w _ _ Hnf Hw) as (r & l & E3 & _ & _ & Hw'); [by cbn; rewrite Hl'|].
  eapply o_lift_bind; [exact E3|]. cbv beta. destruct r as [w'|ret w'|k w']; [by apply o_ret| |by apply o_ret].
  subst R'. eapply o_bind; [apply t_fd_destroy|]. intros ?. cbv beta.
  eapply o_bind; [eapply t_need; [|apply t_release]; bring|]. intros ?. cbv beta.
  destruct Hw' as [_ Ht' Hn' _ _]. eapply o_release_tables; try done.
  - by eapply tables_lengths.
  - exists ds. by rewrite app_nil_r.
Qed.

End Life.

(** ** Theorems *)

(** C27: a thread gives back what it took.  Whatever the operating system refuses
    and whatever events come, [thread_process_interrupt] does nothing undefined; and
    when it ends, the allocator holds what it held before, and of the system
    resources only what [thread_fd_destroy] forgets is left, the netlink
    descriptor.  The thread's own allocator does not run out of memory
    ([never_fails]), and what is read from the netlink socket is a sequence of
    notifications ([msg_ok]). *)
Theorem thread_gives_back {A} `{AllocatorSpec A} page pl tp ps b m bs (a : A) L0 s :
  never_fails (A := A) -> owned_by a [L0] -> 0 < sizeof_pointer * Z.of_nat (length ps) <= max_request ->
  (length ps <= length (pl_ports pl))%nat -> length (tpl_ports tp) = length ps ->
  rings_ok ps b -> mem_ok m -> Forall (batch_ok (length ps)) bs ->
  exists r s' R, thread_process_interrupt page pl tp ps b m bs a s = Some (r, s') /\
    ledger s' ≡ₚ R ++ ledger s /\ thread_ended L0 r R.
Proof.
  intros Hnf Ho Hn Hpl Htp Hr Hm Hbs.
  destruct (process_ok page pl tp ps b m bs a L0 Hnf Ho Hn Hpl Htp Hr Hm Hbs s (ledger s)) as (r & s' & R & E & Hp & Hl); [done|].
  by exists r, s', R.
Qed.

Definition wait_signal : list (option (list epoll_desc) * list input) :=
  [(Some [demo_event EPOLL_IRQ_TX 0; demo_event EPOLL_SIGNAL 0], [quiet [1]]);
   (Some [demo_event EPOLL_SIGNAL 0], [quiet [2]])].

Lemma demo_rings_ok : rings_ok [demo_port 0] (Buf 0x10000 [0x80000] 2048 3 (replicate 3 0)).
Proof.
  assert (wf_ring 4 demo_ring) as Hw by (split; cbn; lia). split; [|reflexivity]. apply Forall_cons_2; [|constructor]. split.
  - split; [exact Hw|exact Hw|split; cbn; lia].
  - split; [|unfold is_byte; repeat constructor; cbn; lia].
    unfold port_slots, rx_queue, tx_queue. cbn [num_rx_desc num_tx_desc demo_port rx_ring tx_ring].
    rewrite !ring_empty_queue by done. constructor.
Qed.

Lemma thread_gives_back_witness :
  exists r s' R,
    thread_process_interrupt 4096 demo_iplane demo_tun_plane [demo_port 0] (Buf 0x10000 [0x80000] 2048 3 (replicate 3 0))
      (mem_of []) wait_signal demo_bump (Os (replicate 20 (Some 9)) []) = Some (r, s') /\
    ledger s' ≡ₚ R ++ [] /\ thread_ended ∅ r R.
Proof.
  apply (thread_gives_back 4096 demo_iplane demo_tun_plane [demo_port 0] (Buf 0x10000 [0x80000] 2048 3 (replicate 3 0))
           (mem_of []) wait_signal demo_bump ∅ (Os (replicate 20 (Some 9)) [])).
  - exact bump_total.
  - exact demo_bump_owned.
  - split; [reflexivity|vm_compute; discriminate].
  - cbn. lia.
  - reflexivity.
  - exact demo_rings_ok.
  - exact zero_mem_ok.
  - unfold wait_signal. repeat apply Forall_cons_2; try apply Forall_nil_2.
    + split; [repeat apply Forall_cons_2; try apply Forall_nil_2; cbn; try split; try lia; by eexists|].
      apply (quiet_inputs_ok 1 _ 1 1); [lia|]. by repeat apply Forall_cons_2.
    + split; [repeat apply Forall_cons_2; try apply Forall_nil_2; exact I|].
      apply (quiet_inputs_ok 1 _ 1 2); [lia|]. by repeat apply Forall_cons_2.
Defined.
