(* ===== verification/Kdma.v ===== *)
(** * The DMA areas of the kernel module (src/kmod/ixmap_dma.c)

    The areas of memory a device may access, kept in a list sorted by address.
    In the monad of Os.v; the list and the device are state that is passed.
    What the IOMMU makes of the table of pages, the bus addresses and lengths of its
    entries, is an argument. *)

From stdpp Require Import prelude list.
From S2P Require Import Prelude Os.

Definition PAGE_SHIFT : Z := 12.
Definition PAGE_SIZE : Z := Z.shiftl 1 PAGE_SHIFT.
Definition sizeof_dma_area : Z := 72.
Definition sizeof_sg_table : Z := 16.
Definition ENOENT : Z := 2.

Definition IXGBE_DMA_CACHE_DEFAULT : Z := 0.
Definition IXGBE_DMA_CACHE_DISABLE : Z := 1.
Definition IXGBE_DMA_CACHE_WRITECOMBINE : Z := 2.

(** [struct ixmap_dma_area]; the area of the registers has no pages. *)
Record dma_area := DmaArea {
  ar_ptr : Z;
  ar_refcount : Z;
  ar_size : Z;
  ar_cache : Z;
  ar_addr_dma : Z;
  ar_pages_ptr : Z;
  ar_pages : list Z;
  ar_sgt : Z;
  ar_npages : Z
}.

(** The part of [struct ixmap_adapter] that is used here. *)
Record adapter := Adapter { iobase : Z; iolen : Z; hw_addr : Z; areas : list dma_area }.

Definition set_areas (l : list dma_area) (ad : adapter) : adapter :=
  Adapter (iobase ad) (iolen ad) (hw_addr ad) l.

(** ** The list *)

(** Where a new area goes: after how many of the list, or nowhere. *)
Fixpoint whereto (start_new end_new : Z) (l : list dma_area) : option nat :=
  match l with
  | [] => Some O
  | area :: l =>
      let start_area := ar_addr_dma area in
      let end_area := u64 (start_area + ar_size area) in
      if end_new <=? start_area then Some O
      else if ((start_area <=? start_new) && (start_new <? end_area))
              || ((start_area <? end_new) && (end_new <=? end_area)) then None
      else S <$> whereto start_new end_new l
  end.

Definition ixmap_dma_area_whereto (ad : adapter) (addr_dma size : Z) : option nat :=
  whereto addr_dma (u64 (addr_dma + size)) (areas ad).

(** [list_add] after the element found. *)
Definition insert_area (a : dma_area) (pos : nat) (l : list dma_area) : list dma_area :=
  take pos l ++ a :: drop pos l.

Definition ixmap_dma_area_lookup (ad : adapter) (addr_dma : Z) : option (nat * dma_area) :=
  list_find (fun a => ar_addr_dma a = addr_dma) (areas ad).

(** ** Pages *)

Definition page_list (start : Z) (n : nat) : list Z := (fun i => start + PAGE_SIZE * Z.of_nat i) <$> seq 0 n.

(** [get_user_pages] pins pages from [start] on: as many as asked for, unless
    [partial] says that the system may pin fewer. *)
Definition get_user_pages (partial : bool) (start : Z) (n : nat) : M (option (list Z)) :=
  r ← ask;
  match r with
  | None => mret None
  | Some k =>
      let pages := page_list start (if partial then Z.to_nat k `min` n else n) in
      for_each (fun p => hold (KPage, p, 0)) pages ;;
      mret (Some pages)
  end.

(** [put_page] on [npages] elements of an array of which only some are set. *)
Definition put_pages (pages : list Z) (npages : nat) : M unit :=
  if (npages <=? length pages)%nat then for_each (fun p => release KPage p 0) (take npages pages) else undefined.

(** A request that sets up something inside the object at [x]. *)
Definition grant (k : kind) (x : Z) : M bool :=
  r ← ask;
  match r with
  | None => mret false
  | Some _ => hold (k, x, 0) ;; mret true
  end.

(** The table of pages, one way or the other; every page is looked at. *)
Definition sg_alloc (sgt : Z) (pages : list Z) (npages : nat) : M bool :=
  if (npages <=? length pages)%nat then grant KSgTable sgt else undefined.

(** The table after [dma_map_sg]: [sg_dma_address] and [sg_dma_len] of all its
    entries, and how many of them the call says are mapped.  They are fewer when
    entries were merged; those left over are still entries of the table. *)
Record sg_mapped := SgMapped { sg_entries : list (Z * Z); sg_nents : nat }.

(** [dma_map_sg]: whether it returned more than 0. *)
Definition dma_map_sg (sgt : Z) (nents : nat) : M bool :=
  match nents with O => mret false | S _ => grant KSgMap sgt end.

(** The loop over the first [nents] entries: each ends where the next entry of the
    table, [sg_next], starts, if there is one. *)
Fixpoint contiguous (nents : nat) (sgl : list (Z * Z)) : bool :=
  match nents, sgl with
  | S nents, (a, n) :: (((b, _) :: _) as rest) => (u64 (a + n) =? b) && contiguous nents rest
  | _, _ => true
  end.

(** ** Operations *)

Definition ixmap_dma_map_iobase (ad : adapter) : M (option Z * adapter) :=
  hw ← acquire KIomap 0;
  match hw with
  | None => mret (None, ad)
  | Some hw =>
    match ixmap_dma_area_whereto ad (iobase ad) (iolen ad) with
    | None => release KIomap hw 0 ;; mret (None, ad)
    | Some pos =>
      area ← acquire KMalloc sizeof_dma_area;
      match area with
      | None => release KIomap hw 0 ;; mret (None, ad)
      | Some area =>
          mret (Some hw, set_areas (insert_area (DmaArea area 1 (iolen ad) IXGBE_DMA_CACHE_DISABLE (iobase ad) 0 [] 0 0)
            pos (areas ad)) ad)
      end
    end
  end.

(** The pages of a request. *)
Definition user_start (addr_virtual : Z) : Z := Z.land addr_virtual (Z.lxor (PAGE_SIZE - 1) (2 ^ 64 - 1)).
Definition user_end (addr_virtual size : Z) : Z :=
  Z.land (u64 (u64 (addr_virtual + size) + (PAGE_SIZE - 1))) (Z.lxor (PAGE_SIZE - 1) (2 ^ 64 - 1)).
Definition user_npages (addr_virtual size : Z) : Z :=
  u32 (Z.shiftr (u64 (user_end addr_virtual size - user_start addr_virtual)) PAGE_SHIFT).

(** The bus address, 0 for failure. *)
Definition ixmap_dma_map (partial : bool) (ad : adapter) (addr_virtual size : Z) (sg : sg_mapped)
  : M (Z * adapter) :=
  let npages := Z.to_nat (user_npages addr_virtual size) in
  pages_ptr ← acquire KMalloc (8 * Z.of_nat npages);
  match pages_ptr with
  | None => mret (0, ad)
  | Some pages_ptr =>
    pages ← get_user_pages partial (user_start addr_virtual) npages;
    match pages with
    | None => release KMalloc pages_ptr (8 * Z.of_nat npages) ;; mret (0, ad)
    | Some pages =>
      let err_alloc_sgt : M (Z * adapter) :=
        put_pages pages npages ;; release KMalloc pages_ptr (8 * Z.of_nat npages) ;; mret (0, ad) in
      sgt ← acquire KMalloc sizeof_sg_table;
      match sgt with
      | None => err_alloc_sgt
      | Some sgt =>
        tbl ← sg_alloc sgt pages npages;
        if negb tbl then release KMalloc sgt sizeof_sg_table ;; err_alloc_sgt
        else
          let err_dma_map_sg : M (Z * adapter) :=
            release KSgTable sgt 0 ;; release KMalloc sgt sizeof_sg_table ;; err_alloc_sgt in
          mapped ← dma_map_sg sgt (sg_nents sg);
          if negb mapped then err_dma_map_sg
          else
            let err_area : M (Z * adapter) := release KSgMap sgt 0 ;; err_dma_map_sg in
            let addr_dma := match sg_entries sg with (a, _) :: _ => a | [] => 0 end in
            if negb (contiguous (sg_nents sg) (sg_entries sg)) then err_area
            else
              match ixmap_dma_area_whereto ad addr_dma size with
              | None => err_area
              | Some pos =>
                area ← acquire KMalloc sizeof_dma_area;
                match area with
                | None => err_area
                | Some area =>
                    mret (addr_dma, set_areas (insert_area
                      (DmaArea area 1 size IXGBE_DMA_CACHE_DISABLE addr_dma pages_ptr pages sgt (Z.of_nat npages)) pos
                      (areas ad)) ad)
                end
              end
      end
    end
  end.

Definition ixmap_dma_area_free (ad : adapter) (area : dma_area) : M unit :=
  (if ar_refcount area - 1 =? 0 then
     if ar_addr_dma area =? iobase ad then release KIomap (hw_addr ad) 0
     else
       release KSgMap (ar_sgt area) 0 ;;
       release KSgTable (ar_sgt area) 0 ;;
       release KMalloc (ar_sgt area) sizeof_sg_table ;;
       put_pages (ar_pages area) (Z.to_nat (ar_npages area)) ;;
       release KMalloc (ar_pages_ptr area) (8 * ar_npages area)
   else mret tt) ;;
  release KMalloc (ar_ptr area) sizeof_dma_area.

Definition ixmap_dma_unmap (ad : adapter) (addr_dma : Z) : M (Z * adapter) :=
  match ixmap_dma_area_lookup ad addr_dma with
  | None => mret (- ENOENT, ad)
  | Some (i, area) =>
      let ad' := set_areas (delete i (areas ad)) ad in
      ixmap_dma_area_free ad' area ;; mret (0, ad')
  end.

Definition ixmap_dma_unmap_all (ad : adapter) : M adapter :=
  for_each (ixmap_dma_area_free ad) (areas ad) ;; mret (set_areas [] ad).

(** ** Ownership *)

Definition page_res (p : Z) : list res := [(KPage, p, 0)].

(** What an area holds: the registers, or pages and their mapping. *)
Definition area_res (ad : adapter) (a : dma_area) : list res :=
  (if ar_addr_dma a =? iobase ad then [(KIomap, hw_addr ad, 0)]
   else [(KSgMap, ar_sgt a, 0); (KSgTable, ar_sgt a, 0); (KMalloc, ar_sgt a, sizeof_sg_table)] ++
        concat (page_res <$> ar_pages a) ++ [(KMalloc, ar_pages_ptr a, 8 * ar_npages a)]) ++
  [(KMalloc, ar_ptr a, sizeof_dma_area)].

Definition area_ok (a : dma_area) : Prop :=
  ar_refcount a = 1 /\ Z.of_nat (length (ar_pages a)) = ar_npages a.

Lemma t_hold_pages l R : triple R (for_each (fun p => hold (KPage, p, 0)) l) (fun _ => concat (page_res <$> l) ++ R).
Proof.
  revert R. induction l as [|p l IH]; intros R; cbn [for_each fmap list_fmap concat]; [by apply t_ret|].
  eapply (t_bind _ _ _ (fun _ => (KPage, p, 0) :: R)).
  - intros s L Hs. eexists _, _. split; [done|]. cbn. by rewrite Hs.
  - intros ?. eapply t_post; [apply IH|]. intros ?. cbn. solve_Permutation.
Qed.

Lemma t_get_pages start n R :
  triple R (get_user_pages false start n)
    (fun r => match r with Some l => concat (page_res <$> l) ++ R | None => R end).
Proof.
  unfold get_user_pages. eapply t_bind; [apply t_ask|]. intros [k|]; cbv beta; [|by apply t_ret].
  cbv zeta. eapply t_bind; [apply t_hold_pages|]. intros ?. by apply t_ret.
Qed.

Lemma y_get_pages start n :
  yields (get_user_pages false start n) (fun r => match r with Some l => length l = n | None => True end).
Proof.
  unfold get_user_pages. apply y_then. intros [k|]; [|by apply y_ret]. apply y_then. intros ?. apply y_ret.
  unfold page_list. by rewrite length_fmap, length_seq.
Qed.

Lemma t_put_pages l n R : length l = n -> triple (concat (page_res <$> l) ++ R) (put_pages l n) (fun _ => R).
Proof.
  intros <-. unfold put_pages. rewrite Nat.leb_refl, take_ge by done. apply t_for_each. intros p S _. apply t_release.
Qed.

Lemma t_grant k x R : triple R (grant k x) (fun b => if b then (k, x, 0) :: R else R).
Proof.
  unfold grant. eapply t_bind; [apply t_ask|]. intros [r|]; [|by apply t_ret].
  intros s L Hs. eexists _, _. split; [done|]. cbn. by rewrite Hs.
Qed.

Lemma t_area_free ad a R : area_ok a -> triple (area_res ad a ++ R) (ixmap_dma_area_free ad a) (fun _ => R).
Proof.
  intros [Hr Hl]. unfold ixmap_dma_area_free, area_res. rewrite Hr. cbn [Z.sub Z.add Z.opp Z.pos_sub Z.eqb].
  destruct (ar_addr_dma a =? iobase ad); cbn [app].
  - eapply t_bind; [apply t_release|]. intros ?. cbv beta. apply t_release.
  - rewrite <- !(assoc_L (++)). cbn [app]. eapply t_bind; [|intros ?; cbv beta; apply t_release].
    do 3 (eapply t_bind; [apply t_release|]; intros ?; cbv beta).
    eapply t_bind; [apply t_put_pages; lia|]. intros ?. cbv beta. apply t_release.
Qed.
