(* ===== verification/KdmaProps.v ===== *)
(** * DMA areas: order, overlap, ownership

    The list of areas stays sorted and free of overlap unless a new area
    encloses an old one; mapping and unmapping give back what was acquired. *)

From stdpp Require Import prelude list.
From S2P Require Import Prelude Os Kdma.

(** ** The list *)

(** Sorted by address, not overlapping, from [lo] on. *)
Fixpoint sorted_from (lo : Z) (l : list dma_area) : Prop :=
  match l with
  | [] => True
  | a :: l => lo <= ar_addr_dma a /\ 0 < ar_size a /\ ar_addr_dma a + ar_size a < 2 ^ 64 /\
              sorted_from (ar_addr_dma a + ar_size a) l
  end.

(** The new area [s, e) has an old one strictly inside. *)
Definition encloses (s e : Z) (a : dma_area) : Prop := s < ar_addr_dma a /\ ar_addr_dma a + ar_size a < e.

Definition overlaps (s e : Z) (a : dma_area) : Prop := s < ar_addr_dma a + ar_size a /\ ar_addr_dma a < e.

Lemma sorted_weaken lo lo' l : lo' <= lo -> sorted_from lo l -> sorted_from lo' l.
Proof. intros Hle. destruct l as [|a l]; [done|]. cbn. intros (? & ?). split; [lia|done]. Qed.

Lemma whereto_none lo s e l :
  0 <= lo -> sorted_from lo l -> s < e -> whereto s e l = None -> Exists (overlaps s e) l.
Proof.
  intros Hlo Hs Hse. revert lo Hlo Hs. induction l as [|a l IH]; intros lo Hlo; [done|].
  cbn [sorted_from whereto]. intros (H1 & H2 & H3 & H4). unfold u64. rewrite Z.mod_small by lia.
  destruct (Z.leb_spec e (ar_addr_dma a)); [done|]. destruct (_ || _) eqn:E.
  - intros _. left. unfold overlaps. apply orb_true_iff in E as [E|E]; apply andb_true_iff in E as [E1 E2]; lia.
  - intros Hw. right. apply (IH (ar_addr_dma a + ar_size a)); [lia|done|]. by destruct (whereto s e l).
Qed.

Lemma whereto_some lo n l pos :
  0 <= lo -> sorted_from lo l -> lo <= ar_addr_dma n -> 0 < ar_size n -> ar_addr_dma n + ar_size n < 2 ^ 64 ->
  whereto (ar_addr_dma n) (ar_addr_dma n + ar_size n) l = Some pos ->
  Forall (fun a => ~ encloses (ar_addr_dma n) (ar_addr_dma n + ar_size n) a) l ->
  sorted_from lo (insert_area n pos l).
Proof.
  unfold insert_area. intros Hlo Hs Hn Hz Hm Hw Hno. revert lo pos Hlo Hs Hn Hw.
  induction Hno as [|a l Ha _ IH]; intros lo pos Hlo; cbn [sorted_from whereto].
  - intros _ Hn [= <-]. cbn. split_and!; done.
  - intros (H1 & H2 & H3 & H4) Hn. unfold u64. rewrite Z.mod_small by lia. unfold encloses in Ha.
    destruct (Z.leb_spec (ar_addr_dma n + ar_size n) (ar_addr_dma a)).
    { intros [= <-]. cbn. split_and!; try done. }
    destruct (_ || _) eqn:E; [done|]. apply orb_false_iff in E as [E1 E2].
    destruct (whereto _ _ l) as [p|] eqn:Ep; [|done]. intros [= <-]. cbn [take drop app sorted_from].
    split; [lia|]. split; [lia|]. split; [lia|]. apply IH; [lia|done| |done].
    apply andb_false_iff in E1. apply andb_false_iff in E2.
    rewrite !Z.leb_gt, !Z.ltb_ge in *. lia.
Qed.

(** The list of areas stays sorted and without overlap.  An area that the
    search finds a place for is inserted in order, provided it does not enclose an
    older one; an area that is refused does overlap one of the list. *)
Theorem dma_areas_stay_sorted ad n :
  sorted_from 0 (areas ad) -> 0 <= ar_addr_dma n -> 0 < ar_size n -> ar_addr_dma n + ar_size n < 2 ^ 64 ->
  match ixmap_dma_area_whereto ad (ar_addr_dma n) (ar_size n) with
  | Some pos =>
      Forall (fun a => ~ encloses (ar_addr_dma n) (ar_addr_dma n + ar_size n) a) (areas ad) ->
      sorted_from 0 (insert_area n pos (areas ad))
  | None => Exists (overlaps (ar_addr_dma n) (ar_addr_dma n + ar_size n)) (areas ad)
  end.
Proof.
  intros Hs H0 Hz Hm. unfold ixmap_dma_area_whereto, u64. rewrite Z.mod_small by lia.
  destruct (whereto _ _ (areas ad)) as [pos|] eqn:E.
  - intros Hno. by apply whereto_some.
  - apply (whereto_none 0); [lia|done|lia|done].
Qed.

Definition demo_area (addr size : Z) : dma_area := DmaArea 0x100 1 size IXGBE_DMA_CACHE_DISABLE addr 0x200 [] 0x300 0.
Definition demo_adapter : adapter := Adapter 0xf000000 0x80000 0x77 [demo_area 0x1000 0x1000; demo_area 0x4000 0x1000].

Lemma dma_areas_stay_sorted_witness :
  sorted_from 0 (insert_area (demo_area 0x2000 0x2000) 1 (areas demo_adapter)).
Proof.
  refine (dma_areas_stay_sorted demo_adapter (demo_area 0x2000 0x2000) _ _ _ _ _); cbn; try lia.
  repeat constructor; unfold encloses; cbn; lia.
Defined.

(** An area that encloses an older one is accepted.  Neither of its ends lies
    in the older area, which is all the search looks at, so two areas of the list
    overlap afterwards. *)
Theorem dma_enclosing_area_accepted :
  exists ad n pos a, sorted_from 0 (areas ad) /\
    ixmap_dma_area_whereto ad (ar_addr_dma n) (ar_size n) = Some pos /\
    a ∈ areas ad /\ overlaps (ar_addr_dma n) (ar_addr_dma n + ar_size n) a /\
    ~ sorted_from 0 (insert_area n pos (areas ad)).
Proof.
  exists demo_adapter, (demo_area 0x3000 0x3000), 2%nat, (demo_area 0x4000 0x1000).
  split; [cbn; lia|]. split; [reflexivity|]. split; [right; left|]. split; [unfold overlaps; cbn; lia|].
  cbn. lia.
Qed.

(** ** Mapping and unmapping *)

(** What [ixmap_dma_map] returns and then holds. *)
Definition map_post (ad : adapter) (start n : Z) (R : list res) (r : Z * adapter) (R' : list res) : Prop :=
  (r = (0, ad) /\ R' ≡ₚ R) \/
  r.1 = start /\ exists area pos, area_ok area /\ ar_size area = n /\ ar_addr_dma area = start /\
    ixmap_dma_area_whereto ad start n = Some pos /\
    r.2 = set_areas (insert_area area pos (areas ad)) ad /\ R' ≡ₚ area_res ad area ++ R.

(** The bus address of the first entry. *)
Definition dma_start (sg : sg_mapped) : Z := match sg_entries sg with (a, _) :: _ => a | [] => 0 end.

Lemma o_give_pages ad st n pages np pp R :
  length pages = np ->
  outcomes (concat (page_res <$> pages) ++ (KMalloc, pp, 8 * Z.of_nat np) :: R)
    (put_pages pages np ;; release KMalloc pp (8 * Z.of_nat np) ;; mret (0, ad)) (map_post ad st n R).
Proof.
  intros Hl. eapply o_bind; [by apply t_put_pages|]. intros ?. cbv beta.
  eapply o_bind; [apply t_release|]. intros ?. apply o_ret. by left.
Qed.

Lemma t_dma_map_sg sgt n R : triple R (dma_map_sg sgt n) (fun b => if b then (KSgMap, sgt, 0) :: R else R).
Proof. destruct n; [by apply t_ret|apply t_grant]. Qed.

Lemma o_dma_map ad a n sg R :
  dma_start sg <> iobase ad -> outcomes R (ixmap_dma_map false ad a n sg) (map_post ad (dma_start sg) n R).
Proof.
  intros Hseg. unfold ixmap_dma_map. cbv zeta. fold (dma_start sg). set (np := Z.to_nat _).
  eapply o_bind; [apply t_acquire|]. intros [pp|]; [|apply o_ret; by left].
  eapply o_bind_y; [apply t_get_pages|apply y_get_pages|]. intros [pages|] Hlen.
  2:{ eapply o_bind; [apply t_release|]. intros ?. apply o_ret. by left. }
  pose proof (o_give_pages ad (dma_start sg) n pages np pp R Hlen) as Herr.
  eapply o_bind; [apply t_acquire|]. intros [sgt|]; [|exact Herr].
  unfold sg_alloc. rewrite Hlen, Nat.leb_refl. eapply o_bind; [apply t_grant|].
  intros [|]; cbn [negb]; [|eapply o_bind; [apply t_release|]; intros ?; exact Herr].
  assert (outcomes ((KSgTable, sgt, 0) :: (KMalloc, sgt, sizeof_sg_table) :: concat (page_res <$> pages) ++
      (KMalloc, pp, 8 * Z.of_nat np) :: R)
    (release KSgTable sgt 0 ;; release KMalloc sgt sizeof_sg_table ;; put_pages pages np ;;
     release KMalloc pp (8 * Z.of_nat np) ;; mret (0, ad)) (map_post ad (dma_start sg) n R)) as Herr2.
  { do 2 (eapply o_bind; [apply t_release|]; intros ?; cbv beta). exact Herr. }
  eapply o_bind; [apply t_dma_map_sg|]. intros [|]; cbn [negb]; [|exact Herr2].
  destruct (contiguous _ _); cbn [negb]; [|eapply o_bind; [apply t_release|]; intros ?; exact Herr2].
  destruct (ixmap_dma_area_whereto ad (dma_start sg) n) as [pos|] eqn:Ew;
    [|eapply o_bind; [apply t_release|]; intros ?; exact Herr2].
  eapply o_bind; [apply t_acquire|]. intros [ap|]; [|eapply o_bind; [apply t_release|]; intros ?; exact Herr2].
  apply o_ret. right. split; [done|]. exists (DmaArea ap 1 n IXGBE_DMA_CACHE_DISABLE (dma_start sg) pp pages sgt (Z.of_nat np)), pos.
  split; [split; [reflexivity|]; cbn; by rewrite Hlen|].
  do 3 (split; [done|]). split; [done|]. unfold area_res. cbn [ar_addr_dma].
  rewrite (proj2 (Z.eqb_neq _ _)) by done. cbn. solve_Permutation.
Qed.

Lemma insert_area_lookup n pos l : (pos <= length l)%nat -> insert_area n pos l !! pos = Some n.
Proof.
  intros Hp. unfold insert_area. rewrite lookup_app_r by (rewrite length_take; lia).
  rewrite length_take, Nat.min_l, Nat.sub_diag by lia. done.
Qed.

Lemma insert_area_delete n pos l : (pos <= length l)%nat -> delete pos (insert_area n pos l) = l.
Proof.
  intros Hp. unfold insert_area. replace pos with (length (take pos l)) at 1 by (rewrite length_take; lia).
  rewrite delete_middle. apply take_drop.
Qed.

Lemma whereto_le s e l pos : whereto s e l = Some pos -> (pos <= length l)%nat.
Proof.
  revert pos. induction l as [|a l IH]; intros pos; cbn [whereto length]; [intros [= <-]; lia|].
  destruct (e <=? ar_addr_dma a); [intros [= <-]; lia|]. destruct (_ || _); [done|].
  destruct (whereto s e l) as [p|]; [|done]. intros [= <-]. specialize (IH p eq_refl). lia.
Qed.

Lemma sorted_before lo l i j a b :
  sorted_from lo l -> l !! i = Some a -> l !! j = Some b -> (j < i)%nat -> ar_addr_dma b < ar_addr_dma a.
Proof.
  assert (forall l lo i a, sorted_from lo l -> l !! i = Some a -> lo <= ar_addr_dma a) as Hfirst.
  { clear. induction l as [|x l IH]; intros lo i a; [done|]. cbn. intros (H1 & H2 & _ & H4). destruct i as [|i].
    - intros [= <-]. done.
    - intros Hi. specialize (IH _ _ _ H4 Hi). lia. }
  revert lo i j. induction l as [|x l IH]; intros lo i j; [done|]. cbn [sorted_from]. intros (H1 & H2 & _ & H4) Hi Hj Hlt.
  destruct i as [|i]; [lia|]. destruct j as [|j].
  - injection Hj as <-. pose proof (Hfirst l _ i a H4 Hi). lia.
  - eapply (IH _ i j); [done|done|done|lia].
Qed.

(** An address finds its area. *)
Lemma lookup_sorted lo ad i a :
  sorted_from lo (areas ad) -> areas ad !! i = Some a -> ixmap_dma_area_lookup ad (ar_addr_dma a) = Some (i, a).
Proof.
  intros Hs Hi. apply list_find_Some. split; [done|]. split; [done|]. intros j b Hj Hlt E.
  pose proof (sorted_before _ _ i j a b Hs Hi Hj Hlt). lia.
Qed.

(** C34: what is mapped can be unmapped.  Whatever the system refuses,
    [ixmap_dma_map] either fails and changes and holds nothing, or returns the bus
    address and keeps the list sorted; and [ixmap_dma_unmap] of that address then
    gives back everything and restores the list.  This is for a kernel that pins all
    pages of a request or none (with fewer the code uses pages it does not have), and
    for an area that is not empty, does not wrap around, is not at the address of the
    registers and does not enclose an older one, which the code would accept
    ([dma_enclosing_area_accepted]). *)
Theorem dma_map_unmap_roundtrip ad a n sg s :
  sorted_from 0 (areas ad) -> 0 < n -> 0 <= dma_start sg -> dma_start sg + n < 2 ^ 64 ->
  dma_start sg <> iobase ad ->
  Forall (fun x => ~ encloses (dma_start sg) (dma_start sg + n) x) (areas ad) ->
  exists addr ad' s1, ixmap_dma_map false ad a n sg s = Some ((addr, ad'), s1) /\
    ((addr = 0 /\ ad' = ad /\ ledger s1 ≡ₚ ledger s) \/
     (addr = dma_start sg /\ sorted_from 0 (areas ad') /\
      exists s2, ixmap_dma_unmap ad' addr s1 = Some ((0, ad), s2) /\ ledger s2 ≡ₚ ledger s)).
Proof.
  intros Hs Hn H0 Hm Hio Hno. destruct (o_dma_map ad a n sg [] Hio s (ledger s)) as ([addr ad'] & s1 & R & E & Hpost & HL); [done|].
  exists addr, ad', s1. split; [done|]. destruct Hpost as [([= -> ->] & HR)|(Ea & area & pos & Hok & Hsz & Had & Hw & Ead & HR)].
  { left. split; [done|]. split; [done|]. by rewrite HL, HR. }
  right. cbn [fst snd] in *. subst addr ad' n. split; [done|].
  assert (sorted_from 0 (insert_area area pos (areas ad))) as Hsort.
  { unfold ixmap_dma_area_whereto, u64 in Hw. rewrite Z.mod_small in Hw by lia. rewrite <- Had in *. by apply whereto_some. }
  assert (pos <= length (areas ad))%nat as Hpos by (by eapply whereto_le).
  split; [done|]. unfold ixmap_dma_unmap.
  rewrite <- Had, (lookup_sorted 0 _ pos area); [|done|by apply insert_area_lookup].
  cbv zeta. cbn [areas set_areas]. rewrite insert_area_delete by done.
  assert (set_areas (areas ad) (set_areas (insert_area area pos (areas ad)) ad) = ad) as -> by (by destruct ad).
  destruct (t_area_free ad area [] Hok s1 (ledger s)) as ([] & s2 & E2 & H2); [by rewrite HL, HR|].
  exists s2. split; [|done]. unfold mbind, M_bind. by rewrite E2.
Qed.

(** Two pages, mapped one after the other. *)
Definition demo_sg : sg_mapped := SgMapped [(0x2000, 0x1000); (0x3000, 0x1000)] 2.

Lemma demo_sg_mapped : fst ∘ fst <$> ixmap_dma_map false demo_adapter 0x7f0000 0x1800 demo_sg
  (Os (replicate 9 (Some 0x500)) []) = Some 0x2000.
Proof. reflexivity. Qed.

Lemma dma_map_unmap_roundtrip_witness :
  exists ad' s1 s2, ixmap_dma_map false demo_adapter 0x7f0000 0x1800 demo_sg (Os (replicate 9 (Some 0x500)) []) =
      Some ((0x2000, ad'), s1) /\
    ixmap_dma_unmap ad' 0x2000 s1 = Some ((0, demo_adapter), s2) /\ ledger s2 ≡ₚ [].
Proof.
  destruct (dma_map_unmap_roundtrip demo_adapter 0x7f0000 0x1800 demo_sg (Os (replicate 9 (Some 0x500)) []))
    as (addr & ad' & s1 & E & Hc);
    [cbn; lia|lia|cbn; lia|cbn; lia|cbn; lia|repeat constructor; unfold encloses; cbn; lia|].
  pose proof demo_sg_mapped as Ha. rewrite E in Ha. injection Ha as Ha. cbn in Ha.
  destruct Hc as [(H0 & _)|(_ & _ & s2 & E2 & HL)]; [lia|]. subst addr.
  exists ad', s1, s2. split; [exact E|]. split; [exact E2|exact HL].
Defined.

(** Entries that were merged.  The loop compares the last entry that is mapped
    with the next one of the table, which is not: two pages that the IOMMU has
    mapped as one area, and so contiguously, are refused. *)
Example merged_entries_refused :
  ixmap_dma_map false demo_adapter 0x7f0000 0x2000 (SgMapped [(0x2000, 0x2000); (0, 0x1000)] 1)
    (Os (replicate 9 (Some 0x500)) []) = Some ((0, demo_adapter), Os (replicate 4 (Some 0x500)) []).
Proof. vm_compute. reflexivity. Qed.

(** Pages that are missing.  A result of [get_user_pages] that is not negative
    passes for success: with one page of two the code goes on to use the second. *)
Example partial_pin_undefined :
  ixmap_dma_map true demo_adapter 0x7f0000 0x2000 demo_sg (Os [Some 0x500; Some 1; Some 0x600; Some 0] []) = None.
Proof. vm_compute. reflexivity. Qed.

(** Unmapping everything gives back what all areas hold. *)
Lemma t_dma_unmap_all ad R :
  Forall area_ok (areas ad) ->
  triple (concat (area_res ad <$> areas ad) ++ R) (ixmap_dma_unmap_all ad) (fun _ => R).
Proof.
  intros Hok. unfold ixmap_dma_unmap_all. rewrite Forall_forall in Hok. eapply t_bind.
  - apply t_for_each. intros a S Ha. apply t_area_free. by apply Hok.
  - intros ?. by apply t_ret.
Qed.
