(* ===== verification/Sg.v ===== *)
(** * Scatterlists (src/kmod/ixmap_dma.c, sg_alloc_table_from_pages)

    For kernels that lack it the module brings its own function that describes
    pinned pages by a table of physically contiguous chunks.  Pages are given by
    their frame numbers; [None] is an access beyond the array of pages.  What the
    table describes is compared with the bytes of the pages. *)

From stdpp Require Import prelude list.
From S2P Require Import Prelude Os Kdma.

(** ** The function *)

(** An entry of the table, as [sg_set_page] fills it. *)
Record sg := Sg { sg_pfn : Z; sg_len : Z; sg_offset : Z }.

(** Page [j] does not follow page [j - 1]. *)
Definition breaks (pages : list Z) (j : nat) : option bool :=
  p ← pages !! j; q ← pages !! (j - 1)%nat; Some (negb (p =? q + 1)).

(** The loop that counts, with [n] rounds left. *)
Fixpoint count_chunks (n : nat) (pages : list Z) (i chunks : nat) : option nat :=
  match n with
  | O => Some chunks
  | S n => b ← breaks pages i; count_chunks n pages (S i) (if b : bool then S chunks else chunks)
  end.

(** The loop that looks for the end of a chunk; [n] pages are left from [j] on. *)
Fixpoint chunk_end (n : nat) (pages : list Z) (j : nat) : option nat :=
  match n with
  | O => Some j
  | S n => b ← breaks pages j; if b : bool then Some j else chunk_end n pages (S j)
  end.

(** The loop over the entries of the table. *)
Fixpoint fill (entries : nat) (pages : list Z) (cur_page : nat) (offset size : Z) : option (list sg) :=
  match entries with
  | O => Some []
  | S entries =>
      j ← chunk_end (length pages - S cur_page) pages (S cur_page);
      p ← pages !! cur_page;
      let chunk_size := u64 (u32 (Z.shiftl (Z.of_nat (j - cur_page)) PAGE_SHIFT) - offset) in
      let len := if size <? chunk_size then size else chunk_size in
      l ← fill entries pages j 0 (u64 (size - chunk_size));
      Some (Sg p (u32 len) offset :: l)
  end.

(** [None] inside the monad: the table could not be allocated. *)
Definition sg_alloc_table_from_pages (sgt : Z) (pages : list Z) (offset size : Z) : M (option (list sg)) :=
  chunks ← lift (count_chunks (length pages - 1) pages 1 1);
  ok ← grant KSgTable sgt;
  if negb ok then mret None
  else l ← lift (fill chunks pages 0 offset size); mret (Some l).

(** ** Chunks of a list of pages *)

Fixpoint split_runs (pages : list Z) : list (list Z) :=
  match pages with
  | [] => []
  | p :: rest =>
      match split_runs rest with
      | (q :: r) :: rs => if q =? p + 1 then (p :: q :: r) :: rs else [p] :: (q :: r) :: rs
      | rs => [p] :: rs
      end
  end.

(** Consecutive page frames. *)
Definition consecutive (p : Z) (n : nat) : list Z := seqZ p (Z.of_nat n).

(** Chunks: each consecutive, none followed by its continuation. *)
Inductive chunked : list (list Z) -> Prop :=
| chunked_nil : chunked []
| chunked_last p n : chunked [consecutive p (S n)]
| chunked_more p n q m cs :
    q <> p + Z.of_nat (S n) -> chunked (consecutive q (S m) :: cs) ->
    chunked (consecutive p (S n) :: consecutive q (S m) :: cs).

Lemma consecutive_cons p n : consecutive p (S n) = p :: consecutive (p + 1) n.
Proof. unfold consecutive. rewrite seqZ_cons by lia. do 2 f_equal; lia. Qed.

Lemma split_runs_ok pages : concat (split_runs pages) = pages /\ chunked (split_runs pages).
Proof.
  induction pages as [|p pages [IHc IHk]]; [split; [done|constructor]|]. cbn [split_runs].
  assert (consecutive p 1 = [p]) as H1 by (by rewrite consecutive_cons).
  inversion IHk as [E|q n E|q n q' m cs Hne Hcs E]; rewrite <- E in *.
  - split; [cbn in *; by rewrite <- IHc|]. rewrite <- H1. constructor.
  - rewrite consecutive_cons. destruct (Z.eqb_spec q (p + 1)) as [->|Hn].
    + split; [rewrite <- IHc; by rewrite (consecutive_cons (p + 1))|]. rewrite <- !consecutive_cons. constructor.
    + split; [rewrite <- IHc; by rewrite (consecutive_cons q)|]. rewrite <- consecutive_cons, <- H1.
      constructor; [lia|done].
  - rewrite consecutive_cons. destruct (Z.eqb_spec q (p + 1)) as [->|Hn].
    + split; [rewrite <- IHc; by rewrite (consecutive_cons (p + 1))|]. rewrite <- !consecutive_cons. constructor; [lia|done].
    + split; [rewrite <- IHc; by rewrite (consecutive_cons q)|]. rewrite <- consecutive_cons, <- H1.
      constructor; [lia|done].
Qed.

(** ** The loops find the chunks *)

Lemma consecutive_lookup p n i : (i < n)%nat -> consecutive p n !! i = Some (p + Z.of_nat i).
Proof. intros Hi. unfold consecutive. apply lookup_seqZ. split; [done|lia]. Qed.

Lemma consecutive_length p n : length (consecutive p n) = n.
Proof. unfold consecutive. rewrite length_seqZ. lia. Qed.

Lemma chunk_lookup pre p n rest i :
  (i < n)%nat -> (pre ++ consecutive p n ++ rest) !! (length pre + i)%nat = Some (p + Z.of_nat i).
Proof.
  intros Hi. rewrite lookup_app_r by lia. replace (length pre + i - length pre)%nat with i by lia.
  rewrite lookup_app_l by (by rewrite consecutive_length). by apply consecutive_lookup.
Qed.

Lemma breaks_eq pages j p q :
  pages !! j = Some p -> pages !! (j - 1)%nat = Some q -> breaks pages j = Some (negb (p =? q + 1)).
Proof. intros Hp Hq. unfold breaks. by rewrite Hp, Hq. Qed.

(** Inside a chunk, and at its end. *)
Lemma breaks_inside pre p n rest i :
  (0 < i < n)%nat -> breaks (pre ++ consecutive p n ++ rest) (length pre + i) = Some false.
Proof.
  intros Hi. rewrite (breaks_eq _ _ (p + Z.of_nat i) (p + Z.of_nat (i - 1))).
  - f_equal. apply negb_false_iff, Z.eqb_eq. lia.
  - apply chunk_lookup. lia.
  - replace (length pre + i - 1)%nat with (length pre + (i - 1))%nat by lia. apply chunk_lookup. lia.
Qed.

Lemma breaks_end pre p n q rest :
  q <> p + Z.of_nat (S n) -> breaks (pre ++ consecutive p (S n) ++ q :: rest) (length pre + S n) = Some true.
Proof.
  intros Hq. rewrite (breaks_eq _ _ q (p + Z.of_nat n)).
  - f_equal. apply negb_true_iff, Z.eqb_neq. lia.
  - rewrite !lookup_app_r by (rewrite ?consecutive_length; lia). rewrite consecutive_length.
    by replace (length pre + S n - length pre - S n)%nat with O by lia.
  - replace (length pre + S n - 1)%nat with (length pre + n)%nat by lia. apply chunk_lookup. lia.
Qed.

(** Counting over the rest of a chunk. *)
Lemma count_inside pre p n rest i k r chunks :
  (0 < i)%nat -> (i + k <= n)%nat ->
  count_chunks (k + r) (pre ++ consecutive p n ++ rest) (length pre + i) chunks =
    count_chunks r (pre ++ consecutive p n ++ rest) (length pre + (i + k)) chunks.
Proof.
  revert i. induction k as [|k IH]; intros i H0 Hk; [by rewrite Nat.add_0_r|]. cbn [Nat.add count_chunks].
  rewrite breaks_inside by lia. cbn. replace (S (length pre + i)) with (length pre + S i)%nat by lia.
  rewrite IH by lia. do 2 f_equal. lia.
Qed.

Lemma end_inside pre p n rest i k r :
  (0 < i)%nat -> (i + k <= n)%nat ->
  chunk_end (k + r) (pre ++ consecutive p n ++ rest) (length pre + i) =
    chunk_end r (pre ++ consecutive p n ++ rest) (length pre + (i + k)).
Proof.
  revert i. induction k as [|k IH]; intros i H0 Hk; [by rewrite Nat.add_0_r|]. cbn [Nat.add chunk_end].
  rewrite breaks_inside by lia. cbn. replace (S (length pre + i)) with (length pre + S i)%nat by lia.
  rewrite IH by lia. do 2 f_equal. lia.
Qed.

Lemma consecutive_inj p n q m : consecutive p (S n) = consecutive q (S m) -> p = q /\ n = m.
Proof.
  intros E. pose proof (f_equal length E) as El. rewrite !consecutive_length in El. rewrite !consecutive_cons in E.
  split; [by injection E|lia].
Qed.

Lemma chunked_next p n cs :
  chunked (consecutive p (S n) :: cs) ->
  cs = [] \/ exists q m cs', cs = consecutive q (S m) :: cs' /\ q <> p + Z.of_nat (S n) /\ chunked cs.
Proof.
  remember (consecutive p (S n) :: cs) as l eqn:E. intros Hc.
  destruct Hc as [|p' n'|p' n' q m cs' Hne Hcs]; [done|injection E as _ <-; by left|].
  injection E as E <-. apply consecutive_inj in E as [-> ->]. right. by exists q, m, cs'.
Qed.

(** From the second page of a chunk on. *)
Lemma count_ok cs pre p n chunks :
  chunked (consecutive p (S n) :: cs) ->
  count_chunks (n + length (concat cs)) (pre ++ consecutive p (S n) ++ concat cs) (S (length pre)) chunks =
    Some (chunks + length cs)%nat.
Proof.
  revert pre p n chunks. induction cs as [|c cs IH]; intros pre p n chunks Hc;
    replace (S (length pre)) with (length pre + 1)%nat by lia; rewrite count_inside by lia; [cbn; f_equal; lia|].
  apply chunked_next in Hc as [|(q & m & cs' & [= -> <-] & Hne & Hcs)]; [done|].
  assert (length (concat (consecutive q (S m) :: cs)) = S (m + length (concat cs))) as ->
    by (cbn [concat]; by rewrite length_app, consecutive_length).
  cbn [count_chunks concat]. replace (length pre + (1 + n))%nat with (length pre + S n)%nat by lia.
  assert (breaks (pre ++ consecutive p (S n) ++ consecutive q (S m) ++ concat cs) (length pre + S n) = Some true) as ->
    by (rewrite (consecutive_cons q); by apply breaks_end).
  specialize (IH (pre ++ consecutive p (S n)) q m (S chunks) Hcs).
  rewrite length_app, consecutive_length, <- (assoc_L (++)) in IH. cbn. rewrite IH. f_equal. lia.
Qed.

Lemma end_ok cs pre p n :
  chunked (consecutive p (S n) :: cs) ->
  chunk_end (n + length (concat cs)) (pre ++ consecutive p (S n) ++ concat cs) (S (length pre)) =
    Some (length pre + S n)%nat.
Proof.
  intros Hc. replace (S (length pre)) with (length pre + 1)%nat by lia. rewrite end_inside by lia.
  replace (length pre + (1 + n))%nat with (length pre + S n)%nat by lia.
  apply chunked_next in Hc as [->|(q & m & cs' & -> & Hne & Hcs)]; [done|].
  cbn [concat]. rewrite (consecutive_cons q). cbn [app length chunk_end]. by rewrite breaks_end.
Qed.

(** ** What the table describes *)

(** The entry for a chunk and those after it, with the widths of the source. *)
Fixpoint entries (cs : list (list Z)) (offset size : Z) : list sg :=
  match cs with
  | (p :: c) :: cs =>
      let chunk_size := u64 (u32 (Z.shiftl (Z.of_nat (S (length c))) PAGE_SHIFT) - offset) in
      Sg p (u32 (if size <? chunk_size then size else chunk_size)) offset :: entries cs 0 (u64 (size - chunk_size))
  | _ => []
  end.

Lemma fill_ok cs pre offset size :
  chunked cs -> fill (length cs) (pre ++ concat cs) (length pre) offset size = Some (entries cs offset size).
Proof.
  revert pre offset size. induction cs as [|c cs IH]; intros pre offset size Hc; [done|].
  assert (exists p n, c = consecutive p (S n)) as (p & n & ->) by (inversion Hc; by eexists _, _).
  assert (chunked cs) as Hcs by (apply chunked_next in Hc as [->|(? & ? & ? & -> & _ & ?)]; [constructor|done]).
  cbn [length fill concat]. rewrite !length_app, consecutive_length.
  replace (length pre + (S n + length (concat cs)) - S (length pre))%nat with (n + length (concat cs))%nat by lia.
  rewrite end_ok by done. cbn [mbind option_bind].
  pose proof (chunk_lookup pre p (S n) (concat cs) 0 ltac:(lia)) as Hp. rewrite Nat.add_0_r, Z.add_0_r in Hp. rewrite Hp.
  cbn [mbind option_bind]. replace (length pre + S n - length pre)%nat with (S n) by lia. cbv zeta.
  specialize (IH (pre ++ consecutive p (S n))). rewrite length_app, consecutive_length, <- (assoc_L (++)) in IH.
  rewrite IH by done. rewrite consecutive_cons. cbn [mbind option_bind entries]. rewrite consecutive_length. done.
Qed.

Lemma from_pages_ok sgt pages offset size s :
  pages <> [] ->
  sg_alloc_table_from_pages sgt pages offset size s =
    (ok ← grant KSgTable sgt; mret (if negb ok then None else Some (entries (split_runs pages) offset size))) s.
Proof.
  intros Hne. destruct (split_runs_ok pages) as [Ec Hk]. unfold sg_alloc_table_from_pages.
  assert (count_chunks (length pages - 1) pages 1 1 = Some (length (split_runs pages))) as Hcount.
  { destruct (split_runs pages) as [|c cs]; [by rewrite <- Ec in Hne|].
    assert (exists p n, c = consecutive p (S n)) as (p & n & ->) by (inversion Hk; by eexists _, _).
    pose proof (count_ok cs [] p n 1 Hk) as Hcnt. rewrite <- Ec. cbn [concat]. rewrite length_app, consecutive_length.
    replace (S n + length (concat cs) - 1)%nat with (n + length (concat cs))%nat by lia. exact Hcnt. }
  assert (fill (length (split_runs pages)) pages 0 offset size = Some (entries (split_runs pages) offset size)) as Hfill.
  { rewrite <- (fill_ok (split_runs pages) [] offset size Hk). cbn [app length]. by rewrite Ec. }
  rewrite Hcount. unfold mbind, M_bind, lift at 1. destruct (grant KSgTable sgt s) as [[[] s']|]; [|done|done].
  cbn [negb]. rewrite Hfill. done.
Qed.

(** The addresses of the bytes of pages, and those a table describes, in order. *)
Definition page_bytes (pages : list Z) : list Z := mjoin ((fun p => seqZ (p * PAGE_SIZE) PAGE_SIZE) <$> pages).
Definition sg_bytes (t : list sg) : list Z :=
  mjoin ((fun e => seqZ (sg_pfn e * PAGE_SIZE + sg_offset e) (sg_len e)) <$> t).

Definition sg_end (e : sg) : Z := sg_pfn e * PAGE_SIZE + sg_offset e + sg_len e.

(** No entry goes on where the one before it ends. *)
Fixpoint apart (t : list sg) : Prop :=
  match t with
  | e :: ((f :: _) as t') => sg_end e <> sg_pfn f * PAGE_SIZE + sg_offset f /\ apart t'
  | _ => True
  end.

Lemma page_bytes_app l1 l2 : page_bytes (l1 ++ l2) = page_bytes l1 ++ page_bytes l2.
Proof. unfold page_bytes. by rewrite fmap_app, join_app. Qed.

Lemma chunk_bytes p n : page_bytes (consecutive p n) = seqZ (p * PAGE_SIZE) (Z.of_nat n * PAGE_SIZE).
Proof.
  change PAGE_SIZE with 4096. revert p. induction n as [|n IH]; intros p; [done|]. rewrite consecutive_cons.
  change (p :: consecutive (p + 1) n) with ([p] ++ consecutive (p + 1) n). rewrite page_bytes_app, IH.
  unfold page_bytes. cbn [fmap list_fmap mjoin list_join]. change PAGE_SIZE with 4096. rewrite app_nil_r.
  replace (Z.of_nat (S n) * 4096) with (4096 + Z.of_nat n * 4096) by lia. rewrite seqZ_app by lia.
  do 2 f_equal. lia.
Qed.

Lemma drop_bytes a n k : 0 <= k <= n -> drop (Z.to_nat k) (seqZ a n) = seqZ (a + k) (n - k).
Proof.
  intros Hk. replace (seqZ a n) with (seqZ a (k + (n - k))) by (f_equal; lia). rewrite seqZ_app by lia.
  apply drop_app_length'. by rewrite length_seqZ.
Qed.

(** One entry, below four gigabytes. *)
Lemma entries_step p n cs offset size :
  0 <= offset < PAGE_SIZE -> Z.of_nat (S n) < 2 ^ 20 -> Z.of_nat (S n) * PAGE_SIZE - offset <= size < 2 ^ 64 ->
  let len := Z.of_nat (S n) * PAGE_SIZE - offset in
  entries (consecutive p (S n) :: cs) offset size = Sg p len offset :: entries cs 0 (size - len).
Proof.
  change PAGE_SIZE with 4096. intros Ho Hn Hs. cbv zeta. rewrite consecutive_cons. cbn [entries].
  rewrite consecutive_length, Z.shiftl_mul_pow2 by (unfold PAGE_SHIFT; lia). change (2 ^ PAGE_SHIFT) with 4096.
  assert (u32 (Z.of_nat (S n) * 4096) = Z.of_nat (S n) * 4096) as -> by (apply Z.mod_small; lia).
  assert (u64 (Z.of_nat (S n) * 4096 - offset) = Z.of_nat (S n) * 4096 - offset) as -> by (apply Z.mod_small; lia).
  rewrite (proj2 (Z.ltb_ge _ _)) by lia. f_equal.
  - f_equal. apply Z.mod_small. lia.
  - f_equal. apply Z.mod_small. lia.
Qed.

Lemma entries_ok cs offset size :
  chunked cs -> cs <> [] -> 0 <= offset < PAGE_SIZE -> Z.of_nat (length (concat cs)) < 2 ^ 20 ->
  Z.of_nat (length (concat cs)) * PAGE_SIZE - offset <= size < 2 ^ 64 ->
  sg_bytes (entries cs offset size) = drop (Z.to_nat offset) (page_bytes (concat cs)) /\
  apart (entries cs offset size).
Proof.
  revert offset size. induction cs as [|c cs IH]; intros offset size Hc Hne Ho Hl Hs; [done|].
  assert (exists p n, c = consecutive p (S n)) as (p & n & ->) by (inversion Hc; by eexists _, _).
  cbn [concat] in *. rewrite length_app, consecutive_length in Hl, Hs. rewrite page_bytes_app, chunk_bytes.
  assert (0 < PAGE_SIZE) as HP by done.
  rewrite entries_step by nia. rewrite drop_app_le by (rewrite length_seqZ; nia). rewrite drop_bytes by nia.
  set (len := Z.of_nat (S n) * PAGE_SIZE - offset) in *.
  change (sg_bytes (Sg p len offset :: entries cs 0 (size - len)))
    with (seqZ (p * PAGE_SIZE + offset) len ++ sg_bytes (entries cs 0 (size - len))).
  apply chunked_next in Hc as [->|(q & m & cs' & -> & Hq & Hcs)]; [by split|].
  destruct (IH 0 (size - len) Hcs) as [IHb IHa]; [done|lia|lia|nia|]. split; [by rewrite IHb|].
  cbn [concat] in Hl, Hs. rewrite length_app, consecutive_length in Hl, Hs.
  rewrite entries_step in IHa |- * by nia. cbn [apart]. split; [|done]. unfold sg_end. cbn. subst len. nia.
Qed.

(** C35: Describing pinned pages by a table: for at least one page and below four
    gigabytes, whatever pages they are, the function returns or reports that there is no memory for
    the table; the table describes exactly the bytes of the pages from the offset
    on, in order, with as few entries as there are contiguous chunks. *)
Theorem sg_table_covers sgt pages offset s :
  pages <> [] -> Z.of_nat (length pages) < 2 ^ 20 -> 0 <= offset < PAGE_SIZE ->
  exists r s', sg_alloc_table_from_pages sgt pages offset (Z.shiftl (Z.of_nat (length pages)) PAGE_SHIFT) s = Some (r, s') /\
    match r with
    | None => ledger s' = ledger s
    | Some t => ledger s' = (KSgTable, sgt, 0) :: ledger s /\
        sg_bytes t = drop (Z.to_nat offset) (page_bytes pages) /\ apart t
    end.
Proof.
  intros Hne Hl Ho. rewrite from_pages_ok by done. destruct (split_runs_ok pages) as [Ec Hk].
  assert (sg_bytes (entries (split_runs pages) offset (Z.shiftl (Z.of_nat (length pages)) PAGE_SHIFT)) =
      drop (Z.to_nat offset) (page_bytes pages) /\
    apart (entries (split_runs pages) offset (Z.shiftl (Z.of_nat (length pages)) PAGE_SHIFT))) as Ht.
  { rewrite Z.shiftl_mul_pow2 by (unfold PAGE_SHIFT; lia). change (2 ^ PAGE_SHIFT) with PAGE_SIZE.
    pose proof (entries_ok (split_runs pages) offset (Z.of_nat (length pages) * PAGE_SIZE) Hk) as Hok. rewrite Ec in Hok.
    change PAGE_SIZE with 4096 in *. apply Hok; [|done|done|lia]. intros E. rewrite E in Ec. by rewrite <- Ec in Hne. }
  unfold grant, ask, mbind, M_bind. destruct (answers s) as [|[x|] rest]; eexists _, _; (split; [reflexivity|]); cbn; done.
Qed.

Lemma sg_table_covers_witness :
  exists s', sg_alloc_table_from_pages 0x100 [7; 8; 9; 4; 20; 21] 16 (Z.shiftl 6 PAGE_SHIFT) (Os [Some 1] []) =
      Some (Some [Sg 7 12272 16; Sg 4 4096 0; Sg 20 8192 0], s') /\
    sg_bytes [Sg 7 12272 16; Sg 4 4096 0; Sg 20 8192 0] = drop 16 (page_bytes [7; 8; 9; 4; 20; 21]).
Proof.
  destruct (sg_table_covers 0x100 [7; 8; 9; 4; 20; 21] 16 (Os [Some 1] [])) as (r & s' & E & Hr); [done|done|done|].
  cbv in E. injection E as <- <-. destruct Hr as (_ & Hb & _). eexists. split; [reflexivity|exact Hb].
Defined.

(** For a request without pages there is one chunk, whose first page is read from
    an array that has none. *)
Example from_no_pages : sg_alloc_table_from_pages 0x100 [] 0 0 (Os [Some 1] []) = None.
Proof. reflexivity. Qed.

(** At four gigabytes the size, computed with 32 bits, is zero: nothing of a
    chunk of 2^20 pages is described. *)
Example four_gigabytes p : entries [consecutive p (Z.to_nat (2 ^ 20))] 0 (u32 (Z.shiftl (2 ^ 20) PAGE_SHIFT)) = [Sg p 0 0].
Proof.
  replace (Z.to_nat (2 ^ 20)) with (S (Z.to_nat (2 ^ 20 - 1))) by lia. rewrite consecutive_cons. cbn [entries].
  rewrite consecutive_length. replace (Z.of_nat (S (Z.to_nat (2 ^ 20 - 1)))) with (2 ^ 20) by lia. reflexivity.
Qed.
