(* ===== verification/HwRegs.v ===== *)
(** * Registers and constants of the network card (src/kmod/ixmap_type.h, src/kmod/ixmap_82599.h, src/kmod/ixmap_phy.h)

    Addresses of registers, bits in them, error codes and limits, as far as the
    modelled code of the kernel module uses them. *)

From stdpp Require Import prelude.
From S2P Require Import Prelude.

Definition IXGBE_82599_MAX_TX_QUEUES : Z := 128.
Definition IXGBE_82599_MAX_RX_QUEUES : Z := 128.
Definition IXGBE_82599_RAR_ENTRIES : Z := 128.
Definition IXGBE_82599_MC_TBL_SIZE : Z := 128.
Definition IXGBE_82599_VFT_TBL_SIZE : Z := 128.
Definition IXGBE_82599_RX_PB_SIZE : Z := 512.
Definition IXGBE_PHY_INIT_OFFSET_NL : Z := 0x002B.
Definition IXGBE_PHY_INIT_END_NL : Z := 0xFFFF.
Definition IXGBE_DEV_ID_82599_SFP : Z := 0x10FB.
Definition IXGBE_DEV_ID_82599_SFP_FCOE : Z := 0x1529.
Definition IXGBE_DEV_ID_82599_SFP_EM : Z := 0x1507.
Definition IXGBE_DEV_ID_82599_SFP_SF2 : Z := 0x154D.
Definition IXGBE_DEV_ID_82599_SFP_SF_QP : Z := 0x154A.
Definition IXGBE_DEV_ID_82599EN_SFP : Z := 0x1557.
Definition IXGBE_CTRL : Z := 0x00000.
Definition IXGBE_STATUS : Z := 0x00008.
Definition IXGBE_CTRL_EXT : Z := 0x00018.
Definition IXGBE_ESDP : Z := 0x00020.
Definition IXGBE_EEC : Z := 0x10010.
Definition IXGBE_EERD : Z := 0x10014.
Definition IXGBE_EEWR : Z := 0x10018.
Definition IXGBE_EEPROM_MAX_RETRY_SPI : Z := 5000.
Definition IXGBE_EEPROM_STATUS_RDY_SPI : Z := 0x01.
Definition IXGBE_EEPROM_READ_OPCODE_SPI : Z := 0x03.
Definition IXGBE_EEPROM_A8_OPCODE_SPI : Z := 0x08.
Definition IXGBE_EEPROM_RDSR_OPCODE_SPI : Z := 0x05.
Definition IXGBE_EEPROM_GRANT_ATTEMPTS : Z := 1000.
Definition IXGBE_EERD_EEWR_ATTEMPTS : Z := 100000.
Definition IXGBE_EEPROM_RW_REG_DATA : Z := 16.
Definition IXGBE_EEPROM_RW_REG_DONE : Z := 2.
Definition IXGBE_EEPROM_RW_REG_START : Z := 1.
Definition IXGBE_EEPROM_RW_ADDR_SHIFT : Z := 2.
Definition IXGBE_NVM_POLL_READ : Z := 0.
Definition IXGBE_FACTPS_LFS : Z := 0x40000000.
Definition IXGBE_FACTPS : Z := 0x10150.
Definition IXGBE_SWSM : Z := 0x10140.
Definition IXGBE_FWSM : Z := 0x10148.
Definition IXGBE_GSSR : Z := 0x10160.
Definition IXGBE_GCR_EXT : Z := 0x11050.
Definition IXGBE_GCR_EXT_BUFFERS_CLEAR : Z := 0x40000000.
Definition IXGBE_TXDCTL (i : Z) : Z := 0x06028 + (i * 0x40).
Definition IXGBE_RXDCTL (i : Z) : Z := (if i <? 64 then 0x01028 + (i * 0x40) else 0x0D028 + ((i - 64) * 0x40)).
Definition IXGBE_ANLP1_AN_STATE_MASK : Z := 0x000f0000.
Definition IXGBE_FWSM_MODE_MASK : Z := 0xE.
Definition IXGBE_HICR : Z := 0x15F00.
Definition IXGBE_FLEX_MNG : Z := 0x15800.
Definition IXGBE_HICR_EN : Z := 0x01.
Definition IXGBE_HICR_C : Z := 0x02.
Definition IXGBE_HICR_SV : Z := 0x04.
Definition IXGBE_HLREG0_LPBK : Z := 0x00008000.
Definition IXGBE_CORECTL : Z := 0x014F00.
Definition IXGBE_CTRL_GIO_DIS : Z := 0x00000004.
Definition IXGBE_CTRL_LNK_RST : Z := 0x00000008.
Definition IXGBE_CTRL_RST : Z := 0x04000000.
Definition IXGBE_CTRL_RST_MASK : Z := Z.lor IXGBE_CTRL_LNK_RST IXGBE_CTRL_RST.
Definition IXGBE_HLREG0 : Z := 0x04240.
Definition IXGBE_MFLCN : Z := 0x04294.
Definition IXGBE_AUTOC : Z := 0x042A0.
Definition IXGBE_LINKS : Z := 0x042A4.
Definition IXGBE_AUTOC2 : Z := 0x042A8.
Definition IXGBE_ANLP1 : Z := 0x042B0.
Definition IXGBE_PBANUM_PTR_GUARD : Z := 0xFAFA.
Definition IXGBE_EEPROM_CHECKSUM : Z := 0x3F.
Definition IXGBE_EEPROM_SUM : Z := 0xBABA.
Definition IXGBE_PCIE_ANALOG_PTR : Z := 0x03.
Definition IXGBE_FW_PTR : Z := 0x0F.
Definition IXGBE_PBANUM0_PTR : Z := 0x15.
Definition IXGBE_PBANUM1_PTR : Z := 0x16.
Definition IXGBE_AUTOC_KX4_KX_SUPP_MASK : Z := 0xC0000000.
Definition IXGBE_AUTOC_KX4_SUPP : Z := 0x80000000.
Definition IXGBE_AUTOC_KX_SUPP : Z := 0x40000000.
Definition IXGBE_AUTOC_KR_SUPP : Z := 0x00010000.
Definition IXGBE_AUTOC_AN_RESTART : Z := 0x00001000.
Definition IXGBE_AUTOC_LMS_SHIFT : Z := 13.
Definition IXGBE_AUTOC_LMS_10G_SERIAL : Z := Z.shiftl 0x3 IXGBE_AUTOC_LMS_SHIFT.
Definition IXGBE_AUTOC_LMS_KX4_KX_KR : Z := Z.shiftl 0x4 IXGBE_AUTOC_LMS_SHIFT.
Definition IXGBE_AUTOC_LMS_SGMII_1G_100M : Z := Z.shiftl 0x5 IXGBE_AUTOC_LMS_SHIFT.
Definition IXGBE_AUTOC_LMS_KX4_KX_KR_1G_AN : Z := Z.shiftl 0x6 IXGBE_AUTOC_LMS_SHIFT.
Definition IXGBE_AUTOC_LMS_KX4_KX_KR_SGMII : Z := Z.shiftl 0x7 IXGBE_AUTOC_LMS_SHIFT.
Definition IXGBE_AUTOC_LMS_MASK : Z := Z.shiftl 0x7 IXGBE_AUTOC_LMS_SHIFT.
Definition IXGBE_AUTOC_LMS_1G_LINK_NO_AN : Z := Z.shiftl 0x0 IXGBE_AUTOC_LMS_SHIFT.
Definition IXGBE_AUTOC_LMS_10G_LINK_NO_AN : Z := Z.shiftl 0x1 IXGBE_AUTOC_LMS_SHIFT.
Definition IXGBE_AUTOC_LMS_1G_AN : Z := Z.shiftl 0x2 IXGBE_AUTOC_LMS_SHIFT.
Definition IXGBE_AUTOC_1G_PMA_PMD_MASK : Z := 0x00000200.
Definition IXGBE_AUTOC_1G_PMA_PMD_SHIFT : Z := 9.
Definition IXGBE_AUTOC_1G_SFI : Z := Z.shiftl 0x0 IXGBE_AUTOC_1G_PMA_PMD_SHIFT.
Definition IXGBE_AUTOC2_UPPER_MASK : Z := 0xFFFF0000.
Definition IXGBE_AUTOC2_10G_SERIAL_PMA_PMD_MASK : Z := 0x00030000.
Definition IXGBE_AUTOC2_10G_SERIAL_PMA_PMD_SHIFT : Z := 16.
Definition IXGBE_AUTOC2_10G_SFI : Z := Z.shiftl 0x2 IXGBE_AUTOC2_10G_SERIAL_PMA_PMD_SHIFT.
Definition IXGBE_AUTOC2_LINK_DISABLE_MASK : Z := 0x70000000.
Definition IXGBE_STATUS_LAN_ID : Z := 0x0000000C.
Definition IXGBE_STATUS_LAN_ID_SHIFT : Z := 2.
Definition IXGBE_STATUS_GIO : Z := 0x00080000.
Definition IXGBE_ESDP_SDP3 : Z := 0x00000008.
Definition IXGBE_SWSM_SMBI : Z := 0x00000001.
Definition IXGBE_SWSM_SWESMBI : Z := 0x00000002.
Definition IXGBE_GSSR_EEP_SM : Z := 0x0001.
Definition IXGBE_GSSR_MAC_CSR_SM : Z := 0x0008.
Definition IXGBE_GSSR_SW_MNG_SM : Z := 0x0400.
Definition IXGBE_EEC_SK : Z := 0x00000001.
Definition IXGBE_EEC_CS : Z := 0x00000002.
Definition IXGBE_EEC_DI : Z := 0x00000004.
Definition IXGBE_EEC_DO : Z := 0x00000008.
Definition IXGBE_EEC_REQ : Z := 0x00000040.
Definition IXGBE_EEC_GNT : Z := 0x00000080.
Definition IXGBE_EEC_PRES : Z := 0x00000100.
Definition IXGBE_EEC_ADDR_SIZE : Z := 0x00000400.
Definition IXGBE_EEC_SIZE : Z := 0x00007800.
Definition IXGBE_EERD_MAX_ADDR : Z := 0x00003FFF.
Definition IXGBE_LINKS_KX_AN_COMP : Z := 0x80000000.
Definition IXGBE_LINKS_UP : Z := 0x40000000.
Definition IXGBE_LINKS_SPEED_82599 : Z := 0x30000000.
Definition IXGBE_LINKS_SPEED_10G_82599 : Z := 0x30000000.
Definition IXGBE_LINKS_SPEED_1G_82599 : Z := 0x20000000.
Definition IXGBE_LINKS_SPEED_100_82599 : Z := 0x10000000.
Definition IXGBE_LINK_UP_TIME : Z := 90.
Definition IXGBE_AUTO_NEG_TIME : Z := 45.
Definition IXGBE_LINK_SPEED_UNKNOWN : Z := 0.
Definition IXGBE_LINK_SPEED_100_FULL : Z := 0x0008.
Definition IXGBE_LINK_SPEED_1GB_FULL : Z := 0x0020.
Definition IXGBE_LINK_SPEED_10GB_FULL : Z := 0x0080.
Definition IXGBE_MTA (i : Z) : Z := 0x05200 + (i * 4).
Definition IXGBE_RAL (i : Z) : Z := (if i <=? 15 then 0x05400 + (i * 8) else 0x0A200 + (i * 8)).
Definition IXGBE_RAH (i : Z) : Z := (if i <=? 15 then 0x05404 + (i * 8) else 0x0A204 + (i * 8)).
Definition IXGBE_RAH_AV : Z := 0x80000000.
Definition IXGBE_EICR : Z := 0x00800.
Definition IXGBE_EIMC : Z := 0x00888.
Definition IXGBE_IRQ_CLEAR_MASK : Z := 0xFFFFFFFF.
Definition IXGBE_CTRL_EXT_NS_DIS : Z := 0x00010000.
Definition IXGBE_TXDCTL_SWFLSH : Z := 0x04000000.
Definition IXGBE_RXDCTL_ENABLE : Z := 0x02000000.
Definition IXGBE_RXDCTL_SWFLSH : Z := 0x04000000.
Definition IXGBE_HI_MAX_BLOCK_BYTE_LENGTH : Z := 1792.
Definition IXGBE_HI_COMMAND_TIMEOUT : Z := 500.
Definition FW_CEM_HDR_LEN : Z := 0x4.
Definition FW_CEM_CMD_DRIVER_INFO : Z := 0xDD.
Definition FW_CEM_CMD_DRIVER_INFO_LEN : Z := 0x5.
Definition FW_CEM_CMD_RESERVED : Z := 0x0.
Definition FW_CEM_MAX_RETRIES : Z := 3.
Definition FW_CEM_RESP_STATUS_SUCCESS : Z := 0x1.
Definition IXGBE_PCIE_MSIX_TBL_SZ_MASK : Z := 0x7FF.
Definition IXGBE_PCI_DEVICE_STATUS : Z := 0xAA.
Definition IXGBE_PCI_DEVICE_STATUS_TRANSACTION_PENDING : Z := 0x0020.
Definition IXGBE_PCI_DEVICE_CONTROL2 : Z := 0xC8.
Definition IXGBE_PCIDEVCTRL2_TIMEO_MASK : Z := 0xf.
Definition IXGBE_PCIDEVCTRL2_16_32ms_def : Z := 0x0.
Definition IXGBE_PCIDEVCTRL2_50_100us : Z := 0x1.
Definition IXGBE_PCIDEVCTRL2_1_2ms : Z := 0x2.
Definition IXGBE_PCIDEVCTRL2_16_32ms : Z := 0x5.
Definition IXGBE_PCIDEVCTRL2_65_130ms : Z := 0x6.
Definition IXGBE_PCIDEVCTRL2_260_520ms : Z := 0x9.
Definition IXGBE_PCIDEVCTRL2_1_2s : Z := 0xa.
Definition IXGBE_PCIDEVCTRL2_4_8s : Z := 0xd.
Definition IXGBE_PCIDEVCTRL2_17_34s : Z := 0xe.
Definition IXGBE_PCI_MASTER_DISABLE_TIMEOUT : Z := 800.
Definition IXGBE_CRCERRS : Z := 0x04000.
Definition IXGBE_ILLERRC : Z := 0x04004.
Definition IXGBE_ERRBC : Z := 0x04008.
Definition IXGBE_MSPDC : Z := 0x04010.
Definition IXGBE_MPC (i : Z) : Z := 0x03FA0 + (i * 4).
Definition IXGBE_MLFC : Z := 0x04034.
Definition IXGBE_MRFC : Z := 0x04038.
Definition IXGBE_RLEC : Z := 0x04040.
Definition IXGBE_LXONTXC : Z := 0x03F60.
Definition IXGBE_LXOFFTXC : Z := 0x03F68.
Definition IXGBE_LXONRXCNT : Z := 0x041A4.
Definition IXGBE_LXOFFRXCNT : Z := 0x041A8.
Definition IXGBE_PXONRXCNT (i : Z) : Z := 0x04140 + (i * 4).
Definition IXGBE_PXOFFRXCNT (i : Z) : Z := 0x04160 + (i * 4).
Definition IXGBE_PXON2OFFCNT (i : Z) : Z := 0x03240 + (i * 4).
Definition IXGBE_PXONTXC (i : Z) : Z := 0x03F00 + (i * 4).
Definition IXGBE_PXOFFTXC (i : Z) : Z := 0x03F20 + (i * 4).
Definition IXGBE_PRC64 : Z := 0x0405C.
Definition IXGBE_PRC127 : Z := 0x04060.
Definition IXGBE_PRC255 : Z := 0x04064.
Definition IXGBE_PRC511 : Z := 0x04068.
Definition IXGBE_PRC1023 : Z := 0x0406C.
Definition IXGBE_PRC1522 : Z := 0x04070.
Definition IXGBE_GPRC : Z := 0x04074.
Definition IXGBE_BPRC : Z := 0x04078.
Definition IXGBE_MPRC : Z := 0x0407C.
Definition IXGBE_GPTC : Z := 0x04080.
Definition IXGBE_GORCL : Z := 0x04088.
Definition IXGBE_GORCH : Z := 0x0408C.
Definition IXGBE_GOTCL : Z := 0x04090.
Definition IXGBE_GOTCH : Z := 0x04094.
Definition IXGBE_RUC : Z := 0x040A4.
Definition IXGBE_RFC : Z := 0x040A8.
Definition IXGBE_ROC : Z := 0x040AC.
Definition IXGBE_RJC : Z := 0x040B0.
Definition IXGBE_MNGPRC : Z := 0x040B4.
Definition IXGBE_MNGPDC : Z := 0x040B8.
Definition IXGBE_MNGPTC : Z := 0x0CF90.
Definition IXGBE_TORL : Z := 0x040C0.
Definition IXGBE_TORH : Z := 0x040C4.
Definition IXGBE_TPR : Z := 0x040D0.
Definition IXGBE_TPT : Z := 0x040D4.
Definition IXGBE_PTC64 : Z := 0x040D8.
Definition IXGBE_PTC127 : Z := 0x040DC.
Definition IXGBE_PTC255 : Z := 0x040E0.
Definition IXGBE_PTC511 : Z := 0x040E4.
Definition IXGBE_PTC1023 : Z := 0x040E8.
Definition IXGBE_PTC1522 : Z := 0x040EC.
Definition IXGBE_MPTC : Z := 0x040F0.
Definition IXGBE_BPTC : Z := 0x040F4.
Definition IXGBE_QPRC (i : Z) : Z := 0x01030 + (i * 0x40).
Definition IXGBE_QPTC (i : Z) : Z := 0x06030 + (i * 0x40).
Definition IXGBE_QBRC_L (i : Z) : Z := 0x01034 + (i * 0x40).
Definition IXGBE_QBRC_H (i : Z) : Z := 0x01038 + (i * 0x40).
Definition IXGBE_QPRDC (i : Z) : Z := 0x01430 + (i * 0x40).
Definition IXGBE_QBTC_L (i : Z) : Z := 0x08700 + (i * 0x8).
Definition IXGBE_QBTC_H (i : Z) : Z := 0x08704 + (i * 0x8).
Definition IXGBE_RXCTRL : Z := 0x03000.
Definition IXGBE_RTTDQSEL : Z := 0x04904.
Definition IXGBE_RTTBCNRC : Z := 0x04984.
Definition IXGBE_DCA_TXCTRL_82599 (i : Z) : Z := 0x0600C + (i * 0x40).
Definition IXGBE_DCA_TXCTRL_DESC_WRO_EN : Z := Z.shiftl 1 11.
Definition IXGBE_DCA_RXCTRL (i : Z) : Z := (if i <=? 15 then 0x02200 + (i * 4) else (if i <? 64 then 0x0100C + (i * 0x40) else 0x0D00C + ((i - 64) * 0x40))).
Definition IXGBE_DCA_RXCTRL_DATA_WRO_EN : Z := Z.shiftl 1 13.
Definition IXGBE_DCA_RXCTRL_HEAD_WRO_EN : Z := Z.shiftl 1 15.
Definition IXGBE_MCSTCTRL : Z := 0x05090.
Definition IXGBE_VFTA (i : Z) : Z := 0x0A000 + (i * 4).
Definition IXGBE_VLVF (i : Z) : Z := 0x0F100 + (i * 4).
Definition IXGBE_VLVFB (i : Z) : Z := 0x0F200 + (i * 4).
Definition IXGBE_VLVF_ENTRIES : Z := 64.
Definition IXGBE_FCCFG : Z := 0x03D00.
Definition IXGBE_MFLCN_DPF : Z := 0x00000002.
Definition IXGBE_MFLCN_RFCE : Z := 0x00000008.
Definition IXGBE_MFLCN_RPFCE_MASK : Z := 0x00000FF4.
Definition IXGBE_FCCFG_TFCE_802_3X : Z := 0x00000008.
Definition IXGBE_FCCFG_TFCE_PRIORITY : Z := 0x00000010.
Definition IXGBE_ERR_EEPROM : Z := -1.
Definition IXGBE_ERR_EEPROM_CHECKSUM : Z := -2.
Definition IXGBE_ERR_PHY : Z := -3.
Definition IXGBE_ERR_CONFIG : Z := -4.
Definition IXGBE_ERR_LINK_SETUP : Z := -8.
Definition IXGBE_ERR_INVALID_MAC_ADDR : Z := -10.
Definition IXGBE_ERR_MASTER_REQUESTS_PENDING : Z := -12.
Definition IXGBE_ERR_AUTONEG_NOT_COMPLETE : Z := -14.
Definition IXGBE_ERR_RESET_FAILED : Z := -15.
Definition IXGBE_ERR_SWFW_SYNC : Z := -16.
Definition IXGBE_ERR_SFP_NOT_SUPPORTED : Z := -19.
Definition IXGBE_ERR_SFP_NOT_PRESENT : Z := -20.
Definition IXGBE_ERR_SFP_NO_INIT_SEQ_PRESENT : Z := -21.
Definition IXGBE_ERR_EEPROM_VERSION : Z := -24.
Definition IXGBE_ERR_NO_SPACE : Z := -25.
Definition IXGBE_ERR_SFP_SETUP_NOT_COMPLETE : Z := -30.
Definition IXGBE_ERR_PBA_SECTION : Z := -31.
Definition IXGBE_ERR_INVALID_ARGUMENT : Z := -32.
Definition IXGBE_ERR_HOST_INTERFACE_COMMAND : Z := -33.
Definition IXGBE_EEC_SIZE_SHIFT : Z := 11.
Definition IXGBE_EEPROM_WORD_SIZE_SHIFT : Z := 6.
Definition IXGBE_EEPROM_OPCODE_BITS : Z := 8.
Definition IXGBE_FW_LESM_PARAMETERS_PTR : Z := 0x2.
Definition IXGBE_FW_LESM_STATE_1 : Z := 0x1.
Definition IXGBE_FW_LESM_STATE_ENABLED : Z := 0x8000.
Definition IXGBE_FW_PASSTHROUGH_PATCH_CONFIG_PTR : Z := 0x4.
Definition IXGBE_FW_PATCH_VERSION_4 : Z := 0x7.
Definition IXGBE_PCIE_MSIX_82599_CAPS : Z := 0x72.
Definition IXGBE_MAX_MSIX_VECTORS_82599 : Z := 0x40.
Definition IXGBE_UTA (i : Z) : Z := 0x0F400 + (i * 4).
Definition IXGBE_FLAGS_DOUBLE_RESET_REQUIRED : Z := 0x01.
Definition IXGBE_MAX_RSS_INDICES : Z := 16.
Definition IXGBE_IVAR_ALLOC_VAL : Z := 0x80.
Definition IXGBE_GPIE_MSIX_MODE : Z := 0x00000010.
Definition IXGBE_GPIE_OCD : Z := 0x00000020.
Definition IXGBE_GPIE_EIAME : Z := 0x40000000.
Definition IXGBE_GPIE_PBA_SUPPORT : Z := 0x80000000.
Definition IXGBE_PBANUM_LENGTH : Z := 11.
Definition IXGBE_DMATXCTL : Z := 0x04A80.
Definition IXGBE_DMATXCTL_TE : Z := 0x1.
Definition IXGBE_EIAC : Z := 0x00810.
Definition IXGBE_EIMC_EX (i : Z) : Z := 0x00AB0 + (i * 4).
Definition IXGBE_EIAM_EX (i : Z) : Z := 0x00AD0 + (i * 4).
Definition IXGBE_MAX_EITR : Z := 0x00000FF8.
Definition IXGBE_EITR (i : Z) : Z := if i <=? 23 then 0x00820 + (i * 4) else 0x012300 + ((i - 24) * 4).
Definition IXGBE_EITR_CNT_WDIS : Z := 0x80000000.
Definition IXGBE_IVAR (i : Z) : Z := 0x00900 + (i * 4).
Definition IXGBE_GPIE : Z := 0x00898.
Definition IXGBE_EICR_RTX_QUEUE : Z := 0x0000FFFF.
Definition IXGBE_EIMS_RTX_QUEUE : Z := IXGBE_EICR_RTX_QUEUE.
Definition IXGBE_CTRL_EXT_DRV_LOAD : Z := 0x10000000.
