(* ===== verification/Hw.v ===== *)
(** * Access to the network card (src/kmod/ixmap_type.h, src/kmod/ixmap_common.h)

    The driver's view of a card, [struct ixmap_hw], and the monad its code is
    written in.  The card is a parameter: a type [D] of states with what a read
    or a write of a register does to it.  A program runs on the pair of both and
    returns, or has undefined behaviour, or uses up the bound of a loop that has
    none in the source.  The tables of function pointers are those that
    [ixmap_init_ops_82599] sets, so a call through them is a call of that
    function; only the pointers that switch the laser may be null. *)

From stdpp Require Import prelude list.
From S2P Require Import Prelude HwRegs.

(** ** The driver's data *)

Inductive ixmap_phy_type := ixmap_phy_unknown | ixmap_phy_none | ixmap_phy_generic.

Inductive ixmap_mac_type :=
| ixmap_mac_unknown | ixmap_mac_82598EB | ixmap_mac_82599EB | ixmap_mac_X540 | ixmap_num_macs.

Inductive ixmap_media_type := ixmap_media_type_unknown | ixmap_media_type_fiber.

Inductive ixmap_eeprom_type :=
| ixmap_eeprom_uninitialized | ixmap_eeprom_spi | ixmap_flash | ixmap_eeprom_none.

(** [enum ixmap_sfp_type], kept as a number: the structure starts with a zero
    that is none of its values. *)
Definition ixmap_sfp_type_srlr_core0 : Z := 5.
Definition ixmap_sfp_type_srlr_core1 : Z := 6.
Definition ixmap_sfp_type_not_present : Z := 0xFFFE.

#[export] Instance ixmap_mac_type_eq_dec : EqDecision ixmap_mac_type.
Proof. solve_decision. Defined.
#[export] Instance ixmap_media_type_eq_dec : EqDecision ixmap_media_type.
Proof. solve_decision. Defined.
#[export] Instance ixmap_eeprom_type_eq_dec : EqDecision ixmap_eeprom_type.
Proof. solve_decision. Defined.

(** The fields that the code uses; [mac_laser_ops] tells whether the pointers to
    the functions that switch the laser are set. *)
Record ixmap_mac_info := MacInfo {
  mac_type : ixmap_mac_type;
  mac_addr : list Z;
  mac_perm_addr : list Z;
  mac_mc_filter_type : Z;
  mac_mcft_size : Z;
  mac_vft_size : Z;
  mac_num_rar_entries : Z;
  mac_rx_pb_size : Z;
  mac_max_rx_queues : Z;
  mac_max_tx_queues : Z;
  mac_orig_autoc : Z;
  mac_orig_autoc2 : Z;
  mac_max_msix_vectors : Z;
  mac_arc_subsystem_valid : bool;
  mac_orig_link_settings_stored : bool;
  mac_autotry_restart : bool;
  mac_flags : Z;
  mac_laser_ops : bool
}.

Record ixmap_phy_info := PhyInfo {
  phy_type : ixmap_phy_type;
  phy_sfp_type : Z;
  phy_media_type : ixmap_media_type;
  phy_sfp_setup_needed : bool
}.

Record ixmap_eeprom_info := EepromInfo {
  ee_type : ixmap_eeprom_type;
  ee_semaphore_delay : Z;
  ee_word_size : Z;
  ee_address_bits : Z;
  ee_word_page_size : Z
}.

Record ixmap_bus_info := BusInfo {
  bus_func : Z;
  bus_lan_id : Z
}.

Record ixmap_hw := IxmapHw {
  hw_addr : Z;
  hw_mac : ixmap_mac_info;
  hw_phy : ixmap_phy_info;
  hw_eeprom : ixmap_eeprom_info;
  hw_bus : ixmap_bus_info;
  hw_device_id : Z;
  hw_vendor_id : Z;
  hw_subsystem_device_id : Z;
  hw_subsystem_vendor_id : Z;
  hw_revision_id : Z;
  hw_adapter_stopped : bool;
  hw_force_full_reset : bool
}.

(** Assignments to fields. *)

Definition set_mac_addr (x : list Z) (r : ixmap_mac_info) : ixmap_mac_info :=
  MacInfo (mac_type r) x (mac_perm_addr r) (mac_mc_filter_type r) (mac_mcft_size r) (mac_vft_size r)
    (mac_num_rar_entries r) (mac_rx_pb_size r) (mac_max_rx_queues r) (mac_max_tx_queues r) (mac_orig_autoc
    r) (mac_orig_autoc2 r) (mac_max_msix_vectors r) (mac_arc_subsystem_valid r)
    (mac_orig_link_settings_stored r) (mac_autotry_restart r) (mac_flags r) (mac_laser_ops r).
Definition set_mac_perm_addr (x : list Z) (r : ixmap_mac_info) : ixmap_mac_info :=
  MacInfo (mac_type r) (mac_addr r) x (mac_mc_filter_type r) (mac_mcft_size r) (mac_vft_size r)
    (mac_num_rar_entries r) (mac_rx_pb_size r) (mac_max_rx_queues r) (mac_max_tx_queues r) (mac_orig_autoc
    r) (mac_orig_autoc2 r) (mac_max_msix_vectors r) (mac_arc_subsystem_valid r)
    (mac_orig_link_settings_stored r) (mac_autotry_restart r) (mac_flags r) (mac_laser_ops r).
Definition set_mac_num_rar_entries (x : Z) (r : ixmap_mac_info) : ixmap_mac_info :=
  MacInfo (mac_type r) (mac_addr r) (mac_perm_addr r) (mac_mc_filter_type r) (mac_mcft_size r) (mac_vft_size
    r) x (mac_rx_pb_size r) (mac_max_rx_queues r) (mac_max_tx_queues r) (mac_orig_autoc r) (mac_orig_autoc2
    r) (mac_max_msix_vectors r) (mac_arc_subsystem_valid r) (mac_orig_link_settings_stored r)
    (mac_autotry_restart r) (mac_flags r) (mac_laser_ops r).
Definition set_mac_autotry_restart (x : bool) (r : ixmap_mac_info) : ixmap_mac_info :=
  MacInfo (mac_type r) (mac_addr r) (mac_perm_addr r) (mac_mc_filter_type r) (mac_mcft_size r) (mac_vft_size
    r) (mac_num_rar_entries r) (mac_rx_pb_size r) (mac_max_rx_queues r) (mac_max_tx_queues r)
    (mac_orig_autoc r) (mac_orig_autoc2 r) (mac_max_msix_vectors r) (mac_arc_subsystem_valid r)
    (mac_orig_link_settings_stored r) x (mac_flags r) (mac_laser_ops r).
Definition set_mac_flags (x : Z) (r : ixmap_mac_info) : ixmap_mac_info :=
  MacInfo (mac_type r) (mac_addr r) (mac_perm_addr r) (mac_mc_filter_type r) (mac_mcft_size r) (mac_vft_size
    r) (mac_num_rar_entries r) (mac_rx_pb_size r) (mac_max_rx_queues r) (mac_max_tx_queues r)
    (mac_orig_autoc r) (mac_orig_autoc2 r) (mac_max_msix_vectors r) (mac_arc_subsystem_valid r)
    (mac_orig_link_settings_stored r) (mac_autotry_restart r) x (mac_laser_ops r).
Definition set_mac_laser_ops (x : bool) (r : ixmap_mac_info) : ixmap_mac_info :=
  MacInfo (mac_type r) (mac_addr r) (mac_perm_addr r) (mac_mc_filter_type r) (mac_mcft_size r) (mac_vft_size
    r) (mac_num_rar_entries r) (mac_rx_pb_size r) (mac_max_rx_queues r) (mac_max_tx_queues r)
    (mac_orig_autoc r) (mac_orig_autoc2 r) (mac_max_msix_vectors r) (mac_arc_subsystem_valid r)
    (mac_orig_link_settings_stored r) (mac_autotry_restart r) (mac_flags r) x.
Definition set_phy_type (x : ixmap_phy_type) (r : ixmap_phy_info) : ixmap_phy_info :=
  PhyInfo x (phy_sfp_type r) (phy_media_type r) (phy_sfp_setup_needed r).
Definition set_phy_sfp_type (x : Z) (r : ixmap_phy_info) : ixmap_phy_info :=
  PhyInfo (phy_type r) x (phy_media_type r) (phy_sfp_setup_needed r).
Definition set_phy_media_type (x : ixmap_media_type) (r : ixmap_phy_info) : ixmap_phy_info :=
  PhyInfo (phy_type r) (phy_sfp_type r) x (phy_sfp_setup_needed r).
Definition set_phy_sfp_setup_needed (x : bool) (r : ixmap_phy_info) : ixmap_phy_info :=
  PhyInfo (phy_type r) (phy_sfp_type r) (phy_media_type r) x.
Definition set_hw_mac (x : ixmap_mac_info) (r : ixmap_hw) : ixmap_hw :=
  IxmapHw (hw_addr r) x (hw_phy r) (hw_eeprom r) (hw_bus r) (hw_device_id r) (hw_vendor_id r)
    (hw_subsystem_device_id r) (hw_subsystem_vendor_id r) (hw_revision_id r) (hw_adapter_stopped r)
    (hw_force_full_reset r).
Definition set_hw_phy (x : ixmap_phy_info) (r : ixmap_hw) : ixmap_hw :=
  IxmapHw (hw_addr r) (hw_mac r) x (hw_eeprom r) (hw_bus r) (hw_device_id r) (hw_vendor_id r)
    (hw_subsystem_device_id r) (hw_subsystem_vendor_id r) (hw_revision_id r) (hw_adapter_stopped r)
    (hw_force_full_reset r).
Definition set_hw_eeprom (x : ixmap_eeprom_info) (r : ixmap_hw) : ixmap_hw :=
  IxmapHw (hw_addr r) (hw_mac r) (hw_phy r) x (hw_bus r) (hw_device_id r) (hw_vendor_id r)
    (hw_subsystem_device_id r) (hw_subsystem_vendor_id r) (hw_revision_id r) (hw_adapter_stopped r)
    (hw_force_full_reset r).
Definition set_hw_bus (x : ixmap_bus_info) (r : ixmap_hw) : ixmap_hw :=
  IxmapHw (hw_addr r) (hw_mac r) (hw_phy r) (hw_eeprom r) x (hw_device_id r) (hw_vendor_id r)
    (hw_subsystem_device_id r) (hw_subsystem_vendor_id r) (hw_revision_id r) (hw_adapter_stopped r)
    (hw_force_full_reset r).
Definition set_hw_adapter_stopped (x : bool) (r : ixmap_hw) : ixmap_hw :=
  IxmapHw (hw_addr r) (hw_mac r) (hw_phy r) (hw_eeprom r) (hw_bus r) (hw_device_id r) (hw_vendor_id r)
    (hw_subsystem_device_id r) (hw_subsystem_vendor_id r) (hw_revision_id r) x (hw_force_full_reset r).

(** ** The card *)

(** Registers, the configuration space, and time passing (in microseconds),
    while which the card works on. *)
Class Device (D : Type) := {
  readl : Z -> D -> Z * D;
  writel : Z -> Z -> D -> D;
  delay : Z -> D -> D;
  pci_read_config_word : Z -> D -> Z * D
}.

Inductive result (A : Type) :=
| Returns (x : A)
| Undefined
| Unfinished.

Arguments Returns {A} x.
Arguments Undefined {A}.
Arguments Unfinished {A}.

Definition Hw (D A : Type) := ixmap_hw * D -> result (A * (ixmap_hw * D)).

#[export] Instance Hw_ret {D} : MRet (Hw D) := fun A x s => Returns (x, s).
#[export] Instance Hw_bind {D} : MBind (Hw D) := fun A B f m s =>
  match m s with Returns (x, s') => f x s' | Undefined => Undefined | Unfinished => Unfinished end.

Section Access.

Context {D : Type} `{Device D}.

Definition hw_undefined {A} : Hw D A := fun _ => Undefined.
Definition hw_unfinished {A} : Hw D A := fun _ => Unfinished.

(** Reading and changing the driver's data. *)
Definition get {A} (f : ixmap_hw -> A) : Hw D A := fun s => Returns (f s.1, s).
Definition put (f : ixmap_hw -> ixmap_hw) : Hw D unit := fun s => Returns (tt, (f s.1, s.2)).

Definition upd_mac (f : ixmap_mac_info -> ixmap_mac_info) : Hw D unit :=
  put (fun h => set_hw_mac (f (hw_mac h)) h).
Definition upd_phy (f : ixmap_phy_info -> ixmap_phy_info) : Hw D unit :=
  put (fun h => set_hw_phy (f (hw_phy h)) h).

Definition IXGBE_REMOVED (addr : Z) : bool := addr =? 0.
Definition IXGBE_FAILED_READ_REG : Z := 0xffffffff.

Definition IXGBE_READ_REG (reg : Z) : Hw D Z := fun s =>
  if IXGBE_REMOVED (hw_addr s.1) then Returns (IXGBE_FAILED_READ_REG, s)
  else let '(v, d) := readl reg s.2 in Returns (u32 v, (s.1, d)).

Definition IXGBE_WRITE_REG (reg value : Z) : Hw D unit := fun s =>
  if IXGBE_REMOVED (hw_addr s.1) then Returns (tt, s)
  else Returns (tt, (s.1, writel reg (u32 value) s.2)).

Definition IXGBE_READ_REG_ARRAY (reg offset : Z) : Hw D Z := IXGBE_READ_REG (reg + Z.shiftl offset 2).
Definition IXGBE_WRITE_REG_ARRAY (reg offset value : Z) : Hw D unit :=
  IXGBE_WRITE_REG (reg + Z.shiftl offset 2) value.

Definition IXGBE_WRITE_FLUSH : Hw D unit := IXGBE_READ_REG IXGBE_STATUS ;; mret tt.

Definition udelay (usecs : Z) : Hw D unit := fun s => Returns (tt, (s.1, delay usecs s.2)).
Definition msleep (msecs : Z) : Hw D unit := udelay (1000 * msecs).

Definition IXGBE_FAILED_READ_CFG_WORD : Z := 0xffff.

Definition ixmap_read_pci_cfg_word (reg : Z) : Hw D Z := fun s =>
  if hw_addr s.1 =? 0 then Returns (IXGBE_FAILED_READ_CFG_WORD, s)
  else let '(v, d) := pci_read_config_word reg s.2 in Returns (u16 v, (s.1, d)).

(** [if (x & mask)] *)
Definition bits (x mask : Z) : bool := negb (Z.land x mask =? 0).

(** ** Loops *)

(** [for (i = start; i < start + n; i++)] *)
Fixpoint for_range (n : nat) (start : Z) (body : Z -> Hw D unit) : Hw D unit :=
  match n with
  | O => mret tt
  | S n => body start ;; for_range n (start + 1) body
  end.

(** At most [n] attempts; the loop is left when the body returns a value. *)
Fixpoint attempts {A} (n : nat) (body : Hw D (option A)) : Hw D (option A) :=
  match n with
  | O => mret None
  | S n => r ← body; match r with Some x => mret (Some x) | None => attempts n body end
  end.

End Access.
