(* ===== verification/HwLogic.v ===== *)
(** * Reasoning about code that accesses the card

    [runs P m Q]: from every state in which [P] holds, [m] returns, in a state
    and with a result of which [Q] holds.  It is a statement of total
    correctness: neither undefined behaviour nor a loop that does not end.
    Below it, what the single bits of a register become when masks are applied. *)

From stdpp Require Import prelude list.
From S2P Require Import Prelude HwRegs Hw.

(** ** Single bits *)

Lemma bits_pow2 x i : 0 <= i -> bits x (2 ^ i) = Z.testbit x i.
Proof.
  intros Hi. unfold bits. destruct (Z.testbit x i) eqn:E.
  - apply negb_true_iff, Z.eqb_neq. intros H0. apply (f_equal (fun y => Z.testbit y i)) in H0.
    rewrite Z.land_spec, E, Z.pow2_bits_true, Z.bits_0 in H0 by lia. done.
  - apply negb_false_iff, Z.eqb_eq. apply Z.bits_inj'. intros k Hk.
    rewrite Z.land_spec, Z.pow2_bits_eqb, Z.bits_0 by lia.
    destruct (Z.eqb_spec i k) as [->|]; [by rewrite E|apply andb_false_r].
Qed.

Lemma u32_testbit x i : 0 <= i < 32 -> Z.testbit (u32 x) i = Z.testbit x i.
Proof. intros Hi. unfold u32. apply Z.mod_pow2_bits_low. lia. Qed.

Lemma not32_testbit m i : 0 <= i < 32 -> Z.testbit (not32 m) i = negb (Z.testbit m i).
Proof.
  intros Hi. unfold not32. rewrite Z.lxor_spec. change (2 ^ 32 - 1) with (Z.ones 32).
  rewrite Z.ones_spec_low by lia. apply xorb_true_r.
Qed.

(** Work out a bit of a register value from those of the values it is made of. *)
Ltac reg_bits :=
  repeat first
    [ rewrite Z.land_spec | rewrite Z.lor_spec
    | rewrite not32_testbit by lia | rewrite u32_testbit by lia ].

(** ** Total correctness *)

Section Logic.

Context {D : Type} `{Device D}.

Notation st := (ixmap_hw * D)%type.

Definition runs {A} (P : st -> Prop) (m : Hw D A) (Q : A -> st -> Prop) : Prop :=
  forall s, P s -> exists x s', m s = Returns (x, s') /\ Q x s'.

Lemma r_ret {A} (x : A) (P : st -> Prop) (Q : A -> st -> Prop) : (forall s, P s -> Q x s) -> runs P (mret x) Q.
Proof. intros HQ s Hs. by exists x, s; split; [|apply HQ]. Qed.

Lemma r_bind {A B} (m : Hw D A) (f : A -> Hw D B) P Q R :
  runs P m Q -> (forall x, runs (Q x) (f x) R) -> runs P (m ≫= f) R.
Proof.
  intros Hm Hf s Hs. destruct (Hm s Hs) as (x & s1 & E & H1). destruct (Hf x s1 H1) as (y & s2 & E2 & H2).
  exists y, s2. split; [|done]. unfold mbind, Hw_bind. by rewrite E.
Qed.

Lemma r_ret_bind {A B} (x : A) (f : A -> Hw D B) P Q : runs P (f x) Q -> runs P (mret x ≫= f) Q.
Proof. intros Hf s Hs. exact (Hf s Hs). Qed.

(** After a part whose result is known. *)
Lemma r_bind_eq {A B} (m : Hw D A) (f : A -> Hw D B) y P (Q : st -> Prop) R :
  runs P m (fun x s => x = y /\ Q s) -> runs Q (f y) R -> runs P (m ≫= f) R.
Proof. intros Hm Hf. eapply r_bind; [exact Hm|]. intros x s [-> Hs]. exact (Hf s Hs). Qed.

Lemma r_weaken {A} (m : Hw D A) (P P' : st -> Prop) (Q Q' : A -> st -> Prop) :
  runs P m Q -> (forall s, P' s -> P s) -> (forall x s, Q x s -> Q' x s) -> runs P' m Q'.
Proof.
  intros Hm HP HQ s Hs. destruct (Hm s (HP s Hs)) as (x & s' & E & H'). exists x, s'. split; [done|by apply HQ].
Qed.

(** A pure fact about the state before. *)
Lemma r_pure {A} (m : Hw D A) (F : Prop) (P : st -> Prop) Q :
  (F -> runs P m Q) -> runs (fun s => F /\ P s) m Q.
Proof. intros Hm s [HF Hs]. exact (Hm HF s Hs). Qed.

Lemma r_get {A} (f : ixmap_hw -> A) (P : st -> Prop) : runs P (get f) (fun x s => x = f s.1 /\ P s).
Proof. intros s Hs. by exists (f s.1), s. Qed.

(** A loop of which each round keeps an invariant of its index. *)
Lemma r_for_range n start body (I : Z -> st -> Prop) :
  (forall i, start <= i < start + Z.of_nat n -> runs (I i) (body i) (fun _ => I (i + 1))) ->
  runs (I start) (for_range n start body) (fun _ => I (start + Z.of_nat n)).
Proof.
  revert start. induction n as [|n IH]; intros start Hb; cbn [for_range].
  - apply r_ret. intros s. by rewrite Z.add_0_r.
  - eapply r_bind; [apply Hb; lia|]. intros u. cbv beta.
    replace (start + Z.of_nat (S n)) with (start + 1 + Z.of_nat n) by lia. apply IH. intros i Hi. apply Hb. lia.
Qed.

(** A loop that is left in the round in which what it waits for, at most [k]
    rounds away, has come. *)
Lemma r_attempts {A} (body : Hw D (option A)) (W : nat -> st -> Prop) (Q : A -> st -> Prop) n k :
  (k < n)%nat ->
  (forall j, runs (W j) body (fun r s => match r with
                                         | Some x => Q x s
                                         | None => exists j', (j' < j)%nat /\ W j' s
                                         end)) ->
  runs (W k) (attempts n body) (fun r s => exists x, r = Some x /\ Q x s).
Proof.
  revert k. induction n as [|n IH]; intros k Hk Hb; [lia|]. cbn [attempts].
  eapply r_bind; [apply Hb|]. intros [x|]; cbv beta iota.
  - apply r_ret. intros s Hs. by exists x.
  - intros s (j & Hj & Hs). apply (IH j); [lia|exact Hb|exact Hs].
Qed.

(** A loop every round of which keeps an invariant. *)
Lemma r_attempts_keep {A} (body : Hw D (option A)) n (P : st -> Prop) :
  runs P body (fun _ => P) -> runs P (attempts n body) (fun _ => P).
Proof.
  intros Hb. induction n as [|n IH]; cbn [attempts]; [by apply r_ret|].
  eapply r_bind; [exact Hb|]. intros [x|]; [by apply r_ret|apply IH].
Qed.

(** A loop that is left in its first round. *)
Lemma r_attempts_now {A} (body : Hw D (option A)) n x P Q :
  runs P body (fun r s => r = Some x /\ Q s) -> runs P (attempts (S n) body) (fun r s => r = Some x /\ Q s).
Proof. intros Hb. cbn [attempts]. eapply r_bind_eq; [exact Hb|]. by apply r_ret. Qed.

(** ** Any card *)

(** The driver's data is [h], whatever the card's state. *)
Definition Drv (h : ixmap_hw) (s : st) : Prop := s.1 = h.

Lemma d_read r h : runs (Drv h) (IXGBE_READ_REG r) (fun _ => Drv h).
Proof.
  intros [h' d] Hs. unfold IXGBE_READ_REG. cbn [fst snd]. destruct (IXGBE_REMOVED (hw_addr h')); [by eexists _, _|].
  destruct (readl r d) as [v d']. by eexists _, _.
Qed.

Lemma d_write r v h : runs (Drv h) (IXGBE_WRITE_REG r v) (fun _ => Drv h).
Proof. intros [h' d] Hs. unfold IXGBE_WRITE_REG. destruct (IXGBE_REMOVED _); by eexists _, _. Qed.

Lemma d_udelay t h : runs (Drv h) (udelay t) (fun _ => Drv h).
Proof. intros s Hs. eexists _, _. split; [reflexivity|done]. Qed.

Lemma d_get {A} (f : ixmap_hw -> A) h : runs (Drv h) (get f) (fun x s => x = f h /\ Drv h s).
Proof. intros s <-. by eexists _, _. Qed.

Lemma d_put f h : runs (Drv h) (put f) (fun _ => Drv (f h)).
Proof. intros s <-. by eexists _, _. Qed.

End Logic.
