(* ===== verification/Eeprom.v ===== *)
(** * The EEPROM (src/kmod/ixmap_eeprom.c)

    Reading words through the EERD register or bit by bit over the serial
    interface, the semaphores shared with the firmware and other drivers, the
    checksum, and the part number.  The functions that read through
    [hw->eeprom.ops.read] are written against [EepromOps]; ixmap_82599.c provides
    it.  What a read stores through its pointer is the second component of its
    result: [None] when it stores nothing. *)

From stdpp Require Import prelude list.
From S2P Require Import Prelude HwRegs Hw.

Section Eeprom.

Context {D : Type} `{Device D}.

(** ** Semaphores *)

Definition ixmap_release_eeprom_semaphore : Hw D unit :=
  swsm ← IXGBE_READ_REG IXGBE_SWSM;
  IXGBE_WRITE_REG IXGBE_SWSM (Z.land swsm (not32 (Z.lor IXGBE_SWSM_SWESMBI IXGBE_SWSM_SMBI))) ;;
  IXGBE_WRITE_FLUSH.

(** The loop that waits for [SMBI]. *)
Definition smbi_loop : Hw D (option unit) :=
  attempts 2000
    (swsm ← IXGBE_READ_REG IXGBE_SWSM;
     if bits swsm IXGBE_SWSM_SMBI then udelay 50 ;; mret None else mret (Some tt)).

(** The loop that requests [SWESMBI]. *)
Definition swesmbi_loop : Hw D (option unit) :=
  attempts 2000
    (swsm ← IXGBE_READ_REG IXGBE_SWSM;
     IXGBE_WRITE_REG IXGBE_SWSM (Z.lor swsm IXGBE_SWSM_SWESMBI) ;;
     swsm ← IXGBE_READ_REG IXGBE_SWSM;
     if bits swsm IXGBE_SWSM_SWESMBI then mret (Some tt) else udelay 50 ;; mret None).

Definition ixmap_get_eeprom_semaphore : Hw D Z :=
  r ← smbi_loop;
  status ← match r with
           | Some _ => mret 0
           | None =>
               ixmap_release_eeprom_semaphore ;;
               udelay 50 ;;
               swsm ← IXGBE_READ_REG IXGBE_SWSM;
               mret (if bits swsm IXGBE_SWSM_SMBI then IXGBE_ERR_EEPROM else 0)
           end;
  if status =? 0 then
    r ← swesmbi_loop;
    match r with
    | Some _ => mret 0
    | None => ixmap_release_eeprom_semaphore ;; mret IXGBE_ERR_EEPROM
    end
  else mret status.

Definition ixmap_release_swfw_sync (mask : Z) : Hw D unit :=
  ixmap_get_eeprom_semaphore ;;
  gssr ← IXGBE_READ_REG IXGBE_GSSR;
  IXGBE_WRITE_REG IXGBE_GSSR (Z.land gssr (not32 mask)) ;;
  ixmap_release_eeprom_semaphore.

(** The loop of [ixmap_acquire_swfw_sync]: the value returned from inside, or the
    last value of [gssr]. *)
Fixpoint swfw_loop (n : nat) (swmask fwmask gssr : Z) : Hw D (Z + Z) :=
  match n with
  | O => mret (inr gssr)
  | S n =>
      status ← ixmap_get_eeprom_semaphore;
      if negb (status =? 0) then mret (inl IXGBE_ERR_SWFW_SYNC)
      else
        gssr ← IXGBE_READ_REG IXGBE_GSSR;
        if negb (bits gssr (Z.lor fwmask swmask)) then
          IXGBE_WRITE_REG IXGBE_GSSR (Z.lor gssr swmask) ;;
          ixmap_release_eeprom_semaphore ;;
          mret (inl 0)
        else
          ixmap_release_eeprom_semaphore ;;
          msleep 5 ;;
          swfw_loop n swmask fwmask gssr
  end.

Definition ixmap_acquire_swfw_sync (mask : Z) : Hw D Z :=
  let swmask := mask in
  let fwmask := Z.shiftl mask 5 in
  r ← swfw_loop 200 swmask fwmask 0;
  match r with
  | inl ret => mret ret
  | inr gssr =>
      (if bits gssr (Z.lor fwmask swmask)
       then ixmap_release_swfw_sync (u16 (Z.land gssr (Z.lor fwmask swmask)))
       else mret tt) ;;
      msleep 5 ;;
      mret IXGBE_ERR_SWFW_SYNC
  end.

(** ** Parameters *)

Definition ixmap_init_eeprom_params : Hw D Z :=
  ee ← get hw_eeprom;
  if decide (ee_type ee = ixmap_eeprom_uninitialized) then
    eec ← IXGBE_READ_REG IXGBE_EEC;
    let eeprom_size := u16 (Z.shiftr (Z.land eec IXGBE_EEC_SIZE) IXGBE_EEC_SIZE_SHIFT) in
    let present := bits eec IXGBE_EEC_PRES in
    put (set_hw_eeprom
           (EepromInfo (if present then ixmap_eeprom_spi else ixmap_eeprom_none) 10
              (if present then u16 (Z.shiftl 1 (eeprom_size + IXGBE_EEPROM_WORD_SIZE_SHIFT)) else ee_word_size ee)
              (if bits eec IXGBE_EEC_ADDR_SIZE then 16 else 8) 0)) ;;
    mret 0
  else mret 0.

(** ** The EERD register *)

Definition ixmap_poll_eerd_eewr_done (ee_reg : Z) : Hw D Z :=
  r ← attempts (Z.to_nat IXGBE_EERD_EEWR_ATTEMPTS)
        (reg ← IXGBE_READ_REG (if ee_reg =? IXGBE_NVM_POLL_READ then IXGBE_EERD else IXGBE_EEWR);
         if bits reg IXGBE_EEPROM_RW_REG_DONE then mret (Some tt) else udelay 5 ;; mret None);
  mret (match r with Some _ => 0 | None => IXGBE_ERR_EEPROM end).

(** The loop over words, with what has been stored. *)
Fixpoint eerd_loop (n : nat) (addr : Z) : Hw D (Z * list Z) :=
  match n with
  | O => mret (0, [])
  | S n =>
      IXGBE_WRITE_REG IXGBE_EERD
        (Z.lor (Z.shiftl addr IXGBE_EEPROM_RW_ADDR_SHIFT) IXGBE_EEPROM_RW_REG_START) ;;
      status ← ixmap_poll_eerd_eewr_done IXGBE_NVM_POLL_READ;
      if status =? 0 then
        eerd ← IXGBE_READ_REG IXGBE_EERD;
        '(status, data) ← eerd_loop n (addr + 1);
        mret (status, u16 (Z.shiftr eerd IXGBE_EEPROM_RW_REG_DATA) :: data)
      else mret (status, [])
  end.

Definition ixmap_read_eerd_buffer (offset words : Z) : Hw D (Z * list Z) :=
  ixmap_init_eeprom_params ;;
  ee ← get hw_eeprom;
  if words =? 0 then mret (IXGBE_ERR_INVALID_ARGUMENT, [])
  else if ee_word_size ee <=? offset then mret (IXGBE_ERR_EEPROM, [])
  else eerd_loop (Z.to_nat words) offset.

Definition ixmap_read_eerd (offset : Z) : Hw D (Z * option Z) :=
  '(status, data) ← ixmap_read_eerd_buffer offset 1;
  mret (status, head data).

(** ** The serial interface *)

Definition ixmap_raise_eeprom_clk (eec : Z) : Hw D Z :=
  let eec := Z.lor eec IXGBE_EEC_SK in
  IXGBE_WRITE_REG IXGBE_EEC eec ;;
  IXGBE_WRITE_FLUSH ;;
  udelay 1 ;;
  mret eec.

Definition ixmap_lower_eeprom_clk (eec : Z) : Hw D Z :=
  let eec := Z.land eec (not32 IXGBE_EEC_SK) in
  IXGBE_WRITE_REG IXGBE_EEC eec ;;
  IXGBE_WRITE_FLUSH ;;
  udelay 1 ;;
  mret eec.

Fixpoint shift_out_loop (n : nat) (data mask eec : Z) : Hw D Z :=
  match n with
  | O => mret eec
  | S n =>
      let eec := if bits data mask then Z.lor eec IXGBE_EEC_DI else Z.land eec (not32 IXGBE_EEC_DI) in
      IXGBE_WRITE_REG IXGBE_EEC eec ;;
      IXGBE_WRITE_FLUSH ;;
      udelay 1 ;;
      eec ← ixmap_raise_eeprom_clk eec;
      eec ← ixmap_lower_eeprom_clk eec;
      shift_out_loop n data (Z.shiftr mask 1) eec
  end.

Definition ixmap_shift_out_eeprom_bits (data count : Z) : Hw D unit :=
  eec ← IXGBE_READ_REG IXGBE_EEC;
  if (count <? 1) || (31 <? count) then hw_undefined
  else
    eec ← shift_out_loop (Z.to_nat count) data (Z.shiftl 1 (count - 1)) eec;
    IXGBE_WRITE_REG IXGBE_EEC (Z.land eec (not32 IXGBE_EEC_DI)) ;;
    IXGBE_WRITE_FLUSH.

Fixpoint shift_in_loop (n : nat) (data eec : Z) : Hw D Z :=
  match n with
  | O => mret data
  | S n =>
      let data := u16 (Z.shiftl data 1) in
      ixmap_raise_eeprom_clk eec ;;
      eec ← IXGBE_READ_REG IXGBE_EEC;
      let eec := Z.land eec (not32 IXGBE_EEC_DI) in
      let data := if bits eec IXGBE_EEC_DO then Z.lor data 1 else data in
      eec ← ixmap_lower_eeprom_clk eec;
      shift_in_loop n data eec
  end.

Definition ixmap_shift_in_eeprom_bits (count : Z) : Hw D Z :=
  eec ← IXGBE_READ_REG IXGBE_EEC;
  shift_in_loop (Z.to_nat count) 0 (Z.land eec (not32 (Z.lor IXGBE_EEC_DO IXGBE_EEC_DI))).

Definition ixmap_standby_eeprom : Hw D unit :=
  eec ← IXGBE_READ_REG IXGBE_EEC;
  let eec := Z.lor eec IXGBE_EEC_CS in
  IXGBE_WRITE_REG IXGBE_EEC eec ;;
  IXGBE_WRITE_FLUSH ;;
  udelay 1 ;;
  IXGBE_WRITE_REG IXGBE_EEC (Z.land eec (not32 IXGBE_EEC_CS)) ;;
  IXGBE_WRITE_FLUSH ;;
  udelay 1.

(** The loop that waits for the grant, with the last value read. *)
Fixpoint grant_loop (n : nat) (eec : Z) : Hw D Z :=
  match n with
  | O => mret eec
  | S n =>
      eec ← IXGBE_READ_REG IXGBE_EEC;
      if bits eec IXGBE_EEC_GNT then mret eec else udelay 5 ;; grant_loop n eec
  end.

Definition ixmap_acquire_eeprom : Hw D Z :=
  r ← ixmap_acquire_swfw_sync IXGBE_GSSR_EEP_SM;
  if negb (r =? 0) then mret IXGBE_ERR_SWFW_SYNC
  else
    eec ← IXGBE_READ_REG IXGBE_EEC;
    let eec := Z.lor eec IXGBE_EEC_REQ in
    IXGBE_WRITE_REG IXGBE_EEC eec ;;
    eec ← grant_loop (Z.to_nat IXGBE_EEPROM_GRANT_ATTEMPTS) eec;
    if negb (bits eec IXGBE_EEC_GNT) then
      IXGBE_WRITE_REG IXGBE_EEC (Z.land eec (not32 IXGBE_EEC_REQ)) ;;
      ixmap_release_swfw_sync IXGBE_GSSR_EEP_SM ;;
      mret IXGBE_ERR_EEPROM
    else
      IXGBE_WRITE_REG IXGBE_EEC (Z.land eec (not32 (Z.lor IXGBE_EEC_CS IXGBE_EEC_SK))) ;;
      IXGBE_WRITE_FLUSH ;;
      udelay 1 ;;
      mret 0.

Definition ixmap_ready_eeprom : Hw D Z :=
  r ← attempts (Z.to_nat (IXGBE_EEPROM_MAX_RETRY_SPI / 5))
        (ixmap_shift_out_eeprom_bits IXGBE_EEPROM_RDSR_OPCODE_SPI IXGBE_EEPROM_OPCODE_BITS ;;
         v ← ixmap_shift_in_eeprom_bits 8;
         if bits (u8 v) IXGBE_EEPROM_STATUS_RDY_SPI
         then udelay 5 ;; ixmap_standby_eeprom ;; mret None
         else mret (Some tt));
  mret (match r with Some _ => 0 | None => IXGBE_ERR_EEPROM end).

Definition ixmap_release_eeprom : Hw D unit :=
  eec ← IXGBE_READ_REG IXGBE_EEC;
  let eec := Z.land (Z.lor eec IXGBE_EEC_CS) (not32 IXGBE_EEC_SK) in
  IXGBE_WRITE_REG IXGBE_EEC eec ;;
  IXGBE_WRITE_FLUSH ;;
  udelay 1 ;;
  IXGBE_WRITE_REG IXGBE_EEC (Z.land eec (not32 IXGBE_EEC_REQ)) ;;
  ixmap_release_swfw_sync IXGBE_GSSR_EEP_SM ;;
  ee ← get hw_eeprom;
  msleep (ee_semaphore_delay ee).

(** The loop over words; the opcode keeps its address bit once that is set. *)
Fixpoint bit_bang_loop (n : nat) (addr read_opcode : Z) : Hw D (list Z) :=
  match n with
  | O => mret []
  | S n =>
      ixmap_standby_eeprom ;;
      ee ← get hw_eeprom;
      let read_opcode :=
        if (ee_address_bits ee =? 8) && (128 <=? addr)
        then Z.lor read_opcode IXGBE_EEPROM_A8_OPCODE_SPI else read_opcode in
      ixmap_shift_out_eeprom_bits read_opcode IXGBE_EEPROM_OPCODE_BITS ;;
      ixmap_shift_out_eeprom_bits (u16 (addr * 2)) (ee_address_bits ee) ;;
      word_in ← ixmap_shift_in_eeprom_bits 16;
      data ← bit_bang_loop n (addr + 1) read_opcode;
      mret (u16 (Z.lor (Z.shiftr word_in 8) (Z.shiftl word_in 8)) :: data)
  end.

Definition ixmap_read_eeprom_buffer_bit_bang (offset words : Z) : Hw D (Z * list Z) :=
  status ← ixmap_acquire_eeprom;
  if negb (status =? 0) then mret (status, [])
  else
    r ← ixmap_ready_eeprom;
    if negb (r =? 0) then ixmap_release_eeprom ;; mret (IXGBE_ERR_EEPROM, [])
    else
      data ← bit_bang_loop (Z.to_nat words) offset IXGBE_EEPROM_READ_OPCODE_SPI;
      ixmap_release_eeprom ;;
      mret (0, data).

Definition ixmap_read_eeprom_bit_bang (offset : Z) : Hw D (Z * option Z) :=
  ixmap_init_eeprom_params ;;
  ee ← get hw_eeprom;
  if ee_word_size ee <=? offset then mret (IXGBE_ERR_EEPROM, None)
  else
    '(status, data) ← ixmap_read_eeprom_buffer_bit_bang offset 1;
    mret (status, head data).

(** ixmap_82599.c chooses between the two. *)
Definition ixmap_read_eeprom_82599 (offset : Z) : Hw D (Z * option Z) :=
  ee ← get hw_eeprom;
  if bool_decide (ee_type ee = ixmap_eeprom_spi) && (offset <=? IXGBE_EERD_MAX_ADDR)
  then ixmap_read_eerd offset
  else ixmap_read_eeprom_bit_bang offset.

End Eeprom.

(** ** What is read through the table of operations *)

Class EepromOps (D : Type) := { eeprom_read : Z -> Hw D (Z * option Z) }.

Section Words.

Context {D : Type} `{Device D} `{EepromOps D}.

(** A read into a variable whose value was [old]. *)
Definition read_into (offset old : Z) : Hw D (Z * Z) :=
  '(status, v) ← eeprom_read (u16 offset); mret (status, default old v).

(** *** The checksum *)

(** The first loop; it is left when a read fails. *)
Fixpoint sum_loop (n : nat) (i checksum word : Z) : Hw D (Z * Z) :=
  match n with
  | O => mret (checksum, word)
  | S n =>
      '(status, word) ← read_into i word;
      if negb (status =? 0) then mret (checksum, word)
      else sum_loop n (i + 1) (u16 (checksum + word)) word
  end.

(** The loop over a section: [j] has 16 bits, its limit has not. *)
Fixpoint section_loop (fuel : nat) (j limit checksum word : Z) : Hw D (Z * Z) :=
  if j <=? limit then
    match fuel with
    | O => hw_unfinished
    | S fuel =>
        '(_, word) ← read_into j word;
        section_loop fuel (u16 (j + 1)) limit (u16 (checksum + word)) word
    end
  else mret (checksum, word).

(** The local variables of the loop over pointers. *)
Record sum_vars := SumVars { sv_checksum : Z; sv_length : Z; sv_pointer : Z; sv_word : Z }.

(** The section that a pointer points to. *)
Definition pointer_section (pointer : Z) (v : sum_vars) : Hw D sum_vars :=
  if negb (pointer =? 0xFFFF) && negb (pointer =? 0) then
    '(_, length) ← read_into pointer (sv_length v);
    if negb (length =? 0xFFFF) && negb (length =? 0) then
      '(checksum, word) ← section_loop (Z.to_nat 65536) (u16 (pointer + 1)) (pointer + length)
                            (sv_checksum v) (sv_word v);
      mret (SumVars checksum length pointer word)
    else mret (SumVars (sv_checksum v) length pointer (sv_word v))
  else mret (SumVars (sv_checksum v) (sv_length v) pointer (sv_word v)).

Fixpoint pointer_loop (n : nat) (i : Z) (v : sum_vars) : Hw D sum_vars :=
  match n with
  | O => mret v
  | S n =>
      '(_, pointer) ← read_into i (sv_pointer v);
      v ← pointer_section pointer v;
      pointer_loop n (i + 1) v
  end.

Definition ixmap_calc_eeprom_checksum : Hw D Z :=
  '(checksum, word) ← sum_loop (Z.to_nat IXGBE_EEPROM_CHECKSUM) 0 0 0;
  v ← pointer_loop (Z.to_nat (IXGBE_FW_PTR - IXGBE_PCIE_ANALOG_PTR)) IXGBE_PCIE_ANALOG_PTR
        (SumVars checksum 0 0 word);
  mret (u16 (IXGBE_EEPROM_SUM - sv_checksum v)).

(** The status and, for a caller that wants it, the checksum. *)
Definition ixmap_validate_eeprom_checksum : Hw D (Z * option Z) :=
  '(status, _) ← eeprom_read 0;
  if status =? 0 then
    checksum ← ixmap_calc_eeprom_checksum;
    '(_, read_checksum) ← read_into IXGBE_EEPROM_CHECKSUM 0;
    mret (if negb (read_checksum =? checksum) then IXGBE_ERR_EEPROM_CHECKSUM else 0, Some checksum)
  else mret (status, None).

(** *** The part number *)

(** A write through a pointer; out of bounds it is undefined. *)
Definition put_byte (buf : list Z) (i v : Z) : Hw D (list Z) :=
  match store buf i (u8 v) with Some b => mret b | None => hw_undefined end.

Fixpoint put_bytes (buf : list Z) (i : Z) (l : list Z) : Hw D (list Z) :=
  match l with
  | [] => mret buf
  | v :: l => buf ← put_byte buf i v; put_bytes buf (i + 1) l
  end.

(** A digit as a character; what is not a digit stays. *)
Definition hex_char (c : Z) : Z :=
  if c <? 0xA then c + 48 else if c <? 0x10 then c + (65 - 0xA) else c.

Definition legacy_pba (data pba_ptr : Z) : list Z :=
  let nibble x k := Z.land (Z.shiftr x k) 0xF in
  (hex_char <$> [nibble data 12; nibble data 8; nibble data 4; nibble data 0;
                 nibble pba_ptr 12; nibble pba_ptr 8; 45; 0; nibble pba_ptr 4; nibble pba_ptr 0]) ++ [0].

Fixpoint pba_loop (n : nat) (pba_ptr offset : Z) (buf : list Z) : Hw D (Z * list Z) :=
  match n with
  | O => buf ← put_byte buf (offset * 2) 0; mret (0, buf)
  | S n =>
      '(ret_val, data) ← read_into (pba_ptr + offset) 0;
      if negb (ret_val =? 0) then mret (ret_val, buf)
      else
        buf ← put_byte buf (offset * 2) (Z.shiftr data 8);
        buf ← put_byte buf (offset * 2 + 1) (Z.land data 0xFF);
        pba_loop n pba_ptr (offset + 1) buf
  end.

(** With a buffer of [pba_num_size] bytes, or none. *)
Definition ixmap_read_pba_string (pba_num : option (list Z)) (pba_num_size : Z) : Hw D (Z * list Z) :=
  match pba_num with
  | None => mret (IXGBE_ERR_INVALID_ARGUMENT, [])
  | Some buf =>
      '(ret_val, data) ← read_into IXGBE_PBANUM0_PTR 0;
      if negb (ret_val =? 0) then mret (ret_val, buf)
      else
        '(ret_val, pba_ptr) ← read_into IXGBE_PBANUM1_PTR 0;
        if negb (ret_val =? 0) then mret (ret_val, buf)
        else if negb (data =? IXGBE_PBANUM_PTR_GUARD) then
          if pba_num_size <? 11 then mret (IXGBE_ERR_NO_SPACE, buf)
          else buf ← put_bytes buf 0 (legacy_pba data pba_ptr); mret (0, buf)
        else
          '(ret_val, length) ← read_into pba_ptr 0;
          if negb (ret_val =? 0) then mret (ret_val, buf)
          else if (length =? 0xFFFF) || (length =? 0) then mret (IXGBE_ERR_PBA_SECTION, buf)
          else if pba_num_size <? u32 (length * 2 - 1) then mret (IXGBE_ERR_NO_SPACE, buf)
          else pba_loop (Z.to_nat (length - 1)) (u16 (pba_ptr + 1)) 0 buf
  end.

End Words.
