(* ===== verification/Nvm.v ===== *)
(** * The EEPROM as the card presents it

    What the code of ixmap_eeprom.c relies on, from the documentation of the card
    and of serial EEPROMs: the semaphore registers SWSM and GSSR, word-wise reads
    through EERD, and the pins of the chip behind EEC.  The chip takes in a bit on
    DI at a rising edge of SK and puts the next one on DO at a falling edge, while
    CS is low; it starts anew when CS is raised; after the opcode READ and an
    address it sends the bytes from that address on, the high bits first, and
    after RDSR its status.  [NvmDevice] is the interface of any card that behaves
    so, as far as these registers go; [nvm] is what is to be known of its state. *)

From stdpp Require Import prelude list.
From S2P Require Import Prelude HwRegs Hw HwLogic.

(** The pins that software drives, and the request bit beside them. *)
Record pins := Pins { p_sk : bool; p_cs : bool; p_di : bool; p_req : bool }.

Definition pins_of (v : Z) : pins := Pins (Z.testbit v 0) (Z.testbit v 1) (Z.testbit v 2) (Z.testbit v 6).

Record nvm := Nvm {
  nv_smbi : bool;
  nv_swesmbi : bool;
  nv_gssr : Z;
  nv_pins : pins;
  nv_wait : nat;                   (* reads until the request is granted *)
  nv_bits : list bool;             (* taken in since CS was lowered *)
  nv_do : bool;
  nv_eerd : option (Z * nat)       (* the word being read, reads until it is there *)
}.

(** The chip: its words, the code of its size, the length of its addresses, and
    how long requests take. *)
Record chip := Chip {
  ch_rom : Z -> Z;
  ch_size : Z;
  ch_wide : bool;
  ch_grant : nat;
  ch_read : nat
}.

Definition chip_ok (c : chip) : Prop :=
  (forall i, 0 <= ch_rom c i < 2 ^ 16) /\
  (0 <= ch_size c <= if ch_wide c then 9 else 2) /\
  (ch_grant c < 1000)%nat /\
  Z.of_nat (ch_read c) < IXGBE_EERD_EEWR_ATTEMPTS.

Section Chip.

Context (c : chip).

Definition address_bits : nat := if ch_wide c then 16 else 8.
Definition word_size : Z := 2 ^ (ch_size c + 6).

(** The number whose binary digits are [l]. *)
Definition number (l : list bool) : Z := fold_left (fun a b => 2 * a + Z.b2z b) l 0.

(** A word is stored with its low byte first. *)
Definition chip_byte (a : Z) : Z :=
  if Z.even a then Z.land (ch_rom c (a / 2)) 255 else Z.shiftr (ch_rom c (a / 2)) 8.

(** The bit on DO when [B] has been taken in.  Narrow chips have the ninth
    address bit in the opcode; the status register of an idle chip is zero. *)
Definition spi_out (B : list bool) : bool :=
  let op := number (take 8 B) in
  let n := Z.of_nat (length B) - Z.of_nat (8 + address_bits) in
  if (0 <=? n) && ((op =? 3) || (negb (ch_wide c) && (op =? 11))) then
    let a := number (take address_bits (drop 8 B)) + (if op =? 11 then 256 else 0) in
    Z.testbit (chip_byte (a + n / 8)) (7 - n mod 8)
  else false.

Definition granted (x : nvm) : bool := p_req (nv_pins x) && (nv_wait x =? 0)%nat.

(** A write to EEC.  The pins reach the chip while access is granted. *)
Definition eec_write (p : pins) (x : nvm) : nvm :=
  let wait := if p_req p && p_req (nv_pins x) then nv_wait x else ch_grant c in
  let rise := p_sk p && negb (p_sk (nv_pins x)) in
  let fall := negb (p_sk p) && p_sk (nv_pins x) in
  let off := p_cs p || negb (granted x) in
  Nvm (nv_smbi x) (nv_swesmbi x) (nv_gssr x) p wait
    (if off then [] else if rise then nv_bits x ++ [p_di p] else nv_bits x)
    (if off then false else if fall then spi_out (nv_bits x) else nv_do x)
    (nv_eerd x).

(** A read of EEC, which brings the grant closer, and what it shows. *)
Definition eec_read (x : nvm) : nvm :=
  Nvm (nv_smbi x) (nv_swesmbi x) (nv_gssr x) (nv_pins x) (pred (nv_wait x)) (nv_bits x) (nv_do x) (nv_eerd x).

Definition eec_shows (v : Z) (x : nvm) : Prop :=
  pins_of v = nv_pins x /\
  Z.testbit v 3 = nv_do x /\
  Z.testbit v 7 = granted x /\
  Z.testbit v 8 = true /\
  Z.testbit v 10 = ch_wide c /\
  Z.shiftr (Z.land v IXGBE_EEC_SIZE) IXGBE_EEC_SIZE_SHIFT = ch_size c.

(** SMBI is set by the read that finds it clear. *)
Definition set_sem (smbi swesmbi : bool) (x : nvm) : nvm :=
  Nvm smbi swesmbi (nv_gssr x) (nv_pins x) (nv_wait x) (nv_bits x) (nv_do x) (nv_eerd x).
Definition set_gssr (v : Z) (x : nvm) : nvm :=
  Nvm (nv_smbi x) (nv_swesmbi x) v (nv_pins x) (nv_wait x) (nv_bits x) (nv_do x) (nv_eerd x).
Definition set_eerd (e : option (Z * nat)) (x : nvm) : nvm :=
  Nvm (nv_smbi x) (nv_swesmbi x) (nv_gssr x) (nv_pins x) (nv_wait x) (nv_bits x) (nv_do x) e.

Definition eerd_write (v : Z) (x : nvm) : nvm :=
  if Z.testbit v 0 then set_eerd (Some (Z.land (Z.shiftr v 2) 0x3FFF, ch_read c)) x else x.

Definition eerd_read (x : nvm) : nvm :=
  match nv_eerd x with Some (a, S k) => set_eerd (Some (a, k)) x | _ => x end.

Definition eerd_shows (v : Z) (x : nvm) : Prop :=
  match nv_eerd x with
  | Some (a, O) => Z.testbit v 1 = true /\ Z.shiftr v 16 = ch_rom c a
  | Some (_, S _) => Z.testbit v 1 = false
  | None => True
  end.

End Chip.

Class NvmDevice (D : Type) `{Device D} (c : chip) := {
  nvm_of : D -> nvm;
  nvm_chip_ok : chip_ok c;
  nvm_status d : nvm_of (readl IXGBE_STATUS d).2 = nvm_of d;
  nvm_delay t d : nvm_of (delay t d) = nvm_of d;
  nvm_read_swsm d :
    let v := u32 (readl IXGBE_SWSM d).1 in
    Z.testbit v 0 = nv_smbi (nvm_of d) /\ Z.testbit v 1 = nv_swesmbi (nvm_of d) /\
    nvm_of (readl IXGBE_SWSM d).2 = set_sem true (nv_swesmbi (nvm_of d)) (nvm_of d);
  nvm_write_swsm v d : nvm_of (writel IXGBE_SWSM v d) = set_sem (Z.testbit v 0) (Z.testbit v 1) (nvm_of d);
  nvm_read_gssr d :
    u32 (readl IXGBE_GSSR d).1 = nv_gssr (nvm_of d) /\ nvm_of (readl IXGBE_GSSR d).2 = nvm_of d;
  nvm_write_gssr v d : 0 <= v < 2 ^ 32 -> nvm_of (writel IXGBE_GSSR v d) = set_gssr v (nvm_of d);
  nvm_read_eec d :
    eec_shows c (u32 (readl IXGBE_EEC d).1) (nvm_of d) /\ nvm_of (readl IXGBE_EEC d).2 = eec_read (nvm_of d);
  nvm_write_eec v d : nvm_of (writel IXGBE_EEC v d) = eec_write c (pins_of v) (nvm_of d);
  nvm_read_eerd d :
    eerd_shows c (u32 (readl IXGBE_EERD d).1) (nvm_of d) /\
    nvm_of (readl IXGBE_EERD d).2 = eerd_read (nvm_of d);
  nvm_write_eerd v d : nvm_of (writel IXGBE_EERD v d) = eerd_write c v (nvm_of d)
}.

(** ** The registers in the logic *)

Section Rules.

Context {D : Type} `{Device D} (c : chip) `{!NvmDevice D c}.

(** The driver's data is [h] and the card shows [x]. *)
Definition At (h : ixmap_hw) (x : nvm) (s : ixmap_hw * D) : Prop :=
  s.1 = h /\ nvm_of s.2 = x /\ hw_addr h <> 0.

Local Ltac access :=
  intros [h' d] (E1 & E2 & Ha); cbn in E1, E2; subst h';
  unfold IXGBE_READ_REG, IXGBE_WRITE_REG, IXGBE_REMOVED; cbn [fst snd];
  rewrite (proj2 (Z.eqb_neq _ _) Ha).

Lemma n_read (r : Z) (h : ixmap_hw) (x x' : nvm) (S : Z -> Prop) :
  (forall d, nvm_of d = x -> S (u32 (readl r d).1) /\ nvm_of (readl r d).2 = x') ->
  runs (At h x) (IXGBE_READ_REG r) (fun v s => S v /\ At h x' s).
Proof.
  intros HS. access. destruct (HS d E2) as [H1 H2]. destruct (readl r d) as [v d']. cbn in H1, H2.
  by exists (u32 v), (h, d').
Qed.

Lemma n_write (r v : Z) (h : ixmap_hw) (x x' : nvm) :
  (forall d, nvm_of d = x -> nvm_of (writel r (u32 v) d) = x') ->
  runs (At h x) (IXGBE_WRITE_REG r v) (fun _ => At h x').
Proof. intros HS. access. exists tt, (h, writel r (u32 v) d). by repeat split; [apply HS|]. Qed.

Lemma n_read_eec h x :
  runs (At h x) (IXGBE_READ_REG IXGBE_EEC) (fun v s => eec_shows c v x /\ At h (eec_read x) s).
Proof. apply (n_read _ _ _ _ (fun v => eec_shows c v x)). intros d <-. apply nvm_read_eec. Qed.

Lemma pins_u32 v : pins_of (u32 v) = pins_of v.
Proof. unfold pins_of. by rewrite !u32_testbit by lia. Qed.

Lemma n_write_eec v h x :
  runs (At h x) (IXGBE_WRITE_REG IXGBE_EEC v) (fun _ => At h (eec_write c (pins_of v) x)).
Proof. apply n_write. intros d <-. by rewrite nvm_write_eec, pins_u32. Qed.

Lemma n_flush h x : runs (At h x) IXGBE_WRITE_FLUSH (fun _ => At h x).
Proof.
  eapply r_bind; [apply (n_read _ _ _ x (fun _ => True)); intros d <-; split; [done|apply nvm_status]|].
  intros v. apply r_pure. intros _. by apply r_ret.
Qed.

Lemma n_udelay t h x : runs (At h x) (udelay t) (fun _ => At h x).
Proof.
  intros [h' d] (E1 & E2 & Ha). exists tt, (h', delay t d). split; [done|]. cbn in E1, E2. subst h'.
  repeat split; [|done]. cbn [snd]. by rewrite nvm_delay.
Qed.

Lemma n_get {A} (f : ixmap_hw -> A) h x : runs (At h x) (get f) (fun y s => y = f h /\ At h x s).
Proof. intros [h' d] (E1 & E2 & Ha). cbn in E1. subst. by eexists _, _. Qed.

Lemma n_read_swsm h x :
  runs (At h x) (IXGBE_READ_REG IXGBE_SWSM)
    (fun v s => (Z.testbit v 0 = nv_smbi x /\ Z.testbit v 1 = nv_swesmbi x) /\
                At h (set_sem true (nv_swesmbi x) x) s).
Proof.
  apply (n_read _ _ _ _ (fun v => Z.testbit v 0 = nv_smbi x /\ Z.testbit v 1 = nv_swesmbi x)).
  intros d <-. destruct (nvm_read_swsm d) as (? & ? & ?). done.
Qed.

Lemma n_write_swsm v h x :
  runs (At h x) (IXGBE_WRITE_REG IXGBE_SWSM v)
    (fun _ => At h (set_sem (Z.testbit v 0) (Z.testbit v 1) x)).
Proof. apply n_write. intros d <-. by rewrite nvm_write_swsm, !u32_testbit by lia. Qed.

Lemma n_read_gssr h x : runs (At h x) (IXGBE_READ_REG IXGBE_GSSR) (fun v s => v = nv_gssr x /\ At h x s).
Proof. apply (n_read _ _ _ _ (fun v => v = nv_gssr x)). intros d <-. apply nvm_read_gssr. Qed.

Lemma n_write_gssr v h x :
  runs (At h x) (IXGBE_WRITE_REG IXGBE_GSSR v) (fun _ => At h (set_gssr (u32 v) x)).
Proof. apply n_write. intros d <-. apply nvm_write_gssr, Z.mod_pos_bound. lia. Qed.

Lemma n_read_eerd h x :
  runs (At h x) (IXGBE_READ_REG IXGBE_EERD) (fun v s => eerd_shows c v x /\ At h (eerd_read x) s).
Proof. apply (n_read _ _ _ _ (fun v => eerd_shows c v x)). intros d <-. apply nvm_read_eerd. Qed.

Lemma n_write_eerd v h x :
  runs (At h x) (IXGBE_WRITE_REG IXGBE_EERD v) (fun _ => At h (eerd_write c (u32 v) x)).
Proof. apply n_write. intros d <-. apply nvm_write_eerd. Qed.

End Rules.

Create HintDb nvm.
#[export] Hint Resolve n_read_eec n_write_eec n_flush n_udelay n_get n_read_swsm n_write_swsm
  n_read_gssr n_write_gssr n_read_eerd n_write_eerd : nvm.

(** One step of straight-line code. *)
Ltac n_step :=
  lazymatch goal with
  | |- runs _ (_ ≫= _) _ =>
      eapply r_bind; [solve [eauto 1 with nvm]|]; intros ?; cbv beta;
      repeat (apply r_pure; intros ?)
  end.
Ltac n_steps := repeat n_step.
