(* ===== verification/NvmFacts.v ===== *)
(** * The semaphores and the serial interface at work

    What the functions of ixmap_eeprom.c do on a card that behaves as
    documented: taking and returning the semaphores, and the exchange of bits
    with the chip. *)

From stdpp Require Import prelude list.
From S2P Require Import Prelude HwRegs Hw HwLogic Nvm Eeprom.

(** ** Numbers and their digits *)

(** The low [n] bits of a number, the highest first. *)
Fixpoint msb (n : nat) (v : Z) : list bool :=
  match n with
  | O => []
  | S n => Z.testbit v (Z.of_nat n) :: msb n v
  end.

Lemma msb_length n v : length (msb n v) = n.
Proof. induction n; cbn; congruence. Qed.

Lemma number_acc l a : fold_left (fun a b => 2 * a + Z.b2z b) l a = a * 2 ^ Z.of_nat (length l) + number l.
Proof.
  unfold number. revert a. induction l as [|b l IH]; intros a; cbn [fold_left length]; [lia|].
  rewrite IH, (IH (2 * 0 + _)). rewrite Nat2Z.inj_succ, Z.pow_succ_r by lia. lia.
Qed.

Lemma number_app l1 l2 : number (l1 ++ l2) = number l1 * 2 ^ Z.of_nat (length l2) + number l2.
Proof. unfold number at 1. by rewrite fold_left_app, number_acc. Qed.

Lemma number_msb n v : number (msb n v) = v mod 2 ^ Z.of_nat n.
Proof.
  induction n as [|n IH]; [cbn; by rewrite Z.mod_1_r|].
  change (msb (S n) v) with ([Z.testbit v (Z.of_nat n)] ++ msb n v).
  rewrite number_app, msb_length, IH. change (number [?b]) with (2 * 0 + Z.b2z b).
  replace (number [Z.testbit v (Z.of_nat n)]) with (Z.b2z (Z.testbit v (Z.of_nat n))) by done.
  rewrite Nat2Z.inj_succ, <- Z.add_1_r, Z.testbit_spec' by lia.
  rewrite Z.pow_add_r, Z.rem_mul_r by lia. change (2 ^ 1) with 2. lia.
Qed.

(** ** Masks and pins *)

Ltac const_bits :=
  repeat match goal with
  | |- context [Z.testbit ?m ?i] =>
      let b := eval vm_compute in (Z.testbit m i) in
      match b with true => idtac | false => idtac end;
      change (Z.testbit m i) with b
  end.

Ltac solve_pins :=
  unfold pins_of; reg_bits; const_bits; cbn [p_sk p_cs p_di p_req negb];
  rewrite ?orb_true_r, ?orb_false_r, ?andb_true_r, ?andb_false_r; reflexivity.

Section Pins.

Context (v : Z).

Lemma pins_sk_up : pins_of (Z.lor v IXGBE_EEC_SK) = let p := pins_of v in Pins true (p_cs p) (p_di p) (p_req p).
Proof. solve_pins. Qed.
Lemma pins_sk_down :
  pins_of (Z.land v (not32 IXGBE_EEC_SK)) = let p := pins_of v in Pins false (p_cs p) (p_di p) (p_req p).
Proof. solve_pins. Qed.
Lemma pins_di_up : pins_of (Z.lor v IXGBE_EEC_DI) = let p := pins_of v in Pins (p_sk p) (p_cs p) true (p_req p).
Proof. solve_pins. Qed.
Lemma pins_di_down :
  pins_of (Z.land v (not32 IXGBE_EEC_DI)) = let p := pins_of v in Pins (p_sk p) (p_cs p) false (p_req p).
Proof. solve_pins. Qed.
Lemma pins_dido_down :
  pins_of (Z.land v (not32 (Z.lor IXGBE_EEC_DO IXGBE_EEC_DI))) =
  let p := pins_of v in Pins (p_sk p) (p_cs p) false (p_req p).
Proof. solve_pins. Qed.
Lemma pins_cs_up : pins_of (Z.lor v IXGBE_EEC_CS) = let p := pins_of v in Pins (p_sk p) true (p_di p) (p_req p).
Proof. solve_pins. Qed.
Lemma pins_cs_down :
  pins_of (Z.land v (not32 IXGBE_EEC_CS)) = let p := pins_of v in Pins (p_sk p) false (p_di p) (p_req p).
Proof. solve_pins. Qed.
Lemma pins_cssk_down :
  pins_of (Z.land v (not32 (Z.lor IXGBE_EEC_CS IXGBE_EEC_SK))) =
  let p := pins_of v in Pins false false (p_di p) (p_req p).
Proof. solve_pins. Qed.
Lemma pins_req_up : pins_of (Z.lor v IXGBE_EEC_REQ) = let p := pins_of v in Pins (p_sk p) (p_cs p) (p_di p) true.
Proof. solve_pins. Qed.
Lemma pins_req_down :
  pins_of (Z.land v (not32 IXGBE_EEC_REQ)) = let p := pins_of v in Pins (p_sk p) (p_cs p) (p_di p) false.
Proof. solve_pins. Qed.

End Pins.

Ltac pin_rw :=
  rewrite ?pins_sk_up, ?pins_sk_down, ?pins_di_up, ?pins_di_down, ?pins_dido_down, ?pins_cs_up, ?pins_cs_down,
    ?pins_cssk_down, ?pins_req_up, ?pins_req_down.

Section Card.

Context {D : Type} `{Device D} (c : chip) `{!NvmDevice D c}.

Notation AtC := (At c).

(** ** Semaphores *)

Lemma release_sem_ok h x :
  runs (AtC h x) ixmap_release_eeprom_semaphore (fun _ => AtC h (set_sem false false x)).
Proof.
  unfold ixmap_release_eeprom_semaphore. n_step. n_step.
  reg_bits. const_bits. cbn [negb]. rewrite !andb_false_r. apply n_flush.
Qed.

Lemma get_sem_ok h x :
  nv_smbi x = false ->
  runs (AtC h x) ixmap_get_eeprom_semaphore (fun r s => r = 0 /\ AtC h (set_sem true true x) s).
Proof.
  intros Hf. unfold ixmap_get_eeprom_semaphore. eapply r_bind_eq.
  { apply (r_attempts_now _ _ tt). n_step. change IXGBE_SWSM_SMBI with (2 ^ 0). rewrite bits_pow2 by lia.
    destruct_and!. replace (Z.testbit x0 0) with false by congruence. apply r_ret. done. }
  apply r_ret_bind. change (0 =? 0) with true. cbv iota. eapply r_bind_eq.
  { apply (r_attempts_now _ _ tt). n_step. n_step. n_step. destruct H0 as [H0 _]. destruct H1 as [_ H1].
    cbn [set_sem nv_smbi nv_swesmbi] in H0, H1. unfold IXGBE_SWSM_SWESMBI in *. rewrite Z.lor_spec in H1. revert H1. const_bits.
    rewrite orb_true_r. intros E. change 0x2 with (2 ^ 1). rewrite bits_pow2, E by lia.
    apply r_ret. intros s Hs. split; [done|]. revert Hs. reg_bits. const_bits.
    rewrite H0, orb_true_r. exact id. }
  apply r_ret. done.
Qed.

(** [mask] is held neither by software nor by the firmware. *)
Definition sync_free (mask : Z) (x : nvm) : Prop := Z.land (nv_gssr x) (Z.lor (Z.shiftl mask 5) mask) = 0.

Lemma acquire_sync_ok mask h x :
  nv_smbi x = false -> sync_free mask x ->
  runs (AtC h x) (ixmap_acquire_swfw_sync mask)
    (fun r s => r = 0 /\ AtC h (set_gssr (u32 (Z.lor (nv_gssr x) mask)) (set_sem false false x)) s).
Proof.
  intros Hf Hfree. unfold ixmap_acquire_swfw_sync. apply (r_bind_eq _ _ (inl 0) _
    (AtC h (set_gssr (u32 (Z.lor (nv_gssr x) mask)) (set_sem false false x)))).
  - change 200%nat with (S 199). cbn [swfw_loop]. eapply r_bind_eq; [by apply get_sem_ok|]. cbn [Z.eqb negb].
    n_step. subst. unfold bits. cbn [set_sem nv_gssr]. unfold sync_free in Hfree. rewrite Hfree. cbn [Z.eqb negb].
    n_step. eapply r_bind; [apply release_sem_ok|]. intros u. by apply r_ret.
  - by apply r_ret.
Qed.

Lemma release_sync_ok mask h x :
  nv_smbi x = false ->
  runs (AtC h x) (ixmap_release_swfw_sync mask)
    (fun _ => AtC h (set_gssr (u32 (Z.land (nv_gssr x) (not32 mask))) (set_sem false false x))).
Proof.
  intros Hf. unfold ixmap_release_swfw_sync. eapply r_bind_eq; [by apply get_sem_ok|]. n_step. subst. n_step.
  apply release_sem_ok.
Qed.

(** ** The exchange of bits *)

(** The chip is selected, access is granted, and [B] has been taken in; before
    and after a rising edge. *)
Definition low (x : nvm) (di : bool) (B : list bool) : nvm :=
  Nvm (nv_smbi x) (nv_swesmbi x) (nv_gssr x) (Pins false false di true) 0 B (spi_out c B) (nv_eerd x).
Definition high (x : nvm) (di : bool) (B : list bool) : nvm :=
  Nvm (nv_smbi x) (nv_swesmbi x) (nv_gssr x) (Pins true false di true) 0 (B ++ [di]) (spi_out c B) (nv_eerd x).

Definition low_pins (di : bool) : pins := Pins false false di true.

Lemma read_low h x di B :
  runs (AtC h (low x di B)) (IXGBE_READ_REG IXGBE_EEC)
    (fun v s => pins_of v = low_pins di /\ AtC h (low x di B) s).
Proof. eapply r_weaken; [apply n_read_eec|done|]. intros v s [(E & _) Hs]. done. Qed.

Lemma raise_ok eec h x di di0 B :
  pins_of eec = low_pins di ->
  runs (AtC h (low x di0 B)) (ixmap_raise_eeprom_clk eec)
    (fun v s => v = Z.lor eec IXGBE_EEC_SK /\ AtC h (high x di B) s).
Proof.
  intros E. unfold ixmap_raise_eeprom_clk. n_step. rewrite pins_sk_up, E. cbn.
  eapply r_bind; [apply n_flush|]. intros u. eapply r_bind; [apply n_udelay|]. intros u'. by apply r_ret.
Qed.

Lemma lower_ok eec h x di B :
  pins_of eec = Pins true false di true ->
  runs (AtC h (high x di B)) (ixmap_lower_eeprom_clk eec)
    (fun v s => v = Z.land eec (not32 IXGBE_EEC_SK) /\ AtC h (low x di (B ++ [di])) s).
Proof.
  intros E. unfold ixmap_lower_eeprom_clk. n_step. rewrite pins_sk_down, E. cbn.
  eapply r_bind; [apply n_flush|]. intros u. eapply r_bind; [apply n_udelay|]. intros u'. by apply r_ret.
Qed.

Lemma write_low v h x di di' B :
  pins_of v = low_pins di' ->
  runs (AtC h (low x di B)) (IXGBE_WRITE_REG IXGBE_EEC v) (fun _ => AtC h (low x di' B)).
Proof. intros E. pose proof (n_write_eec c v h (low x di B)) as Hw. rewrite E in Hw. exact Hw. Qed.

(** One bit out. *)
Lemma clock_out (b : bool) eec eec' h x di B :
  pins_of eec = low_pins di ->
  eec' = (if b then Z.lor eec IXGBE_EEC_DI else Z.land eec (not32 IXGBE_EEC_DI)) ->
  runs (AtC h (low x di B))
    (IXGBE_WRITE_REG IXGBE_EEC eec' ;; IXGBE_WRITE_FLUSH ;; udelay 1 ;;
     eec ← ixmap_raise_eeprom_clk eec'; ixmap_lower_eeprom_clk eec)
    (fun v s => pins_of v = low_pins b /\ AtC h (low x b (B ++ [b])) s).
Proof.
  intros E ->. set (eec' := if b then _ else _).
  assert (pins_of eec' = low_pins b) as E'.
  { unfold eec'. destruct b; pin_rw; rewrite E; done. }
  eapply r_bind; [by apply write_low|]. intros u. eapply r_bind; [apply n_flush|]. intros u1.
  eapply r_bind; [apply n_udelay|]. intros u2. eapply r_bind_eq; [by apply raise_ok|].
  eapply r_weaken; [apply lower_ok|done|].
  - rewrite pins_sk_up, E'. done.
  - intros v s [-> Hs]. split; [|done]. rewrite pins_sk_down, pins_sk_up, E'. done.
Qed.

Lemma shift_out_loop_ok n data eec h x di B :
  pins_of eec = low_pins di ->
  runs (AtC h (low x di B)) (shift_out_loop n data (Z.shiftr (2 ^ Z.of_nat n) 1) eec)
    (fun v s => exists di', pins_of v = low_pins di' /\ AtC h (low x di' (B ++ msb n data)) s).
Proof.
  revert eec di B. induction n as [|n IH]; intros eec di B E.
  - apply r_ret. intros s Hs. exists di. split; [done|]. cbn [msb]. by rewrite app_nil_r.
  - cbn [shift_out_loop msb].
    replace (Z.shiftr (2 ^ Z.of_nat (S n)) 1) with (2 ^ Z.of_nat n).
    2:{ rewrite Z.shiftr_div_pow2, Nat2Z.inj_succ, Z.pow_succ_r by lia. rewrite Z.mul_comm. by rewrite Z.div_mul. }
    rewrite bits_pow2 by lia. set (b := Z.testbit data (Z.of_nat n)).
    set (eec' := if b then _ else _).
    pose proof (clock_out b eec eec' h x di B E eq_refl) as Hc.
    intros s Hs. destruct (Hc s Hs) as (v & s1 & E1 & Ev & H1).
    destruct (IH v b (B ++ [b]) Ev s1 H1) as (v' & s2 & E2 & di' & Ed & H2).
    exists v', s2. split.
    + unfold mbind, Hw_bind in E1 |- *. repeat case_match; simplify_eq; done.
    + exists di'. split; [done|]. by rewrite <- (assoc_L (++)) in H2.
Qed.

Lemma shift_out_ok data count h x di B :
  1 <= count <= 31 ->
  runs (AtC h (low x di B)) (ixmap_shift_out_eeprom_bits data count)
    (fun _ => AtC h (low x false (B ++ msb (Z.to_nat count) data))).
Proof.
  intros Hc. unfold ixmap_shift_out_eeprom_bits. eapply r_bind; [apply read_low|]. intros eec. apply r_pure. intros E.
  rewrite (proj2 (Z.ltb_ge count 1)), (proj2 (Z.ltb_ge 31 count)) by lia. cbn [orb].
  replace (Z.shiftl 1 (count - 1)) with (Z.shiftr (2 ^ Z.of_nat (Z.to_nat count)) 1).
  2:{ rewrite Z2Nat.id, Z.shiftl_1_l, <- Z.shiftl_1_l, Z.shiftr_shiftl_l, Z.shiftl_1_l by lia. done. }
  eapply r_bind; [by apply shift_out_loop_ok|]. intros v s (di' & Ev & Hs). revert s Hs.
  eapply r_bind; [apply write_low; rewrite pins_di_down, Ev; reflexivity|]. intros u. apply n_flush.
Qed.

(** The bits the chip puts out next. *)
Fixpoint outs (n : nat) (B : list bool) : list bool :=
  match n with
  | O => []
  | S n => spi_out c B :: outs n (B ++ [false])
  end.

Lemma shift_in_loop_ok n data eec h x di B :
  pins_of eec = low_pins false -> 0 <= data -> (data + 1) * 2 ^ Z.of_nat n <= 2 ^ 16 ->
  runs (AtC h (low x di B)) (shift_in_loop n data eec)
    (fun v s => v = fold_left (fun a b => 2 * a + Z.b2z b) (outs n B) data /\
                exists di', AtC h (low x di' (B ++ replicate n false)) s).
Proof.
  revert data eec di B. induction n as [|n IH]; intros data eec di B E Hd Hlt; cbn [shift_in_loop outs fold_left].
  - apply r_ret. intros s Hs. split; [done|]. exists di. cbn [replicate]. by rewrite app_nil_r.
  - rewrite Nat2Z.inj_succ, Z.pow_succ_r in Hlt by lia.
    assert (u16 (Z.shiftl data 1) = 2 * data) as ->.
    { unfold u16. rewrite Z.shiftl_mul_pow2 by lia. rewrite Z.mod_small; [lia|]. nia. }
    eapply r_bind; [by apply raise_ok|]. intros v. apply r_pure. intros _.
    n_step. destruct H0 as (Hp & Hdo & _). cbn [high nv_pins nv_do] in Hp, Hdo.
    replace (bits (Z.land x0 (not32 IXGBE_EEC_DI)) IXGBE_EEC_DO) with (spi_out c B).
    2:{ change IXGBE_EEC_DO with (2 ^ 3). rewrite bits_pow2 by lia. reg_bits. const_bits. by rewrite Hdo, andb_true_r. }
    eapply r_bind_eq.
    { apply (lower_ok _ h x false B). rewrite pins_di_down, Hp. done. }
    replace (if spi_out c B then Z.lor (2 * data) 1 else 2 * data) with (2 * data + Z.b2z (spi_out c B)).
    2:{ destruct (spi_out c B); cbn [Z.b2z]; [|lia].
        pose proof (lor_low data 1 1 ltac:(lia) ltac:(lia)) as El. change (2 ^ 1) with 2 in El.
        by rewrite (Z.mul_comm 2 data), El. }
    eapply r_weaken; [apply (IH (2 * data + Z.b2z (spi_out c B)) _ false (B ++ [false]))|..].
    + rewrite pins_sk_down, pins_di_down, Hp. done.
    + destruct (spi_out c B); cbn [Z.b2z]; lia.
    + destruct (spi_out c B); cbn [Z.b2z]; nia.
    + done.
    + intros w s [-> (di' & Hs)]. split; [done|]. exists di'. by rewrite <- (assoc_L (++)) in Hs.
Qed.

Lemma shift_in_ok count h x di B :
  0 <= count <= 16 ->
  runs (AtC h (low x di B)) (ixmap_shift_in_eeprom_bits count)
    (fun v s => v = number (outs (Z.to_nat count) B) /\
                exists di', AtC h (low x di' (B ++ replicate (Z.to_nat count) false)) s).
Proof.
  intros Hc. unfold ixmap_shift_in_eeprom_bits. eapply r_bind; [apply read_low|]. intros eec. apply r_pure. intros E.
  apply shift_in_loop_ok; [by rewrite pins_dido_down, E|done|].
  rewrite Z2Nat.id by lia. cbn [Z.add]. rewrite Z.mul_1_l. apply Z.pow_le_mono_r; lia.
Qed.

(** Deselecting the chip makes it forget what it has taken in. *)
Lemma standby_ok h x di B : runs (AtC h (low x di B)) ixmap_standby_eeprom (fun _ => AtC h (low x di [])).
Proof.
  unfold ixmap_standby_eeprom. eapply r_bind; [apply read_low|]. intros eec. apply r_pure. intros E.
  n_step. rewrite pins_cs_up, E. eapply r_bind; [apply n_flush|]. intros u. eapply r_bind; [apply n_udelay|]. intros u1.
  n_step. rewrite pins_cs_down, pins_cs_up, E. eapply r_bind; [apply n_flush|]. intros u2.
  eapply r_weaken; [apply n_udelay|intros s Hs; exact Hs|]. intros u3 s Hs. exact Hs.
Qed.

(** The status of the chip says that it is ready. *)
Lemma status_ready B : number (take 8 B) = 5 -> (8 <= length B)%nat -> spi_out c B = false.
Proof. intros E Hl. unfold spi_out. rewrite E. cbn [Z.eqb]. by rewrite andb_false_r, andb_false_r. Qed.

Lemma outs_ready n B : number (take 8 B) = 5 -> (8 <= length B)%nat -> outs n B = replicate n false.
Proof.
  revert B. induction n as [|n IH]; intros B E Hl; [done|]. cbn [outs replicate].
  rewrite (status_ready _ E Hl). f_equal. apply IH; [by rewrite take_app_le|rewrite length_app; lia].
Qed.

Lemma ready_ok h x di :
  runs (AtC h (low x di [])) ixmap_ready_eeprom
    (fun r s => r = 0 /\ exists di' B, AtC h (low x di' B) s).
Proof.
  unfold ixmap_ready_eeprom. eapply (r_bind_eq _ _ (Some tt) _ (fun s => exists di' B, AtC h (low x di' B) s)).
  - change (Z.to_nat (IXGBE_EEPROM_MAX_RETRY_SPI / 5)) with (S 999). apply r_attempts_now.
    eapply r_bind; [apply shift_out_ok; unfold IXGBE_EEPROM_OPCODE_BITS; lia|]. intros u.
    eapply r_bind; [apply shift_in_ok; lia|]. intros v. apply r_pure. intros ->.
    rewrite outs_ready; [|by vm_compute|by vm_compute]. cbn -[ixmap_standby_eeprom].
    intros s [di' Hs]. eexists _, s. split; [reflexivity|]. split; [done|]. eauto.
  - intros s Hs. by exists 0, s.
Qed.

(** ** Access to the chip *)

(** No driver and no firmware uses the EEPROM. *)
Definition idle (x : nvm) : Prop :=
  nv_smbi x = false /\ sync_free IXGBE_GSSR_EEP_SM x /\ 0 <= nv_gssr x < 2 ^ 32 /\
  p_req (nv_pins x) = false /\ nv_bits x = [] /\ nv_do x = false.

(** The request is made, to be granted after [k] more reads. *)
Definition requested (x : nvm) (k : nat) (p : pins) : nvm :=
  Nvm (nv_smbi x) (nv_swesmbi x) (nv_gssr x) p k [] false (nv_eerd x).

Lemma grant_loop_ok n k eec h x p :
  (k < n)%nat -> p_req p = true ->
  runs (AtC h (requested x k p)) (grant_loop n eec)
    (fun v s => (pins_of v = p /\ Z.testbit v 7 = true) /\ AtC h (requested x 0 p) s).
Proof.
  intros Hk Hp. revert k eec Hk. induction n as [|n IH]; intros k eec Hk; [lia|]. cbn [grant_loop].
  n_step. destruct H0 as (Ep & _ & Eg & _). change IXGBE_EEC_GNT with (2 ^ 7). 
  unfold granted in Eg. cbn [requested nv_pins nv_wait] in *. rewrite Hp in Eg. rewrite bits_pow2, Eg by lia. destruct k as [|k]; cbn [andb Nat.eqb].
  - apply r_ret. intros s Hs. by rewrite Eg.
  - eapply r_bind; [apply n_udelay|]. intros u. apply (IH k). lia.
Qed.

Lemma acquire_eeprom_ok h x :
  idle x ->
  runs (AtC h x) ixmap_acquire_eeprom
    (fun r s => r = 0 /\ exists di,
       AtC h (low (set_gssr (Z.lor (nv_gssr x) IXGBE_GSSR_EEP_SM) (set_sem false false x)) di []) s).
Proof.
  intros (Hs & Hf & Hg & Hr & Hb & Hd). unfold ixmap_acquire_eeprom.
  eapply r_bind_eq; [by apply acquire_sync_ok|]. cbn [Z.eqb negb].
  replace (u32 (Z.lor (nv_gssr x) IXGBE_GSSR_EEP_SM)) with (Z.lor (nv_gssr x) IXGBE_GSSR_EEP_SM)
    by (symmetry; apply Z.mod_small, lor_bound; [done|by vm_compute]).
  set (x1 := set_gssr _ _). n_step. destruct H0 as (Ep & _). n_step.
  rewrite pins_req_up, Ep. set (p := Pins _ _ _ _).
  assert (eec_write c p (eec_read x1) = requested x1 (ch_grant c) p) as ->.
  { unfold eec_write, requested, granted. cbn. rewrite Hr. cbn. by rewrite orb_true_r. }
  eapply r_bind; [apply grant_loop_ok; [|done]|].
  { destruct (@nvm_chip_ok D _ c _) as (_ & _ & Hgr & _). exact Hgr. }
  intros eec. apply r_pure. intros [E Eg]. change IXGBE_EEC_GNT with (2 ^ 7). rewrite bits_pow2, Eg by lia. cbn [negb].
  n_step. rewrite pins_cssk_down, E.
  eapply r_bind; [apply n_flush|]. intros u. eapply r_bind; [apply n_udelay|]. intros u1.
  apply r_ret. intros s H'. split; [done|]. exists (p_di p).
  revert H'. unfold eec_write, low, requested, granted. cbn.
  destruct (p_sk _); cbn; exact id.
Qed.

End Card.
