(* ===== verification/Checksum.v ===== *)
(** * The words of the EEPROM and their checksum

    [EepromSpec] is what reading through the table of operations promises: a
    word within the size of the EEPROM is read as it is stored, a word beyond it
    is not read and the call fails.  On that rest the correctness of the checksum
    of ixmap_eeprom.c, and of the buffer of the part number. *)

From stdpp Require Import prelude list.
From S2P Require Import Prelude HwRegs Hw HwLogic Eeprom.

Class EepromSpec (D : Type) `{Device D} `{EepromOps D} (rom : Z -> Z) (size : Z) := {
  ee_ready : ixmap_hw * D -> Prop;
  ee_words i : 0 <= rom i < 2 ^ 16;
  ee_size : 64 <= size <= 2 ^ 15;
  ee_read_in off :
    0 <= off < size ->
    runs ee_ready (eeprom_read off) (fun r s => r = (0, Some (rom off)) /\ ee_ready s);
  ee_read_out off :
    size <= off < 2 ^ 16 ->
    runs ee_ready (eeprom_read off) (fun r s => r = (IXGBE_ERR_EEPROM, None) /\ ee_ready s)
}.

(** ** The reference *)

Section Reference.

Context (rom : Z -> Z).

(** The words from [start] on. *)
Definition words (start : Z) (n : nat) : list Z := (fun k => rom (start + Z.of_nat k)) <$> seq 0 n.

(** The section a pointer points to: its length, then its words. *)
Definition has_section (pointer : Z) : bool :=
  negb (pointer =? 0xFFFF) && negb (pointer =? 0) && negb (rom pointer =? 0xFFFF) && negb (rom pointer =? 0).

Definition section_words (pointer : Z) : list Z :=
  if has_section pointer then words (pointer + 1) (Z.to_nat (rom pointer)) else [].

(** All words below the checksum, and the sections but the firmware's. *)
Definition covered : list Z := words 0 63 ++ flat_map section_words (words 3 12).

(** The checksum makes the sum of all words [0xBABA]. *)
Definition checksum_good : Prop := (foldr Z.add 0 covered + rom 63) mod 2 ^ 16 = 0xBABA.

(** Every section lies within the EEPROM. *)
Definition section_in (size p : Z) : Prop :=
  p <> 0 -> p <> 0xFFFF -> p < size /\ (has_section p = true -> p + rom p < size).

Definition sections_in (size : Z) : Prop := Forall (section_in size) (words 3 12).

End Reference.

Lemma words_S rom start n : words rom start (S n) = rom start :: words rom (start + 1) n.
Proof.
  unfold words. cbn [seq fmap list_fmap]. f_equal; [f_equal; lia|].
  rewrite <- fmap_S_seq. rewrite <- list_fmap_compose. apply list_fmap_ext. intros i k _. cbn. f_equal. lia.
Qed.

Section Checksum.

Context {D : Type} `{Device D} `{EepromOps D} (rom : Z -> Z) (size : Z) `{!EepromSpec D rom size}.

Notation ready := (ee_ready (rom := rom) (size := size)).

Lemma u16_small x : 0 <= x < 2 ^ 16 -> u16 x = x.
Proof. apply Z.mod_small. Qed.

Lemma read_into_in off old :
  0 <= off < size -> runs ready (read_into off old) (fun r s => r = (0, rom off) /\ ready s).
Proof.
  intros Ho. pose proof (ee_size (rom := rom) (size := size)) as Hz. unfold read_into. rewrite u16_small by lia.
  eapply r_bind_eq; [by apply ee_read_in|]. by apply r_ret.
Qed.

Notation sum l := (foldr Z.add 0 l).

Lemma u16_add a b : u16 (u16 a + b) = u16 (a + b).
Proof. unfold u16. by rewrite Zplus_mod_idemp_l. Qed.

Lemma sum_loop_ok n i a word :
  0 <= i -> i + Z.of_nat n <= size ->
  runs ready (sum_loop n i (u16 a) word)
    (fun r s => (exists w, r = (u16 (a + sum (words rom i n)), w)) /\ ready s).
Proof.
  revert i a word. induction n as [|n IH]; intros i a word Hi Hn; cbn [sum_loop].
  - apply r_ret. intros s Hs. split; [|done]. exists word. cbn. by rewrite Z.add_0_r.
  - eapply r_bind_eq; [apply read_into_in; lia|]. cbn [Z.eqb negb]. rewrite u16_add, words_S. cbn [foldr].
    eapply r_weaken; [apply IH; lia|done|]. intros r s [[w ->] Hs]. split; [|done]. exists w. do 2 f_equal. lia.
Qed.

Lemma section_loop_ok n fuel j limit a word :
  0 <= j -> limit = j + Z.of_nat n - 1 -> limit < size -> (n <= fuel)%nat ->
  runs ready (section_loop fuel j limit (u16 a) word)
    (fun r s => (exists w, r = (u16 (a + sum (words rom j n)), w)) /\ ready s).
Proof.
  pose proof (ee_size (rom := rom) (size := size)) as Hz.
  revert fuel j a word. induction n as [|n IH]; intros fuel j a word Hj El Hl Hf.
  - destruct fuel; cbn [section_loop]; rewrite (proj2 (Z.leb_gt j limit)) by lia;
      (apply r_ret; intros s Hs; split; [|done]; exists word; cbn; by rewrite Z.add_0_r).
  - destruct fuel as [|fuel]; [lia|]. cbn [section_loop]. rewrite (proj2 (Z.leb_le j limit)) by lia.
    eapply r_bind_eq; [apply read_into_in; lia|]. cbv beta iota. rewrite u16_add, (u16_small (j + 1)), words_S by lia. cbn [foldr].
    eapply r_weaken; [apply IH; lia|done|]. intros r s [[w ->] Hs]. split; [|done]. exists w. do 2 f_equal. lia.
Qed.

Lemma pointer_section_ok p a len ptr word :
  0 <= p < 2 ^ 16 -> section_in rom size p ->
  runs ready (pointer_section p (SumVars (u16 a) len ptr word))
    (fun v s => (exists l w, v = SumVars (u16 (a + sum (section_words rom p))) l p w) /\ ready s).
Proof.
  intros Hp Hsec. unfold pointer_section, section_words, section_in, has_section in *. cbn [sv_checksum sv_length sv_word].
  destruct (decide (p = 0xFFFF)) as [E|Hn1].
  { rewrite (proj2 (Z.eqb_eq _ _) E). cbn. rewrite Z.add_0_r. apply r_ret. eauto 6. }
  destruct (decide (p = 0)) as [E|Hn0].
  { rewrite (proj2 (Z.eqb_eq _ _) E), andb_false_r. cbn. rewrite Z.add_0_r. apply r_ret. eauto 6. }
  destruct (Hsec Hn0 Hn1) as [Hlt Hin].
  rewrite (proj2 (Z.eqb_neq _ _) Hn1), (proj2 (Z.eqb_neq _ _) Hn0) in *.
  cbn [negb andb] in *. eapply r_bind_eq; [apply read_into_in; lia|]. cbv beta iota.
  destruct (negb (rom p =? 65535) && negb (rom p =? 0)); cbn [sum foldr].
  - specialize (Hin eq_refl). pose proof (ee_words (rom := rom) (size := size) p) as Hw.
    pose proof (ee_size (rom := rom) (size := size)) as Hz. rewrite (u16_small (p + 1)) by lia.
    eapply r_bind; [apply (section_loop_ok (Z.to_nat (rom p))); lia|]. intros r. apply r_pure. intros [w ->].
    apply r_ret. eauto 6.
  - rewrite Z.add_0_r. apply r_ret. eauto 6.
Qed.

Lemma sum_app l1 l2 : sum (l1 ++ l2) = sum l1 + sum l2.
Proof. rewrite foldr_app. induction l1; cbn [foldr]; lia. Qed.

Lemma pointer_loop_ok n i a len ptr word :
  0 <= i -> i + Z.of_nat n <= size -> Forall (section_in rom size) (words rom i n) ->
  runs ready (pointer_loop n i (SumVars (u16 a) len ptr word))
    (fun v s => sv_checksum v = u16 (a + sum (flat_map (section_words rom) (words rom i n))) /\ ready s).
Proof.
  revert i a len ptr word. induction n as [|n IH]; intros i a len ptr word Hi Hn Hsec; cbn [pointer_loop].
  - apply r_ret. intros s Hs. split; [|done]. cbn. by rewrite Z.add_0_r.
  - rewrite words_S in *. apply Forall_cons in Hsec as [Hp Hsec]. cbn [flat_map]. rewrite sum_app, Z.add_assoc.
    eapply r_bind_eq; [apply read_into_in; lia|]. cbv beta iota.
    eapply r_bind; [apply pointer_section_ok; [apply (ee_words (rom := rom) (size := size))|done]|].
    intros v. apply r_pure. intros (l & w & ->). apply IH; [lia|lia|done].
Qed.

Lemma calc_checksum_ok :
  sections_in rom size ->
  runs ready ixmap_calc_eeprom_checksum
    (fun r s => r = u16 (IXGBE_EEPROM_SUM - sum (covered rom)) /\ ready s).
Proof.
  intros Hs. pose proof (ee_size (rom := rom) (size := size)) as Hz. unfold ixmap_calc_eeprom_checksum.
  eapply r_bind; [apply (sum_loop_ok 63 0 0 0); lia|]. intros r. apply r_pure. intros [w ->].
  eapply r_bind; [apply (pointer_loop_ok 12 3); [lia|lia|exact Hs]|]. intros v. apply r_pure. intros Ev.
  apply r_ret. intros s Hr. split; [|done]. rewrite Ev. unfold covered. rewrite sum_app.
  unfold u16. rewrite Zminus_mod_idemp_r. f_equal; lia.
Qed.

(** C12: the checksum of the EEPROM is verified. When every section lies within the
    EEPROM, [ixmap_validate_eeprom_checksum] returns, with 0 exactly when the words
    it covers and the stored checksum add up to [0xBABA] and else with the error
    for a bad checksum; it also returns the checksum that would be right. *)
Theorem validate_checksum_correct s :
  sections_in rom size -> ready s ->
  exists s' status, ixmap_validate_eeprom_checksum s = Returns ((status, Some (u16 (0xBABA - sum (covered rom)))), s') /\
    ready s' /\
    (status = 0 <-> checksum_good rom) /\ (~ checksum_good rom -> status = IXGBE_ERR_EEPROM_CHECKSUM).
Proof.
  intros Hsec Hr. pose proof (ee_size (rom := rom) (size := size)) as Hz.
  assert (runs ready ixmap_validate_eeprom_checksum (fun r s =>
    r = (if negb (rom 63 =? u16 (0xBABA - sum (covered rom))) then IXGBE_ERR_EEPROM_CHECKSUM else 0,
         Some (u16 (0xBABA - sum (covered rom)))) /\ ready s)) as Hv.
  { unfold ixmap_validate_eeprom_checksum. eapply r_bind_eq; [apply ee_read_in; lia|]. cbn [Z.eqb].
    eapply r_bind_eq; [by apply calc_checksum_ok|]. eapply r_bind_eq; [apply read_into_in; unfold IXGBE_EEPROM_CHECKSUM; lia|].
    by apply r_ret. }
  destruct (Hv s Hr) as (x & s' & E & -> & Hr'). eexists s', _. split; [exact E|]. split; [done|].
  enough (rom 63 = u16 (0xBABA - sum (covered rom)) <-> checksum_good rom) as Heq.
  { destruct (Z.eqb_spec (rom 63) (u16 (0xBABA - sum (covered rom)))); cbn [negb];
      (split; [split|]; intuition (try done)). }
  unfold checksum_good, u16. pose proof (ee_words (rom := rom) (size := size) 63) as Hw.
  generalize (sum (covered rom)). intros S. split.
  - intros ->. rewrite Zplus_mod_idemp_r. replace (S + (0xBABA - S)) with 0xBABA by lia. done.
  - intros E2. rewrite <- (Z.mod_small (rom 63) (2 ^ 16)) at 1 by done.
    replace (rom 63) with (S + rom 63 - S) by lia. rewrite Zminus_mod, E2, <- (Z.mod_small 0xBABA (2 ^ 16)) by lia.
    by rewrite <- Zminus_mod.
Qed.

(** ** A section that reaches the end of the address space *)

Lemma section_loop_stuck fuel j limit a word s :
  0 <= j < 2 ^ 16 -> 2 ^ 16 - 1 <= limit -> ready s -> section_loop fuel j limit a word s = Unfinished.
Proof.
  revert j a word s. induction fuel as [|fuel IH]; intros j a word s Hj Hl Hs; cbn [section_loop];
    rewrite (proj2 (Z.leb_le j limit)) by lia; [done|].
  enough (runs ready (read_into j word) (fun _ => ready)) as Hr.
  { destruct (Hr s Hs) as ([st w] & s' & E & Hs'). unfold mbind, Hw_bind. rewrite E.
    apply IH; [apply Z.mod_pos_bound; lia|done|done]. }
  unfold read_into. rewrite u16_small by lia. destruct (decide (j < size)).
  - eapply r_bind_eq; [apply ee_read_in; lia|]. by apply r_ret.
  - eapply r_bind_eq; [apply ee_read_out; lia|]. by apply r_ret.
Qed.

Lemma pointer_loop_stuck n k i a len ptr word s :
  (k < n)%nat -> 0 <= i -> i + Z.of_nat n <= size -> ready s ->
  Forall (section_in rom size) (words rom i k) ->
  (let p := rom (i + Z.of_nat k) in p < size /\ has_section rom p = true /\ 2 ^ 16 - 1 <= p + rom p) ->
  pointer_loop n i (SumVars (u16 a) len ptr word) s = Unfinished.
Proof.
  revert n i a len ptr word s. induction k as [|k IH]; intros n i a len ptr word s Hk Hi Hn Hs Hin Hp;
    (destruct n as [|n]; [lia|]); cbn [pointer_loop].
  - rewrite Z.add_0_r in Hp. destruct Hp as (Hp & Hsec & Hend). set (p := rom i) in *.
    destruct (read_into_in i ptr ltac:(lia) s Hs) as (r & s1 & E1 & -> & H1).
    destruct (read_into_in p len ltac:(pose proof (ee_words (rom := rom) (size := size) i); subst p; lia) s1 H1)
      as (r & s2 & E2 & -> & H2).
    unfold mbind, Hw_bind. cbn [sv_pointer]. rewrite E1. unfold pointer_section. cbn [sv_length sv_checksum sv_word].
    fold p.
    unfold has_section in Hsec. rewrite <- !andb_assoc in Hsec.
    destruct (negb (p =? 65535)), (negb (p =? 0)); try done. cbn [andb] in *.
    unfold mbind, Hw_bind. rewrite E2, Hsec. rewrite section_loop_stuck; [done| |done|done].
    apply Z.mod_pos_bound. lia.
  - rewrite words_S in Hin. apply Forall_cons in Hin as [Hq Hin].
    destruct (read_into_in i ptr ltac:(lia) s Hs) as (r & s1 & E1 & -> & H1).
    destruct (pointer_section_ok (rom i) a len ptr word (ee_words (rom := rom) (size := size) i) Hq s1 H1)
      as (v & s2 & E2 & (l & w & ->) & H2).
    unfold mbind, Hw_bind. cbn [sv_pointer]. rewrite E1, E2. apply (IH n (i + 1)); [lia|lia|lia|done|done|].
    by replace (i + 1 + Z.of_nat k) with (i + Z.of_nat (S k)) by lia.
Qed.

(** C40: a damaged EEPROM hangs the driver. The loop over the words of a section
    counts with a variable of 16 bits up to a limit that may need 17: when the
    first section that does not lie within the EEPROM reaches word 65535, the loop
    never ends, so the checksum meant to detect the damage is never compared. *)
Theorem checksum_endless (k : nat) s :
  (k < 12)%nat -> ready s ->
  Forall (section_in rom size) (words rom 3 k) ->
  (let p := rom (3 + Z.of_nat k) in p < size /\ has_section rom p = true /\ 2 ^ 16 - 1 <= p + rom p) ->
  ixmap_validate_eeprom_checksum s = Unfinished /\
  (let p := rom (3 + Z.of_nat k) in
   forall fuel s' a w, ready s' -> section_loop fuel (u16 (p + 1)) (p + rom p) a w s' = Unfinished).
Proof.
  intros Hk Hs Hin Hp. pose proof (ee_size (rom := rom) (size := size)) as Hz. split.
  - destruct (ee_read_in (rom := rom) (size := size) 0 ltac:(lia) s Hs) as (r & s1 & E1 & -> & H1).
    destruct (sum_loop_ok 63 0 0 0 ltac:(lia) ltac:(lia) s1 H1) as (r & s2 & E2 & [w ->] & H2).
    unfold ixmap_validate_eeprom_checksum, ixmap_calc_eeprom_checksum, mbind, Hw_bind.
    rewrite E1. cbn [Z.eqb]. change (Z.to_nat IXGBE_EEPROM_CHECKSUM) with 63%nat. change (u16 0) with 0 in E2. rewrite E2.
    change (Z.to_nat (IXGBE_FW_PTR - IXGBE_PCIE_ANALOG_PTR)) with 12%nat.
    by rewrite (pointer_loop_stuck 12 k 3 _ _ _ _ s2 Hk ltac:(lia) ltac:(lia) H2 Hin Hp).
  - intros p fuel s' a w Hr. apply section_loop_stuck; [apply Z.mod_pos_bound; lia|apply Hp|done].
Qed.

End Checksum.
