(* ===== verification/NvmRead.v ===== *)
(** * Reading the EEPROM of the card

    [ixmap_read_eeprom_82599] on a card with a documented EEPROM: whichever way
    it takes, through EERD or bit by bit, it returns the word stored, gives the
    semaphores back, and fails for words beyond the chip.  This is the promise
    [EepromSpec] that the checksum rests on. *)

From stdpp Require Import prelude list.
From S2P Require Import Prelude HwRegs Hw HwLogic Nvm NvmFacts Eeprom Checksum.

(** What ixmap_82599.c enters in the table of operations. *)
#[export] Instance ops_82599 {D} `{Device D} : EepromOps D := { eeprom_read := ixmap_read_eeprom_82599 }.

Section Read.

Context {D : Type} `{Device D} (c : chip) `{!NvmDevice D c}.

Notation AtC := (At c).
Notation low := (low c).

Lemma chip_facts : chip_ok c.
Proof. apply nvm_chip_ok. Qed.

(** ** The bits of a word *)

Lemma spi_out_data op a k :
  (op = 3 \/ ch_wide c = false /\ op = 11) ->
  spi_out c ((msb 8 op ++ msb (address_bits c) a) ++ replicate k false) =
  Z.testbit (chip_byte c (a mod 2 ^ Z.of_nat (address_bits c) + (if op =? 11 then 256 else 0) + Z.of_nat k / 8))
    (7 - Z.of_nat k mod 8).
Proof.
  intros Hop. unfold spi_out. rewrite !length_app, !msb_length, length_replicate.
  rewrite <- (assoc_L (++)), take_app_length', drop_app_length', take_app_length' by (by rewrite msb_length).
  rewrite !number_msb. replace (Z.of_nat (8 + address_bits c + k) - Z.of_nat (8 + address_bits c)) with (Z.of_nat k) by lia.
  rewrite (proj2 (Z.leb_le 0 _)) by lia.
  replace ((op mod 2 ^ Z.of_nat 8 =? 3) || (negb (ch_wide c) && (op mod 2 ^ Z.of_nat 8 =? 11))) with true
    by (destruct Hop as [->|[-> ->]]; done).
  replace (op mod 2 ^ Z.of_nat 8) with op by (destruct Hop as [->|[_ ->]]; done). done.
Qed.

Lemma outs_seq n k B :
  outs c n (B ++ replicate k false) = (fun j => spi_out c (B ++ replicate j false)) <$> seq k n.
Proof.
  revert k. induction n as [|n IH]; intros k; [done|]. cbn [outs seq fmap list_fmap]. f_equal.
  rewrite <- (assoc_L (++)), <- (IH (S k)). do 2 f_equal. symmetry. apply replicate_S_end.
Qed.

Lemma outs_data op a :
  (op = 3 \/ ch_wide c = false /\ op = 11) ->
  let b := a mod 2 ^ Z.of_nat (address_bits c) + (if op =? 11 then 256 else 0) in
  outs c 16 (msb 8 op ++ msb (address_bits c) a) = msb 8 (chip_byte c b) ++ msb 8 (chip_byte c (b + 1)).
Proof.
  intros Hop b. pose proof (outs_seq 16 0 (msb 8 op ++ msb (address_bits c) a)) as E.
  change (replicate 0 false) with (@nil bool) in E. rewrite app_nil_r in E. rewrite E.
  rewrite (list_fmap_ext _ (fun j => Z.testbit (chip_byte c (b + Z.of_nat j / 8)) (7 - Z.of_nat j mod 8))).
  2:{ intros _ j _. by apply spi_out_data. }
  replace (msb 8 (chip_byte c b)) with (msb 8 (chip_byte c (b + 0))) by (by rewrite Z.add_0_r). reflexivity.
Qed.

(** The low byte comes first; the code swaps them. *)
Lemma word_swapped w :
  0 <= w < 2 ^ 16 ->
  let v := number (msb 8 (Z.land w 255) ++ msb 8 (Z.shiftr w 8)) in
  u16 (Z.lor (Z.shiftr v 8) (Z.shiftl v 8)) = w.
Proof.
  intros Hw v. subst v. rewrite number_app, !number_msb, msb_length. change 255 with (Z.ones 8).
  rewrite Z.land_ones, (Z.shiftr_div_pow2 w) by lia. change (2 ^ Z.of_nat 8) with 256. change (2 ^ 8) with 256.
  rewrite Z.mod_mod by lia. set (lo := w mod 256). set (hi := w / 256).
  assert (0 <= lo < 256) by (apply Z.mod_pos_bound; lia).
  assert (0 <= hi < 256) by (split; [apply Z.div_pos; lia|apply Z.div_lt_upper_bound; lia]).
  assert (w = hi * 256 + lo) by (subst lo hi; pose proof (Z.div_mod w 256 ltac:(lia)); lia).
  rewrite (Z.mod_small hi) by lia. rewrite Z.shiftr_div_pow2, Z.shiftl_mul_pow2 by lia. change (2 ^ 8) with 256.
  replace ((lo * 256 + hi) / 256) with lo by (apply Z.div_unique with hi; lia).
  unfold u16. rewrite Z.lor_comm. pose proof (lor_low (lo * 256 + hi) lo 8 ltac:(lia) ltac:(lia)) as El.
  change (2 ^ 8) with 256 in El. rewrite El. symmetry. apply Z.mod_unique with lo; lia.
Qed.

(** ** One word over the serial interface *)

(** The driver knows the chip. *)
Definition configured (h : ixmap_hw) : Prop :=
  ee_type (hw_eeprom h) = ixmap_eeprom_spi /\ ee_word_size (hw_eeprom h) = word_size c /\
  ee_address_bits (hw_eeprom h) = Z.of_nat (address_bits c).

Lemma word_size_range : 64 <= word_size c <= 2 ^ 15 /\ (ch_wide c = false -> word_size c <= 256).
Proof.
  destruct chip_facts as (_ & Hs & _). unfold word_size.
  assert (2 ^ 6 <= 2 ^ (ch_size c + 6)) by (apply Z.pow_le_mono_r; lia).
  destruct (ch_wide c).
  - assert (2 ^ (ch_size c + 6) <= 2 ^ 15) by (apply Z.pow_le_mono_r; lia). split; [lia|done].
  - assert (2 ^ (ch_size c + 6) <= 2 ^ 8) by (apply Z.pow_le_mono_r; lia). split; [|intros _]; lia.
Qed.

(** The opcode and address sent for a word address its low byte. *)
Definition opcode (off : Z) : Z :=
  if (Z.of_nat (address_bits c) =? 8) && (128 <=? off) then 11 else 3.

Lemma address_ok off :
  0 <= off < word_size c ->
  (opcode off = 3 \/ ch_wide c = false /\ opcode off = 11) /\
  u16 (off * 2) mod 2 ^ Z.of_nat (address_bits c) + (if opcode off =? 11 then 256 else 0) = 2 * off.
Proof.
  intros Ho. destruct word_size_range as [Hw Hn]. unfold opcode, address_bits, u16 in *.
  destruct (ch_wide c).
  - split; [by left|]. change (Z.of_nat 16 =? 8) with false. cbn [andb]. change (2 ^ Z.of_nat 16) with (2 ^ 16).
    rewrite Z.mod_mod, Z.mod_small by lia. cbn [Z.eqb Pos.eqb]. lia.
  - specialize (Hn eq_refl). change (Z.of_nat 8 =? 8) with true. cbn [andb]. rewrite (Z.mod_small (off * 2)) by lia.
    destruct (Z.leb_spec 128 off); (split; [auto|]); cbn [Z.eqb Pos.eqb]; change (2 ^ Z.of_nat 8) with 256.
    + rewrite <- (Z.mod_unique (off * 2) 256 1 (off * 2 - 256)); lia.
    + rewrite Z.mod_small; lia.
Qed.

Lemma bit_bang_word h x di B off :
  configured h -> 0 <= off < word_size c ->
  runs (AtC h (low x di B)) (bit_bang_loop 1 off IXGBE_EEPROM_READ_OPCODE_SPI)
    (fun r s => r = [ch_rom c off] /\ exists di' B', AtC h (low x di' B') s).
Proof.
  intros (_ & _ & Hab) Ho. cbn [bit_bang_loop]. eapply r_bind; [apply standby_ok|]. intros u.
  eapply r_bind; [apply n_get|]. intros ee. apply r_pure. intros ->. rewrite Hab.
  change (if _ && _ then _ else _) with (opcode off).
  eapply r_bind; [apply shift_out_ok; unfold IXGBE_EEPROM_OPCODE_BITS; lia|]. intros u1. cbn [app].
  eapply r_bind; [apply shift_out_ok; unfold address_bits; destruct (ch_wide c); lia|]. intros u2. rewrite Nat2Z.id.
  change (Z.to_nat IXGBE_EEPROM_OPCODE_BITS) with 8%nat.
  eapply r_bind; [apply shift_in_ok; lia|]. intros v. apply r_pure. intros ->.
  intros s [di' Hs]. eexists _, s. split; [reflexivity|]. split; [|eauto]. f_equal.
  destruct (address_ok off Ho) as [Hop Ha]. change (Z.to_nat 16) with 16%nat. rewrite outs_data by done. rewrite Ha.
  unfold chip_byte. replace (Z.even (2 * off)) with true by (by rewrite Z.even_mul).
  replace (Z.even (2 * off + 1)) with false by (by rewrite Z.even_add, Z.even_mul).
  replace (2 * off / 2) with off by (rewrite Z.mul_comm; symmetry; apply Z.div_mul; lia).
  replace ((2 * off + 1) / 2) with off by (apply Z.div_unique with 1; lia).
  apply word_swapped. apply chip_facts.
Qed.

(** Afterwards nothing is held, as before. *)
Lemma release_eeprom_ok h x di B :
  idle x ->
  runs (AtC h (low (set_gssr (Z.lor (nv_gssr x) IXGBE_GSSR_EEP_SM) (set_sem false false x)) di B)) ixmap_release_eeprom
    (fun _ s => exists x', idle x' /\ AtC h x' s).
Proof.
  intros (Hs & Hf & Hg & Hr & Hb & Hd). unfold ixmap_release_eeprom.
  eapply r_bind; [apply read_low|]. intros eec. apply r_pure. intros E.
  n_step. rewrite pins_sk_down, pins_cs_up, E. eapply r_bind; [apply n_flush|]. intros u.
  eapply r_bind; [apply n_udelay|]. intros u1. n_step. rewrite pins_req_down, pins_sk_down, pins_cs_up, E.
  eapply r_bind; [apply release_sync_ok; done|]. intros u2.
  eapply r_bind; [apply n_get|]. intros ee. apply r_pure. intros _.
  eapply r_weaken; [apply n_udelay|intros s H'; exact H'|]. intros u3 s H'. cbv beta in H'. eexists. split; [|exact H'].
  unfold idle, sync_free in *. cbn. change 1 with IXGBE_GSSR_EEP_SM.
  assert (u32 (Z.land (Z.lor (nv_gssr x) IXGBE_GSSR_EEP_SM) (not32 IXGBE_GSSR_EEP_SM)) = nv_gssr x) as ->; [|done].
  assert (Z.testbit (nv_gssr x) 0 = false) as H0.
  { apply (f_equal (fun v => Z.testbit v 0)) in Hf. rewrite Z.land_spec in Hf. revert Hf. const_bits. by rewrite andb_true_r. }
  apply Z.bits_inj'. intros i Hi. destruct (decide (i < 32)) as [Hlt|Hge].
  - reg_bits. destruct (decide (i = 0)) as [->|].
    + rewrite H0. reflexivity.
    + change IXGBE_GSSR_EEP_SM with (2 ^ 0). rewrite Z.pow2_bits_false by lia. by rewrite orb_false_r, andb_true_r.
  - unfold u32. rewrite Z.mod_pow2_bits_high by lia. symmetry. by apply (testbit_small _ 32); [|lia].
Qed.

(** ** Parameters *)

Lemma init_params_known h x : configured h -> runs (AtC h x) ixmap_init_eeprom_params (fun _ => AtC h x).
Proof.
  intros (Ht & _). unfold ixmap_init_eeprom_params. eapply r_bind; [apply n_get|]. intros ee. apply r_pure. intros ->.
  rewrite Ht, decide_False by done. by apply r_ret.
Qed.

Lemma init_params_new h x :
  ee_type (hw_eeprom h) = ixmap_eeprom_uninitialized -> idle x ->
  runs (AtC h x) ixmap_init_eeprom_params
    (fun _ s => exists h' x', configured h' /\ idle x' /\ AtC h' x' s).
Proof.
  intros Ht Hi. unfold ixmap_init_eeprom_params. eapply r_bind; [apply n_get|]. intros ee. apply r_pure. intros ->.
  rewrite decide_True by done. n_step. destruct H0 as (_ & _ & _ & Hp & Ha & Hz).
  change IXGBE_EEC_PRES with (2 ^ 8). change IXGBE_EEC_ADDR_SIZE with (2 ^ 10).
  rewrite !bits_pow2, Hp, Ha, Hz by lia. destruct chip_facts as (_ & Hs & _). destruct word_size_range as [Hw _].
  assert (0 <= ch_size c <= 9) by (destruct (ch_wide c); lia). rewrite (u16_small (ch_size c)) by lia.
  unfold IXGBE_EEPROM_WORD_SIZE_SHIFT. rewrite Z.shiftl_1_l. fold (word_size c). rewrite u16_small by lia.
  intros [h' d] (E & Ex & Hh). cbn in E, Ex. subst h'. eexists _, (_, d). split; [reflexivity|].
  eexists _, (eec_read x). split; [|split; [exact Hi|split; [reflexivity|split; [exact Ex|exact Hh]]]].
  split; [done|]. split; [done|]. cbn. unfold address_bits. by destruct (ch_wide c).
Qed.

(** ** Both ways *)

(** Idle, with the driver's parameters read already or not yet. *)
Definition nvm_ready (s : ixmap_hw * D) : Prop :=
  exists h x, AtC h x s /\ idle x /\
    (configured h \/ ee_type (hw_eeprom h) = ixmap_eeprom_uninitialized).

Lemma bit_bang_buffer_ok h x off :
  configured h -> idle x -> 0 <= off < word_size c ->
  runs (AtC h x) (ixmap_read_eeprom_buffer_bit_bang off 1)
    (fun r s => r = (0, [ch_rom c off]) /\ nvm_ready s).
Proof.
  intros Hc Hi Ho. unfold ixmap_read_eeprom_buffer_bit_bang. eapply r_bind_eq; [by apply acquire_eeprom_ok|].
  cbn [Z.eqb negb]. intros s (di & Hs). revert s Hs. eapply r_bind_eq; [apply ready_ok|]. cbn [Z.eqb negb].
  intros s (di' & B & Hs). revert s Hs. eapply r_bind_eq; [by apply bit_bang_word|].
  intros s (di2 & B2 & Hs). revert s Hs. eapply r_bind; [by apply release_eeprom_ok|].
  intros u. apply r_ret. intros s (x' & Hi' & Hs). split; [done|]. exists h, x'. auto.
Qed.

Lemma read_bit_bang_known h x off :
  configured h -> idle x -> 0 <= off ->
  runs (AtC h x) (ixmap_init_eeprom_params ;; ee ← get hw_eeprom;
     if ee_word_size ee <=? off then mret (IXGBE_ERR_EEPROM, None)
     else '(status, data) ← ixmap_read_eeprom_buffer_bit_bang off 1; mret (status, head data))
    (fun r s => r = (if off <? word_size c then (0, Some (ch_rom c off)) else (IXGBE_ERR_EEPROM, None)) /\ nvm_ready s).
Proof.
  intros Hc Hi Ho. eapply r_bind; [by apply init_params_known|]. intros u. eapply r_bind; [apply n_get|].
  intros ee. apply r_pure. intros ->. destruct (Hc) as (_ & -> & _).
  destruct (Z.leb_spec (word_size c) off); destruct (Z.ltb_spec off (word_size c)); try lia.
  - apply r_ret. intros s Hs. split; [done|]. exists h, x. auto.
  - eapply r_bind_eq; [by apply bit_bang_buffer_ok|]. by apply r_ret.
Qed.

Lemma read_bit_bang_ok off :
  0 <= off ->
  runs nvm_ready (ixmap_read_eeprom_bit_bang off)
    (fun r s => r = (if off <? word_size c then (0, Some (ch_rom c off)) else (IXGBE_ERR_EEPROM, None)) /\ nvm_ready s).
Proof.
  intros Ho s (h & x & Hs & Hi & [Hc|Hu]); [by apply (read_bit_bang_known h x)|].
  destruct (init_params_new h x Hu Hi s Hs) as (u & s1 & E1 & h' & x' & Hc' & Hi' & Hs1).
  destruct (read_bit_bang_known h' x' off Hc' Hi' Ho s1 Hs1) as (r & s2 & E2 & H2). exists r, s2. split; [|done].
  unfold ixmap_read_eeprom_bit_bang. destruct (init_params_known h' x' Hc' s1 Hs1) as (u' & s1' & E1' & Hs1').
  unfold mbind, Hw_bind in E2 |- *. rewrite E1. rewrite E1' in E2.
  replace s1' with s1 in E2; [exact E2|].
  revert E1'. unfold ixmap_init_eeprom_params, get, mbind, Hw_bind. destruct Hs1 as [-> _].
  destruct Hc' as (Ht & _). rewrite Ht. rewrite decide_False by done. by intros [= _ <-].
Qed.

Lemma poll_eerd_ok h x off k :
  Z.of_nat k < IXGBE_EERD_EEWR_ATTEMPTS ->
  runs (AtC h (set_eerd (Some (off, k)) x)) (ixmap_poll_eerd_eewr_done IXGBE_NVM_POLL_READ)
    (fun r s => r = 0 /\ AtC h (set_eerd (Some (off, O)) x) s).
Proof.
  intros Hk. unfold ixmap_poll_eerd_eewr_done. eapply r_bind.
  - apply (r_attempts _ (fun k => AtC h (set_eerd (Some (off, k)) x)) (fun _ => AtC h (set_eerd (Some (off, O)) x)) _ k).
    { apply Nat2Z.inj_lt. rewrite Z2Nat.id by done. exact Hk. }
    intros j. cbn [Z.eqb IXGBE_NVM_POLL_READ]. n_step. unfold eerd_shows in H0. cbn [set_eerd nv_eerd] in H0.
    change IXGBE_EEPROM_RW_REG_DONE with (2 ^ 1). rewrite bits_pow2 by lia. destruct j as [|j].
    + destruct H0 as [-> _]. by apply r_ret.
    + rewrite H0. eapply r_bind; [apply n_udelay|]. intros u. apply r_ret. intros s Hs. exists j. split; [lia|exact Hs].
  - intros r s (u & -> & Hs). by exists 0, s.
Qed.

Lemma read_eerd_ok h x off :
  configured h -> idle x -> 0 <= off <= IXGBE_EERD_MAX_ADDR ->
  runs (AtC h x) (ixmap_read_eerd off)
    (fun r s => r = (if off <? word_size c then (0, Some (ch_rom c off)) else (IXGBE_ERR_EEPROM, None)) /\ nvm_ready s).
Proof.
  intros Hc Hi Ho. assert (forall e s, AtC h (set_eerd e x) s -> nvm_ready s) as Hready.
  { intros e s Hs. exists h, (set_eerd e x). auto. }
  unfold ixmap_read_eerd, ixmap_read_eerd_buffer. unfold IXGBE_EERD_MAX_ADDR in Ho.
  enough (runs (AtC h x)
    (ixmap_init_eeprom_params ;; ee ← get hw_eeprom;
     if 1 =? 0 then mret (IXGBE_ERR_INVALID_ARGUMENT, []) else if ee_word_size ee <=? off then mret (IXGBE_ERR_EEPROM, [])
     else eerd_loop (Z.to_nat 1) off)
    (fun r s => r = (if off <? word_size c then (0, [ch_rom c off]) else (IXGBE_ERR_EEPROM, [])) /\ nvm_ready s)) as Hb.
  { eapply r_bind_eq; [exact Hb|]. destruct (off <? word_size c); by apply r_ret. }
  eapply r_bind; [by apply init_params_known|]. intros u. eapply r_bind; [apply n_get|].
  intros ee. apply r_pure. intros ->. destruct (Hc) as (_ & -> & _). cbn [Z.eqb].
  destruct (Z.leb_spec (word_size c) off); destruct (Z.ltb_spec off (word_size c)); try lia.
  { apply r_ret. intros s Hs. split; [done|]. exists h, x. auto. }
  change (Z.to_nat 1) with 1%nat. cbn [eerd_loop]. n_step.
  unfold IXGBE_EEPROM_RW_ADDR_SHIFT, IXGBE_EEPROM_RW_REG_START.
  assert (eerd_write c (u32 (Z.lor (Z.shiftl off 2) 1)) x = set_eerd (Some (off, ch_read c)) x) as ->.
  { unfold eerd_write. pose proof (lor_low off 1 2 ltac:(lia) ltac:(lia)) as El.
    rewrite Z.shiftl_mul_pow2, El by lia. unfold u32. rewrite Z.mod_small by lia.
    replace (Z.testbit (off * 2 ^ 2 + 1) 0) with true.
    2:{ symmetry. rewrite Z.bit0_odd, Z.odd_add, Z.odd_mul. reflexivity || (cbn; by rewrite andb_false_r). }
    rewrite Z.shiftr_div_pow2 by lia. replace ((off * 2 ^ 2 + 1) / 2 ^ 2) with off by (apply Z.div_unique with 1; lia).
    change 0x3FFF with (Z.ones 14). rewrite Z.land_ones, Z.mod_small by lia. done. }
  destruct chip_facts as (_ & _ & _ & Hlat). eapply r_bind_eq; [by apply poll_eerd_ok|]. cbn [Z.eqb].
  n_step. unfold eerd_shows in H2. cbn [set_eerd nv_eerd] in H2. destruct H2 as [_ E].
  apply r_ret_bind. apply r_ret. intros s Hs. unfold IXGBE_EEPROM_RW_REG_DATA. rewrite E, u16_small by apply chip_facts.
  split; [done|]. by apply (Hready (Some (off, O))).
Qed.

Lemma read_82599_ok off :
  0 <= off < 2 ^ 16 ->
  runs nvm_ready (eeprom_read off)
    (fun r s => r = (if off <? word_size c then (0, Some (ch_rom c off)) else (IXGBE_ERR_EEPROM, None)) /\ nvm_ready s).
Proof.
  intros Ho s Hs. pose proof (read_bit_bang_ok off ltac:(lia) s Hs) as Hb.
  destruct Hs as (h & x & Hs & Hi & Hcu). cbn [eeprom_read ops_82599]. unfold ixmap_read_eeprom_82599, get, mbind, Hw_bind.
  cbv beta iota. destruct (Hs) as (Eh & Hx & Ha). rewrite Eh.
  destruct (bool_decide (ee_type (hw_eeprom h) = ixmap_eeprom_spi)) eqn:Et; [|exact Hb].
  destruct (Z.leb_spec off IXGBE_EERD_MAX_ADDR); [|exact Hb]. cbn [andb].
  apply bool_decide_eq_true in Et. destruct Hcu as [Hc|Hu]; [|congruence].
  apply (read_eerd_ok h x off Hc Hi); [lia|exact Hs].
Qed.

#[export] Instance nvm_spec : EepromSpec D (ch_rom c) (word_size c).
Proof.
  refine {| ee_ready := nvm_ready |}.
  - apply chip_facts.
  - destruct word_size_range. lia.
  - intros off Ho. pose proof word_size_range. eapply r_weaken; [apply read_82599_ok; lia|done|].
    intros r s [-> Hs]. by rewrite (proj2 (Z.ltb_lt _ _)) by lia.
  - intros off Ho. pose proof word_size_range. eapply r_weaken; [apply read_82599_ok; lia|done|].
    intros r s [-> Hs]. by rewrite (proj2 (Z.ltb_ge _ _)) by lia.
Defined.

(** C10: words are read as they are stored. On a card whose EEPROM behaves as
    documented and that nobody else uses, [ixmap_read_eeprom_82599] returns 0 and
    the word, through EERD or bit by bit over the serial interface, with the
    parameters of the chip known or not; it fails for words beyond the chip; and
    it leaves all semaphores free and the chip deselected, ready for the next
    read. *)
Theorem eeprom_read_correct (off : Z) s :
  0 <= off < 2 ^ 16 -> nvm_ready s ->
  exists s', ixmap_read_eeprom_82599 off s =
      Returns ((if off <? word_size c then (0, Some (ch_rom c off)) else (IXGBE_ERR_EEPROM, None)), s') /\
    nvm_ready s'.
Proof.
  intros Ho Hs. destruct (read_82599_ok off Ho s Hs) as (r & s' & E & -> & Hs'). by exists s'.
Qed.

End Read.
