(* ===== verification/Common.v ===== *)
(** * Common functions of the card (src/kmod/ixmap_common.c)

    Stopping the card, addresses, links, the mailbox of the firmware, statistics:
    every function of the file, against any card. *)

From stdpp Require Import prelude list.
From S2P Require Import Prelude HwRegs Hw Eeprom.

(** [IXGBE_IS_MULTICAST] and [IXGBE_IS_BROADCAST]. *)
Definition IXGBE_IS_MULTICAST (addr : list Z) : bool := bits (view_of addr 0%nat) 1.
Definition IXGBE_IS_BROADCAST (addr : list Z) : bool := (view_of addr 0%nat =? 0xff) && (view_of addr 1%nat =? 0xff).

Definition ixmap_validate_mac_addr (addr : list Z) : Z :=
  let v := view_of addr in
  if IXGBE_IS_MULTICAST addr then IXGBE_ERR_INVALID_MAC_ADDR
  else if IXGBE_IS_BROADCAST addr then IXGBE_ERR_INVALID_MAC_ADDR
  else if (v 0%nat =? 0) && (v 1%nat =? 0) && (v 2%nat =? 0) && (v 3%nat =? 0) && (v 4%nat =? 0) && (v 5%nat =? 0)
  then IXGBE_ERR_INVALID_MAC_ADDR
  else 0.

(** A null pointer is no buffer. *)
Definition ixmap_calculate_checksum (buffer : option (list Z)) (length : nat) : Z :=
  match buffer with
  | None => 0
  | Some b => u8 (0 - fold_left (fun sum i => u8 (sum + view_of b i)) (seq 0 length) 0)
  end.

(** The device identifiers with a fibre interface (ixmap_82599.c). *)
Definition ixmap_get_media_type_82599 (h : ixmap_hw) : ixmap_media_type :=
  let id := hw_device_id h in
  if (id =? IXGBE_DEV_ID_82599_SFP) || (id =? IXGBE_DEV_ID_82599_SFP_FCOE) || (id =? IXGBE_DEV_ID_82599_SFP_EM)
     || (id =? IXGBE_DEV_ID_82599_SFP_SF2) || (id =? IXGBE_DEV_ID_82599_SFP_SF_QP) || (id =? IXGBE_DEV_ID_82599EN_SFP)
  then ixmap_media_type_fiber else ixmap_media_type_unknown.

Section Common.

Context {D : Type} `{Device D}.

(** Read, change, write back. *)
Definition modify_reg (reg : Z) (f : Z -> Z) : Hw D unit :=
  v ← IXGBE_READ_REG reg; IXGBE_WRITE_REG reg (f v).

(** ** Statistics and filters *)

(** The registers that [ixmap_clear_hw_cntrs] reads, in its order. *)
Definition hw_cntrs : list Z :=
  [IXGBE_CRCERRS; IXGBE_ILLERRC; IXGBE_ERRBC; IXGBE_MSPDC] ++
  (IXGBE_MPC <$> seqZ 0 8) ++
  [IXGBE_MLFC; IXGBE_MRFC; IXGBE_RLEC; IXGBE_LXONTXC; IXGBE_LXOFFTXC; IXGBE_LXONRXCNT; IXGBE_LXOFFRXCNT] ++
  flat_map (fun i => [IXGBE_PXONTXC i; IXGBE_PXOFFTXC i; IXGBE_PXONRXCNT i; IXGBE_PXOFFRXCNT i]) (seqZ 0 8) ++
  (IXGBE_PXON2OFFCNT <$> seqZ 0 8) ++
  [IXGBE_PRC64; IXGBE_PRC127; IXGBE_PRC255; IXGBE_PRC511; IXGBE_PRC1023; IXGBE_PRC1522;
   IXGBE_GPRC; IXGBE_BPRC; IXGBE_MPRC; IXGBE_GPTC; IXGBE_GORCL; IXGBE_GORCH; IXGBE_GOTCL; IXGBE_GOTCH;
   IXGBE_RUC; IXGBE_RFC; IXGBE_ROC; IXGBE_RJC; IXGBE_MNGPRC; IXGBE_MNGPDC; IXGBE_MNGPTC; IXGBE_TORL; IXGBE_TORH;
   IXGBE_TPR; IXGBE_TPT; IXGBE_PTC64; IXGBE_PTC127; IXGBE_PTC255; IXGBE_PTC511; IXGBE_PTC1023; IXGBE_PTC1522;
   IXGBE_MPTC; IXGBE_BPTC] ++
  flat_map (fun i => [IXGBE_QPRC i; IXGBE_QPTC i; IXGBE_QBRC_L i; IXGBE_QBRC_H i; IXGBE_QBTC_L i; IXGBE_QBTC_H i;
                      IXGBE_QPRDC i]) (seqZ 0 16).

Definition ixmap_clear_hw_cntrs : Hw D Z :=
  (fix go l := match l with [] => mret tt | r :: l => IXGBE_READ_REG r ;; go l end) hw_cntrs ;; mret 0.

Definition ixmap_clear_vfta : Hw D Z :=
  n ← get (fun h => mac_vft_size (hw_mac h));
  for_range (Z.to_nat n) 0 (fun offset => IXGBE_WRITE_REG (IXGBE_VFTA offset) 0) ;;
  for_range (Z.to_nat IXGBE_VLVF_ENTRIES) 0 (fun offset =>
    IXGBE_WRITE_REG (IXGBE_VLVF offset) 0 ;;
    IXGBE_WRITE_REG (IXGBE_VLVFB (offset * 2)) 0 ;;
    IXGBE_WRITE_REG (IXGBE_VLVFB (offset * 2 + 1)) 0) ;;
  mret 0.

Definition ixmap_init_uta_tables : Hw D Z :=
  for_range 128 0 (fun i => IXGBE_WRITE_REG (IXGBE_UTA i) 0) ;; mret 0.

(** ** Starting *)

Definition ixmap_start_hw : Hw D unit :=
  m ← get ixmap_get_media_type_82599;
  upd_phy (set_phy_media_type m) ;;
  ixmap_clear_vfta ;;
  ixmap_clear_hw_cntrs ;;
  modify_reg IXGBE_CTRL_EXT (fun v => Z.lor v IXGBE_CTRL_EXT_NS_DIS) ;;
  IXGBE_WRITE_FLUSH ;;
  put (set_hw_adapter_stopped false).

Definition ixmap_start_hw_gen2 : Hw D unit :=
  mac ← get hw_mac;
  for_range (Z.to_nat (mac_max_tx_queues mac)) 0 (fun i =>
    IXGBE_WRITE_REG IXGBE_RTTDQSEL i ;; IXGBE_WRITE_REG IXGBE_RTTBCNRC 0) ;;
  IXGBE_WRITE_FLUSH ;;
  for_range (Z.to_nat (mac_max_tx_queues mac)) 0 (fun i =>
    modify_reg (IXGBE_DCA_TXCTRL_82599 i) (fun v => Z.land v (not32 IXGBE_DCA_TXCTRL_DESC_WRO_EN))) ;;
  for_range (Z.to_nat (mac_max_rx_queues mac)) 0 (fun i =>
    modify_reg (IXGBE_DCA_RXCTRL i)
      (fun v => Z.land v (not32 (Z.lor IXGBE_DCA_RXCTRL_DATA_WRO_EN IXGBE_DCA_RXCTRL_HEAD_WRO_EN)))).

(** ** Links *)

(** The loop that waits for the link; the register is read once more after each
    round without one. *)
Fixpoint link_up_loop (n : nat) (links_reg : Z) (link_up : bool) : Hw D (Z * bool) :=
  match n with
  | O => mret (links_reg, link_up)
  | S n =>
      if bits links_reg IXGBE_LINKS_UP then mret (links_reg, true)
      else
        msleep 100 ;;
        links_reg ← IXGBE_READ_REG IXGBE_LINKS;
        link_up_loop n links_reg false
  end.

(** The speed and whether the link is up. *)
Definition ixmap_check_mac_link (link_up_wait_to_complete : bool) : Hw D (Z * bool) :=
  IXGBE_READ_REG IXGBE_LINKS ;;
  links_reg ← IXGBE_READ_REG IXGBE_LINKS;
  '(links_reg, link_up) ←
    (if link_up_wait_to_complete then link_up_loop (Z.to_nat IXGBE_LINK_UP_TIME) links_reg false
     else mret (links_reg, bits links_reg IXGBE_LINKS_UP));
  let speed := Z.land links_reg IXGBE_LINKS_SPEED_82599 in
  mret (if speed =? IXGBE_LINKS_SPEED_10G_82599 then IXGBE_LINK_SPEED_10GB_FULL
        else if speed =? IXGBE_LINKS_SPEED_1G_82599 then IXGBE_LINK_SPEED_1GB_FULL
        else if speed =? IXGBE_LINKS_SPEED_100_82599 then IXGBE_LINK_SPEED_100_FULL
        else IXGBE_LINK_SPEED_UNKNOWN, link_up).

Definition ixmap_device_supports_autoneg_fc : Hw D bool :=
  m ← get (fun h => phy_media_type (hw_phy h));
  match m with
  | ixmap_media_type_fiber =>
      '(speed, link_up) ← ixmap_check_mac_link false;
      mret (if link_up : bool then speed =? IXGBE_LINK_SPEED_1GB_FULL else true)
  | _ => mret false
  end.

Definition ixmap_setup_fc : Hw D unit :=
  mflcn_reg ← IXGBE_READ_REG IXGBE_MFLCN;
  fccfg_reg ← IXGBE_READ_REG IXGBE_FCCFG;
  IXGBE_WRITE_REG IXGBE_MFLCN
    (Z.lor (Z.land mflcn_reg (not32 (Z.lor IXGBE_MFLCN_RPFCE_MASK IXGBE_MFLCN_RFCE))) IXGBE_MFLCN_DPF) ;;
  IXGBE_WRITE_REG IXGBE_FCCFG
    (Z.land fccfg_reg (not32 (Z.lor IXGBE_FCCFG_TFCE_802_3X IXGBE_FCCFG_TFCE_PRIORITY))).

Definition ixmap_set_lan_id_multi_port_pcie : Hw D unit :=
  reg ← IXGBE_READ_REG IXGBE_STATUS;
  let lan_id := u16 (Z.shiftr (Z.land reg IXGBE_STATUS_LAN_ID) IXGBE_STATUS_LAN_ID_SHIFT) in
  reg ← IXGBE_READ_REG IXGBE_FACTPS;
  put (set_hw_bus (BusInfo (if bits reg IXGBE_FACTPS_LFS then Z.lxor lan_id 1 else lan_id) lan_id)).

(** ** Addresses *)

Definition ixmap_get_mac_addr : Hw D (list Z) :=
  rar_high ← IXGBE_READ_REG (IXGBE_RAH 0);
  rar_low ← IXGBE_READ_REG (IXGBE_RAL 0);
  mret (((fun i => u8 (Z.shiftr rar_low (i * 8))) <$> seqZ 0 4) ++
        ((fun i => u8 (Z.shiftr rar_high (i * 8))) <$> seqZ 0 2)).

Definition ixmap_set_rar (index : Z) (addr : list Z) (vmdq enable_addr : Z) : Hw D Z :=
  rar_entries ← get (fun h => mac_num_rar_entries (hw_mac h));
  if rar_entries <=? index then mret IXGBE_ERR_INVALID_ARGUMENT
  else
    let a := view_of addr in
    let rar_low := Z.lor (Z.lor (Z.lor (a 0%nat) (Z.shiftl (a 1%nat) 8)) (Z.shiftl (a 2%nat) 16))
                     (Z.shiftl (a 3%nat) 24) in
    rar_high ← IXGBE_READ_REG (IXGBE_RAH index);
    let rar_high := Z.land rar_high (not32 (Z.lor 0x0000FFFF IXGBE_RAH_AV)) in
    let rar_high := Z.lor rar_high (Z.lor (a 4%nat) (Z.shiftl (a 5%nat) 8)) in
    let rar_high := if negb (enable_addr =? 0) then Z.lor rar_high IXGBE_RAH_AV else rar_high in
    IXGBE_WRITE_REG (IXGBE_RAL index) rar_low ;;
    IXGBE_WRITE_REG (IXGBE_RAH index) rar_high ;;
    mret 0.

Definition ixmap_init_rx_addrs : Hw D Z :=
  mac ← get hw_mac;
  (if ixmap_validate_mac_addr (mac_addr mac) =? IXGBE_ERR_INVALID_MAC_ADDR then
     addr ← ixmap_get_mac_addr; upd_mac (set_mac_addr addr)
   else ixmap_set_rar 0 (mac_addr mac) 0 IXGBE_RAH_AV ;; mret tt) ;;
  for_range (Z.to_nat (mac_num_rar_entries mac - 1)) 1 (fun i =>
    IXGBE_WRITE_REG (IXGBE_RAL i) 0 ;; IXGBE_WRITE_REG (IXGBE_RAH i) 0) ;;
  IXGBE_WRITE_REG IXGBE_MCSTCTRL (mac_mc_filter_type mac) ;;
  for_range (Z.to_nat (mac_mcft_size mac)) 0 (fun i => IXGBE_WRITE_REG (IXGBE_MTA i) 0) ;;
  ixmap_init_uta_tables ;;
  mret 0.

(** ** Stopping *)

Definition ixmap_pcie_timeout_poll : Hw D Z :=
  v ← ixmap_read_pci_cfg_word IXGBE_PCI_DEVICE_CONTROL2;
  let devctl2 := Z.land v IXGBE_PCIDEVCTRL2_TIMEO_MASK in
  let pollcnt :=
    if devctl2 =? IXGBE_PCIDEVCTRL2_65_130ms then 1300
    else if devctl2 =? IXGBE_PCIDEVCTRL2_260_520ms then 5200
    else if devctl2 =? IXGBE_PCIDEVCTRL2_1_2s then 20000
    else if devctl2 =? IXGBE_PCIDEVCTRL2_4_8s then 80000
    else if devctl2 =? IXGBE_PCIDEVCTRL2_17_34s then 34000
    else 800 in
  mret (pollcnt * 11 / 10).

Definition ixmap_disable_pcie_master : Hw D Z :=
  IXGBE_WRITE_REG IXGBE_CTRL IXGBE_CTRL_GIO_DIS ;;
  v ← IXGBE_READ_REG IXGBE_STATUS;
  addr ← get hw_addr;
  if negb (bits v IXGBE_STATUS_GIO) || IXGBE_REMOVED addr then mret 0
  else
    r ← attempts (Z.to_nat IXGBE_PCI_MASTER_DISABLE_TIMEOUT)
          (udelay 100 ;;
           v ← IXGBE_READ_REG IXGBE_STATUS;
           mret (if bits v IXGBE_STATUS_GIO then None else Some tt));
    match r with
    | Some _ => mret 0
    | None =>
        upd_mac (fun m => set_mac_flags (Z.lor (mac_flags m) IXGBE_FLAGS_DOUBLE_RESET_REQUIRED) m) ;;
        poll ← ixmap_pcie_timeout_poll;
        r ← attempts (Z.to_nat poll)
              (udelay 100 ;;
               value ← ixmap_read_pci_cfg_word IXGBE_PCI_DEVICE_STATUS;
               addr ← get hw_addr;
               mret (if IXGBE_REMOVED addr then Some tt
                     else if bits value IXGBE_PCI_DEVICE_STATUS_TRANSACTION_PENDING then None else Some tt));
        mret (match r with Some _ => 0 | None => IXGBE_ERR_MASTER_REQUESTS_PENDING end)
    end.

Definition ixmap_stop_adapter : Hw D Z :=
  put (set_hw_adapter_stopped true) ;;
  IXGBE_WRITE_REG IXGBE_RXCTRL 0 ;;
  IXGBE_WRITE_REG IXGBE_EIMC IXGBE_IRQ_CLEAR_MASK ;;
  IXGBE_READ_REG IXGBE_EICR ;;
  mac ← get hw_mac;
  for_range (Z.to_nat (mac_max_tx_queues mac)) 0 (fun i =>
    IXGBE_WRITE_REG (IXGBE_TXDCTL i) IXGBE_TXDCTL_SWFLSH) ;;
  for_range (Z.to_nat (mac_max_rx_queues mac)) 0 (fun i =>
    modify_reg (IXGBE_RXDCTL i) (fun v => Z.lor (Z.land v (not32 IXGBE_RXDCTL_ENABLE)) IXGBE_RXDCTL_SWFLSH)) ;;
  IXGBE_WRITE_FLUSH ;;
  msleep 2 ;;
  ixmap_disable_pcie_master.

Definition ixmap_clear_tx_pending : Hw D unit :=
  flags ← get (fun h => mac_flags (hw_mac h));
  if negb (bits flags IXGBE_FLAGS_DOUBLE_RESET_REQUIRED) then mret tt
  else
    hlreg0 ← IXGBE_READ_REG IXGBE_HLREG0;
    IXGBE_WRITE_REG IXGBE_HLREG0 (Z.lor hlreg0 IXGBE_HLREG0_LPBK) ;;
    gcr_ext ← IXGBE_READ_REG IXGBE_GCR_EXT;
    IXGBE_WRITE_REG IXGBE_GCR_EXT (Z.lor gcr_ext IXGBE_GCR_EXT_BUFFERS_CLEAR) ;;
    IXGBE_WRITE_FLUSH ;;
    udelay 20 ;;
    IXGBE_WRITE_REG IXGBE_GCR_EXT gcr_ext ;;
    IXGBE_WRITE_REG IXGBE_HLREG0 hlreg0.

Definition ixmap_get_pcie_msix_count : Hw D Z :=
  type ← get (fun h => mac_type (hw_mac h));
  match type with
  | ixmap_mac_82599EB =>
      v ← ixmap_read_pci_cfg_word IXGBE_PCIE_MSIX_82599_CAPS;
      addr ← get hw_addr;
      let msix_count := u16 (Z.land (if IXGBE_REMOVED addr then 0 else v) IXGBE_PCIE_MSIX_TBL_SZ_MASK + 1) in
      mret (if IXGBE_MAX_MSIX_VECTORS_82599 <? msix_count then IXGBE_MAX_MSIX_VECTORS_82599 else msix_count)
  | _ => mret 1
  end.

(** ** The mailbox of the firmware *)

(** Words of a buffer; out of bounds they are undefined. *)
Definition get_word (buf : list Z) (i : Z) : Hw D Z :=
  match load buf i with Some v => mret v | None => hw_undefined end.
Definition put_word (buf : list Z) (i v : Z) : Hw D (list Z) :=
  match store buf i v with Some b => mret b | None => hw_undefined end.

Definition sizeof_hic_hdr : Z := 4.

(** The loop that writes the command. *)
Definition hic_write (buffer : list Z) (dword_len : Z) : Hw D unit :=
  for_range (Z.to_nat dword_len) 0 (fun i =>
    v ← get_word buffer i; IXGBE_WRITE_REG_ARRAY IXGBE_FLEX_MNG i v).

(** The loops that read the answer. *)
Fixpoint hic_read (n : nat) (bi : Z) (buffer : list Z) : Hw D (list Z) :=
  match n with
  | O => mret buffer
  | S n =>
      v ← IXGBE_READ_REG_ARRAY IXGBE_FLEX_MNG bi;
      buffer ← put_word buffer bi v;
      hic_read n (bi + 1) buffer
  end.

(** The result and the buffer, whose second byte is [hdr.buf_len]. *)
Definition ixmap_host_interface_command (buffer : list Z) (length : Z) : Hw D (Z * list Z) :=
  if (length =? 0) || bits length 0x3 || (IXGBE_HI_MAX_BLOCK_BYTE_LENGTH <? length)
  then mret (IXGBE_ERR_HOST_INTERFACE_COMMAND, buffer)
  else
    hicr ← IXGBE_READ_REG IXGBE_HICR;
    if Z.land hicr IXGBE_HICR_EN =? 0 then mret (IXGBE_ERR_HOST_INTERFACE_COMMAND, buffer)
    else
      hic_write buffer (u8 (Z.shiftr length 2)) ;;
      IXGBE_WRITE_REG IXGBE_HICR (Z.lor hicr IXGBE_HICR_C) ;;
      r ← attempts (Z.to_nat IXGBE_HI_COMMAND_TIMEOUT)
            (hicr ← IXGBE_READ_REG IXGBE_HICR;
             if bits hicr IXGBE_HICR_C then msleep 1 ;; mret None else mret (Some tt));
      ok ← match r with
           | None => mret false
           | Some _ => v ← IXGBE_READ_REG IXGBE_HICR; mret (bits v IXGBE_HICR_SV)
           end;
      if negb ok then mret (IXGBE_ERR_HOST_INTERFACE_COMMAND, buffer)
      else
        let dword_len := Z.shiftr sizeof_hic_hdr 2 in
        buffer ← hic_read (Z.to_nat dword_len) 0 buffer;
        w ← get_word buffer 0;
        let buf_len := byte_at w 1 in
        if buf_len =? 0 then mret (0, buffer)
        else if length <? buf_len + sizeof_hic_hdr then mret (IXGBE_ERR_HOST_INTERFACE_COMMAND, buffer)
        else
          let bi := dword_len in
          let dword_len := u8 (Z.shiftr (buf_len + 3) 2) in
          buffer ← hic_read (Z.to_nat (dword_len + 1 - bi)) bi buffer;
          mret (0, buffer).

(** [struct ixmap_hic_drv_info] as words. *)
Definition drv_info (checksum port_num maj min build sub : Z) : list Z :=
  let b := [FW_CEM_CMD_DRIVER_INFO; FW_CEM_CMD_DRIVER_INFO_LEN; FW_CEM_CMD_RESERVED; checksum;
            port_num; sub; build; min; maj; 0; 0; 0] in
  load32 (view_of b) <$> [0; 1; 2]%nat.

Definition drv_checksum (port_num maj min build sub : Z) : Z :=
  ixmap_calculate_checksum
    (Some [FW_CEM_CMD_DRIVER_INFO; FW_CEM_CMD_DRIVER_INFO_LEN; FW_CEM_CMD_RESERVED; 0;
           port_num; sub; build; min; maj])
    (Z.to_nat (FW_CEM_HDR_LEN + FW_CEM_CMD_DRIVER_INFO_LEN)).

(** The attempts, each with the buffer the one before has left. *)
Fixpoint drv_loop (n : nat) (ret_val : Z) (buffer : list Z) : Hw D Z :=
  match n with
  | O => mret ret_val
  | S n =>
      '(ret_val, buffer) ← ixmap_host_interface_command buffer 12;
      if negb (ret_val =? 0) then drv_loop n ret_val buffer
      else
        w ← get_word buffer 0;
        mret (if byte_at w 2 =? FW_CEM_RESP_STATUS_SUCCESS then 0 else IXGBE_ERR_HOST_INTERFACE_COMMAND)
  end.

Definition ixmap_set_fw_drv_ver (maj min build sub : Z) : Hw D Z :=
  r ← ixmap_acquire_swfw_sync IXGBE_GSSR_SW_MNG_SM;
  if negb (r =? 0) then mret IXGBE_ERR_SWFW_SYNC
  else
    func ← get (fun h => bus_func (hw_bus h));
    let port_num := u8 func in
    ret_val ← drv_loop (Z.to_nat (FW_CEM_MAX_RETRIES + 1)) 0
                (drv_info (drv_checksum port_num maj min build sub) port_num maj min build sub);
    ixmap_release_swfw_sync IXGBE_GSSR_SW_MNG_SM ;;
    mret ret_val.

End Common.
