(* ===== verification/RegCard.v ===== *)
(** * Registers that hold what is written to them

    Most configuration registers of the card do.  [RegCard] is the interface of a
    card for which a set of registers, the plain ones, is known to; of all others
    nothing is assumed.  [Regs h f] says that the driver's data is [h] and the
    plain registers hold [f]. *)

From stdpp Require Import prelude list.
From S2P Require Import Prelude HwRegs Hw HwLogic Common.

Class RegCard (D : Type) `{Device D} := {
  plain : Z -> Prop;
  reg : D -> Z -> Z;
  reg_read r d : plain r -> u32 (readl r d).1 = reg d r;
  reg_read_keep r' d r : plain r -> reg (readl r' d).2 r = reg d r;
  reg_write r v d : plain r -> 0 <= v < 2 ^ 32 -> reg (writel r v d) r = v;
  reg_write_keep r' v d r : plain r -> r' <> r -> reg (writel r' v d) r = reg d r;
  reg_delay t d r : plain r -> reg (delay t d) r = reg d r;
  reg_cfg r' d r : plain r -> reg (pci_read_config_word r' d).2 r = reg d r
}.

Definition upd (f : Z -> Z) (r v : Z) : Z -> Z := fun r' => if r' =? r then v else f r'.

Lemma upd_here f r v : upd f r v r = v.
Proof. unfold upd. by rewrite Z.eqb_refl. Qed.
Lemma upd_there f r v r' : r' <> r -> upd f r v r' = f r'.
Proof. unfold upd. intros Hr. by rewrite (proj2 (Z.eqb_neq _ _) Hr). Qed.

Section Rules.

Context {D : Type} `{Device D} `{!RegCard D}.

Notation st := (ixmap_hw * D)%type.

Definition Regs (h : ixmap_hw) (f : Z -> Z) (s : st) : Prop :=
  s.1 = h /\ hw_addr h <> 0 /\ forall r, plain r -> reg s.2 r = f r.

Lemma g_read r h f :
  runs (Regs h f) (IXGBE_READ_REG r) (fun v s => (0 <= v < 2 ^ 32 /\ (plain r -> v = f r)) /\ Regs h f s).
Proof.
  intros [h' d] (E & Ha & Hf). cbn in E, Hf. subst h'. unfold IXGBE_READ_REG, IXGBE_REMOVED. cbn [fst snd].
  rewrite (proj2 (Z.eqb_neq _ _) Ha). pose proof (reg_read r d) as Hr. pose proof (fun r' => reg_read_keep r d r') as Hk.
  destruct (readl r d) as [v d']. cbn [fst snd] in Hr, Hk. exists (u32 v), (h, d'). split; [done|]. split; [split|].
  - apply Z.mod_pos_bound. lia.
  - intros Hp. rewrite Hr by done. by apply Hf.
  - split; [done|]. split; [done|]. intros r' Hp. cbn. rewrite Hk by done. by apply Hf.
Qed.

Lemma g_write r v h f : runs (Regs h f) (IXGBE_WRITE_REG r v) (fun _ => Regs h (upd f r (u32 v))).
Proof.
  intros [h' d] (E & Ha & Hf). cbn in E, Hf. subst h'. unfold IXGBE_WRITE_REG, IXGBE_REMOVED. cbn [fst snd].
  rewrite (proj2 (Z.eqb_neq _ _) Ha). eexists tt, _. split; [reflexivity|]. split; [done|]. split; [done|].
  intros r' Hp. cbn. destruct (decide (r' = r)) as [->|Hne].
  - rewrite upd_here. apply reg_write; [done|]. apply Z.mod_pos_bound. lia.
  - rewrite upd_there, reg_write_keep by done. by apply Hf.
Qed.

Lemma g_flush h f : runs (Regs h f) IXGBE_WRITE_FLUSH (fun _ => Regs h f).
Proof. eapply r_bind; [apply g_read|]. intros v. apply r_pure. intros _. by apply r_ret. Qed.

Lemma g_udelay t h f : runs (Regs h f) (udelay t) (fun _ => Regs h f).
Proof.
  intros [h' d] (E & Ha & Hf). cbn in E, Hf. eexists tt, _. split; [reflexivity|]. split; [done|]. split; [done|].
  intros r Hp. cbn. rewrite reg_delay by done. by apply Hf.
Qed.

Lemma g_cfg r h f : runs (Regs h f) (ixmap_read_pci_cfg_word r) (fun v s => 0 <= v < 2 ^ 16 /\ Regs h f s).
Proof.
  intros [h' d] (E & Ha & Hf). cbn in E, Hf. subst h'. unfold ixmap_read_pci_cfg_word. cbn [fst snd].
  rewrite (proj2 (Z.eqb_neq _ _) Ha). pose proof (fun r' => reg_cfg r d r') as Hk.
  destruct (pci_read_config_word r d) as [v d']. cbn [fst snd] in Hk. eexists _, _. split; [reflexivity|]. split.
  - apply Z.mod_pos_bound. lia.
  - split; [done|]. split; [done|]. intros r' Hp. cbn. rewrite Hk by done. by apply Hf.
Qed.

Lemma g_get {A} (g : ixmap_hw -> A) h f : runs (Regs h f) (get g) (fun y s => y = g h /\ Regs h f s).
Proof. intros [h' d] (E & Ha & Hf). cbn in E. subst h'. eexists _, _. by split. Qed.

Lemma g_put (g : ixmap_hw -> ixmap_hw) h f :
  hw_addr (g h) = hw_addr h -> runs (Regs h f) (put g) (fun _ => Regs (g h) f).
Proof.
  intros Hg [h' d] (E & Ha & Hf). cbn in E, Hf. subst h'. eexists tt, _. split; [reflexivity|].
  split; [done|]. split; [by rewrite Hg|done].
Qed.

Lemma g_modify r g h f :
  plain r -> runs (Regs h f) (modify_reg r g) (fun _ => Regs h (upd f r (u32 (g (f r))))).
Proof.
  intros Hp. eapply r_bind; [apply g_read|]. intros v. apply r_pure. intros [_ ->]; [|done]. apply g_write.
Qed.

(** A loop that changes registers, described by what is known of them. *)
Lemma g_for n start body h (I : Z -> (Z -> Z) -> Prop) f :
  I start f ->
  (forall i f, start <= i < start + Z.of_nat n -> I i f ->
     runs (Regs h f) (body i) (fun _ s => exists f', I (i + 1) f' /\ Regs h f' s)) ->
  runs (Regs h f) (for_range n start body) (fun _ s => exists f', I (start + Z.of_nat n) f' /\ Regs h f' s).
Proof.
  intros H0 Hb. eapply r_weaken; [apply (r_for_range n start body (fun i s => exists f, I i f /\ Regs h f s))|..].
  - intros i Hi s (f' & HI & Hs). by apply (Hb i f' Hi HI s).
  - intros s Hs. by exists f.
  - done.
Qed.

(** A state in which something is known of the registers. *)
Lemma r_exists {A B} (P : B -> st -> Prop) (m : Hw D A) Q :
  (forall y, runs (P y) m Q) -> runs (fun s => exists y, P y s) m Q.
Proof. intros Hm s (y & Hs). by apply (Hm y s). Qed.

End Rules.

Create HintDb regs.
#[export] Hint Resolve g_read g_write g_flush g_udelay g_cfg g_get : regs.

Ltac g_step :=
  lazymatch goal with
  | |- runs _ (_ ≫= _) _ =>
      eapply r_bind; [solve [eauto 1 with regs]|]; intros ?; cbv beta; repeat (apply r_pure; intros ?)
  end.

(** ** A card all registers of which are plain *)

Record reg_file := RegFile { rf : Z -> Z }.

#[export] Instance reg_file_device : Device reg_file := {
  readl r d := (rf d r, d);
  writel r v d := RegFile (upd (rf d) r v);
  delay _ d := d;
  pci_read_config_word _ d := (0, d)
}.

#[export] Program Instance reg_file_card : RegCard reg_file := {
  plain _ := True;
  reg d r := u32 (rf d r)
}.
Next Obligation. done. Qed.
Next Obligation. done. Qed.
Next Obligation. intros r v d _ Hv. cbn. rewrite upd_here. by apply Z.mod_small. Qed.
Next Obligation. intros r' v d r _ Hr. cbn. by rewrite upd_there by congruence. Qed.
Next Obligation. done. Qed.
Next Obligation. done. Qed.
