(* ===== verification/Init.v ===== *)
(** * Programming a port (src/lib/rxinit.c, src/lib/txinit.c, src/lib/ixmap.c)

    What the library writes to the registers of a card, through the mapping of
    [ixmap_open], once the rings are allocated: the receive side, the transmit
    side and the interrupt mask.  The card is any [Device]; the handle is that of
    [Plane].  [None] is an access beyond the array of rings. *)

From stdpp Require Import prelude list.
From S2P Require Import Prelude Mem Driver Plane Main Hw.

(** ** Registers and masks (lib/rxinit.h, lib/txinit.h, lib/ixmap.h) *)

Definition VLAN_HLEN : Z := 4.
Definition ETH_FCS_LEN : Z := 4.
Definition ETH_FRAME_LEN : Z := 1514.
Definition DMA_BIT_MASK (n : Z) : Z := if n =? 64 then 2 ^ 64 - 1 else 2 ^ n - 1.
Definition IXGBE_MAX_RX_DESC_POLL : nat := 10.
Definition IXGBE_MAX_RXBUFFER : Z := 16384.

Definition IXGBE_RDBAL (i : Z) : Z := 0x01000 + i * 0x40.
Definition IXGBE_RDBAH (i : Z) : Z := 0x01004 + i * 0x40.
Definition IXGBE_RDLEN (i : Z) : Z := 0x01008 + i * 0x40.
Definition IXGBE_RDH (i : Z) : Z := 0x01010 + i * 0x40.
Definition IXGBE_RDT (i : Z) : Z := 0x01018 + i * 0x40.
Definition IXGBE_RXDCTL (i : Z) : Z := 0x01028 + i * 0x40.
Definition IXGBE_SRRCTL (i : Z) : Z := 0x02100 + i * 4.
Definition IXGBE_RDRXCTL : Z := 0x02F00.
Definition IXGBE_RXCTRL : Z := 0x03000.
Definition IXGBE_RSCDBU : Z := 0x03028.
Definition IXGBE_HLREG0 : Z := 0x04240.
Definition IXGBE_MHADD : Z := 0x04268.
Definition IXGBE_RXCSUM : Z := 0x05000.
Definition IXGBE_RFCTL : Z := 0x05008.
Definition IXGBE_FCTRL : Z := 0x05080.
Definition IXGBE_VLNCTRL : Z := 0x05088.
Definition IXGBE_PSRTYPE : Z := 0x05480.
Definition IXGBE_MRQC : Z := 0x05818.
Definition IXGBE_RETA (i : Z) : Z := 0x05C00 + i * 4.
Definition IXGBE_RSSRK (i : Z) : Z := 0x05C80 + i * 4.
Definition IXGBE_PFDTXGSWC : Z := 0x08220.
Definition IXGBE_VMOLR : Z := 0x0F000.

Definition IXGBE_RXCTRL_RXEN : Z := 0x00000001.
Definition IXGBE_RXDCTL_ENABLE : Z := 0x02000000.
Definition IXGBE_SRRCTL_BSIZEPKT_SHIFT : Z := 10.
Definition IXGBE_SRRCTL_DESCTYPE_ADV_ONEBUF : Z := 0x02000000.
Definition IXGBE_SRRCTL_DROP_EN : Z := 0x10000000.
Definition IXGBE_RDRXCTL_CRCSTRIP : Z := 0x00000002.
Definition IXGBE_RDRXCTL_RSCFRSTSIZE : Z := 0x003E0000.
Definition IXGBE_RSCDBU_RSCACKDIS : Z := 0x00000080.
Definition IXGBE_HLREG0_JUMBOEN : Z := 0x00000004.
Definition IXGBE_MHADD_MFS_MASK : Z := 0xFFFF0000.
Definition IXGBE_MHADD_MFS_SHIFT : Z := 16.
Definition IXGBE_RXCSUM_PCSD : Z := 0x00002000.
Definition IXGBE_RFCTL_RSC_DIS : Z := 0x00000020.
Definition IXGBE_FCTRL_MPE : Z := 0x00000100.
Definition IXGBE_FCTRL_UPE : Z := 0x00000200.
Definition IXGBE_FCTRL_BAM : Z := 0x00000400.
Definition IXGBE_FCTRL_PMCF : Z := 0x00001000.
Definition IXGBE_FCTRL_DPF : Z := 0x00002000.
Definition IXGBE_VLNCTRL_CFIEN : Z := 0x20000000.
Definition IXGBE_VLNCTRL_VFE : Z := 0x40000000.
Definition IXGBE_PSRTYPE_TCPHDR : Z := 0x00000010.
Definition IXGBE_PSRTYPE_UDPHDR : Z := 0x00000020.
Definition IXGBE_PSRTYPE_IPV4HDR : Z := 0x00000100.
Definition IXGBE_PSRTYPE_IPV6HDR : Z := 0x00000200.
Definition IXGBE_PSRTYPE_L2HDR : Z := 0x00001000.
Definition IXGBE_MRQC_RSSEN : Z := 0x00000001.
Definition IXGBE_MRQC_RSS_FIELD_IPV4_TCP : Z := 0x00010000.
Definition IXGBE_MRQC_RSS_FIELD_IPV4 : Z := 0x00020000.
Definition IXGBE_MRQC_RSS_FIELD_IPV6 : Z := 0x00100000.
Definition IXGBE_MRQC_RSS_FIELD_IPV6_TCP : Z := 0x00200000.
Definition IXGBE_MRQC_RSS_FIELD_IPV4_UDP : Z := 0x00400000.
Definition IXGBE_MRQC_RSS_FIELD_IPV6_UDP : Z := 0x00800000.
Definition IXGBE_PFDTXGSWC_VT_LBEN : Z := 0x1.
Definition IXGBE_VMOLR_AUPE : Z := 0x01000000.
Definition IXGBE_VMOLR_ROMPE : Z := 0x02000000.
Definition IXGBE_VMOLR_ROPE : Z := 0x04000000.
Definition IXGBE_VMOLR_BAM : Z := 0x08000000.
Definition IXGBE_VMOLR_MPE : Z := 0x10000000.

Definition IXGBE_DMATXCTL : Z := 0x04A80.
Definition IXGBE_RTTDCS : Z := 0x04900.
Definition IXGBE_TDBAL (i : Z) : Z := 0x06000 + i * 0x40.
Definition IXGBE_TDBAH (i : Z) : Z := 0x06004 + i * 0x40.
Definition IXGBE_TDLEN (i : Z) : Z := 0x06008 + i * 0x40.
Definition IXGBE_TDH (i : Z) : Z := 0x06010 + i * 0x40.
Definition IXGBE_TDT (i : Z) : Z := 0x06018 + i * 0x40.
Definition IXGBE_TXDCTL (i : Z) : Z := 0x06028 + i * 0x40.
Definition IXGBE_TDWBAL (i : Z) : Z := 0x06038 + i * 0x40.
Definition IXGBE_TDWBAH (i : Z) : Z := 0x0603C + i * 0x40.
Definition IXGBE_MTQC : Z := 0x08120.
Definition IXGBE_DMATXCTL_TE : Z := 0x1.
Definition IXGBE_RTTDCS_ARBDIS : Z := 0x00000040.
Definition IXGBE_TXDCTL_ENABLE : Z := 0x02000000.
Definition IXGBE_TXDCTL_SWFLSH : Z := 0x04000000.
Definition IXGBE_MTQC_64Q_1PB : Z := 0x0.

Definition IXGBE_STATUS : Z := 0x00008.
Definition IXGBE_EIMS : Z := 0x00880.
Definition IXGBE_EIMS_RTX_QUEUE : Z := 0x0000FFFF.
Definition IXGBE_EIMS_LSC : Z := 0x00100000.
Definition IXGBE_EIMS_TCP_TIMER : Z := 0x40000000.
Definition IXGBE_EIMS_OTHER : Z := 0x80000000.
Definition IXGBE_EIMS_ENABLE_MASK : Z :=
  Z.lor (Z.lor (Z.lor IXGBE_EIMS_RTX_QUEUE IXGBE_EIMS_LSC) IXGBE_EIMS_TCP_TIMER) IXGBE_EIMS_OTHER.

(** ** Access to the card *)

Definition Lib (D A : Type) := handle * D -> option (A * (handle * D)).

#[export] Instance Lib_ret {D} : MRet (Lib D) := fun A x s => Some (x, s).
#[export] Instance Lib_bind {D} : MBind (Lib D) := fun A B f m s =>
  match m s with Some (x, s') => f x s' | None => None end.

Section Init.

Context {D : Type} `{Device D}.

Definition ih_get {A} (f : handle -> A) : Lib D A := fun s => Some (f s.1, s).
Definition ih_set (f : handle -> handle) : Lib D unit := fun s => Some (tt, (f s.1, s.2)).

Definition ixmap_read_reg (reg : Z) : Lib D Z := fun s =>
  let '(v, d) := readl reg s.2 in Some (u32 v, (s.1, d)).
Definition ixmap_write_reg (reg value : Z) : Lib D unit := fun s =>
  Some (tt, (s.1, writel reg (u32 value) s.2)).
Definition ixmap_write_flush : Lib D unit := ixmap_read_reg IXGBE_STATUS ;; mret tt.

(** [nanosleep], in microseconds *)
Definition nanosleep (usecs : Z) : Lib D unit := fun s => Some (tt, (s.1, delay usecs s.2)).

(** [for(i = start; i < start + n; i++)] *)
Fixpoint lib_for (n : nat) (start : Z) (body : Z -> Lib D unit) : Lib D unit :=
  match n with
  | O => mret tt
  | S n => body start ;; lib_for n (start + 1) body
  end.

(** [do { ... } while(--wait_loop && again)], for [wait_loop] at least one; the
    value [wait_loop] has then. *)
Fixpoint poll (wait_loop : nat) (usecs reg : Z) (again : Z -> bool) : Lib D nat :=
  match wait_loop with
  | O => mret O
  | S n =>
      nanosleep usecs ;;
      v ← ixmap_read_reg reg;
      if negb (Nat.eqb n 0) && again v then poll n usecs reg again else mret n
  end.

(** ** Receiving *)

Definition ixmap_set_rx_mode : Lib D unit :=
  let vmolr := Z.lor IXGBE_VMOLR_BAM IXGBE_VMOLR_AUPE in
  fctrl ← ixmap_read_reg IXGBE_FCTRL;
  vlnctrl ← ixmap_read_reg IXGBE_VLNCTRL;
  let fctrl := Z.lor (Z.lor (Z.lor fctrl IXGBE_FCTRL_BAM) IXGBE_FCTRL_DPF) IXGBE_FCTRL_PMCF in
  let fctrl := Z.land fctrl (not32 (Z.lor IXGBE_FCTRL_UPE IXGBE_FCTRL_MPE)) in
  let vlnctrl := Z.land vlnctrl (not32 (Z.lor IXGBE_VLNCTRL_VFE IXGBE_VLNCTRL_CFIEN)) in
  promisc ← ih_get h_promisc;
  let fctrl :=
    if negb (promisc =? 0) then Z.lor fctrl (Z.lor IXGBE_FCTRL_UPE IXGBE_FCTRL_MPE)
    else Z.lor fctrl IXGBE_FCTRL_MPE in
  let vmolr := Z.lor vmolr IXGBE_VMOLR_MPE in
  v ← ixmap_read_reg IXGBE_VMOLR;
  let vmolr :=
    Z.lor vmolr (Z.land v (not32 (Z.lor (Z.lor IXGBE_VMOLR_MPE IXGBE_VMOLR_ROMPE) IXGBE_VMOLR_ROPE))) in
  ixmap_write_reg IXGBE_VMOLR vmolr ;;
  ixmap_write_reg IXGBE_VLNCTRL vlnctrl ;;
  ixmap_write_reg IXGBE_FCTRL fctrl.

Definition ixmap_disable_rx : Lib D unit :=
  rxctrl ← ixmap_read_reg IXGBE_RXCTRL;
  if bits rxctrl IXGBE_RXCTRL_RXEN then
    ixmap_read_reg IXGBE_PFDTXGSWC ;;
    ixmap_write_reg IXGBE_RXCTRL (Z.land rxctrl (not32 IXGBE_RXCTRL_RXEN))
  else mret tt.

Definition ixmap_enable_rx : Lib D unit :=
  rxctrl ← ixmap_read_reg IXGBE_RXCTRL;
  ixmap_write_reg IXGBE_RXCTRL (Z.lor rxctrl IXGBE_RXCTRL_RXEN).

Definition ixmap_setup_psrtype : Lib D unit :=
  let psrtype := Z.lor (Z.lor (Z.lor (Z.lor IXGBE_PSRTYPE_TCPHDR IXGBE_PSRTYPE_UDPHDR) IXGBE_PSRTYPE_IPV4HDR)
    IXGBE_PSRTYPE_L2HDR) IXGBE_PSRTYPE_IPV6HDR in
  n ← ih_get h_num_queues;
  let psrtype :=
    if 3 <? n then Z.lor psrtype (Z.shiftl 2 29)
    else if 1 <? n then Z.lor psrtype (Z.shiftl 1 29) else psrtype in
  ixmap_write_reg IXGBE_PSRTYPE psrtype.

Definition ixmap_setup_rdrxctl : Lib D unit :=
  rdrxctl ← ixmap_read_reg IXGBE_RDRXCTL;
  v ← ixmap_read_reg IXGBE_RSCDBU;
  ixmap_write_reg IXGBE_RSCDBU (Z.lor IXGBE_RSCDBU_RSCACKDIS v) ;;
  ixmap_write_reg IXGBE_RDRXCTL
    (Z.lor (Z.land rdrxctl (not32 IXGBE_RDRXCTL_RSCFRSTSIZE)) IXGBE_RDRXCTL_CRCSTRIP).

Definition ixmap_setup_rfctl : Lib D unit :=
  rfctl ← ixmap_read_reg IXGBE_RFCTL;
  ixmap_write_reg IXGBE_RFCTL (Z.lor rfctl IXGBE_RFCTL_RSC_DIS).

Definition seed : list Z :=
  [0xE291D73D; 0x1805EC6C; 0x2A94B30D; 0xA54F2BEC; 0xEA49AF7C; 0xE214AD3D; 0xB855AABE; 0x6A3E67EA; 0x14364D17; 0x3BED200D].

(** The loop that fills the redirection table, with the loop's [i], [j] and
    [reta]. *)
Fixpoint reta_loop (n : nat) (num_queues i j reta : Z) : Lib D unit :=
  match n with
  | O => mret tt
  | S n =>
      let j := if j =? num_queues then 0 else j in
      let reta := u32 (Z.lor (Z.shiftl reta 8) j) in
      (if Z.land i 3 =? 3 then (if i <? 128 then ixmap_write_reg (IXGBE_RETA (Z.shiftr i 2)) reta else mret tt)
       else mret tt) ;;
      reta_loop n num_queues (i + 1) (j + 1) reta
  end.

Definition ixmap_setup_mrqc : Lib D unit :=
  lib_for 10 0 (fun i => ixmap_write_reg (IXGBE_RSSRK i) (nth (Z.to_nat i) seed 0)) ;;
  n ← ih_get h_num_queues;
  reta_loop 128 n 0 0 0 ;;
  rxcsum ← ixmap_read_reg IXGBE_RXCSUM;
  ixmap_write_reg IXGBE_RXCSUM (Z.lor rxcsum IXGBE_RXCSUM_PCSD) ;;
  ixmap_write_reg IXGBE_MRQC
    (Z.lor IXGBE_MRQC_RSSEN (Z.lor (Z.lor (Z.lor (Z.lor (Z.lor IXGBE_MRQC_RSS_FIELD_IPV4 IXGBE_MRQC_RSS_FIELD_IPV4_TCP)
       IXGBE_MRQC_RSS_FIELD_IPV4_UDP) IXGBE_MRQC_RSS_FIELD_IPV6) IXGBE_MRQC_RSS_FIELD_IPV6_TCP)
       IXGBE_MRQC_RSS_FIELD_IPV6_UDP)).

Definition ixmap_set_rx_buffer_len : Lib D unit :=
  ih ← ih_get (fun ih => ih);
  (if h_mtu_frame ih <? ETH_FRAME_LEN + ETH_FCS_LEN
   then ih_set (fun ih => set_frame (ETH_FRAME_LEN + ETH_FCS_LEN) (h_buf_size ih) ih) else mret tt) ;;
  mhadd ← ixmap_read_reg IXGBE_MHADD;
  mtu ← ih_get h_mtu_frame;
  (if negb (mtu =? Z.shiftr mhadd IXGBE_MHADD_MFS_SHIFT) then
     ixmap_write_reg IXGBE_MHADD
       (Z.lor (Z.land mhadd (not32 IXGBE_MHADD_MFS_MASK)) (Z.shiftl mtu IXGBE_MHADD_MFS_SHIFT))
   else mret tt) ;;
  ih_set (fun ih => set_frame (u32 (h_mtu_frame ih + VLAN_HLEN)) (h_buf_size ih) ih) ;;
  ih_set (fun ih => set_frame (h_mtu_frame ih) (ALIGN (h_mtu_frame ih) 1024) ih) ;;
  ih_set (fun ih => if IXGBE_MAX_RXBUFFER <? h_buf_size ih then set_frame (h_mtu_frame ih) IXGBE_MAX_RXBUFFER ih else ih) ;;
  hlreg0 ← ixmap_read_reg IXGBE_HLREG0;
  ixmap_write_reg IXGBE_HLREG0 (Z.lor hlreg0 IXGBE_HLREG0_JUMBOEN).

Definition ixmap_disable_rx_queue (reg_idx : Z) : Lib D unit :=
  rxdctl ← ixmap_read_reg (IXGBE_RXDCTL reg_idx);
  ixmap_write_reg (IXGBE_RXDCTL reg_idx) (Z.land rxdctl (not32 IXGBE_RXDCTL_ENABLE)) ;;
  poll IXGBE_MAX_RX_DESC_POLL 10 (IXGBE_RXDCTL reg_idx) (fun v => bits v IXGBE_RXDCTL_ENABLE) ;;
  mret tt.

Definition ixmap_configure_srrctl (reg_idx : Z) : Lib D unit :=
  size ← ih_get h_buf_size;
  n ← ih_get h_num_queues;
  let srrctl := Z.lor (Z.shiftr (ALIGN size 1024) IXGBE_SRRCTL_BSIZEPKT_SHIFT) IXGBE_SRRCTL_DESCTYPE_ADV_ONEBUF in
  let srrctl := if 1 <? n then Z.lor srrctl IXGBE_SRRCTL_DROP_EN else srrctl in
  ixmap_write_reg (IXGBE_SRRCTL reg_idx) srrctl.

Definition ixmap_rx_desc_queue_enable (reg_idx : Z) : Lib D unit :=
  poll IXGBE_MAX_RX_DESC_POLL 1000 (IXGBE_RXDCTL reg_idx) (fun v => negb (bits v IXGBE_RXDCTL_ENABLE)) ;;
  mret tt.

(** [ih->rx_ring[i]] and [ih->tx_ring[i]] *)
Definition ring_get (side : handle -> list hring) (i : Z) : Lib D hring := fun s =>
  match load (side s.1) i with Some r => Some (r, s) | None => None end.
Definition rx_tail (i tail : Z) : Lib D unit := fun s =>
  r ← load (h_rx s.1) i; l ← store (h_rx s.1) i (set_tail tail r); Some (tt, (with_rings l (h_tx s.1) s.1, s.2)).
Definition tx_tail (i tail : Z) : Lib D unit := fun s =>
  r ← load (h_tx s.1) i; l ← store (h_tx s.1) i (set_tail tail r); Some (tt, (with_rings (h_rx s.1) l s.1, s.2)).

(** [ring] is the ring with index [i]; [reg_idx] is [i] as a [uint8_t]. *)
Definition ixmap_configure_rx_ring (i : Z) : Lib D unit :=
  let reg_idx := u8 i in
  ring ← ring_get h_rx i;
  ih ← ih_get (fun ih => ih);
  let addr_dma := hr_dma ring in
  rxdctl ← ixmap_read_reg (IXGBE_RXDCTL reg_idx);
  ixmap_disable_rx_queue reg_idx ;;
  ixmap_write_reg (IXGBE_RDBAL reg_idx) (Z.land addr_dma (DMA_BIT_MASK 32)) ;;
  ixmap_write_reg (IXGBE_RDBAH reg_idx) (Z.shiftr addr_dma 32) ;;
  ixmap_write_reg (IXGBE_RDLEN reg_idx) (h_num_rx_desc ih * sizeof_adv_desc) ;;
  ixmap_write_reg (IXGBE_RDH reg_idx) 0 ;;
  ixmap_write_reg (IXGBE_RDT reg_idx) 0 ;;
  rx_tail i (h_bar ih + IXGBE_RDT reg_idx) ;;
  ixmap_configure_srrctl reg_idx ;;
  ixmap_write_reg (IXGBE_RXDCTL reg_idx) (Z.lor rxdctl IXGBE_RXDCTL_ENABLE) ;;
  ixmap_rx_desc_queue_enable reg_idx.

Definition ixmap_configure_rx : Lib D unit :=
  ixmap_set_rx_mode ;;
  ixmap_disable_rx ;;
  ixmap_setup_psrtype ;;
  ixmap_setup_rdrxctl ;;
  ixmap_setup_rfctl ;;
  ixmap_setup_mrqc ;;
  ixmap_set_rx_buffer_len ;;
  n ← ih_get h_num_queues;
  lib_for (Z.to_nat n) 0 ixmap_configure_rx_ring ;;
  ixmap_enable_rx.

(** ** Transmitting *)

Definition ixmap_setup_mtqc : Lib D unit :=
  rttdcs ← ixmap_read_reg IXGBE_RTTDCS;
  let rttdcs := Z.lor rttdcs IXGBE_RTTDCS_ARBDIS in
  ixmap_write_reg IXGBE_RTTDCS rttdcs ;;
  ixmap_write_reg IXGBE_MTQC IXGBE_MTQC_64Q_1PB ;;
  ixmap_write_reg IXGBE_RTTDCS (Z.land rttdcs (not32 IXGBE_RTTDCS_ARBDIS)).

(** TXDCTL of a queue that is used. *)
Definition txdctl_value (num_interrupt_rate : Z) : Z :=
  let txdctl := Z.lor IXGBE_TXDCTL_ENABLE (if num_interrupt_rate <? 8 then Z.shiftl 1 16 else Z.shiftl 8 16) in
  Z.lor txdctl (Z.lor (Z.shiftl 1 8) 32).

Definition ixmap_configure_tx_ring (i : Z) : Lib D unit :=
  let reg_idx := u8 i in
  ring ← ring_get h_tx i;
  ih ← ih_get (fun ih => ih);
  let addr_dma := hr_dma ring in
  ixmap_write_reg (IXGBE_TXDCTL reg_idx) IXGBE_TXDCTL_SWFLSH ;;
  ixmap_write_flush ;;
  ixmap_write_reg (IXGBE_TDBAL reg_idx) (Z.land addr_dma (DMA_BIT_MASK 32)) ;;
  ixmap_write_reg (IXGBE_TDBAH reg_idx) (Z.shiftr addr_dma 32) ;;
  ixmap_write_reg (IXGBE_TDLEN reg_idx) (h_num_tx_desc ih * sizeof_adv_desc) ;;
  ixmap_write_reg (IXGBE_TDWBAH reg_idx) 0 ;;
  ixmap_write_reg (IXGBE_TDWBAL reg_idx) 0 ;;
  ixmap_write_reg (IXGBE_TDH reg_idx) 0 ;;
  ixmap_write_reg (IXGBE_TDT reg_idx) 0 ;;
  tx_tail i (h_bar ih + IXGBE_TDT reg_idx) ;;
  ixmap_write_reg (IXGBE_TXDCTL reg_idx) (txdctl_value (h_num_interrupt_rate ih)) ;;
  poll 10 1000 (IXGBE_TXDCTL reg_idx) (fun v => negb (bits v IXGBE_TXDCTL_ENABLE)) ;;
  mret tt.

Definition ixmap_configure_tx : Lib D unit :=
  ixmap_setup_mtqc ;;
  dmatxctl ← ixmap_read_reg IXGBE_DMATXCTL;
  ixmap_write_reg IXGBE_DMATXCTL (Z.lor dmatxctl IXGBE_DMATXCTL_TE) ;;
  n ← ih_get h_num_queues;
  lib_for (Z.to_nat n) 0 ixmap_configure_tx_ring.

(** ** Interrupts *)

Definition ixmap_irq_enable_queues (qmask : Z) : Lib D unit :=
  let mask := Z.land qmask 0xFFFFFFFF in
  (if negb (mask =? 0) then ixmap_write_reg (IXGBE_EIMS_EX 0) mask else mret tt) ;;
  let mask := Z.shiftr qmask 32 in
  if negb (mask =? 0) then ixmap_write_reg (IXGBE_EIMS_EX 1) mask else mret tt.

Definition ixmap_irq_enable : Lib D unit :=
  let mask := Z.land IXGBE_EIMS_ENABLE_MASK (not32 IXGBE_EIMS_RTX_QUEUE) in
  let mask := Z.land (Z.land (Z.land mask (not32 IXGBE_EIMS_LSC)) (not32 IXGBE_EIMS_TCP_TIMER)) (not32 IXGBE_EIMS_OTHER) in
  ixmap_write_reg IXGBE_EIMS mask ;;
  ixmap_irq_enable_queues (2 ^ 64 - 1) ;;
  ixmap_write_flush.

(** What [main] does with every port. *)
Definition port_configure : Lib D unit :=
  ixmap_configure_rx ;;
  ixmap_configure_tx ;;
  ixmap_irq_enable.

End Init.
