(* ===== verification/InitProps.v ===== *)
(** * What programming a port achieves

    [lruns P m Q]: from every state with [P], [m] returns, with a result and a
    state of which [Q] holds.  [LRegs ih f] says that the handle is [ih] and that
    the plain registers of the card (class [RegCard]) hold [f]. *)

From stdpp Require Import prelude list.
From S2P Require Import Prelude Mem MemFacts Driver Plane Main Hw HwLogic RegCard Init.

Section Rules.

Context {D : Type} `{Device D} `{!RegCard D}.

Notation st := (handle * D)%type.

Definition lruns {A} (P : st -> Prop) (m : Lib D A) (Q : A -> st -> Prop) : Prop :=
  forall s, P s -> exists x s', m s = Some (x, s') /\ Q x s'.

Definition LRegs (ih : handle) (f : Z -> Z) (s : st) : Prop :=
  s.1 = ih /\ forall r, plain r -> reg s.2 r = f r.

Lemma l_ret {A} (x : A) (P : st -> Prop) (Q : A -> st -> Prop) : (forall s, P s -> Q x s) -> lruns P (mret x) Q.
Proof. intros HQ s Hs. exists x, s. split; [done|by apply HQ]. Qed.

Lemma l_bind {A B} (m : Lib D A) (g : A -> Lib D B) P R Q :
  lruns P m R -> (forall x, lruns (R x) (g x) Q) -> lruns P (m ≫= g) Q.
Proof.
  intros Hm Hg s Hs. destruct (Hm s Hs) as (x & s' & E & HR). destruct (Hg x s' HR) as (y & s2 & E2 & HQ).
  exists y, s2. split; [|done]. unfold mbind, Lib_bind. by rewrite E.
Qed.

Lemma l_last {A} (m : Lib D A) P Q : lruns P (m ≫= mret) Q -> lruns P m Q.
Proof.
  intros Hm s Hs. destruct (Hm s Hs) as (x & s' & E & HQ). exists x, s'. split; [|done].
  unfold mbind, Lib_bind, mret, Lib_ret in E. destruct (m s) as [[y s2]|]; [|done]. done.
Qed.

Lemma l_weaken {A} (m : Lib D A) P (R Q : A -> st -> Prop) :
  lruns P m R -> (forall x s, R x s -> Q x s) -> lruns P m Q.
Proof. intros Hm HQ s Hs. destruct (Hm s Hs) as (x & s' & E & HR). exists x, s'. split; [done|by apply HQ]. Qed.

Lemma l_pure {A} (F : Prop) (P : st -> Prop) (m : Lib D A) Q : (F -> lruns P m Q) -> lruns (fun s => F /\ P s) m Q.
Proof. intros Hm s [HF Hs]. by apply Hm. Qed.

Lemma l_exists {A B} (P : B -> st -> Prop) (m : Lib D A) Q :
  (forall y, lruns (P y) m Q) -> lruns (fun s => exists y, P y s) m Q.
Proof. intros Hm s (y & Hs). by apply (Hm y s). Qed.

Lemma l_assoc {A B C} (m : Lib D A) (g : A -> Lib D B) (k : B -> Lib D C) P Q :
  lruns P (m ≫= fun x => g x ≫= k) Q -> lruns P ((m ≫= g) ≫= k) Q.
Proof.
  intros Hm s Hs. destruct (Hm s Hs) as (x & s' & E & HQ). exists x, s'. split; [|done].
  unfold mbind, Lib_bind in *. by destruct (m s) as [[y s2]|].
Qed.

Lemma l_ret_bind {A B} (x : A) (g : A -> Lib D B) P Q : lruns P (g x) Q -> lruns P (mret x ≫= g) Q.
Proof. intros Hg s Hs. exact (Hg s Hs). Qed.

(** Single steps, in front of others. *)
Lemma l_read r ih f {B} (g : Z -> Lib D B) Q :
  (forall v, 0 <= v < 2 ^ 32 -> (plain r -> v = f r) -> lruns (LRegs ih f) (g v) Q) ->
  lruns (LRegs ih f) (ixmap_read_reg r ≫= g) Q.
Proof.
  intros Hg. eapply (l_bind _ _ _ (fun v s => (0 <= v < 2 ^ 32 /\ (plain r -> v = f r)) /\ LRegs ih f s)).
  - intros [ih' d] [E Hf]. cbn in E, Hf. subst ih'. unfold ixmap_read_reg. cbn [fst snd].
    pose proof (reg_read r d) as Hr. pose proof (fun r' => reg_read_keep r d r') as Hk.
    destruct (readl r d) as [v d']. cbn [fst snd] in Hr, Hk. eexists _, _. split; [reflexivity|]. split; [split|].
    + apply Z.mod_pos_bound. lia.
    + intros Hp. rewrite Hr by done. by apply Hf.
    + split; [done|]. intros r' Hp. cbn. rewrite Hk by done. by apply Hf.
  - intros v. apply l_pure. intros [Hv Hp]. by apply Hg.
Qed.

Lemma l_write r v ih f {B} (g : unit -> Lib D B) Q :
  lruns (LRegs ih (upd f r (u32 v))) (g tt) Q -> lruns (LRegs ih f) (ixmap_write_reg r v ≫= g) Q.
Proof.
  intros Hg. eapply (l_bind _ _ _ (fun _ => LRegs ih (upd f r (u32 v)))); [|by intros []].
  intros [ih' d] [E Hf]. cbn in E, Hf. subst ih'. eexists tt, _. split; [reflexivity|]. split; [done|].
  intros r' Hp. cbn. destruct (decide (r' = r)) as [->|Hne].
  - rewrite upd_here. apply reg_write; [done|]. apply Z.mod_pos_bound. lia.
  - rewrite upd_there, reg_write_keep by done. by apply Hf.
Qed.

Lemma l_sleep t ih f {B} (g : unit -> Lib D B) Q :
  lruns (LRegs ih f) (g tt) Q -> lruns (LRegs ih f) (nanosleep t ≫= g) Q.
Proof.
  intros Hg. eapply (l_bind _ _ _ (fun _ => LRegs ih f)); [|by intros []].
  intros [ih' d] [E Hf]. cbn in E, Hf. eexists tt, _. split; [reflexivity|]. split; [done|].
  intros r Hp. cbn. rewrite reg_delay by done. by apply Hf.
Qed.

Lemma l_flush ih f {B} (g : unit -> Lib D B) Q :
  lruns (LRegs ih f) (g tt) Q -> lruns (LRegs ih f) (ixmap_write_flush ≫= g) Q.
Proof. intros Hg. unfold ixmap_write_flush. apply l_assoc, l_read. intros v _ _. exact Hg. Qed.

Lemma l_get {A} (h : handle -> A) ih f {B} (g : A -> Lib D B) Q :
  lruns (LRegs ih f) (g (h ih)) Q -> lruns (LRegs ih f) (ih_get h ≫= g) Q.
Proof. intros Hg [ih' d] [E Hf]. cbn in E. subst ih'. exact (Hg (ih, d) (conj eq_refl Hf)). Qed.

Lemma l_set h ih f {B} (g : unit -> Lib D B) Q :
  lruns (LRegs (h ih) f) (g tt) Q -> lruns (LRegs ih f) (ih_set h ≫= g) Q.
Proof. intros Hg [ih' d] [E Hf]. cbn in E. subst ih'. exact (Hg (h ih, d) (conj eq_refl Hf)). Qed.

Lemma l_ring side i ih f r {B} (g : hring -> Lib D B) Q :
  load (side ih) i = Some r -> lruns (LRegs ih f) (g r) Q -> lruns (LRegs ih f) (ring_get side i ≫= g) Q.
Proof.
  intros Hr Hg [ih' d] [E Hf]. cbn in E. subst ih'. destruct (Hg (ih, d) (conj eq_refl Hf)) as (x & s' & Eg & HQ).
  exists x, s'. split; [|done]. unfold mbind, Lib_bind, ring_get. cbn [fst]. by rewrite Hr.
Qed.

Lemma l_poll n t r again ih f {B} (g : nat -> Lib D B) Q :
  (forall k, lruns (LRegs ih f) (g k) Q) -> lruns (LRegs ih f) (poll n t r again ≫= g) Q.
Proof.
  intros Hg. eapply (l_bind _ _ _ (fun _ => LRegs ih f)); [|exact Hg]. clear Hg.
  induction n as [|n IH]; cbn [poll]; [by apply l_ret|]. apply l_sleep, l_read. intros v _ _.
  destruct (_ && _); [exact IH|by apply l_ret].
Qed.

(** A loop: [I i] describes the handle and the registers before round [i]. *)
Lemma l_for n start body (I : Z -> handle -> (Z -> Z) -> Prop) ih f {B} (g : unit -> Lib D B) Q :
  I start ih f ->
  (forall i ih f, start <= i < start + Z.of_nat n -> I i ih f ->
     lruns (LRegs ih f) (body i) (fun _ s => exists ih' f', I (i + 1) ih' f' /\ LRegs ih' f' s)) ->
  (forall ih' f', I (start + Z.of_nat n) ih' f' -> lruns (LRegs ih' f') (g tt) Q) ->
  lruns (LRegs ih f) (lib_for n start body ≫= g) Q.
Proof.
  intros H0 Hb Hg.
  assert (lruns (LRegs ih f) (lib_for n start body)
    (fun _ s => exists ih' f', I (start + Z.of_nat n) ih' f' /\ LRegs ih' f' s)) as Hl.
  { clear Hg g Q. revert start ih f H0 Hb. induction n as [|n IH]; intros start ih f H0 Hb; cbn [lib_for].
    - apply l_ret. intros s Hs. rewrite Z.add_0_r. by exists ih, f.
    - eapply l_bind; [apply Hb; [lia|done]|]. intros u. apply l_exists. intros ih'. apply l_exists. intros f'.
      apply l_pure. intros HI. replace (start + Z.of_nat (S n)) with (start + 1 + Z.of_nat n) by lia.
      apply IH; [done|]. intros i ih2 f2 Hi. apply Hb. lia. }
  eapply l_bind; [exact Hl|]. intros []. apply l_exists. intros ih'. apply l_exists. intros f'. apply l_pure. apply Hg.
Qed.

End Rules.

(** One step of straight-line code. *)
Ltac l_step :=
  match goal with
  | |- lruns _ ((_ ≫= _) ≫= _) _ => apply l_assoc
  | |- lruns _ (mret _ ≫= _) _ => apply l_ret_bind
  | |- lruns _ (ixmap_read_reg _ ≫= _) _ => apply l_read; intros ? ? ?
  | |- lruns _ (ixmap_write_reg _ _ ≫= _) _ => apply l_write
  | |- lruns _ (ixmap_write_flush ≫= _) _ => apply l_flush
  | |- lruns _ (nanosleep _ ≫= _) _ => apply l_sleep
  | |- lruns _ (ih_get _ ≫= _) _ => apply l_get
  | |- lruns _ (ih_set _ ≫= _) _ => apply l_set
  | |- lruns _ (poll _ _ _ _ ≫= _) _ => apply l_poll; intros ?
  end.

Ltac l_go := repeat (l_step; cbv zeta).

(** ** Tails *)

(** The rings with the tails of the first [n] set. *)
Definition tails_to (tdt : Z -> Z) (n : Z) (l : list hring) : list hring :=
  imap (fun k r => if Z.of_nat k <? n then set_tail (tdt (u8 (Z.of_nat k))) r else r) l.

Lemma tails_to_lookup tdt n l i :
  tails_to tdt n l !! i = (fun r => if Z.of_nat i <? n then set_tail (tdt (u8 (Z.of_nat i))) r else r) <$> l !! i.
Proof. unfold tails_to. by rewrite list_lookup_imap. Qed.

Lemma tails_to_0 tdt l : tails_to tdt 0 l = l.
Proof.
  apply list_eq. intros i. rewrite tails_to_lookup, (proj2 (Z.ltb_ge _ _)) by lia. by destruct (l !! i).
Qed.

Lemma tails_to_all tdt n l :
  Z.of_nat (length l) <= n -> tails_to tdt n l = imap (fun i => set_tail (tdt (u8 (Z.of_nat i)))) l.
Proof.
  intros Hn. apply list_eq. intros i. rewrite tails_to_lookup, list_lookup_imap.
  destruct (l !! i) as [r|] eqn:E; [|done]. apply lookup_lt_Some in E. cbn. by rewrite (proj2 (Z.ltb_lt _ _)) by lia.
Qed.

Lemma tails_to_next tdt i l r :
  l !! i = Some r ->
  store (tails_to tdt (Z.of_nat i) l) (Z.of_nat i) (set_tail (tdt (u8 (Z.of_nat i))) r) =
  Some (tails_to tdt (Z.of_nat i + 1) l).
Proof.
  intros Hr. pose proof (lookup_lt_Some _ _ _ Hr) as Hi.
  assert (length (tails_to tdt (Z.of_nat i) l) = length l) as Hlen by apply length_imap.
  rewrite store_some by (rewrite Hlen; lia). f_equal. rewrite Nat2Z.id. apply list_eq. intros k.
  destruct (decide (k = i)) as [->|Hk].
  - rewrite list_lookup_insert_eq by (rewrite Hlen; lia). rewrite tails_to_lookup, Hr. cbn.
    by rewrite (proj2 (Z.ltb_lt _ _)) by lia.
  - rewrite list_lookup_insert_ne by done. rewrite !tails_to_lookup. destruct (l !! k); [|done]. cbn.
    destruct (Z.ltb_spec (Z.of_nat k) (Z.of_nat i)), (Z.ltb_spec (Z.of_nat k) (Z.of_nat i + 1)); try done; lia.
Qed.

(** ** The redirection table *)

(** Four entries in a register, the first of them in the highest byte. *)
Definition reta_word (n i : Z) : Z :=
  (i mod n) * 2 ^ 24 + ((i + 1) mod n) * 2 ^ 16 + ((i + 2) mod n) * 2 ^ 8 + (i + 3) mod n.

Definition reta_ok (n : Z) (f : Z -> Z) : Prop := forall k, 0 <= k < 32 -> f (IXGBE_RETA k) = reta_word n (4 * k).

Lemma shift_in x j : 0 <= j < 256 -> u32 (Z.lor (Z.shiftl x 8) j) = u32 (x * 256 + j).
Proof. intros Hj. rewrite Z.shiftl_mul_pow2 by lia. rewrite (lor_low x j 8) by lia. done. Qed.

Lemma u32_next x j : u32 (u32 x * 256 + j) = u32 (x * 256 + j).
Proof. unfold u32. rewrite <- Z.add_mod_idemp_l, Z.mul_mod_idemp_l, Z.add_mod_idemp_l by lia. done. Qed.

Lemma four_bytes x a b c d :
  0 <= a < 256 -> 0 <= b < 256 -> 0 <= c < 256 -> 0 <= d < 256 ->
  u32 (Z.lor (Z.shiftl (u32 (Z.lor (Z.shiftl (u32 (Z.lor (Z.shiftl (u32 (Z.lor (Z.shiftl x 8) a)) 8) b)) 8) c)) 8) d) =
  a * 2 ^ 24 + b * 2 ^ 16 + c * 2 ^ 8 + d.
Proof.
  intros Ha Hb Hc Hd. rewrite !shift_in by done.
  rewrite (u32_next (x * 256 + a) b), (u32_next ((x * 256 + a) * 256 + b) c), u32_next.
  replace ((((x * 256 + a) * 256 + b) * 256 + c) * 256 + d) with (a * 2 ^ 24 + b * 2 ^ 16 + c * 2 ^ 8 + d + x * 2 ^ 32) by lia.
  unfold u32. rewrite Z.mod_add by lia. apply Z.mod_small. lia.
Qed.

Lemma next_queue n i j :
  0 < n -> 0 <= i -> (if j =? n then 0 else j) = i mod n ->
  (if (if j =? n then 0 else j) + 1 =? n then 0 else (if j =? n then 0 else j) + 1) = (i + 1) mod n.
Proof.
  intros Hn Hi ->. pose proof (Z.mod_pos_bound i n Hn) as Hm.
  rewrite <- Z.add_mod_idemp_l by lia. destruct (Z.eqb_spec (i mod n + 1) n) as [->|Hne].
  - by rewrite Z.mod_same by lia.
  - symmetry. apply Z.mod_small. lia.
Qed.

Lemma group_index k : 0 <= k ->
  Z.land (4 * k) 3 = 0 /\ Z.land (4 * k + 1) 3 = 1 /\ Z.land (4 * k + 1 + 1) 3 = 2 /\ Z.land (4 * k + 1 + 1 + 1) 3 = 3 /\
  Z.shiftr (4 * k + 1 + 1 + 1) 2 = k.
Proof.
  intros Hk. change 3 with (Z.ones 2). rewrite !Z.land_ones, Z.shiftr_div_pow2 by lia.
  change (2 ^ 2) with 4. change (Z.ones 2) with 3. split_and!; [..|symmetry; apply Z.div_unique with 3; lia];
    symmetry; apply Z.mod_unique with k; lia.
Qed.

Section Reta.

Context {D : Type} `{Device D} `{!RegCard D} (n : Z) (Hn : 0 < n <= 256).

Lemma l_reta_loop m k j reta ih f (Q : unit -> handle * D -> Prop) :
  0 <= k -> k + Z.of_nat m = 32 -> (if j =? n then 0 else j) = (4 * k) mod n ->
  (forall r, 0 <= r < k -> f (IXGBE_RETA r) = reta_word n (4 * r)) ->
  (forall f', reta_ok n f' -> (forall r, r < 0x5C00 \/ 0x5C80 <= r -> f' r = f r) ->
     forall s, LRegs ih f' s -> Q tt s) ->
  lruns (LRegs ih f) (reta_loop (4 * m) n (4 * k) j reta) Q.
Proof.
  revert k j reta f. induction m as [|m IH]; intros k j reta f Hk Hm Hj Hf HQ.
  - cbn [reta_loop Nat.mul]. apply l_ret. apply HQ; [|done]. intros r Hr. apply Hf. lia.
  - replace (4 * S m)%nat with (S (S (S (S (4 * m))))) by lia. destruct (group_index k Hk) as (L0 & L1 & L2 & L3 & LS).
    cbn [reta_loop]. cbv zeta. rewrite L0, L1, L2, L3, LS. cbn [Z.eqb Pos.eqb]. do 3 apply l_ret_bind.
    rewrite (proj2 (Z.ltb_lt _ _)) by lia. apply l_write.
    pose proof (next_queue n (4 * k) j ltac:(lia) ltac:(lia) Hj) as J1.
    pose proof (next_queue n (4 * k + 1) _ ltac:(lia) ltac:(lia) J1) as J2.
    pose proof (next_queue n (4 * k + 1 + 1) _ ltac:(lia) ltac:(lia) J2) as J3.
    pose proof (next_queue n (4 * k + 1 + 1 + 1) _ ltac:(lia) ltac:(lia) J3) as J4.
    rewrite Hj in J1, J2, J3, J4 |- *. rewrite J1 in J2, J3, J4 |- *. rewrite J2 in J3, J4 |- *. rewrite J3 in J4 |- *.
    replace (4 * k + 1 + 1 + 1 + 1) with (4 * (k + 1)) in J4 |- * by lia.
    assert (forall x, 0 <= x mod n < 256) as Hb by (intros x; pose proof (Z.mod_pos_bound x n ltac:(lia)); lia).
    rewrite four_bytes by apply Hb.
    assert (forall a b c d, 0 <= a < 256 -> 0 <= b < 256 -> 0 <= c < 256 -> 0 <= d < 256 ->
      u32 (a * 2 ^ 24 + b * 2 ^ 16 + c * 2 ^ 8 + d) = a * 2 ^ 24 + b * 2 ^ 16 + c * 2 ^ 8 + d) as Hw
      by (intros a b c d Ha Hb' Hc Hd; apply Z.mod_small; lia).
    rewrite Hw by apply Hb. clear Hw.
    replace (4 * k + 1 + 1 + 1) with (4 * k + 3) in J4 |- * by lia. replace (4 * k + 1 + 1) with (4 * k + 2) by lia.
    change ((4 * k) mod n * 2 ^ 24 + (4 * k + 1) mod n * 2 ^ 16 + (4 * k + 2) mod n * 2 ^ 8 + (4 * k + 3) mod n)
      with (reta_word n (4 * k)).
    apply IH; [lia|lia|exact J4|..].
    + intros r Hr. destruct (decide (r = k)) as [->|Hne]; [by rewrite upd_here|].
      rewrite upd_there by (unfold IXGBE_RETA; lia). apply Hf. lia.
    + intros f' Hok Hsame. apply HQ; [done|]. intros r Hr. rewrite Hsame by done. apply upd_there. unfold IXGBE_RETA. lia.
Qed.

End Reta.

(** ** The rings *)

(** Queue [i] receives into [r]: its descriptors, empty; buffers of the size the
    library allocates; frames dropped rather than stalling the other queues; the
    queue enabled. *)
Record rx_done (ih : handle) (f : Z -> Z) (i : Z) (r : hring) : Prop := {
  rx_base : f (IXGBE_RDBAL i) + f (IXGBE_RDBAH i) * 2 ^ 32 = hr_dma r;
  rx_len : f (IXGBE_RDLEN i) = h_num_rx_desc ih * sizeof_adv_desc;
  rx_head : f (IXGBE_RDH i) = 0;
  rx_tail0 : f (IXGBE_RDT i) = 0;
  rx_srrctl : f (IXGBE_SRRCTL i) =
    h_buf_size ih / 1024 + IXGBE_SRRCTL_DESCTYPE_ADV_ONEBUF + (if 1 <? h_num_queues ih then IXGBE_SRRCTL_DROP_EN else 0);
  rx_enabled : Z.testbit (f (IXGBE_RXDCTL i)) 25 = true
}.

Record tx_done (ih : handle) (f : Z -> Z) (i : Z) (r : hring) : Prop := {
  tx_base : f (IXGBE_TDBAL i) + f (IXGBE_TDBAH i) * 2 ^ 32 = hr_dma r;
  tx_len : f (IXGBE_TDLEN i) = h_num_tx_desc ih * sizeof_adv_desc;
  tx_head : f (IXGBE_TDH i) = 0;
  tx_tail0 : f (IXGBE_TDT i) = 0;
  tx_no_writeback : f (IXGBE_TDWBAL i) = 0 /\ f (IXGBE_TDWBAH i) = 0;
  tx_enabled : Z.testbit (f (IXGBE_TXDCTL i)) 25 = true
}.

(** A handle after [ixmap_open] and [ixmap_desc_alloc] for all its queues. *)
Record port_ok (ih : handle) : Prop := {
  po_queues : 0 < h_num_queues ih <= 64;
  po_rx : Z.of_nat (length (h_rx ih)) = h_num_queues ih;
  po_tx : Z.of_nat (length (h_tx ih)) = h_num_queues ih;
  po_rx_dma : Forall (fun r => 0 <= hr_dma r < 2 ^ 64) (h_rx ih);
  po_tx_dma : Forall (fun r => 0 <= hr_dma r < 2 ^ 64) (h_tx ih);
  po_rx_desc : 0 <= h_num_rx_desc ih < 2 ^ 28;
  po_tx_desc : 0 <= h_num_tx_desc ih < 2 ^ 28
}.

Lemma split_dma a : 0 <= a < 2 ^ 64 -> u32 (Z.land a (DMA_BIT_MASK 32)) + u32 (Z.shiftr a 32) * 2 ^ 32 = a.
Proof.
  intros Ha. change (DMA_BIT_MASK 32) with (Z.ones 32). rewrite Z.land_ones, Z.shiftr_div_pow2 by lia.
  unfold u32. rewrite Z.mod_mod by lia. rewrite (Z.mod_small (a / 2 ^ 32)).
  - pose proof (Z.div_mod a (2 ^ 32) ltac:(lia)). lia.
  - split; [apply Z.div_pos; lia|]. apply Z.div_lt_upper_bound; lia.
Qed.

Lemma srrctl_value size (drop : bool) :
  (1024 | size) -> 0 <= size <= 16384 ->
  u32 (if drop then Z.lor (Z.lor (Z.shiftr (ALIGN size 1024) IXGBE_SRRCTL_BSIZEPKT_SHIFT) IXGBE_SRRCTL_DESCTYPE_ADV_ONEBUF)
                      IXGBE_SRRCTL_DROP_EN
       else Z.lor (Z.shiftr (ALIGN size 1024) IXGBE_SRRCTL_BSIZEPKT_SHIFT) IXGBE_SRRCTL_DESCTYPE_ADV_ONEBUF) =
  size / 1024 + IXGBE_SRRCTL_DESCTYPE_ADV_ONEBUF + (if drop then IXGBE_SRRCTL_DROP_EN else 0).
Proof.
  intros [k ->] Hk. rewrite Z.div_mul by lia.
  assert (0 <= k <= 16) as Hk' by lia. clear Hk.
  assert (forall j, (j <= 16)%nat -> forall k, k = Z.of_nat j ->
    u32 (if drop then Z.lor (Z.lor (Z.shiftr (ALIGN (k * 1024) 1024) IXGBE_SRRCTL_BSIZEPKT_SHIFT) IXGBE_SRRCTL_DESCTYPE_ADV_ONEBUF)
                        IXGBE_SRRCTL_DROP_EN
         else Z.lor (Z.shiftr (ALIGN (k * 1024) 1024) IXGBE_SRRCTL_BSIZEPKT_SHIFT) IXGBE_SRRCTL_DESCTYPE_ADV_ONEBUF) =
    k + IXGBE_SRRCTL_DESCTYPE_ADV_ONEBUF + (if drop then IXGBE_SRRCTL_DROP_EN else 0)) as Hall.
  { intros j Hj k' ->. do 17 (destruct j as [|j]; [destruct drop; reflexivity|]). lia. }
  apply (Hall (Z.to_nat k)); lia.
Qed.

(** The buffers a port ends up with. *)
Lemma buffer_size ih : (1024 | h_buf_size (rx_buffer_len ih)) /\ 0 <= h_buf_size (rx_buffer_len ih) <= 16384.
Proof.
  unfold rx_buffer_len. cbn [h_buf_size set_frame]. cbv zeta.
  set (x := u32 (u32 _ + 1023)). assert (0 <= x < 2 ^ 32) as Hx by (apply Z.mod_pos_bound; lia).
  change 1023 with (2 ^ 10 - 1). rewrite land_not32 by lia. change (2 ^ 10) with 1024.
  pose proof (Z.div_pos x 1024 ltac:(lia) ltac:(lia)).
  destruct (Z.ltb_spec 16384 (x / 1024 * 1024)); [split; [by exists 16|lia]|split; [by exists (x / 1024)|lia]].
Qed.

Section Port.

Context {D : Type} `{Device D} `{!RegCard D}.

Notation st := (handle * D)%type.

(** Functions of whose registers nothing is needed later. *)
Lemma l_setup ih f {B} (g : unit -> Lib D B) Q m :
  m ∈ [ixmap_set_rx_mode; ixmap_disable_rx; ixmap_setup_psrtype; ixmap_setup_rdrxctl; ixmap_setup_rfctl] ->
  (forall f', lruns (LRegs ih f') (g tt) Q) -> lruns (LRegs ih f) (m ≫= g) Q.
Proof.
  intros Hm Hg. repeat (apply elem_of_cons in Hm as [->|Hm]); [..|by apply elem_of_nil in Hm].
  - unfold ixmap_set_rx_mode. l_go. apply Hg.
  - unfold ixmap_disable_rx. l_go. destruct (bits _ _); l_go; apply Hg.
  - unfold ixmap_setup_psrtype. l_go. apply Hg.
  - unfold ixmap_setup_rdrxctl. l_go. apply Hg.
  - unfold ixmap_setup_rfctl. l_go. apply Hg.
Qed.

Lemma l_mrqc ih f {B} (g : unit -> Lib D B) Q :
  0 < h_num_queues ih <= 256 ->
  (forall f', reta_ok (h_num_queues ih) f' -> lruns (LRegs ih f') (g tt) Q) ->
  lruns (LRegs ih f) (ixmap_setup_mrqc ≫= g) Q.
Proof.
  intros Hn Hg. unfold ixmap_setup_mrqc. apply l_assoc.
  apply (l_for _ _ _ (fun _ ih' _ => ih' = ih)); [done|..].
  { intros i ih' f' _ ->. apply l_last, l_write, l_ret. intros s Hs. by eexists _, _. }
  intros ih' f' ->. apply l_assoc, l_get, l_assoc.
  eapply (l_bind _ _ _ (fun _ s => exists f', reta_ok (h_num_queues ih) f' /\ LRegs ih f' s)).
  - apply (l_reta_loop _ Hn 32 0); [done|done|..].
    + rewrite Z.mod_0_l by lia. by destruct (0 =? h_num_queues ih).
    + intros r Hr. lia.
    + intros f2 Hok _ s Hs. by exists f2.
  - intros u. apply l_exists. intros f2. apply l_pure. intros Hok. l_go. apply Hg. intros k Hk.
    rewrite !upd_there by (unfold IXGBE_RETA, IXGBE_MRQC, IXGBE_RXCSUM; lia). by apply Hok.
Qed.

Lemma l_buffer_len ih f {B} (g : unit -> Lib D B) Q :
  (forall f', (forall r, 0x5000 <= r -> f' r = f r) -> lruns (LRegs (rx_buffer_len ih) f') (g tt) Q) ->
  lruns (LRegs ih f) (ixmap_set_rx_buffer_len ≫= g) Q.
Proof.
  intros Hg. unfold ixmap_set_rx_buffer_len. apply l_assoc, l_get. cbv zeta.
  set (ih1 := if h_mtu_frame ih <? ETH_FRAME_LEN + ETH_FCS_LEN
              then set_frame (ETH_FRAME_LEN + ETH_FCS_LEN) (h_buf_size ih) ih else ih).
  set (ih2 := set_frame (u32 (h_mtu_frame ih1 + VLAN_HLEN)) (h_buf_size ih1) ih1).
  set (ih3 := set_frame (h_mtu_frame ih2) (ALIGN (h_mtu_frame ih2) 1024) ih2).
  assert ((if IXGBE_MAX_RXBUFFER <? h_buf_size ih3 then set_frame (h_mtu_frame ih3) IXGBE_MAX_RXBUFFER ih3 else ih3) =
    rx_buffer_len ih) as E3.
  { subst ih3 ih2 ih1. unfold rx_buffer_len, ALIGN, ETH_FRAME_LEN, ETH_FCS_LEN, VLAN_HLEN, IXGBE_MAX_RXBUFFER.
    change (1024 - 1) with 1023. destruct (h_mtu_frame ih <? 1514 + 4); cbn [h_mtu_frame h_buf_size set_frame];
      destruct (16384 <? _); reflexivity. }
  apply l_assoc. eapply (l_bind _ _ _ (fun _ => LRegs ih1 f)).
  { subst ih1. destruct (_ <? _); [apply l_last, l_set|]; by apply l_ret. }
  intros []. apply l_assoc, l_read. intros mhadd _ _. apply l_assoc, l_get, l_assoc.
  eapply (l_bind _ _ _ (fun _ s => exists f', (forall r, 0x5000 <= r -> f' r = f r) /\ LRegs ih1 f' s)).
  { destruct (negb _); [apply l_last, l_write|]; apply l_ret; intros s Hs; eexists; (split; [|exact Hs]); [|done].
    intros r Hr. apply upd_there. unfold IXGBE_MHADD. lia. }
  intros []. apply l_exists. intros f1. apply l_pure. intros Hf1. l_go. fold ih2 ih3. rewrite E3. apply Hg.
  intros r Hr. rewrite upd_there by (unfold IXGBE_HLREG0; lia). by apply Hf1.
Qed.

(** Queue [i] is programmed; its registers, and no others, change. *)
Definition rx_regs (i r : Z) : Prop := 0x1000 + i * 0x40 <= r < 0x1040 + i * 0x40 \/ r = IXGBE_SRRCTL i.
Definition tx_regs (i r : Z) : Prop := 0x6000 + i * 0x40 <= r < 0x6040 + i * 0x40.

Lemma u8_queue i : 0 <= i < 64 -> u8 i = i.
Proof. intros Hi. apply Z.mod_small. lia. Qed.

Lemma l_rx_tail i t ih f r l {B} (g : unit -> Lib D B) Q :
  load (h_rx ih) i = Some r -> store (h_rx ih) i (set_tail t r) = Some l ->
  lruns (LRegs (with_rings l (h_tx ih) ih) f) (g tt) Q -> lruns (LRegs ih f) (rx_tail i t ≫= g) Q.
Proof.
  intros Hr Hl Hg [ih' d] [E Hf]. cbn in E. subst ih'.
  destruct (Hg (with_rings l (h_tx ih) ih, d) (conj eq_refl Hf)) as (x & s' & Eg & HQ). exists x, s'. split; [|done].
  unfold mbind at 1, Lib_bind, rx_tail. cbn [fst snd]. rewrite Hr. cbn. by rewrite Hl.
Qed.

Lemma l_tx_tail i t ih f r l {B} (g : unit -> Lib D B) Q :
  load (h_tx ih) i = Some r -> store (h_tx ih) i (set_tail t r) = Some l ->
  lruns (LRegs (with_rings (h_rx ih) l ih) f) (g tt) Q -> lruns (LRegs ih f) (tx_tail i t ≫= g) Q.
Proof.
  intros Hr Hl Hg [ih' d] [E Hf]. cbn in E. subst ih'.
  destruct (Hg (with_rings (h_rx ih) l ih, d) (conj eq_refl Hf)) as (x & s' & Eg & HQ). exists x, s'. split; [|done].
  unfold mbind at 1, Lib_bind, tx_tail. cbn [fst snd]. rewrite Hr. cbn. by rewrite Hl.
Qed.

Ltac open_regs :=
  unfold rx_regs, tx_regs, IXGBE_RDBAL, IXGBE_RDBAH, IXGBE_RDLEN, IXGBE_RDH, IXGBE_RDT, IXGBE_RXDCTL, IXGBE_SRRCTL,
    IXGBE_TDBAL, IXGBE_TDBAH, IXGBE_TDLEN, IXGBE_TDH, IXGBE_TDT, IXGBE_TXDCTL, IXGBE_TDWBAL, IXGBE_TDWBAH in *.
Ltac look := repeat first [rewrite upd_here | rewrite upd_there by (open_regs; lia)].

Lemma enable_bit v : Z.testbit (u32 (Z.lor v 0x02000000)) 25 = true.
Proof. rewrite u32_testbit by lia. change 0x02000000 with (2 ^ 25). rewrite Z.lor_spec, Z.pow2_bits_true by lia. apply orb_true_r. Qed.

Lemma l_rx_ring i ih f r l :
  0 <= i < 64 -> load (h_rx ih) i = Some r -> 0 <= hr_dma r < 2 ^ 64 -> 0 <= h_num_rx_desc ih < 2 ^ 28 ->
  (1024 | h_buf_size ih) -> 0 <= h_buf_size ih <= 16384 ->
  store (h_rx ih) i (set_tail (h_bar ih + IXGBE_RDT (u8 i)) r) = Some l ->
  lruns (LRegs ih f) (ixmap_configure_rx_ring i) (fun _ s => exists f',
    (rx_done ih f' i r /\ forall x, ~ rx_regs i x -> f' x = f x) /\ LRegs (with_rings l (h_tx ih) ih) f' s).
Proof.
  intros Hi Hr Hdma Hnum Hdiv Hsize Hl. unfold ixmap_configure_rx_ring. cbv zeta. eapply l_ring; [exact Hr|]. apply l_get.
  apply l_read. intros rxdctl _ _. unfold ixmap_disable_rx_queue. l_go. rewrite (u8_queue i Hi) in Hl |- *.
  eapply l_rx_tail; [exact Hr|exact Hl|]. unfold ixmap_configure_srrctl, ixmap_rx_desc_queue_enable. l_go.
  apply l_ret. intros s Hs. eexists. split; [|exact Hs]. cbn [h_buf_size h_num_queues with_rings]. split.
  - split; look.
    + by apply split_dma.
    + apply Z.mod_small. unfold sizeof_adv_desc. lia.
    + done.
    + done.
    + by apply srrctl_value.
    + apply enable_bit.
  - intros x Hx. look. done.
Qed.

Lemma txdctl_bit n : Z.testbit (u32 (txdctl_value n)) 25 = true.
Proof. unfold txdctl_value. by destruct (n <? 8). Qed.

Lemma l_tx_ring i ih f r l :
  0 <= i < 64 -> load (h_tx ih) i = Some r -> 0 <= hr_dma r < 2 ^ 64 -> 0 <= h_num_tx_desc ih < 2 ^ 28 ->
  store (h_tx ih) i (set_tail (h_bar ih + IXGBE_TDT (u8 i)) r) = Some l ->
  lruns (LRegs ih f) (ixmap_configure_tx_ring i) (fun _ s => exists f',
    (tx_done ih f' i r /\ forall x, ~ tx_regs i x -> f' x = f x) /\ LRegs (with_rings (h_rx ih) l ih) f' s).
Proof.
  intros Hi Hr Hdma Hnum Hl. unfold ixmap_configure_tx_ring. cbv zeta. eapply l_ring; [exact Hr|]. apply l_get. l_go.
  rewrite (u8_queue i Hi) in Hl |- *. eapply l_tx_tail; [exact Hr|exact Hl|]. l_go.
  apply l_ret. intros s Hs. eexists. split; [|exact Hs]. split.
  - split; look.
    + by apply split_dma.
    + apply Z.mod_small. unfold sizeof_adv_desc. lia.
    + done.
    + done.
    + done.
    + apply txdctl_bit.
  - intros x Hx. look. done.
Qed.

End Port.

(** ** A whole port *)

(** The queue that entry [e] of the redirection table names. *)
Definition reta_entry (f : Z -> Z) (e : Z) : Z := Z.land (Z.shiftr (f (IXGBE_RETA (e / 4))) (8 * (e mod 4))) 0xFF.

Record programmed (ih : handle) (f : Z -> Z) : Prop := {
  pg_rx q r : load (h_rx ih) q = Some r -> rx_done (rx_buffer_len ih) f q r;
  pg_tx q r : load (h_tx ih) q = Some r -> tx_done ih f q r;
  pg_spread e : 0 <= e < 128 -> 0 <= reta_entry f e < h_num_queues ih;
  pg_all q : 0 <= q < h_num_queues ih -> exists e, 0 <= e < 128 /\ reta_entry f e = q;
  pg_rx_on : Z.testbit (f IXGBE_RXCTRL) 0 = true;
  pg_tx_on : Z.testbit (f IXGBE_DMATXCTL) 0 = true;
  pg_irq : f IXGBE_EIMS = 0 /\ f (IXGBE_EIMS_EX 0) = 2 ^ 32 - 1 /\ f (IXGBE_EIMS_EX 1) = 2 ^ 32 - 1
}.

Lemma word_bytes a b c d :
  0 <= a < 256 -> 0 <= b < 256 -> 0 <= c < 256 -> 0 <= d < 256 ->
  let w := a * 2 ^ 24 + b * 2 ^ 16 + c * 2 ^ 8 + d in
  (w / 2 ^ (8 * 0)) mod 2 ^ 8 = d /\ (w / 2 ^ (8 * 1)) mod 2 ^ 8 = c /\
  (w / 2 ^ (8 * 2)) mod 2 ^ 8 = b /\ (w / 2 ^ (8 * 3)) mod 2 ^ 8 = a.
Proof.
  intros Ha Hb Hc Hd w. change (2 ^ (8 * 0)) with 1. change (2 ^ (8 * 1)) with 256.
  change (2 ^ (8 * 2)) with 65536. change (2 ^ (8 * 3)) with 16777216. change (2 ^ 8) with 256. subst w.
  change (2 ^ 24) with 16777216. change (2 ^ 16) with 65536. change (2 ^ 8) with 256.
  split_and!; Z.to_euclidean_division_equations; lia.
Qed.

Lemma reta_entry_ok n f e :
  0 < n <= 256 -> reta_ok n f -> 0 <= e < 128 -> reta_entry f e = (4 * (e / 4) + 3 - e mod 4) mod n.
Proof.
  intros Hn Hok He. unfold reta_entry.
  assert (0 <= e / 4 < 32) as Hk by (split; [apply Z.div_pos; lia|apply Z.div_lt_upper_bound; lia]).
  rewrite Hok by done. unfold reta_word. set (i := 4 * (e / 4)).
  assert (forall x, 0 <= x mod n < 256) as Hb by (intros x; pose proof (Z.mod_pos_bound x n ltac:(lia)); lia).
  pose proof (Z.mod_pos_bound e 4 ltac:(lia)) as Hm.
  change 0xFF with (Z.ones 8). rewrite Z.land_ones, Z.shiftr_div_pow2 by lia.
  pose proof (Hb i) as H0. pose proof (Hb (i + 1)) as H1. pose proof (Hb (i + 2)) as H2. pose proof (Hb (i + 3)) as H3.
  assert (e mod 4 = 0 \/ e mod 4 = 1 \/ e mod 4 = 2 \/ e mod 4 = 3) as [->|[->|[->| ->]]] by lia.
  - replace (i + 3 - 0) with (i + 3) by lia. by apply word_bytes.
  - replace (i + 3 - 1) with (i + 2) by lia. by apply word_bytes.
  - replace (i + 3 - 2) with (i + 1) by lia. by apply word_bytes.
  - replace (i + 3 - 3) with i by lia. by apply word_bytes.
Qed.

Lemma reta_all n f q :
  0 < n <= 128 -> reta_ok n f -> 0 <= q < n -> exists e, 0 <= e < 128 /\ reta_entry f e = q.
Proof.
  intros Hn Hok Hq. pose proof (Z.div_mod q 4 ltac:(lia)) as Ed. pose proof (Z.mod_pos_bound q 4 ltac:(lia)) as Hm.
  assert (exists e, e = 4 * (q / 4) + (3 - q mod 4)) as [e Ee] by eauto.
  assert (e / 4 = q / 4) as E1 by (symmetry; apply Z.div_unique with (3 - q mod 4); lia).
  assert (e mod 4 = 3 - q mod 4) as E2 by (symmetry; apply Z.mod_unique with (q / 4); lia).
  assert (0 <= e < 128) as He by lia. exists e. split; [done|].
  rewrite (reta_entry_ok n) by (done || lia). rewrite E1, E2.
  replace (4 * (q / 4) + 3 - (3 - q mod 4)) with q by lia. by apply Z.mod_small.
Qed.

Lemma rx_done_keep ih f f' q r : rx_done ih f q r -> (forall x, rx_regs q x -> f' x = f x) -> rx_done ih f' q r.
Proof.
  intros [] Hk. unfold rx_regs in Hk. unfold IXGBE_RDBAL, IXGBE_RDBAH, IXGBE_RDLEN, IXGBE_RDH, IXGBE_RDT, IXGBE_RXDCTL in *.
  split; unfold IXGBE_RDBAL, IXGBE_RDBAH, IXGBE_RDLEN, IXGBE_RDH, IXGBE_RDT, IXGBE_RXDCTL; rewrite ?Hk by lia; done.
Qed.

Lemma tx_done_keep ih f f' q r : tx_done ih f q r -> (forall x, tx_regs q x -> f' x = f x) -> tx_done ih f' q r.
Proof.
  intros [] Hk. unfold tx_regs in Hk.
  unfold IXGBE_TDBAL, IXGBE_TDBAH, IXGBE_TDLEN, IXGBE_TDH, IXGBE_TDT, IXGBE_TXDCTL, IXGBE_TDWBAL, IXGBE_TDWBAH in *.
  split; unfold IXGBE_TDBAL, IXGBE_TDBAH, IXGBE_TDLEN, IXGBE_TDH, IXGBE_TDT, IXGBE_TXDCTL, IXGBE_TDWBAL, IXGBE_TDWBAH;
    rewrite ?Hk by lia; done.
Qed.

(** The rings themselves do not matter. *)
Lemma rx_done_rings a b ih f q r : rx_done (with_rings a b ih) f q r <-> rx_done ih f q r.
Proof. split; intros []; by split. Qed.
Lemma tx_done_rings a b ih f q r : tx_done (with_rings a b ih) f q r <-> tx_done ih f q r.
Proof. split; intros []; by split. Qed.

Lemma load_tails tdt i l r : load l (Z.of_nat i) = Some r -> load (tails_to tdt (Z.of_nat i) l) (Z.of_nat i) = Some r.
Proof.
  rewrite !load_lookup by lia. rewrite !Nat2Z.id, tails_to_lookup. intros ->. cbn. by rewrite Z.ltb_irrefl.
Qed.

Section Whole.

Context {D : Type} `{Device D} `{!RegCard D}.

Notation st := (handle * D)%type.

Lemma l_rx_rings ih f {B} (g : unit -> Lib D B) Q :
  port_ok ih -> (1024 | h_buf_size ih) -> 0 <= h_buf_size ih <= 16384 ->
  (forall f', (forall q r, load (h_rx ih) q = Some r -> rx_done ih f' q r) -> (forall x, 0x5000 <= x -> f' x = f x) ->
     lruns (LRegs (with_rings (imap (fun i => set_tail (h_bar ih + IXGBE_RDT (u8 (Z.of_nat i)))) (h_rx ih)) (h_tx ih) ih) f')
       (g tt) Q) ->
  lruns (LRegs ih f) (lib_for (Z.to_nat (h_num_queues ih)) 0 ixmap_configure_rx_ring ≫= g) Q.
Proof.
  intros [Hn Hrx Htx Hdma _ Hnum _] Hdiv Hsize Hg. set (rdt := fun k => h_bar ih + IXGBE_RDT k).
  apply (l_for _ _ _ (fun i ih' f' => ih' = with_rings (tails_to rdt i (h_rx ih)) (h_tx ih) ih /\
    (forall q r, q < i -> load (h_rx ih) q = Some r -> rx_done ih f' q r) /\ (forall x, 0x5000 <= x -> f' x = f x))).
  - split_and!; [rewrite tails_to_0; by destruct ih|intros q r Hq Hr; apply load_range in Hr; lia|done].
  - intros i ih' f' Hi (-> & Hd & Hk). destruct (lookup_lt_is_Some_2 (h_rx ih) (Z.to_nat i)) as [r Hr]; [lia|].
    replace i with (Z.of_nat (Z.to_nat i)) by lia. set (k := Z.to_nat i) in *.
    assert (load (h_rx ih) (Z.of_nat k) = Some r) as Hl by (rewrite load_lookup by lia; by rewrite Nat2Z.id).
    pose proof (Forall_lookup_1 _ _ _ _ Hdma Hr) as Hdr. cbv beta in Hdr.
    eapply l_weaken; [eapply (l_rx_ring (Z.of_nat k) _ f' r (tails_to rdt (Z.of_nat k + 1) (h_rx ih)));
      [lia|by apply load_tails|exact Hdr|exact Hnum|exact Hdiv|exact Hsize|exact (tails_to_next rdt k (h_rx ih) r Hr)]|].
    intros u s (f2 & [Hdone Hsame] & Hs). cbn [h_tx with_rings] in Hs. eexists _, f2. split; [|exact Hs]. split_and!.
    + done.
    + intros q r' Hq Hr'. destruct (decide (q = Z.of_nat k)) as [->|Hne]; [rewrite Hl in Hr'; injection Hr' as <-; by eapply rx_done_rings|].
      pose proof (load_range _ _ _ Hr') as Hq'.
      eapply rx_done_keep; [apply Hd; [lia|done]|]. intros x Hx. apply Hsame. unfold rx_regs, IXGBE_SRRCTL in *. lia.
    + intros x Hx. rewrite Hsame; [by apply Hk|]. unfold rx_regs, IXGBE_SRRCTL. lia.
  - intros ih' f' (-> & Hd & Hk). rewrite (tails_to_all rdt) by lia. apply Hg; [|done].
    intros q r Hr. apply Hd; [|done]. pose proof (load_range _ _ _ Hr). lia.
Qed.

Lemma l_tx_rings ih f {B} (g : unit -> Lib D B) Q :
  0 < h_num_queues ih <= 64 -> Z.of_nat (length (h_tx ih)) = h_num_queues ih ->
  Forall (fun r => 0 <= hr_dma r < 2 ^ 64) (h_tx ih) -> 0 <= h_num_tx_desc ih < 2 ^ 28 ->
  (forall f', (forall q r, load (h_tx ih) q = Some r -> tx_done ih f' q r) ->
     (forall x, x < 0x6000 \/ 0x7000 <= x -> f' x = f x) ->
     lruns (LRegs (with_rings (h_rx ih) (imap (fun i => set_tail (h_bar ih + IXGBE_TDT (u8 (Z.of_nat i)))) (h_tx ih)) ih) f')
       (g tt) Q) ->
  lruns (LRegs ih f) (lib_for (Z.to_nat (h_num_queues ih)) 0 ixmap_configure_tx_ring ≫= g) Q.
Proof.
  intros Hn Htx Hdma Hnum Hg. set (tdt := fun k => h_bar ih + IXGBE_TDT k).
  apply (l_for _ _ _ (fun i ih' f' => ih' = with_rings (h_rx ih) (tails_to tdt i (h_tx ih)) ih /\
    (forall q r, q < i -> load (h_tx ih) q = Some r -> tx_done ih f' q r) /\
    (forall x, x < 0x6000 \/ 0x7000 <= x -> f' x = f x))).
  - split_and!; [rewrite tails_to_0; by destruct ih|intros q r Hq Hr; apply load_range in Hr; lia|done].
  - intros i ih' f' Hi (-> & Hd & Hk). destruct (lookup_lt_is_Some_2 (h_tx ih) (Z.to_nat i)) as [r Hr]; [lia|].
    replace i with (Z.of_nat (Z.to_nat i)) by lia. set (k := Z.to_nat i) in *.
    assert (load (h_tx ih) (Z.of_nat k) = Some r) as Hl by (rewrite load_lookup by lia; by rewrite Nat2Z.id).
    pose proof (Forall_lookup_1 _ _ _ _ Hdma Hr) as Hdr. cbv beta in Hdr.
    eapply l_weaken; [eapply (l_tx_ring (Z.of_nat k) _ f' r (tails_to tdt (Z.of_nat k + 1) (h_tx ih)));
      [lia|by apply load_tails|exact Hdr|exact Hnum|exact (tails_to_next tdt k (h_tx ih) r Hr)]|].
    intros u s (f2 & [Hdone Hsame] & Hs). cbn [h_rx with_rings] in Hs. eexists _, f2. split; [|exact Hs]. split_and!.
    + done.
    + intros q r' Hq Hr'. destruct (decide (q = Z.of_nat k)) as [->|Hne]; [rewrite Hl in Hr'; injection Hr' as <-; by eapply tx_done_rings|].
      pose proof (load_range _ _ _ Hr') as Hq'.
      eapply tx_done_keep; [apply Hd; [lia|done]|]. intros x Hx. apply Hsame. unfold tx_regs in *. lia.
    + intros x Hx. rewrite Hsame; [by apply Hk|]. unfold tx_regs. lia.
  - intros ih' f' (-> & Hd & Hk). rewrite (tails_to_all tdt) by lia. apply Hg; [|done].
    intros q r Hr. apply Hd; [|done]. pose proof (load_range _ _ _ Hr). lia.
Qed.

End Whole.

Section Configure.

Context {D : Type} `{Device D} `{!RegCard D}.

Lemma bit0 v : Z.testbit (u32 (Z.lor v 1)) 0 = true.
Proof. rewrite u32_testbit, Z.lor_spec by lia. apply orb_true_r. Qed.

(** From the rings of the receive side on. *)
Lemma l_configure_tx ih f {B} (g : unit -> Lib D B) Q :
  0 < h_num_queues ih <= 64 -> Z.of_nat (length (h_tx ih)) = h_num_queues ih ->
  Forall (fun r => 0 <= hr_dma r < 2 ^ 64) (h_tx ih) -> 0 <= h_num_tx_desc ih < 2 ^ 28 ->
  (forall f', (forall q r, load (h_tx ih) q = Some r -> tx_done ih f' q r) -> Z.testbit (f' IXGBE_DMATXCTL) 0 = true ->
     (forall x, x < 0x4000 \/ 0x5000 <= x < 0x6000 -> f' x = f x) ->
     lruns (LRegs (with_rings (h_rx ih) (imap (fun i => set_tail (h_bar ih + IXGBE_TDT (u8 (Z.of_nat i)))) (h_tx ih)) ih) f')
       (g tt) Q) ->
  lruns (D := D) (LRegs ih f) (ixmap_configure_tx ≫= g) Q.
Proof.
  intros Hn Hlen Hdma Hnum Hg. unfold ixmap_configure_tx, ixmap_setup_mtqc. l_go.
  apply l_tx_rings; [done..|]. intros f' Hdone Hsame. apply Hg; [done|..].
  - rewrite Hsame by (unfold IXGBE_DMATXCTL; lia). rewrite upd_here. apply bit0.
  - intros x Hx. rewrite Hsame by lia. unfold IXGBE_DMATXCTL, IXGBE_RTTDCS, IXGBE_MTQC.
    by rewrite !upd_there by lia.
Qed.

Lemma l_irq_enable ih f {B} (g : unit -> Lib D B) Q :
  (forall f', f' IXGBE_EIMS = 0 -> f' (IXGBE_EIMS_EX 0) = 2 ^ 32 - 1 -> f' (IXGBE_EIMS_EX 1) = 2 ^ 32 - 1 ->
     (forall x, 0x1000 <= x -> f' x = f x) -> lruns (LRegs ih f') (g tt) Q) ->
  lruns (D := D) (LRegs ih f) (ixmap_irq_enable ≫= g) Q.
Proof.
  intros Hg. unfold ixmap_irq_enable, ixmap_irq_enable_queues. cbv zeta. l_step. l_step. l_step. l_step.
  replace (negb (Z.land (2 ^ 64 - 1) 0xFFFFFFFF =? 0)) with true by reflexivity.
  replace (negb (Z.shiftr (2 ^ 64 - 1) 32 =? 0)) with true by reflexivity.
  l_go. apply Hg; [by vm_compute|by vm_compute|by vm_compute|].
  intros x Hx. unfold IXGBE_EIMS, IXGBE_EIMS_EX. by rewrite !upd_there by lia.
Qed.

Lemma l_configure_rx ih f {B} (g : unit -> Lib D B) Q :
  port_ok ih ->
  (forall f', (forall q r, load (h_rx ih) q = Some r -> rx_done (rx_buffer_len ih) f' q r) ->
     reta_ok (h_num_queues ih) f' -> Z.testbit (f' IXGBE_RXCTRL) 0 = true ->
     lruns (LRegs (with_rings (imap (fun i => set_tail (h_bar ih + IXGBE_RDT (u8 (Z.of_nat i)))) (h_rx ih)) (h_tx ih)
       (rx_buffer_len ih)) f') (g tt) Q) ->
  lruns (D := D) (LRegs ih f) (ixmap_configure_rx ≫= g) Q.
Proof.
  intros Hok Hg. pose proof (po_queues _ Hok) as Hn. unfold ixmap_configure_rx.
  do 5 (apply l_assoc, l_setup; [set_solver|]; intros ?). apply l_assoc, l_mrqc; [lia|]. intros f1 Hreta.
  apply l_assoc, l_buffer_len. intros f2 Hsame2. apply l_assoc, l_get, l_assoc.
  destruct (buffer_size ih) as [Hdiv Hsize].
  apply l_rx_rings; [by destruct Hok; split|done|done|]. intros f3 Hdone Hsame3.
  unfold ixmap_enable_rx. l_go. apply Hg.
  - intros q r Hr. pose proof (load_range _ _ _ Hr) as Hq. destruct Hok as [_ Hlen _ _ _ _ _].
    eapply rx_done_keep; [by apply Hdone|]. intros x Hx. apply upd_there. unfold rx_regs, IXGBE_SRRCTL, IXGBE_RXCTRL in *. lia.
  - intros k Hk. rewrite upd_there by (unfold IXGBE_RETA, IXGBE_RXCTRL; lia).
    rewrite Hsame3, Hsame2 by (unfold IXGBE_RETA; lia). by apply Hreta.
  - rewrite upd_here. apply bit0.
Qed.

(** C13: When [main] has programmed a port, whatever its registers held before, the
    card works on exactly the rings the library allocated: for every queue the
    base address, the length, head and tail of both rings are those of its
    descriptors, the receive buffers have the size the library allocates, the
    queues, the receiver, the transmitter and the interrupts of all queues are
    enabled; and the redirection table names existing queues only, and every one
    of them.  The handle is then the one the rest of the program continues with. *)
Theorem port_programmed ih d :
  port_ok ih ->
  exists (d' : D) f, port_configure (ih, d) = Some (tt, (configured ih, d')) /\
    (forall r, plain r -> reg d' r = f r) /\ programmed ih f.
Proof.
  intros Hok. pose proof (po_queues _ Hok) as Hn.
  assert (lruns (D := D) (LRegs ih (reg d)) port_configure (fun _ s => exists f, programmed ih f /\ LRegs (configured ih) f s)) as Hr.
  { unfold port_configure. apply l_configure_rx; [done|]. intros f1 Hrx Hreta Hon.
    pose proof Hok as [_ Hlr Hlt _ Hdt _ Hnt]. apply l_configure_tx; [done..|]. intros f2 Htx Hte Hsame2.
    apply l_last, l_irq_enable. intros f3 E0 E1 E2 Hsame3. apply l_ret. intros s Hs. exists f3. split; [|exact Hs].
    assert (reta_ok (h_num_queues ih) f3) as Hreta3.
    { intros k Hk. rewrite Hsame3, Hsame2 by (unfold IXGBE_RETA; lia). by apply Hreta. }
    split; [..|done].
    - intros q r Hl. pose proof (load_range _ _ _ Hl). eapply rx_done_keep; [by apply Hrx|]. unfold rx_regs, IXGBE_SRRCTL.
      intros x Hx. by rewrite Hsame3, Hsame2 by lia.
    - intros q r Hl. pose proof (load_range _ _ _ Hl).
      assert (tx_done ih f2 q r) as Ht by (destruct (Htx q r Hl); by split).
      eapply tx_done_keep; [exact Ht|]. unfold tx_regs. intros x Hx. by rewrite Hsame3 by lia.
    - intros e He. rewrite (reta_entry_ok (h_num_queues ih)) by (done || lia). apply Z.mod_pos_bound. lia.
    - intros q Hq. eapply reta_all; [|exact Hreta3|done]. lia.
    - unfold IXGBE_RXCTRL in *. by rewrite Hsame3, Hsame2 by lia.
    - unfold IXGBE_DMATXCTL in *. by rewrite Hsame3 by lia. }
  destruct (Hr (ih, d)) as ([] & [ih' d'] & E & f & Hp & [Hih Hf]); [done|]. cbn in Hih, Hf. subst ih'. by exists d', f.
Qed.

End Configure.

(** A port with two queues, on a card whose registers are all ones. *)
Definition demo_handle : handle :=
  let ring a := HRing a (a + 0x800000000) 7 0 (Ring 0 0 [] [] 0) in
  Handle 1 3 0x70000000 0x80000 8 9 [ring 0x1000; ring 0x3000] [ring 0x2000; ring 0x4000] 512 512 64 64 2 8 0 1522 0
    [2; 0; 0; 0; 0; 1].

Definition demo_ones : reg_file := RegFile (fun _ => 2 ^ 32 - 1).

Lemma port_programmed_witness :
  (exists (d' : reg_file) f, port_configure (demo_handle, demo_ones) = Some (tt, (configured demo_handle, d')) /\
     (forall r, plain r -> reg d' r = f r) /\ programmed demo_handle f) /\
  h_buf_size (configured demo_handle) = 2048.
Proof.
  split; [|reflexivity]. apply (port_programmed demo_handle demo_ones).
  split; cbn; try lia; (repeat constructor; cbn; lia).
Defined.
