(* ===== verification/CommonProps.v ===== *)
(** * Properties of the common functions

    Stopping the card, its receive addresses and the mailbox of the firmware. *)

From stdpp Require Import prelude list.
From S2P Require Import Prelude HwRegs Hw HwLogic Eeprom Common RegCard NvmFacts.

(** ** Stopping the card *)

Section Stop.

Context {D : Type} `{Device D} `{!RegCard D}.

(** What [ixmap_disable_pcie_master] leaves alone, and what it returns. *)
Lemma disable_pcie_master_ok h f :
  runs (Regs h f) ixmap_disable_pcie_master
    (fun r s => exists h' f', Regs h' f' s /\ hw_adapter_stopped h' = hw_adapter_stopped h /\
       (forall reg, reg <> IXGBE_CTRL -> f' reg = f reg) /\
       (r = 0 \/ r = IXGBE_ERR_MASTER_REQUESTS_PENDING /\ Z.testbit (mac_flags (hw_mac h')) 0 = true)).
Proof.
  unfold ixmap_disable_pcie_master. g_step. g_step. g_step. subst.
  set (f1 := upd f _ _). assert (forall reg, reg <> IXGBE_CTRL -> f1 reg = f reg) as Hk by (intros reg; apply upd_there).
  clearbody f1. destruct (negb _ || _); [apply r_ret; intros s Hs; exists h, f1; auto|].
  eapply r_bind; [apply r_attempts_keep; do 2 g_step; by apply r_ret|].
  intros [u|]; [apply r_ret; intros s Hs; exists h, f1; auto|].
  eapply r_bind; [by apply g_put|]. intros u. cbv beta. set (h1 := set_hw_mac _ h).
  assert (Z.testbit (mac_flags (hw_mac h1)) 0 = true) as Hflag.
  { change (mac_flags (hw_mac h1)) with (Z.lor (mac_flags (hw_mac h)) IXGBE_FLAGS_DOUBLE_RESET_REQUIRED).
    rewrite Z.lor_spec. apply orb_true_r. }
  assert (hw_adapter_stopped h1 = hw_adapter_stopped h) as Hst by done. clearbody h1.
  apply (r_bind _ _ _ (fun _ => Regs h1 f1)).
  { unfold ixmap_pcie_timeout_poll. g_step. by apply r_ret. }
  intros poll. eapply r_bind; [apply r_attempts_keep; do 3 g_step; by apply r_ret|].
  intros o. apply r_ret. intros s Hs. exists h1, f1. destruct o; auto 10.
Qed.

(** Enable bits of the queues. *)
Definition queues_off (f : Z -> Z) (tx rx : Z) : Prop :=
  f IXGBE_RXCTRL = 0 /\
  (forall i, 0 <= i < tx -> Z.testbit (f (IXGBE_TXDCTL i)) 25 = false) /\
  (forall i, 0 <= i < rx -> Z.testbit (f (IXGBE_RXDCTL i)) 25 = false).

Lemma queue_regs i j :
  0 <= i < 128 -> 0 <= j < 128 ->
  IXGBE_TXDCTL i <> IXGBE_RXDCTL j /\ IXGBE_TXDCTL i <> IXGBE_RXCTRL /\ IXGBE_RXDCTL i <> IXGBE_RXCTRL /\
  IXGBE_TXDCTL i <> IXGBE_CTRL /\ IXGBE_RXDCTL i <> IXGBE_CTRL /\
  (i <> j -> IXGBE_TXDCTL i <> IXGBE_TXDCTL j /\ IXGBE_RXDCTL i <> IXGBE_RXDCTL j).
Proof.
  intros Hi Hj. unfold IXGBE_TXDCTL, IXGBE_RXDCTL, IXGBE_RXCTRL, IXGBE_CTRL.
  destruct (Z.ltb_spec i 64), (Z.ltb_spec j 64); lia.
Qed.

(** A stopped card is quiet. On a card whose queue control registers hold what
    is written to them, [ixmap_stop_adapter] returns, with the receive unit and
    all 128 transmit and 128 receive queues disabled and the adapter marked as
    stopped; when requests on the bus are still pending it returns the error for
    that and has noted that the next reset must be done twice. *)
Theorem stop_adapter_quiet h f s :
  Regs h f s -> mac_max_tx_queues (hw_mac h) = 128 -> mac_max_rx_queues (hw_mac h) = 128 ->
  plain IXGBE_RXCTRL -> (forall i, 0 <= i < 128 -> plain (IXGBE_TXDCTL i) /\ plain (IXGBE_RXDCTL i)) ->
  exists r s', ixmap_stop_adapter s = Returns (r, s') /\
    hw_adapter_stopped s'.1 = true /\ queues_off (reg s'.2) 128 128 /\
    (r = 0 \/ r = IXGBE_ERR_MASTER_REQUESTS_PENDING /\ Z.testbit (mac_flags (hw_mac s'.1)) 0 = true).
Proof.
  intros Hs Htx Hrx Hpc Hpq. revert s Hs.
  enough (runs (Regs h f) ixmap_stop_adapter (fun r s => exists h' f', Regs h' f' s /\
    hw_adapter_stopped h' = true /\ queues_off f' 128 128 /\
    (r = 0 \/ r = IXGBE_ERR_MASTER_REQUESTS_PENDING /\ Z.testbit (mac_flags (hw_mac h')) 0 = true))) as Hrun.
  { intros s Hs. destruct (Hrun s Hs) as (r & s' & E & h' & f' & (Eh & _ & Hf) & Hst & (H1 & H2 & H3) & Hr).
    exists r, s'. rewrite Eh. split; [done|]. split; [done|]. split; [|done].
    split; [by rewrite Hf|]. split; intros i Hi; rewrite Hf by (by apply Hpq); auto. }
  unfold ixmap_stop_adapter. eapply r_bind; [by apply g_put|]. intros u. set (h1 := set_hw_adapter_stopped true h).
  assert (hw_adapter_stopped h1 = true /\ mac_max_tx_queues (hw_mac h1) = 128 /\ mac_max_rx_queues (hw_mac h1) = 128)
    as (Hst & Htx1 & Hrx1) by done. clearbody h1. clear u.
  do 4 g_step. subst. rewrite Htx1, Hrx1. set (f1 := upd (upd f _ _) _ _).
  assert (f1 IXGBE_RXCTRL = 0) as Hrxc by reflexivity. clearbody f1.
  eapply r_bind.
  { apply (g_for _ _ _ _ (fun i f => queues_off f i 0)); [by split; [|split; intros; lia]|].
    intros i f2 Hi (Hc & Ht & _). eapply r_weaken; [apply g_write|done|]. intros u s Hs. eexists. split; [|exact Hs].
    assert (0 <= i < 128) as Hi' by lia. pose proof (queue_regs i i Hi' Hi') as (_ & Hn & _).
    split; [by rewrite upd_there by congruence|]. split; [|intros; lia]. intros j Hj.
    destruct (decide (j = i)) as [->|Hne]; [by rewrite upd_here|].
    rewrite upd_there; [apply Ht; lia|]. apply (queue_regs j i); lia. }
  intros u. apply r_exists. intros f2. apply r_pure. intros Hq. eapply r_bind.
  { apply (g_for _ _ _ _ (fun i f => queues_off f 128 i)); [exact Hq|].
    intros i f3 Hi (Hc & Ht & Hr). assert (0 <= i < 128) as Hi' by lia.
    eapply r_weaken; [apply g_modify, Hpq; done|done|]. intros u' s Hs. eexists. split; [|exact Hs].
    split; [rewrite upd_there; [done|]; apply not_eq_sym, (queue_regs i i); lia|]. split; intros j Hj.
    - rewrite upd_there; [by apply Ht|]. apply (queue_regs j i); lia.
    - destruct (decide (j = i)) as [->|Hne].
      + rewrite upd_here. reg_bits. const_bits. by rewrite andb_false_r.
      + rewrite upd_there; [apply Hr; lia|]. apply (queue_regs j i); lia. }
  intros u'. apply r_exists. intros f3. apply r_pure. intros (Hc & Ht & Hr). do 2 g_step.
  eapply r_weaken; [apply disable_pcie_master_ok|done|]. intros r s (h' & f' & Hs & Est & Hk & Hres).
  exists h', f'. split; [done|]. split; [by rewrite Est|]. split; [|done].
  split; [rewrite Hk by done; exact Hc|]. split; intros i Hi; (rewrite Hk; [auto|apply (queue_regs i i); lia]).
Qed.

End Stop.

(** The driver's data for a card with 128 queues. *)
Definition demo_hw : ixmap_hw :=
  IxmapHw 0x1000
    (MacInfo ixmap_mac_82599EB (replicate 6 0) (replicate 6 0) 0 128 128 128 512 128 128 0 0 64 true false false 0 false)
    (PhyInfo ixmap_phy_unknown 0 ixmap_media_type_unknown false)
    (EepromInfo ixmap_eeprom_uninitialized 0 0 0 0) (BusInfo 0 0) IXGBE_DEV_ID_82599_SFP 0x8086 0 0 1 false false.

(** All bits set, but for the one that tells of pending requests. *)
Definition demo_regs : reg_file := RegFile (fun _ => 0xFFF7FFFF).

Lemma stop_adapter_quiet_witness :
  exists r s', ixmap_stop_adapter (demo_hw, demo_regs) = Returns (r, s') /\
    Z.testbit (reg s'.2 (IXGBE_RXDCTL 100)) 25 = false.
Proof.
  destruct (stop_adapter_quiet demo_hw (fun _ => 0xFFF7FFFF) (demo_hw, demo_regs))
    as (r & s' & E & _ & (_ & _ & Hq) & _).
  - split; [done|]. by split.
  - reflexivity.
  - reflexivity.
  - done.
  - done.
  - exists r, s'. split; [exact E|]. apply Hq. lia.
Defined.

(** ** Addresses *)

Lemma lor_shift x a k : 0 <= k -> 0 <= x < 2 ^ k -> Z.lor x (Z.shiftl a k) = x + a * 2 ^ k.
Proof. intros Hk Hx. rewrite Z.shiftl_mul_pow2, Z.lor_comm, lor_low by done. lia. Qed.

(** The bytes of the two registers. *)
Lemma rar_low_bytes a0 a1 a2 a3 :
  is_byte a0 -> is_byte a1 -> is_byte a2 -> is_byte a3 ->
  let low := u32 (Z.lor (Z.lor (Z.lor a0 (Z.shiftl a1 8)) (Z.shiftl a2 16)) (Z.shiftl a3 24)) in
  ((fun i => u8 (Z.shiftr low (i * 8))) <$> seqZ 0 4) = [a0; a1; a2; a3].
Proof.
  unfold is_byte. intros H0 H1 H2 H3.
  rewrite (lor_shift a0), (lor_shift (a0 + _)), (lor_shift (a0 + _ + _)) by lia. set (low := u32 _).
  assert (low = a0 + a1 * 2 ^ 8 + a2 * 2 ^ 16 + a3 * 2 ^ 24) as -> by (unfold low, u32; rewrite Z.mod_small; lia).
  change (seqZ 0 4) with [0; 1; 2; 3]. cbn [fmap list_fmap]. unfold u8. rewrite !Z.shiftr_div_pow2 by lia.
  cbn [Z.mul Pos.mul Z.pow Z.pow_pos Pos.iter]. repeat f_equal; Z.to_euclidean_division_equations; lia.
Qed.

Lemma rar_high_low v a4 a5 (av : bool) :
  is_byte a4 -> is_byte a5 ->
  let high := Z.lor (Z.land v (not32 (Z.lor 0x0000FFFF IXGBE_RAH_AV))) (Z.lor a4 (Z.shiftl a5 8)) in
  u32 (if av then Z.lor high IXGBE_RAH_AV else high) mod 2 ^ 16 = a4 + a5 * 2 ^ 8.
Proof.
  unfold is_byte. intros H4 H5. rewrite lor_shift by lia. set (high := Z.lor (Z.land _ _) _).
  apply Z.bits_inj'. intros i Hi. destruct (decide (i < 16)) as [Hlt|Hge].
  - rewrite Z.mod_pow2_bits_low by lia. change 0x0000FFFF with (Z.ones 16) in high.
    assert (Z.testbit high i = Z.testbit (a4 + a5 * 2 ^ 8) i) as E.
    { unfold high. reg_bits. rewrite Z.ones_spec_low by lia. cbn [orb negb]. by rewrite andb_false_r. }
    destruct av; reg_bits; rewrite E; [|done]. unfold IXGBE_RAH_AV. change 0x80000000 with (2 ^ 31).
    rewrite Z.pow2_bits_false by lia. apply orb_false_r.
  - rewrite Z.mod_pow2_bits_high by lia. symmetry. apply (testbit_small _ 16); lia.
Qed.

Section Address.

Context {D : Type} `{Device D} `{!RegCard D}.

(** An address that is set is the one that is read. On a card whose address
    registers hold what is written to them, [ixmap_get_mac_addr] after
    [ixmap_set_rar] with index 0 returns the six bytes that were given. *)
Theorem rar_roundtrip h f s (addr : list Z) (vmdq enable : Z) :
  Regs h f s -> plain (IXGBE_RAL 0) -> plain (IXGBE_RAH 0) -> 0 < mac_num_rar_entries (hw_mac h) ->
  length addr = 6%nat -> Forall is_byte addr ->
  exists s', (ixmap_set_rar 0 addr vmdq enable ;; ixmap_get_mac_addr) s = Returns (addr, s').
Proof.
  intros Hs Hpl Hph Hn Hl Hb. revert s Hs.
  enough (runs (Regs h f) (ixmap_set_rar 0 addr vmdq enable ;; ixmap_get_mac_addr) (fun r _ => r = addr)) as Hrun.
  { intros s Hs. destruct (Hrun s Hs) as (x & s' & E & ->). by exists s'. }
  destruct addr as [|a0 [|a1 [|a2 [|a3 [|a4 [|a5 [|]]]]]]]; try done. rewrite !Forall_cons in Hb.
  destruct Hb as (H0 & H1 & H2 & H3 & H4 & H5 & _).
  eapply (r_bind _ _ _ (fun _ s => exists f', (f' (IXGBE_RAL 0) =
      u32 (Z.lor (Z.lor (Z.lor a0 (Z.shiftl a1 8)) (Z.shiftl a2 16)) (Z.shiftl a3 24)) /\
      f' (IXGBE_RAH 0) mod 2 ^ 16 = a4 + a5 * 2 ^ 8) /\ Regs h f' s)).
  { unfold ixmap_set_rar. g_step. subst. rewrite (proj2 (Z.leb_gt _ _)) by lia. g_step. g_step. g_step.
    apply r_ret. intros s Hs. eexists. split; [|exact Hs]. split; [by rewrite upd_there, upd_here|].
    rewrite upd_here. exact (rar_high_low _ a4 a5 (negb (enable =? 0)) H4 H5). }
  intros u. apply r_exists. intros f'. apply r_pure. intros [El Eh]. unfold ixmap_get_mac_addr.
  g_step. destruct H6 as [_ ->]; [|done]. g_step. destruct H6 as [_ ->]; [|done].
  apply r_ret. intros s _. rewrite El, (rar_low_bytes a0 a1 a2 a3 H0 H1 H2 H3). cbn [app]. do 4 f_equal.
  change (seqZ 0 2) with [0; 1]. cbn [fmap list_fmap]. unfold u8, is_byte in *. rewrite !Z.shiftr_div_pow2 by lia.
  generalize dependent (f' (IXGBE_RAH 0)). intros w Ew.
  cbn [Z.mul Pos.mul Z.pow Z.pow_pos Pos.iter] in *. repeat f_equal; Z.to_euclidean_division_equations; lia.
Qed.

End Address.

Lemma rar_roundtrip_witness :
  exists s', (ixmap_set_rar 0 [0; 0x1b; 0x21; 0xaa; 0xbb; 0xcc] 0 1 ;; ixmap_get_mac_addr) (demo_hw, demo_regs) =
    Returns ([0; 0x1b; 0x21; 0xaa; 0xbb; 0xcc], s').
Proof.
  apply (rar_roundtrip demo_hw (fun _ => 0xFFF7FFFF)).
  - split; [done|]. by split.
  - done.
  - done.
  - reflexivity.
  - reflexivity.
  - repeat (apply Forall_cons; split; [unfold is_byte; lia|]). by apply Forall_nil.
Defined.

(** ** Buffers *)

Section Anywhere.

Context {D : Type} `{Device D} (h : ixmap_hw).

Lemma get_word_ok buf i : 0 <= i < Z.of_nat (length buf) -> runs (Drv (D := D) h) (get_word buf i) (fun _ => Drv h).
Proof. intros Hi. unfold get_word. destruct (load_some buf i Hi) as [v ->]. by apply r_ret. Qed.

Lemma put_word_ok buf i v :
  0 <= i < Z.of_nat (length buf) ->
  runs (Drv (D := D) h) (put_word buf i v) (fun b s => length b = length buf /\ Drv h s).
Proof.
  intros Hi. unfold put_word. rewrite (store_some buf i v Hi).
  apply r_ret. intros s Hs. split; [apply length_insert|done].
Qed.

Lemma hic_write_ok buf n :
  n <= Z.of_nat (length buf) -> runs (Drv (D := D) h) (hic_write buf n) (fun _ => Drv h).
Proof.
  intros Hn. unfold hic_write. apply (r_for_range _ _ _ (fun _ => Drv h)). intros i Hi.
  eapply r_bind; [apply get_word_ok; lia|]. intros v. apply d_write.
Qed.

Lemma hic_read_ok n bi buf :
  0 <= bi -> bi + Z.of_nat n <= Z.of_nat (length buf) ->
  runs (Drv (D := D) h) (hic_read n bi buf) (fun b s => length b = length buf /\ Drv h s).
Proof.
  revert bi buf. induction n as [|n IH]; intros bi buf Hb Hn; cbn [hic_read]; [by apply r_ret|].
  eapply r_bind; [apply d_read|]. intros v. eapply r_bind; [apply put_word_ok; lia|]. intros b. apply r_pure. intros Hl.
  rewrite <- Hl. apply IH; lia.
Qed.

(** Whatever the card answers, the buffer keeps its length. *)
Definition hic_result (buffer : list Z) (rb : Z * list Z) : Prop :=
  length rb.2 = length buffer /\ (rb.1 = 0 \/ rb.1 = IXGBE_ERR_HOST_INTERFACE_COMMAND).

Lemma host_command_ok (buffer : list Z) (bytes : Z) :
  bytes = 4 * Z.of_nat (length buffer) ->
  runs (Drv (D := D) h) (ixmap_host_interface_command buffer bytes) (fun rb s => hic_result buffer rb /\ Drv h s).
Proof.
  intros Hbytes.
  assert (forall b : list Z, length b = length buffer ->
    runs (Drv (D := D) h) (mret (IXGBE_ERR_HOST_INTERFACE_COMMAND, b)) (fun rb s => hic_result buffer rb /\ Drv h s))
    as Herr.
  { intros b Hb. apply r_ret. intros s Hs. split; [|done]. split; [done|by right]. }
  unfold ixmap_host_interface_command.
  destruct ((bytes =? 0) || bits bytes 3 || (IXGBE_HI_MAX_BLOCK_BYTE_LENGTH <? bytes)) eqn:Eg; [by apply Herr|].
  apply orb_false_elim in Eg as [[E0 _]%orb_false_elim _]. apply Z.eqb_neq in E0.
  eapply r_bind; [apply d_read|]. intros hicr. destruct (Z.land hicr IXGBE_HICR_EN =? 0); [by apply Herr|].
  eapply r_bind; [apply hic_write_ok|].
  { rewrite Z.shiftr_div_pow2 by lia. change (2 ^ 2) with 4. rewrite Hbytes, Z.mul_comm, Z.div_mul by lia.
    unfold u8. apply Z.mod_le; lia. }
  intros u. eapply r_bind; [apply d_write|]. intros u1.
  eapply r_bind.
  { apply r_attempts_keep. eapply r_bind; [apply d_read|]. intros v.
    destruct (bits v IXGBE_HICR_C); [|by apply r_ret]. eapply r_bind; [apply d_udelay|]. intros u2. by apply r_ret. }
  intros o. apply (r_bind _ _ _ (fun _ => Drv h)).
  { destruct o; [|by apply r_ret]. eapply r_bind; [apply d_read|]. intros v. by apply r_ret. }
  intros ok. destruct ok; cbn [negb]; [|by apply Herr].
  change (Z.shiftr sizeof_hic_hdr 2) with 1. change (Z.to_nat 1) with 1%nat.
  eapply r_bind; [apply hic_read_ok; lia|]. intros b. apply r_pure. intros Hb.
  eapply r_bind; [apply get_word_ok; lia|]. intros w.
  assert (0 <= byte_at w 1 < 256) as Hlen.
  { unfold byte_at. change 255 with (Z.ones 8). rewrite Z.land_ones by lia. apply Z.mod_pos_bound. lia. }
  destruct (byte_at w 1 =? 0); [apply r_ret; intros s Hs; split; [|done]; split; [done|by left]|]. unfold sizeof_hic_hdr.
  destruct (Z.ltb_spec bytes (byte_at w 1 + 4)); [by apply Herr|].
  rewrite Z.shiftr_div_pow2 by lia. change (2 ^ 2) with 4.
  assert ((byte_at w 1 + 3) / 4 <= Z.of_nat (length buffer) - 1) by (apply Z.lt_succ_r, Z.div_lt_upper_bound; lia).
  assert (0 <= (byte_at w 1 + 3) / 4 < 256) by (split; [apply Z.div_pos|apply Z.div_lt_upper_bound]; lia).
  unfold u8. rewrite (Z.mod_small ((byte_at w 1 + 3) / 4)) by lia.
  eapply r_bind; [apply hic_read_ok; lia|]. intros b2. apply r_pure. intros Hb2. apply r_ret. intros s' Hs'.
  split; [|done]. split; [cbn; congruence|by left].
Qed.

End Anywhere.

Section Mailbox.

Context {D : Type} `{Device D}.

(** C38: the mailbox stays in its buffer. Whatever the card answers,
    [ixmap_host_interface_command] on a buffer of [length] bytes returns 0 or its
    error code and accesses no word outside of the buffer; in particular the
    length that the firmware claims for its answer is checked. *)
Theorem host_command_in_bounds (buffer : list Z) (bytes : Z) (s : ixmap_hw * D) :
  bytes = 4 * Z.of_nat (length buffer) ->
  exists r b s', ixmap_host_interface_command buffer bytes s = Returns ((r, b), s') /\
    length b = length buffer /\ (r = 0 \/ r = IXGBE_ERR_HOST_INTERFACE_COMMAND).
Proof.
  intros Hb. destruct (host_command_ok s.1 buffer bytes Hb s eq_refl) as ([r b] & s' & E & [Hl Hr] & _).
  by exists r, b, s'.
Qed.

End Mailbox.

Lemma host_command_in_bounds_witness :
  exists r b s', ixmap_host_interface_command [0xDD; 0; 0] 12 (demo_hw, RegFile (fun _ => 0x805)) = Returns ((r, b), s') /\
    length b = 3%nat /\ (r = 0 \/ r = IXGBE_ERR_HOST_INTERFACE_COMMAND).
Proof. apply (host_command_in_bounds [0xDD; 0; 0] 12). reflexivity. Defined.
