(* ===== verification/Ixgbe82599.v ===== *)
(** * The 82599 (src/kmod/ixmap_82599.c, src/kmod/ixmap_phy.c)

    Reset and start of the card, its link and its optics: every function of both
    files, against any card and any way to read its EEPROM.  Three loops have no
    bound in the source: two follow lists in the EEPROM up to a terminator, with
    offsets of 16 bits, so that after 65536 rounds they are in a cycle; the
    [goto] of the reset is taken at most once. *)

From stdpp Require Import prelude list.
From S2P Require Import Prelude HwRegs Hw Eeprom Common.

Section Mac.

Context {D : Type} `{Device D} `{EepromOps D}.

(** ** Optics *)

Definition ixmap_init_mac_link_ops_82599 : Hw D unit :=
  m ← get ixmap_get_media_type_82599;
  upd_mac (set_mac_laser_ops (bool_decide (m = ixmap_media_type_fiber))).

Definition ixmap_disable_tx_laser_multispeed_fiber : Hw D unit :=
  modify_reg IXGBE_ESDP (fun v => Z.lor v IXGBE_ESDP_SDP3) ;;
  IXGBE_WRITE_FLUSH ;;
  udelay 100.

Definition ixmap_enable_tx_laser_multispeed_fiber : Hw D unit :=
  modify_reg IXGBE_ESDP (fun v => Z.land v (not32 IXGBE_ESDP_SDP3)) ;;
  IXGBE_WRITE_FLUSH ;;
  msleep 100.

Definition ixmap_flap_tx_laser_multispeed_fiber : Hw D unit :=
  restart ← get (fun h => mac_autotry_restart (hw_mac h));
  if restart : bool then
    ixmap_disable_tx_laser_multispeed_fiber ;;
    ixmap_enable_tx_laser_multispeed_fiber ;;
    upd_mac (set_mac_autotry_restart false)
  else mret tt.

(** ** Modules (ixmap_phy.c) *)

Definition ixmap_identify_module : Hw D Z :=
  stored_sfp_type ← get (fun h => phy_sfp_type (hw_phy h));
  m ← get ixmap_get_media_type_82599;
  match m with
  | ixmap_media_type_fiber =>
      ixmap_set_lan_id_multi_port_pcie ;;
      lan_id ← get (fun h => bus_lan_id (hw_bus h));
      let sfp_type := if lan_id =? 0 then ixmap_sfp_type_srlr_core0 else ixmap_sfp_type_srlr_core1 in
      upd_phy (set_phy_sfp_type sfp_type) ;;
      upd_phy (set_phy_type ixmap_phy_generic) ;;
      (if negb (sfp_type =? stored_sfp_type) then upd_phy (set_phy_sfp_setup_needed true) else mret tt) ;;
      mret 0
  | _ => upd_phy (set_phy_sfp_type ixmap_sfp_type_not_present) ;; mret IXGBE_ERR_SFP_NOT_PRESENT
  end.

(** The loop over pairs of a module's number and the offset of its data. *)
Fixpoint sfp_loop (fuel : nat) (sfp_type list_offset sfp_id : Z) : Hw D (Z + Z * Z) :=
  if sfp_id =? IXGBE_PHY_INIT_END_NL then mret (inl IXGBE_ERR_SFP_NOT_SUPPORTED)
  else
    match fuel with
    | O => hw_unfinished
    | S fuel =>
        if sfp_id =? sfp_type then
          let list_offset := u16 (list_offset + 1) in
          '(status, data_offset) ← read_into list_offset 0;
          if negb (status =? 0) then mret (inl IXGBE_ERR_PHY)
          else if (data_offset =? 0) || (data_offset =? 0xFFFF) then mret (inl IXGBE_ERR_SFP_NOT_SUPPORTED)
          else mret (inr (list_offset, data_offset))
        else
          let list_offset := u16 (list_offset + 2) in
          '(status, sfp_id) ← read_into list_offset sfp_id;
          if negb (status =? 0) then mret (inl IXGBE_ERR_PHY)
          else sfp_loop fuel sfp_type list_offset sfp_id
    end.

(** An error, or the two offsets. *)
Definition ixmap_get_sfp_init_sequence_offsets : Hw D (Z + Z * Z) :=
  sfp_type ← get (fun h => phy_sfp_type (hw_phy h));
  if sfp_type =? ixmap_sfp_type_not_present then mret (inl IXGBE_ERR_SFP_NOT_PRESENT)
  else
    '(status, list_offset) ← read_into IXGBE_PHY_INIT_OFFSET_NL 0;
    if negb (status =? 0) then mret (inl IXGBE_ERR_SFP_NO_INIT_SEQ_PRESENT)
    else if (list_offset =? 0) || (list_offset =? 0xFFFF) then mret (inl IXGBE_ERR_SFP_NO_INIT_SEQ_PRESENT)
    else
      let list_offset := u16 (list_offset + 1) in
      '(status, sfp_id) ← read_into list_offset 0;
      if negb (status =? 0) then mret (inl IXGBE_ERR_PHY)
      else sfp_loop (Z.to_nat 65536) (u16 sfp_type) list_offset sfp_id.

(** ** The firmware *)

(** A pointer to a section that is there. *)
Definition no_section (offset : Z) : bool := (offset =? 0) || (offset =? 0xFFFF).

Definition ixmap_verify_fw_version_82599 : Hw D Z :=
  m ← get (fun h => phy_media_type (hw_phy h));
  if negb (bool_decide (m = ixmap_media_type_fiber)) then mret 0
  else
    '(r, fw_offset) ← read_into IXGBE_FW_PTR 0;
    if negb (r =? 0) then mret IXGBE_ERR_EEPROM_VERSION
    else if no_section fw_offset then mret IXGBE_ERR_EEPROM_VERSION
    else
      '(r, fw_ptp_cfg_offset) ← read_into (fw_offset + IXGBE_FW_PASSTHROUGH_PATCH_CONFIG_PTR) 0;
      if negb (r =? 0) then mret IXGBE_ERR_EEPROM_VERSION
      else if no_section fw_ptp_cfg_offset then mret IXGBE_ERR_EEPROM_VERSION
      else
        '(r, fw_version) ← read_into (fw_ptp_cfg_offset + IXGBE_FW_PATCH_VERSION_4) 0;
        if negb (r =? 0) then mret IXGBE_ERR_EEPROM_VERSION
        else mret (if 5 <? fw_version then 0 else IXGBE_ERR_EEPROM_VERSION).

Definition ixmap_verify_lesm_fw_enabled_82599 : Hw D bool :=
  '(status, fw_offset) ← read_into IXGBE_FW_PTR 0;
  if negb (status =? 0) || no_section fw_offset then mret false
  else
    '(status, fw_lesm_param_offset) ← read_into (fw_offset + IXGBE_FW_LESM_PARAMETERS_PTR) 0;
    if negb (status =? 0) || no_section fw_lesm_param_offset then mret false
    else
      '(status, fw_lesm_state) ← read_into (fw_lesm_param_offset + IXGBE_FW_LESM_STATE_1) 0;
      mret ((status =? 0) && bits fw_lesm_state IXGBE_FW_LESM_STATE_ENABLED).

(** ** The link configuration register *)

(** The last value read of the state of the negotiation. *)
Fixpoint anlp1_loop (n : nat) (anlp1_reg : Z) : Hw D Z :=
  match n with
  | O => mret anlp1_reg
  | S n =>
      msleep 4 ;;
      anlp1_reg ← IXGBE_READ_REG IXGBE_ANLP1;
      if bits anlp1_reg IXGBE_ANLP1_AN_STATE_MASK then mret anlp1_reg else anlp1_loop n anlp1_reg
  end.

Definition ixmap_reset_pipeline_82599 : Hw D Z :=
  autoc2_reg ← IXGBE_READ_REG IXGBE_AUTOC2;
  (if bits autoc2_reg IXGBE_AUTOC2_LINK_DISABLE_MASK then
     IXGBE_WRITE_REG IXGBE_AUTOC2 (Z.land autoc2_reg (not32 IXGBE_AUTOC2_LINK_DISABLE_MASK)) ;;
     IXGBE_WRITE_FLUSH
   else mret tt) ;;
  autoc_reg ← IXGBE_READ_REG IXGBE_AUTOC;
  let autoc_reg := Z.lor autoc_reg IXGBE_AUTOC_AN_RESTART in
  IXGBE_WRITE_REG IXGBE_AUTOC (Z.lxor autoc_reg (Z.shiftl 0x4 IXGBE_AUTOC_LMS_SHIFT)) ;;
  anlp1_reg ← anlp1_loop 10 0;
  IXGBE_WRITE_REG IXGBE_AUTOC autoc_reg ;;
  IXGBE_WRITE_FLUSH ;;
  mret (if bits anlp1_reg IXGBE_ANLP1_AN_STATE_MASK then 0 else IXGBE_ERR_RESET_FAILED).

(** The error, or whether the lock is held and the register. *)
Definition prot_autoc_read_82599 : Hw D (Z + bool * Z) :=
  lesm ← ixmap_verify_lesm_fw_enabled_82599;
  ret_val ← (if lesm : bool then ixmap_acquire_swfw_sync IXGBE_GSSR_MAC_CSR_SM else mret 0);
  if negb (ret_val =? 0) then mret (inl IXGBE_ERR_SWFW_SYNC)
  else
    reg_val ← IXGBE_READ_REG IXGBE_AUTOC;
    mret (inr (lesm, reg_val)).

Definition prot_autoc_write_82599 (autoc : Z) (locked : bool) : Hw D Z :=
  lesm ← (if locked then mret false else ixmap_verify_lesm_fw_enabled_82599);
  ret_val ← (if lesm : bool then ixmap_acquire_swfw_sync IXGBE_GSSR_MAC_CSR_SM else mret 0);
  if negb (ret_val =? 0) then mret IXGBE_ERR_SWFW_SYNC
  else
    IXGBE_WRITE_REG IXGBE_AUTOC autoc ;;
    ret_val ← ixmap_reset_pipeline_82599;
    (if locked || lesm then ixmap_release_swfw_sync IXGBE_GSSR_MAC_CSR_SM else mret tt) ;;
    mret ret_val.

(** The loop that writes the data of a module; [false] when a read fails. *)
Fixpoint corectl_loop (fuel : nat) (data_offset data_value : Z) : Hw D bool :=
  if data_value =? 0xffff then mret true
  else
    match fuel with
    | O => hw_unfinished
    | S fuel =>
        IXGBE_WRITE_REG IXGBE_CORECTL data_value ;;
        IXGBE_WRITE_FLUSH ;;
        let data_offset := u16 (data_offset + 1) in
        '(status, data_value) ← read_into data_offset data_value;
        if negb (status =? 0) then mret false else corectl_loop fuel data_offset data_value
    end.

Definition ixmap_setup_sfp_modules_82599 : Hw D Z :=
  ixmap_init_mac_link_ops_82599 ;;
  r ← ixmap_get_sfp_init_sequence_offsets;
  match r with
  | inl ret_val => mret ret_val
  | inr (_, data_offset) =>
      ret_val ← ixmap_acquire_swfw_sync IXGBE_GSSR_MAC_CSR_SM;
      if negb (ret_val =? 0) then mret IXGBE_ERR_SWFW_SYNC
      else
        let data_offset := u16 (data_offset + 1) in
        '(status, data_value) ← read_into data_offset 0;
        ok ← (if negb (status =? 0) then mret false
              else corectl_loop (Z.to_nat 65536) data_offset data_value);
        ixmap_release_swfw_sync IXGBE_GSSR_MAC_CSR_SM ;;
        ee ← get hw_eeprom;
        msleep (ee_semaphore_delay ee) ;;
        if negb ok then mret IXGBE_ERR_PHY
        else
          orig ← get (fun h => mac_orig_autoc (hw_mac h));
          ret_val ← prot_autoc_write_82599 (Z.lor orig IXGBE_AUTOC_LMS_10G_SERIAL) false;
          mret (if negb (ret_val =? 0) then IXGBE_ERR_SFP_SETUP_NOT_COMPLETE else ret_val)
  end.

(** ** The link *)

(** An error, or the speeds and whether they are negotiated. *)
Definition ixmap_get_link_capabilities_82599 : Hw D (Z + Z * bool) :=
  mac ← get hw_mac;
  autoc ← (if mac_orig_link_settings_stored mac then mret (mac_orig_autoc mac) else IXGBE_READ_REG IXGBE_AUTOC);
  let lms := Z.land autoc IXGBE_AUTOC_LMS_MASK in
  let supported speed :=
    let speed := if bits autoc IXGBE_AUTOC_KR_SUPP then Z.lor speed IXGBE_LINK_SPEED_10GB_FULL else speed in
    let speed := if bits autoc IXGBE_AUTOC_KX4_SUPP then Z.lor speed IXGBE_LINK_SPEED_10GB_FULL else speed in
    if bits autoc IXGBE_AUTOC_KX_SUPP then Z.lor speed IXGBE_LINK_SPEED_1GB_FULL else speed in
  mret
    (if lms =? IXGBE_AUTOC_LMS_1G_LINK_NO_AN then inr (IXGBE_LINK_SPEED_1GB_FULL, false)
     else if lms =? IXGBE_AUTOC_LMS_10G_LINK_NO_AN then inr (IXGBE_LINK_SPEED_10GB_FULL, false)
     else if lms =? IXGBE_AUTOC_LMS_1G_AN then inr (IXGBE_LINK_SPEED_1GB_FULL, true)
     else if lms =? IXGBE_AUTOC_LMS_10G_SERIAL then inr (IXGBE_LINK_SPEED_10GB_FULL, false)
     else if (lms =? IXGBE_AUTOC_LMS_KX4_KX_KR) || (lms =? IXGBE_AUTOC_LMS_KX4_KX_KR_1G_AN)
     then inr (supported IXGBE_LINK_SPEED_UNKNOWN, true)
     else if lms =? IXGBE_AUTOC_LMS_KX4_KX_KR_SGMII then inr (supported IXGBE_LINK_SPEED_100_FULL, true)
     else if lms =? IXGBE_AUTOC_LMS_SGMII_1G_100M
     then inr (Z.lor IXGBE_LINK_SPEED_1GB_FULL IXGBE_LINK_SPEED_100_FULL, false)
     else inl IXGBE_ERR_LINK_SETUP).

Definition lms_kx (link_mode : Z) : bool :=
  (link_mode =? IXGBE_AUTOC_LMS_KX4_KX_KR) || (link_mode =? IXGBE_AUTOC_LMS_KX4_KX_KR_1G_AN)
  || (link_mode =? IXGBE_AUTOC_LMS_KX4_KX_KR_SGMII).

(** The value of AUTOC for a speed. *)
Definition link_autoc (autoc orig_autoc autoc2 speed : Z) (autoneg : bool) : Z :=
  let pma_pmd_10g_serial := Z.land autoc2 IXGBE_AUTOC2_10G_SERIAL_PMA_PMD_MASK in
  let link_mode := Z.land autoc IXGBE_AUTOC_LMS_MASK in
  let pma_pmd_1g := Z.land autoc IXGBE_AUTOC_1G_PMA_PMD_MASK in
  if lms_kx link_mode then
    let autoc := Z.land autoc (not32 (Z.lor IXGBE_AUTOC_KX4_KX_SUPP_MASK IXGBE_AUTOC_KR_SUPP)) in
    let autoc :=
      if bits speed IXGBE_LINK_SPEED_10GB_FULL then
        let autoc := if bits orig_autoc IXGBE_AUTOC_KX4_SUPP then Z.lor autoc IXGBE_AUTOC_KX4_SUPP else autoc in
        if bits orig_autoc IXGBE_AUTOC_KR_SUPP then Z.lor autoc IXGBE_AUTOC_KR_SUPP else autoc
      else autoc in
    if bits speed IXGBE_LINK_SPEED_1GB_FULL then Z.lor autoc IXGBE_AUTOC_KX_SUPP else autoc
  else if (pma_pmd_1g =? IXGBE_AUTOC_1G_SFI)
          && ((link_mode =? IXGBE_AUTOC_LMS_1G_LINK_NO_AN) || (link_mode =? IXGBE_AUTOC_LMS_1G_AN)) then
    if (speed =? IXGBE_LINK_SPEED_10GB_FULL) && (pma_pmd_10g_serial =? IXGBE_AUTOC2_10G_SFI)
    then Z.lor (Z.land autoc (not32 IXGBE_AUTOC_LMS_MASK)) IXGBE_AUTOC_LMS_10G_SERIAL
    else autoc
  else if (pma_pmd_10g_serial =? IXGBE_AUTOC2_10G_SFI) && (link_mode =? IXGBE_AUTOC_LMS_10G_SERIAL) then
    if (speed =? IXGBE_LINK_SPEED_1GB_FULL) && (pma_pmd_1g =? IXGBE_AUTOC_1G_SFI)
    then Z.lor (Z.land autoc (not32 IXGBE_AUTOC_LMS_MASK))
           (if autoneg then IXGBE_AUTOC_LMS_1G_AN else IXGBE_AUTOC_LMS_1G_LINK_NO_AN)
    else autoc
  else autoc.

Definition ixmap_setup_mac_link_82599 (speed : Z) (autoneg_wait_to_complete : bool) : Hw D Z :=
  current_autoc ← IXGBE_READ_REG IXGBE_AUTOC;
  autoc2 ← IXGBE_READ_REG IXGBE_AUTOC2;
  r ← ixmap_get_link_capabilities_82599;
  match r with
  | inl status => mret status
  | inr (link_capabilities, autoneg) =>
      let speed := Z.land speed link_capabilities in
      if speed =? IXGBE_LINK_SPEED_UNKNOWN then mret IXGBE_ERR_LINK_SETUP
      else
        mac ← get hw_mac;
        let orig_autoc := if mac_orig_link_settings_stored mac then mac_orig_autoc mac else current_autoc in
        let autoc := link_autoc current_autoc orig_autoc autoc2 speed autoneg in
        if autoc =? current_autoc then mret 0
        else
          status ← prot_autoc_write_82599 autoc false;
          if negb (status =? 0) then mret status
          else
            status ←
              (if autoneg_wait_to_complete && lms_kx (Z.land current_autoc IXGBE_AUTOC_LMS_MASK) then
                 r ← attempts (Z.to_nat IXGBE_AUTO_NEG_TIME)
                       (links_reg ← IXGBE_READ_REG IXGBE_LINKS;
                        if bits links_reg IXGBE_LINKS_KX_AN_COMP then mret (Some tt)
                        else msleep 100 ;; mret None);
                 mret (match r with Some _ => 0 | None => IXGBE_ERR_AUTONEG_NOT_COMPLETE end)
               else mret 0);
            msleep 50 ;;
            mret status
  end.

(** ** Set-up, reset and start *)

Definition ixmap_init_ops_82599 : Hw D Z :=
  msix ← ixmap_get_pcie_msix_count;
  fwsm ← IXGBE_READ_REG IXGBE_FWSM;
  upd_mac (fun m =>
    MacInfo (mac_type m) (mac_addr m) (mac_perm_addr m) (mac_mc_filter_type m)
      IXGBE_82599_MC_TBL_SIZE IXGBE_82599_VFT_TBL_SIZE IXGBE_82599_RAR_ENTRIES IXGBE_82599_RX_PB_SIZE
      IXGBE_82599_MAX_RX_QUEUES IXGBE_82599_MAX_TX_QUEUES (mac_orig_autoc m) (mac_orig_autoc2 m) msix
      (bits fwsm IXGBE_FWSM_MODE_MASK) (mac_orig_link_settings_stored m) (mac_autotry_restart m)
      (mac_flags m) (mac_laser_ops m)) ;;
  mret 0.

Definition ixmap_identify_phy_82599 : Hw D Z := ixmap_identify_module.

Definition ixmap_init_phy_ops_82599 : Hw D Z :=
  ret_val ← ixmap_identify_phy_82599;
  ixmap_init_mac_link_ops_82599 ;;
  mret ret_val.

(** One global reset, from [mac_reset_top] to the pause after it; the polling
    loop keeps the last value read. *)
Fixpoint reset_poll (n : nat) (ctrl : Z) : Hw D Z :=
  match n with
  | O => mret ctrl
  | S n =>
      udelay 1 ;;
      ctrl ← IXGBE_READ_REG IXGBE_CTRL;
      if bits ctrl IXGBE_CTRL_RST_MASK then reset_poll n ctrl else mret ctrl
  end.

Definition mac_reset (status : Z) : Hw D Z :=
  force ← get hw_force_full_reset;
  ctrl ← (if force : bool then mret IXGBE_CTRL_LNK_RST
          else
            '(_, link_up) ← ixmap_check_mac_link false;
            mret (if link_up : bool then IXGBE_CTRL_RST else IXGBE_CTRL_LNK_RST));
  v ← IXGBE_READ_REG IXGBE_CTRL;
  let ctrl := Z.lor ctrl v in
  IXGBE_WRITE_REG IXGBE_CTRL ctrl ;;
  IXGBE_WRITE_FLUSH ;;
  ctrl ← reset_poll 10 ctrl;
  msleep 50 ;;
  mret (if bits ctrl IXGBE_CTRL_RST_MASK then IXGBE_ERR_RESET_FAILED else status).

Fixpoint reset_loop (fuel : nat) (status : Z) : Hw D Z :=
  match fuel with
  | O => hw_unfinished
  | S fuel =>
      status ← mac_reset status;
      flags ← get (fun h => mac_flags (hw_mac h));
      if bits flags IXGBE_FLAGS_DOUBLE_RESET_REQUIRED then
        upd_mac (set_mac_flags (Z.land flags (Z.lxor 0xFF IXGBE_FLAGS_DOUBLE_RESET_REQUIRED))) ;;
        reset_loop fuel status
      else mret status
  end.

(** The registers AUTOC and AUTOC2 are remembered the first time and restored
    later; [inl] leaves the function. *)
Definition restore_autoc (status : Z) : Hw D (Z + Z) :=
  autoc ← IXGBE_READ_REG IXGBE_AUTOC;
  autoc2 ← IXGBE_READ_REG IXGBE_AUTOC2;
  autoc2 ← (if bits autoc2 IXGBE_AUTOC2_LINK_DISABLE_MASK then
              let autoc2 := Z.land autoc2 (not32 IXGBE_AUTOC2_LINK_DISABLE_MASK) in
              IXGBE_WRITE_REG IXGBE_AUTOC2 autoc2 ;; IXGBE_WRITE_FLUSH ;; mret autoc2
            else mret autoc2);
  mac ← get hw_mac;
  if negb (mac_orig_link_settings_stored mac) then
    upd_mac (fun m =>
      MacInfo (mac_type m) (mac_addr m) (mac_perm_addr m) (mac_mc_filter_type m) (mac_mcft_size m) (mac_vft_size m)
        (mac_num_rar_entries m) (mac_rx_pb_size m) (mac_max_rx_queues m) (mac_max_tx_queues m) autoc autoc2
        (mac_max_msix_vectors m) (mac_arc_subsystem_valid m) true (mac_autotry_restart m) (mac_flags m)
        (mac_laser_ops m)) ;;
    mret (inr status)
  else
    status ← (if negb (autoc =? mac_orig_autoc mac) then
                status ← prot_autoc_write_82599 (mac_orig_autoc mac) false;
                mret (if negb (status =? 0) then inl status else inr status)
              else mret (inr status));
    match status with
    | inl status => mret (inl status)
    | inr status =>
        (if negb (Z.land autoc2 IXGBE_AUTOC2_UPPER_MASK =? Z.land (mac_orig_autoc2 mac) IXGBE_AUTOC2_UPPER_MASK) then
           IXGBE_WRITE_REG IXGBE_AUTOC2
             (Z.lor (Z.land autoc2 (not32 IXGBE_AUTOC2_UPPER_MASK))
                (Z.land (mac_orig_autoc2 mac) IXGBE_AUTOC2_UPPER_MASK))
         else mret tt) ;;
        mret (inr status)
    end.

Definition ixmap_reset_hw_82599 : Hw D Z :=
  status ← ixmap_stop_adapter;
  if negb (status =? 0) then mret status
  else
    ixmap_clear_tx_pending ;;
    status ← ixmap_init_phy_ops_82599;
    if negb (status =? 0) then mret status
    else
      needed ← get (fun h => phy_sfp_setup_needed (hw_phy h));
      status ← (if needed : bool then
                  status ← ixmap_setup_sfp_modules_82599;
                  upd_phy (set_phy_sfp_setup_needed false) ;;
                  mret status
                else mret 0);
      if negb (status =? 0) then mret status
      else
        status ← reset_loop 2 0;
        r ← restore_autoc status;
        match r with
        | inl status => mret status
        | inr status =>
            addr ← ixmap_get_mac_addr;
            upd_mac (set_mac_perm_addr addr) ;;
            upd_mac (set_mac_num_rar_entries 128) ;;
            ixmap_init_rx_addrs ;;
            mret status
        end.

Definition ixmap_start_hw_82599 : Hw D Z :=
  ixmap_start_hw ;;
  ixmap_start_hw_gen2 ;;
  upd_mac (set_mac_autotry_restart true) ;;
  ixmap_verify_fw_version_82599.

(** ixmap_common.c *)
Definition ixmap_init_hw : Hw D Z :=
  status ← ixmap_reset_hw_82599;
  if status =? 0 then ixmap_start_hw_82599 else mret status.

End Mac.
