(* ===== verification/IxgbeProps.v ===== *)
(** * Properties of the code for the 82599

    The list of modules in the EEPROM, and that the reset is repeated once at
    most. *)

From stdpp Require Import prelude list.
From S2P Require Import Prelude HwRegs Hw HwLogic Eeprom Checksum Common RegCard Ixgbe82599.

(** ** The list of modules *)

(** The pairs at [base], up to the terminator. *)
Fixpoint table_at (rom : Z -> Z) (base : Z) (l : list (Z * Z)) : Prop :=
  match l with
  | [] => rom base = IXGBE_PHY_INIT_END_NL
  | (id, off) :: l =>
      rom base = id /\ id <> IXGBE_PHY_INIT_END_NL /\ rom (base + 1) = off /\ table_at rom (base + 2) l
  end.

(** The first pair with the number of the module counts. *)
Fixpoint sfp_find (sfp_type base : Z) (l : list (Z * Z)) : Z + Z * Z :=
  match l with
  | [] => inl IXGBE_ERR_SFP_NOT_SUPPORTED
  | (id, off) :: l =>
      if id =? sfp_type then
        if (off =? 0) || (off =? 0xFFFF) then inl IXGBE_ERR_SFP_NOT_SUPPORTED else inr (base + 1, off)
      else sfp_find sfp_type (base + 2) l
  end.

Section Sfp.

Context {D : Type} `{Device D} `{EepromOps D} (rom : Z -> Z) (size : Z) `{!EepromSpec D rom size}.

Notation ready := (ee_ready (rom := rom) (size := size)).

(** A read of any word. *)
Lemma read_into_any off old :
  0 <= off < 2 ^ 16 ->
  runs ready (read_into off old)
    (fun r s => r = (if off <? size then (0, rom off) else (IXGBE_ERR_EEPROM, old)) /\ ready s).
Proof.
  intros Ho. unfold read_into. rewrite u16_small by lia. destruct (Z.ltb_spec off size).
  - eapply r_bind_eq; [apply ee_read_in; lia|]. by apply r_ret.
  - eapply r_bind_eq; [apply ee_read_out; lia|]. by apply r_ret.
Qed.

(** Whatever the EEPROM holds, the search ends at its last word at the latest. *)
Lemma sfp_loop_ok fuel t off :
  0 <= off < size -> (Z.to_nat ((size - off + 1) / 2) <= fuel)%nat ->
  runs ready (sfp_loop fuel t off (rom off))
    (fun r s => (forall l, table_at rom off l -> off + 2 * Z.of_nat (length l) < size -> r = sfp_find t off l) /\ ready s).
Proof.
  pose proof (ee_size (rom := rom) (size := size)) as Hz.
  revert off. induction fuel as [|fuel IH]; intros off Ho Hf.
  { assert (1 <= (size - off + 1) / 2) by (apply Z.div_le_lower_bound; lia). lia. }
  cbn [sfp_loop]. destruct (Z.eqb_spec (rom off) IXGBE_PHY_INIT_END_NL) as [E|Hne].
  - apply r_ret. intros s Hs. split; [|done]. intros [|[id o] l] Ht Hl; [done|]. destruct Ht as (Hid & Hn & _). congruence.
  - destruct (Z.eqb_spec (rom off) t) as [Et|Hnt].
    + rewrite (u16_small (off + 1)) by lia. eapply r_bind_eq; [apply read_into_any; lia|].
      destruct (Z.ltb_spec (off + 1) size); cbn [Z.eqb negb].
      * assert (forall l, table_at rom off l -> sfp_find t off l =
          if (rom (off + 1) =? 0) || (rom (off + 1) =? 0xFFFF) then inl IXGBE_ERR_SFP_NOT_SUPPORTED
          else inr (off + 1, rom (off + 1))) as Hfind.
        { intros [|[id o] l] Ht; [by destruct Hne|]. destruct Ht as (Hid & _ & Hoff & _). cbn [sfp_find].
          rewrite (proj2 (Z.eqb_eq id t)) by congruence. by rewrite Hoff. }
        destruct (_ || _); apply r_ret; intros s Hs; (split; [|done]); intros l Ht _; by rewrite Hfind.
      * apply r_ret. intros s Hs. split; [|done]. intros [|[id o] l] Ht Hl; [by destruct Hne|]. cbn in Hl. lia.
    + rewrite (u16_small (off + 2)) by lia. eapply r_bind_eq; [apply read_into_any; lia|].
      destruct (Z.ltb_spec (off + 2) size); cbn [Z.eqb negb].
      * eapply r_weaken; [apply IH; [lia|]|done|].
        { replace (size - (off + 2) + 1) with (size - off + 1 + (-1) * 2) by lia. rewrite Z.div_add by lia. lia. }
        intros r s [Hr Hs]. split; [|done]. intros [|[id o] l] Ht Hl; [by destruct Hne|].
        destruct Ht as (Hid & _ & _ & Ht). cbn [sfp_find]. rewrite (proj2 (Z.eqb_neq id t)) by congruence.
        apply Hr; [done|]. cbn in Hl. lia.
      * apply r_ret. intros s Hs. split; [|done]. intros [|[id o] l] Ht Hl; [by destruct Hne|]. cbn in Hl. lia.
Qed.


(** The search for a module's data ends and finds it. Whatever the EEPROM
    holds, [ixmap_get_sfp_init_sequence_offsets] returns; and when there is a list
    of modules that is properly terminated, it returns the offset of the data of
    the first entry for the module, or that the module is not supported. *)
Theorem sfp_offsets_correct s :
  ready s -> 0 <= phy_sfp_type (hw_phy s.1) < 2 ^ 16 -> phy_sfp_type (hw_phy s.1) <> ixmap_sfp_type_not_present ->
  exists r s', ixmap_get_sfp_init_sequence_offsets s = Returns (r, s') /\ ready s' /\
    (let p := rom IXGBE_PHY_INIT_OFFSET_NL in
     (p = 0 \/ p = 0xFFFF -> r = inl IXGBE_ERR_SFP_NO_INIT_SEQ_PRESENT) /\
     (p <> 0 -> p <> 0xFFFF -> forall l, table_at rom (p + 1) l -> p + 1 + 2 * Z.of_nat (length l) < size ->
        r = sfp_find (phy_sfp_type (hw_phy s.1)) (p + 1) l)).
Proof.
  intros Hs Ht Hn. pose proof (ee_size (rom := rom) (size := size)) as Hz.
  pose proof (ee_words (rom := rom) (size := size) IXGBE_PHY_INIT_OFFSET_NL) as Hw.
  set (p := rom IXGBE_PHY_INIT_OFFSET_NL) in *. set (t := phy_sfp_type (hw_phy s.1)) in *.
  enough (runs ready (
    '(status, list_offset) ← read_into IXGBE_PHY_INIT_OFFSET_NL 0;
    if negb (status =? 0) then mret (inl IXGBE_ERR_SFP_NO_INIT_SEQ_PRESENT)
    else if (list_offset =? 0) || (list_offset =? 0xFFFF) then mret (inl IXGBE_ERR_SFP_NO_INIT_SEQ_PRESENT)
    else
      let list_offset := u16 (list_offset + 1) in
      '(status, sfp_id) ← read_into list_offset 0;
      if negb (status =? 0) then mret (inl IXGBE_ERR_PHY)
      else sfp_loop (Z.to_nat 65536) (u16 t) list_offset sfp_id)
   (fun r s => ((p = 0 \/ p = 0xFFFF -> r = inl IXGBE_ERR_SFP_NO_INIT_SEQ_PRESENT) /\
     (p <> 0 -> p <> 0xFFFF -> forall l, table_at rom (p + 1) l -> p + 1 + 2 * Z.of_nat (length l) < size ->
        r = sfp_find t (p + 1) l)) /\ ready s)) as Hrun.
  { destruct (Hrun s Hs) as (r & s' & E & Hr & Hs'). exists r, s'. split; [|done].
    unfold ixmap_get_sfp_init_sequence_offsets, get, mbind, Hw_bind in *. cbv beta iota.
    fold t. rewrite (proj2 (Z.eqb_neq _ _) Hn). exact E. }
  eapply r_bind_eq; [apply (read_into_any); unfold IXGBE_PHY_INIT_OFFSET_NL; lia|].
  rewrite (proj2 (Z.ltb_lt _ _)) by (unfold IXGBE_PHY_INIT_OFFSET_NL; lia). cbn [Z.eqb negb]. fold p.
  destruct (Z.eqb_spec p 0) as [E0|Hn0]; [apply r_ret; intros s' Hs'; split; [|done]; split; [done|lia]|].
  destruct (Z.eqb_spec p 0xFFFF) as [E0|Hnf]; [apply r_ret; intros s' Hs'; split; [|done]; split; [done|lia]|].
  cbn [orb]. cbv zeta. rewrite (u16_small (p + 1)), (u16_small t) by lia.
  eapply r_bind_eq; [apply read_into_any; lia|]. destruct (Z.ltb_spec (p + 1) size); cbn [Z.eqb negb].
  - eapply r_weaken; [apply sfp_loop_ok; [lia|]|done|].
    { apply Z2Nat.inj_le; [apply Z.div_pos; lia|lia|]. apply Z.div_le_upper_bound; lia. }
    intros r s' [Hr Hs']. split; [|done]. split; [lia|]. intros _ _. exact Hr.
  - apply r_ret. intros s' Hs'. split; [|done]. split; [lia|]. intros _ _ l Hl Hlt. lia.
Qed.

End Sfp.

(** ** The double reset *)

Section Reset.

Context {D : Type} `{Device D}.

Local Ltac d_step :=
  eapply r_bind; [first [apply d_read | apply d_write | apply d_udelay | apply d_get]|]; intros ?.

Lemma mac_reset_ok status h : runs (Drv h) (mac_reset status) (fun _ => Drv h).
Proof.
  unfold mac_reset. d_step. apply r_pure. intros ->. apply (r_bind _ _ _ (fun _ => Drv h)).
  { destruct (hw_force_full_reset h); [by apply r_ret|]. unfold ixmap_check_mac_link.
    apply (r_bind _ _ _ (fun _ => Drv h)); [|intros [sp up]; by apply r_ret].
    d_step. d_step. apply r_ret_bind. by apply r_ret. }
  intros ctrl. d_step. d_step. apply (r_bind _ _ _ (fun _ => Drv h)).
  { unfold IXGBE_WRITE_FLUSH. d_step. by apply r_ret. }
  intros u. eapply (r_bind _ _ _ (fun _ => Drv h)).
  { generalize (Z.lor ctrl x). generalize 10%nat. intros n. induction n as [|n IH]; intros c; cbn [reset_poll]; [by apply r_ret|].
    d_step. d_step. destruct (bits _ _); [apply IH|by apply r_ret]. }
  intros c. d_step. by apply r_ret.
Qed.

(** The card is reset once, and once more when that was asked for; two rounds are
    enough, and afterwards no second reset is asked for. *)
Lemma reset_loop_ends status h :
  0 <= mac_flags (hw_mac h) < 256 ->
  runs (Drv h) (reset_loop 2 status) (fun _ s => bits (mac_flags (hw_mac s.1)) IXGBE_FLAGS_DOUBLE_RESET_REQUIRED = false).
Proof.
  intros Hf. cbn [reset_loop]. eapply r_bind; [apply mac_reset_ok|]. intros st. d_step. apply r_pure. intros ->.
  destruct (bits (mac_flags (hw_mac h)) IXGBE_FLAGS_DOUBLE_RESET_REQUIRED) eqn:E.
  2:{ apply r_ret. intros s <-. exact E. }
  eapply r_bind; [apply d_put|]. intros u. cbv beta. set (h1 := set_hw_mac _ h).
  assert (bits (mac_flags (hw_mac h1)) IXGBE_FLAGS_DOUBLE_RESET_REQUIRED = false) as E1.
  { change IXGBE_FLAGS_DOUBLE_RESET_REQUIRED with (2 ^ 0). rewrite bits_pow2 by lia.
    change (mac_flags (hw_mac h1)) with (Z.land (mac_flags (hw_mac h)) 0xFE). rewrite Z.land_spec. apply andb_false_r. }
  eapply r_bind; [apply mac_reset_ok|]. intros st2. d_step. apply r_pure. intros ->. rewrite E1.
  apply r_ret. intros s <-. exact E1.
Qed.

End Reset.
