(* ===== verification/HwSafe.v ===== *)
(** * No undefined behaviour, whatever the card does

    [safe I m Q]: on any card, when what the driver knows of the EEPROM satisfies
    [I], [m] has no undefined behaviour, and if it returns, [I] holds again and [Q]
    of the result.  The length of EEPROM addresses decides over a shift; it is set
    together with the type of the EEPROM. *)

From stdpp Require Import prelude list.
From S2P Require Import Prelude HwRegs Hw HwLogic Eeprom Common Ixgbe82599 NvmRead.

Definition ee_known (ee : ixmap_eeprom_info) : Prop := ee_address_bits ee = 8 \/ ee_address_bits ee = 16.

Definition ee_inv (ee : ixmap_eeprom_info) : Prop := ee_type ee = ixmap_eeprom_uninitialized \/ ee_known ee.

Section Safe.

Context {D : Type} `{Device D} (I : ixmap_eeprom_info -> Prop).

Definition safe {A} (m : Hw D A) (Q : A -> Prop) : Prop :=
  forall s, I (hw_eeprom s.1) ->
    match m s with
    | Returns (x, s') => Q x /\ I (hw_eeprom s'.1) /\ hw_addr s'.1 = hw_addr s.1
    | Undefined => False
    | Unfinished => True
    end.

Definition any {A} (_ : A) : Prop := True.

Lemma s_ret {A} (x : A) (Q : A -> Prop) : Q x -> safe (mret x) Q.
Proof. by intros Hq s Hs. Qed.

Lemma s_bind {A B} (m : Hw D A) (f : A -> Hw D B) P Q :
  safe m P -> (forall x, P x -> safe (f x) Q) -> safe (m ≫= f) Q.
Proof.
  intros Hm Hf s Hs. unfold mbind, Hw_bind. specialize (Hm s Hs). destruct (m s) as [[x s']| |]; [|done|done].
  destruct Hm as (Hp & Hs' & Ha). specialize (Hf x Hp s' Hs'). destruct (f x s') as [[y s2]| |]; [|done|done].
  destruct Hf as (Hq & Hs2 & Ha2). by rewrite Ha2, Ha.
Qed.

Lemma s_weaken {A} (m : Hw D A) (P Q : A -> Prop) : safe m P -> (forall x, P x -> Q x) -> safe m Q.
Proof. intros Hm Hpq s Hs. specialize (Hm s Hs). destruct (m s) as [[x s']| |]; [|done|done]. naive_solver. Qed.

Lemma s_any {A} (m : Hw D A) (P : A -> Prop) : safe m P -> safe m any.
Proof. intros Hm. eapply s_weaken; [exact Hm|done]. Qed.

Lemma s_unfinished {A} (Q : A -> Prop) : safe hw_unfinished Q.
Proof. done. Qed.

Lemma s_get {A} (f : ixmap_hw -> A) : safe (get f) (fun x => exists h, I (hw_eeprom h) /\ x = f h).
Proof. intros s Hs. split; [by exists s.1|done]. Qed.

Lemma s_put f :
  (forall h, hw_eeprom (f h) = hw_eeprom h) -> (forall h, hw_addr (f h) = hw_addr h) -> safe (put f) any.
Proof. intros Hf Ha s Hs. split; [done|]. cbn. by rewrite Hf, Ha. Qed.

Lemma s_mac f : safe (upd_mac f) any.
Proof. by apply s_put. Qed.
Lemma s_phy f : safe (upd_phy f) any.
Proof. by apply s_put. Qed.
Lemma s_stopped b : safe (put (set_hw_adapter_stopped b)) any.
Proof. by apply s_put. Qed.
Lemma s_bus b : safe (put (set_hw_bus b)) any.
Proof. by apply s_put. Qed.

Lemma s_read r : safe (IXGBE_READ_REG r) (fun v => 0 <= v < 2 ^ 32).
Proof.
  intros s Hs. unfold IXGBE_READ_REG. destruct (IXGBE_REMOVED _); [split; [by vm_compute|done]|].
  destruct (readl r s.2) as [v d]. split; [apply Z.mod_pos_bound; lia|done].
Qed.

Lemma s_write r v : safe (IXGBE_WRITE_REG r v) any.
Proof. intros s Hs. unfold IXGBE_WRITE_REG. by destruct (IXGBE_REMOVED _). Qed.

Lemma s_udelay t : safe (udelay t) any.
Proof. by intros s Hs. Qed.

Lemma s_cfg r : safe (ixmap_read_pci_cfg_word r) (fun v => 0 <= v < 2 ^ 16).
Proof.
  intros s Hs. unfold ixmap_read_pci_cfg_word. destruct (hw_addr _ =? 0); [split; [by vm_compute|done]|].
  destruct (pci_read_config_word r s.2) as [v d]. split; [apply Z.mod_pos_bound; lia|done].
Qed.

(** Code of which all is known that is to be known. *)
Lemma s_runs {A} (m : Hw D A) (Q : A -> Prop) :
  (forall h, runs (Drv h) m (fun x s => Q x /\ Drv h s)) -> safe m Q.
Proof. intros Hm s Hs. destruct (Hm s.1 s eq_refl) as (x & s' & -> & Hq & E). by rewrite E. Qed.

Lemma s_for n start body :
  (forall i, start <= i < start + Z.of_nat n -> safe (body i) any) -> safe (for_range n start body) any.
Proof.
  revert start. induction n as [|n IH]; intros start Hb; cbn [for_range]; [by apply s_ret|].
  eapply s_bind; [apply Hb; lia|]. intros u _. apply IH. intros i Hi. apply Hb. lia.
Qed.

Lemma s_attempts {A} n (body : Hw D (option A)) : safe body any -> safe (attempts n body) any.
Proof.
  intros Hb. induction n as [|n IH]; cbn [attempts]; [by apply s_ret|].
  eapply s_bind; [exact Hb|]. intros [x|] _; [by apply s_ret|exact IH].
Qed.

End Safe.

Create HintDb safe.
#[export] Hint Resolve s_get s_mac s_phy s_stopped s_bus s_read s_write s_udelay s_cfg s_unfinished : safe.
#[export] Hint Extern 1 (safe _ (msleep _) _) => apply s_udelay : safe.

(** Straight-line code, branches and bounded loops.  The known functions are in
    the hint database. *)
Ltac safe_case :=
  match goal with
  | |- context [if ?b then _ else _] => destruct b
  | |- context [match ?x with Some _ => _ | None => _ end] => destruct x
  | |- context [match ?x with inl _ => _ | inr _ => _ end] => destruct x
  | |- context [let '(_, _) := ?x in _] => destruct x
  | |- safe _ (match ?x with _ => _ end) _ => destruct x
  end.

Ltac safe_go :=
  repeat (cbv beta zeta; lazymatch goal with
  | |- safe _ (mret _) _ => apply s_ret; done
  | |- safe _ (_ ≫= _) _ =>
      first
        [ eapply s_bind; [solve [eauto 2 with safe]|]; intros ? ?
        | eapply (s_bind _ _ _ any); [|intros ? _] ]
  | |- safe _ (for_range _ _ _) _ => apply s_for; intros ? _
  | |- safe _ (attempts _ _) _ => apply s_attempts
  | |- safe _ (if _ then _ else _) _ => safe_case
  | |- safe _ (match _ with _ => _ end) _ => safe_case
  | |- safe _ _ _ => solve [eauto 2 with safe | eapply s_any; eauto 2 with safe]
  end).

Section Functions.

Context {D : Type} `{Device D} (I : ixmap_eeprom_info -> Prop).

Lemma s_flush : safe (D := D) I IXGBE_WRITE_FLUSH any.
Proof. unfold IXGBE_WRITE_FLUSH. safe_go. Qed.
Hint Resolve s_flush : safe.

Lemma s_rel_sem : safe (D := D) I ixmap_release_eeprom_semaphore any.
Proof. unfold ixmap_release_eeprom_semaphore. safe_go. Qed.
Hint Resolve s_rel_sem : safe.

Lemma s_get_sem : safe (D := D) I ixmap_get_eeprom_semaphore any.
Proof. unfold ixmap_get_eeprom_semaphore, smbi_loop, swesmbi_loop. safe_go. Qed.
Hint Resolve s_get_sem : safe.

Lemma s_rel_sync mask : safe (D := D) I (ixmap_release_swfw_sync mask) any.
Proof. unfold ixmap_release_swfw_sync. safe_go. Qed.
Hint Resolve s_rel_sync : safe.

Lemma s_swfw_loop n a b g : safe (D := D) I (swfw_loop n a b g) any.
Proof. revert g. induction n as [|n IH]; intros g; cbn [swfw_loop]; safe_go. Qed.
Hint Resolve s_swfw_loop : safe.

Lemma s_acq_sync mask : safe (D := D) I (ixmap_acquire_swfw_sync mask) any.
Proof. unfold ixmap_acquire_swfw_sync. safe_go. Qed.
Hint Resolve s_acq_sync : safe.

(** ** The EEPROM *)

Lemma s_poll r : safe (D := D) I (ixmap_poll_eerd_eewr_done r) any.
Proof. unfold ixmap_poll_eerd_eewr_done. safe_go. Qed.
Hint Resolve s_poll : safe.

Definition is_word (v : Z) : Prop := 0 <= v < 2 ^ 16.

Lemma s_eerd_loop n a : safe (D := D) I (eerd_loop n a) (fun r => Forall is_word r.2).
Proof.
  revert a. induction n as [|n IH]; intros a; cbn [eerd_loop]; [by apply s_ret, Forall_nil|].
  eapply s_bind; [apply s_write|]. intros u _. eapply s_bind; [apply s_poll|]. intros st _.
  destruct (st =? 0); [|by apply s_ret, Forall_nil]. eapply s_bind; [apply s_read|]. intros v _.
  eapply s_bind; [apply IH|]. intros [st' l] Hl. apply s_ret. apply Forall_cons. split; [|done].
  apply Z.mod_pos_bound. lia.
Qed.

Lemma s_raise e : safe (D := D) I (ixmap_raise_eeprom_clk e) any.
Proof. unfold ixmap_raise_eeprom_clk. safe_go. Qed.
Lemma s_lower e : safe (D := D) I (ixmap_lower_eeprom_clk e) any.
Proof. unfold ixmap_lower_eeprom_clk. safe_go. Qed.
Hint Resolve s_raise s_lower : safe.

Lemma s_shift_out_loop n d m e : safe (D := D) I (shift_out_loop n d m e) any.
Proof. revert m e. induction n as [|n IH]; intros m e; cbn [shift_out_loop]; safe_go. Qed.
Lemma s_shift_in_loop n d e : safe (D := D) I (shift_in_loop n d e) any.
Proof. revert d e. induction n as [|n IH]; intros d e; cbn [shift_in_loop]; safe_go. Qed.
Lemma s_grant_loop n e : safe (D := D) I (grant_loop n e) any.
Proof. revert e. induction n as [|n IH]; intros e; cbn [grant_loop]; safe_go. Qed.
Hint Resolve s_shift_out_loop s_shift_in_loop s_grant_loop : safe.

Lemma s_shift_out d n : 1 <= n <= 31 -> safe (D := D) I (ixmap_shift_out_eeprom_bits d n) any.
Proof.
  intros Hn. unfold ixmap_shift_out_eeprom_bits. eapply s_bind; [apply s_read|]. intros v _.
  rewrite (proj2 (Z.ltb_ge n 1)), (proj2 (Z.ltb_ge 31 n)) by lia. cbn [orb]. safe_go.
Qed.

Lemma s_shift_in n : safe (D := D) I (ixmap_shift_in_eeprom_bits n) any.
Proof. unfold ixmap_shift_in_eeprom_bits. safe_go. Qed.
Hint Resolve s_shift_in : safe.

Lemma s_standby : safe (D := D) I ixmap_standby_eeprom any.
Proof. unfold ixmap_standby_eeprom. safe_go. Qed.
Lemma s_release : safe (D := D) I ixmap_release_eeprom any.
Proof. unfold ixmap_release_eeprom. safe_go. Qed.
Lemma s_acquire : safe (D := D) I ixmap_acquire_eeprom any.
Proof. unfold ixmap_acquire_eeprom. safe_go. Qed.
Hint Resolve s_standby s_release s_acquire : safe.

Lemma s_rdsr d : safe (D := D) I (ixmap_shift_out_eeprom_bits d IXGBE_EEPROM_OPCODE_BITS) any.
Proof. apply s_shift_out. unfold IXGBE_EEPROM_OPCODE_BITS. lia. Qed.
Hint Resolve s_rdsr : safe.

Lemma s_ready : safe (D := D) I ixmap_ready_eeprom any.
Proof. unfold ixmap_ready_eeprom. safe_go. Qed.
Hint Resolve s_ready : safe.

End Functions.

#[export] Hint Resolve s_flush s_rel_sem s_get_sem s_rel_sync s_acq_sync s_standby s_release s_acquire s_ready
  s_rdsr s_shift_in : safe.

Section Reading.

Context {D : Type} `{Device D}.

Lemma s_bit_bang_loop n a op : safe (D := D) ee_known (bit_bang_loop n a op) (Forall is_word).
Proof.
  revert a op. induction n as [|n IH]; intros a op; cbn [bit_bang_loop]; [by apply s_ret, Forall_nil|].
  eapply s_bind; [apply s_standby|]. intros u _. eapply s_bind; [apply s_get|]. intros ee (h & Hk & ->).
  eapply s_bind; [apply s_rdsr|]. intros u1 _.
  eapply s_bind; [apply s_shift_out; destruct Hk as [-> | ->]; lia|]. intros u2 _.
  eapply s_bind; [apply s_shift_in|]. intros v _. eapply s_bind; [apply IH|]. intros l Hl. apply s_ret.
  apply Forall_cons. split; [|done]. apply Z.mod_pos_bound. lia.
Qed.

(** What a read stores is a word. *)
Definition read_word (r : Z * option Z) : Prop := match r.2 with Some v => is_word v | None => True end.

Lemma s_buffer_bit_bang off n :
  safe (D := D) ee_known (ixmap_read_eeprom_buffer_bit_bang off n) (fun r => Forall is_word r.2).
Proof.
  unfold ixmap_read_eeprom_buffer_bit_bang. eapply s_bind; [apply s_acquire|]. intros st _.
  destruct (negb _); [by apply s_ret, Forall_nil|]. eapply s_bind; [apply s_ready|]. intros r _.
  destruct (negb _). { eapply s_bind; [apply s_release|]. intros u _. by apply s_ret, Forall_nil. }
  eapply s_bind; [apply s_bit_bang_loop|]. intros l Hl. eapply s_bind; [apply s_release|]. intros u _. by apply s_ret.
Qed.

(** Looking at the EEPROM makes it known. *)
Lemma s_init_params {A} (f : Hw D A) Q :
  safe ee_known f Q -> safe ee_inv (ixmap_init_eeprom_params ;; f) Q.
Proof.
  intros Hf s Hs. unfold mbind, Hw_bind.
  assert (exists s1, ixmap_init_eeprom_params s = Returns (0, s1) /\ ee_known (hw_eeprom s1.1) /\
    hw_addr s1.1 = hw_addr s.1) as (s1 & -> & H1 & Ha).
  { unfold ixmap_init_eeprom_params, get, put, mbind, Hw_bind. cbv beta iota.
    destruct (decide (ee_type (hw_eeprom s.1) = ixmap_eeprom_uninitialized)).
    - unfold IXGBE_READ_REG. destruct (IXGBE_REMOVED _); [|destruct (readl _ _)]; (eexists; split; [reflexivity|]);
        cbn; unfold ee_known; cbn; destruct (bits _ IXGBE_EEC_ADDR_SIZE); auto.
    - exists s. split; [done|]. destruct Hs; [done|done]. }
  specialize (Hf s1 H1). destruct (f s1) as [[x s2]| |]; [|done|done]. destruct Hf as (Hq & Hk & Ha2).
  split; [done|]. split; [by right|by rewrite Ha2].
Qed.

Lemma s_head l : Forall is_word l -> match head l with Some v => is_word v | None => True end.
Proof. destruct l; [done|]. by intros [Hv _]%Forall_cons. Qed.

Lemma s_read_bit_bang off : safe (D := D) ee_inv (ixmap_read_eeprom_bit_bang off) read_word.
Proof.
  unfold ixmap_read_eeprom_bit_bang. apply s_init_params. eapply s_bind; [apply s_get|]. intros ee _.
  destruct (_ <=? _); [by apply s_ret|]. eapply s_bind; [apply s_buffer_bit_bang|]. intros [st l] Hl.
  apply s_ret. by apply s_head.
Qed.

Lemma s_read_eerd off : safe (D := D) ee_inv (ixmap_read_eerd off) read_word.
Proof.
  unfold ixmap_read_eerd, ixmap_read_eerd_buffer. eapply (s_bind _ _ _ (fun r => Forall is_word r.2)).
  - apply s_init_params. eapply s_bind; [apply s_get|]. intros ee _.
    change (1 =? 0) with false. cbv iota. destruct (_ <=? _); [by apply s_ret, Forall_nil|]. apply s_eerd_loop.
  - intros [st l] Hl. apply s_ret. by apply s_head.
Qed.

Lemma s_eeprom_read off : safe (D := D) ee_inv (eeprom_read off) read_word.
Proof.
  cbn [eeprom_read ops_82599]. unfold ixmap_read_eeprom_82599. eapply s_bind; [apply s_get|]. intros ee _.
  destruct (_ && _); [apply s_read_eerd|apply s_read_bit_bang].
Qed.

Lemma s_read_into off old :
  is_word old -> safe (D := D) ee_inv (read_into off old) (fun r => is_word r.2).
Proof.
  intros Ho. unfold read_into. eapply s_bind; [apply s_eeprom_read|]. intros [st [v|]] Hv; apply s_ret; done.
Qed.

Lemma s_read_into_any off old : safe (D := D) ee_inv (read_into off old) any.
Proof. unfold read_into. eapply s_bind; [apply s_eeprom_read|]. intros [st v] _. by apply s_ret. Qed.
Hint Resolve s_read_into_any : safe.

(** ** The checksum and the part number *)

Lemma s_eeprom_read_any off : safe (D := D) ee_inv (eeprom_read off) any.
Proof. eapply s_any, s_eeprom_read. Qed.
Hint Resolve s_eeprom_read_any : safe.

Lemma s_sum_loop n i c w : safe (D := D) ee_inv (sum_loop n i c w) any.
Proof. revert i c w. induction n as [|n IH]; intros i c w; cbn [sum_loop]; safe_go. Qed.
Lemma s_section_loop n j l c w : safe (D := D) ee_inv (section_loop n j l c w) any.
Proof. revert j c w. induction n as [|n IH]; intros j c w; cbn [section_loop]; safe_go. Qed.
Hint Resolve s_sum_loop s_section_loop : safe.

Lemma s_pointer_section p v : safe (D := D) ee_inv (pointer_section p v) any.
Proof. unfold pointer_section. safe_go. Qed.
Hint Resolve s_pointer_section : safe.
Lemma s_pointer_loop n i v : safe (D := D) ee_inv (pointer_loop n i v) any.
Proof. revert i v. induction n as [|n IH]; intros i v; cbn [pointer_loop]; safe_go. Qed.
Hint Resolve s_pointer_loop : safe.

Lemma s_calc : safe (D := D) ee_inv ixmap_calc_eeprom_checksum any.
Proof. unfold ixmap_calc_eeprom_checksum. safe_go. Qed.
Hint Resolve s_calc : safe.

Lemma s_validate : safe (D := D) ee_inv ixmap_validate_eeprom_checksum any.
Proof. unfold ixmap_validate_eeprom_checksum. safe_go. Qed.

Lemma s_put_byte I buf i v :
  0 <= i < Z.of_nat (length buf) -> safe (D := D) I (put_byte buf i v) (fun b => length b = length buf).
Proof. intros Hi. unfold put_byte. rewrite store_some by done. apply s_ret. apply length_insert. Qed.

Lemma s_put_bytes I buf i l :
  0 <= i -> i + Z.of_nat (length l) <= Z.of_nat (length buf) ->
  safe (D := D) I (put_bytes buf i l) (fun b => length b = length buf).
Proof.
  revert buf i. induction l as [|v l IH]; intros buf i Hi Hl; cbn [put_bytes]; [by apply s_ret|]. cbn [length] in Hl.
  eapply s_bind; [apply s_put_byte; lia|]. intros b Hb. cbv beta in Hb. rewrite <- Hb. apply IH; lia.
Qed.

Lemma s_pba_loop n p off buf :
  0 <= off -> 2 * (off + Z.of_nat n) < Z.of_nat (length buf) ->
  safe (D := D) ee_inv (pba_loop n p off buf) (fun r => length r.2 = length buf).
Proof.
  revert off buf. induction n as [|n IH]; intros off buf Ho Hl; cbn [pba_loop].
  - eapply s_bind; [apply s_put_byte; lia|]. intros b Hb. by apply s_ret.
  - eapply s_bind; [apply s_read_into_any|]. intros [r d] _. destruct (negb _); [by apply s_ret|].
    eapply s_bind; [apply s_put_byte; lia|]. intros b Hb. cbv beta in Hb.
    eapply s_bind; [apply s_put_byte; lia|]. intros b2 Hb2.
    cbv beta in Hb, Hb2. replace (length buf) with (length b2) by congruence. apply IH; lia.
Qed.

Lemma s_pba buf n :
  n = Z.of_nat (length buf) -> n < 2 ^ 32 ->
  safe (D := D) ee_inv (ixmap_read_pba_string (Some buf) n) (fun r => length r.2 = length buf).
Proof.
  intros -> Hn. unfold ixmap_read_pba_string. assert (is_word 0) as H0 by (by vm_compute).
  eapply s_bind; [apply s_read_into_any|]. intros [r d] _. destruct (negb _); [by apply s_ret|].
  eapply s_bind; [apply s_read_into_any|]. intros [r2 p] _. destruct (negb (r2 =? 0)); [by apply s_ret|].
  destruct (negb (d =? _)).
  - destruct (Z.ltb_spec (Z.of_nat (length buf)) 11); [by apply s_ret|].
    eapply s_bind; [apply s_put_bytes; cbn; lia|]. intros b Hb. by apply s_ret.
  - eapply s_bind; [by apply s_read_into|]. intros [r3 len] Hlen. cbn in Hlen. destruct (negb _); [by apply s_ret|].
    destruct (Z.eqb_spec len 0xFFFF); [by apply s_ret|]. destruct (Z.eqb_spec len 0); [by apply s_ret|]. cbn [orb].
    unfold is_word in Hlen. unfold u32. rewrite Z.mod_small by lia.
    destruct (Z.ltb_spec (Z.of_nat (length buf)) (len * 2 - 1)); [by apply s_ret|]. apply s_pba_loop; lia.
Qed.

End Reading.
