(* ===== verification/HwSafeProps.v ===== *)
(** * The code of the card has no undefined behaviour

    The functions of ixmap_common.c, ixmap_phy.c and ixmap_82599.c, on any card:
    registers may hold anything and change at any time, and the EEPROM may be
    damaged. *)

From stdpp Require Import prelude list.
From S2P Require Import Prelude HwRegs Hw Eeprom Common Ixgbe82599 NvmRead HwSafe CommonProps.

Section Functions.

Context {D : Type} `{Device D}.

Hint Resolve s_read_into_any s_eeprom_read_any : safe.

Notation Safe m := (safe (D := D) ee_inv m any).

Lemma s_modify r f : Safe (modify_reg r f).
Proof. unfold modify_reg. safe_go. Qed.
Hint Resolve s_modify : safe.

Lemma s_cntrs : Safe ixmap_clear_hw_cntrs.
Proof.
  unfold ixmap_clear_hw_cntrs. eapply (s_bind _ _ _ any); [|intros u _; by apply s_ret].
  induction hw_cntrs as [|r l IH]; safe_go.
Qed.
Lemma s_vfta : Safe ixmap_clear_vfta.
Proof. unfold ixmap_clear_vfta. safe_go. Qed.
Lemma s_uta : Safe ixmap_init_uta_tables.
Proof. unfold ixmap_init_uta_tables. safe_go. Qed.
Hint Resolve s_cntrs s_vfta s_uta : safe.

Lemma s_start_hw : Safe ixmap_start_hw.
Proof. unfold ixmap_start_hw. safe_go. Qed.
Lemma s_start_gen2 : Safe ixmap_start_hw_gen2.
Proof. unfold ixmap_start_hw_gen2. safe_go. Qed.
Hint Resolve s_start_hw s_start_gen2 : safe.

Lemma s_link_loop n v b : Safe (link_up_loop n v b).
Proof. revert v b. induction n as [|n IH]; intros v b; cbn [link_up_loop]; safe_go. Qed.
Hint Resolve s_link_loop : safe.

Lemma s_check_link w : Safe (ixmap_check_mac_link w).
Proof. unfold ixmap_check_mac_link. safe_go. Qed.
Hint Resolve s_check_link : safe.

Lemma s_fc : Safe ixmap_setup_fc.
Proof. unfold ixmap_setup_fc. safe_go. Qed.
Lemma s_autoneg_fc : Safe ixmap_device_supports_autoneg_fc.
Proof. unfold ixmap_device_supports_autoneg_fc. safe_go. Qed.
Lemma s_lan_id : Safe ixmap_set_lan_id_multi_port_pcie.
Proof. unfold ixmap_set_lan_id_multi_port_pcie. safe_go. Qed.
Lemma s_get_mac : Safe ixmap_get_mac_addr.
Proof. unfold ixmap_get_mac_addr. safe_go. Qed.
Lemma s_set_rar i a v e : Safe (ixmap_set_rar i a v e).
Proof. unfold ixmap_set_rar. safe_go. Qed.
Hint Resolve s_fc s_lan_id s_get_mac s_set_rar : safe.

Lemma s_rx_addrs : Safe ixmap_init_rx_addrs.
Proof. unfold ixmap_init_rx_addrs. safe_go. Qed.
Lemma s_timeout : Safe ixmap_pcie_timeout_poll.
Proof. unfold ixmap_pcie_timeout_poll. safe_go. Qed.
Hint Resolve s_rx_addrs s_timeout : safe.
Lemma s_pcie_master : Safe ixmap_disable_pcie_master.
Proof. unfold ixmap_disable_pcie_master. safe_go. Qed.
Hint Resolve s_pcie_master : safe.
Lemma s_stop : Safe ixmap_stop_adapter.
Proof. unfold ixmap_stop_adapter. safe_go. Qed.
Lemma s_tx_pending : Safe ixmap_clear_tx_pending.
Proof. unfold ixmap_clear_tx_pending. safe_go. Qed.
Lemma s_msix : Safe ixmap_get_pcie_msix_count.
Proof. unfold ixmap_get_pcie_msix_count. safe_go. Qed.
Hint Resolve s_stop s_tx_pending s_msix : safe.

(** ** The mailbox *)

Lemma s_get_word I buf i :
  0 <= i < Z.of_nat (length buf) -> safe (D := D) I (get_word buf i) any.
Proof. intros Hi. unfold get_word. destruct (load_some buf i Hi) as [v ->]. by apply s_ret. Qed.

Lemma s_host_command buf n :
  n = 4 * Z.of_nat (length buf) ->
  safe (D := D) ee_inv (ixmap_host_interface_command buf n) (fun r => length r.2 = length buf).
Proof.
  intros Hn. eapply s_weaken; [apply s_runs; intros h; by apply host_command_ok|]. by intros r [Hl _].
Qed.

Lemma s_drv_loop n r buf : length buf = 3%nat -> Safe (drv_loop n r buf).
Proof.
  revert r buf. induction n as [|n IH]; intros r buf Hl; cbn [drv_loop]; [by apply s_ret|].
  eapply s_bind; [apply s_host_command; lia|]. intros [r' b] Hb. cbn in Hb. destruct (negb _); [apply IH; lia|].
  eapply s_bind; [apply s_get_word; lia|]. intros w _. by apply s_ret.
Qed.

Lemma s_drv_ver a b c d : Safe (ixmap_set_fw_drv_ver a b c d).
Proof.
  unfold ixmap_set_fw_drv_ver. eapply s_bind; [apply s_acq_sync|]. intros r _. destruct (negb _); [by apply s_ret|].
  eapply s_bind; [apply s_get|]. intros f _. eapply s_bind; [by apply s_drv_loop|]. intros v _. safe_go.
Qed.

(** ** The 82599 *)

Lemma s_link_ops : Safe ixmap_init_mac_link_ops_82599.
Proof. unfold ixmap_init_mac_link_ops_82599. safe_go. Qed.
Lemma s_laser_off : Safe ixmap_disable_tx_laser_multispeed_fiber.
Proof. unfold ixmap_disable_tx_laser_multispeed_fiber. safe_go. Qed.
Lemma s_laser_on : Safe ixmap_enable_tx_laser_multispeed_fiber.
Proof. unfold ixmap_enable_tx_laser_multispeed_fiber. safe_go. Qed.
Hint Resolve s_link_ops s_laser_off s_laser_on : safe.
Lemma s_flap : Safe ixmap_flap_tx_laser_multispeed_fiber.
Proof. unfold ixmap_flap_tx_laser_multispeed_fiber. safe_go. Qed.
Lemma s_identify : Safe ixmap_identify_module.
Proof. unfold ixmap_identify_module. safe_go. Qed.
Hint Resolve s_identify : safe.
Lemma s_sfp_loop n t o i : Safe (sfp_loop n t o i).
Proof. revert o i. induction n as [|n IH]; intros o i; cbn [sfp_loop]; safe_go. Qed.
Hint Resolve s_sfp_loop : safe.
Lemma s_sfp : Safe ixmap_get_sfp_init_sequence_offsets.
Proof. unfold ixmap_get_sfp_init_sequence_offsets. safe_go. Qed.
Lemma s_fw_version : Safe ixmap_verify_fw_version_82599.
Proof. unfold ixmap_verify_fw_version_82599. safe_go. Qed.
Lemma s_lesm : Safe ixmap_verify_lesm_fw_enabled_82599.
Proof. unfold ixmap_verify_lesm_fw_enabled_82599. safe_go. Qed.
Lemma s_anlp1 n v : Safe (anlp1_loop n v).
Proof. revert v. induction n as [|n IH]; intros v; cbn [anlp1_loop]; safe_go. Qed.
Hint Resolve s_sfp s_fw_version s_lesm s_anlp1 : safe.
Lemma s_pipeline : Safe ixmap_reset_pipeline_82599.
Proof. unfold ixmap_reset_pipeline_82599. safe_go. Qed.
Hint Resolve s_pipeline : safe.
Lemma s_autoc_read : Safe prot_autoc_read_82599.
Proof. unfold prot_autoc_read_82599. safe_go. Qed.
Lemma s_autoc_write a l : Safe (prot_autoc_write_82599 a l).
Proof. unfold prot_autoc_write_82599. safe_go. Qed.
Hint Resolve s_autoc_write : safe.
Lemma s_corectl n o v : Safe (corectl_loop n o v).
Proof. revert o v. induction n as [|n IH]; intros o v; cbn [corectl_loop]; safe_go. Qed.
Hint Resolve s_corectl : safe.
Lemma s_setup_sfp : Safe ixmap_setup_sfp_modules_82599.
Proof. unfold ixmap_setup_sfp_modules_82599. safe_go. Qed.
Lemma s_caps : Safe ixmap_get_link_capabilities_82599.
Proof. unfold ixmap_get_link_capabilities_82599. safe_go. Qed.
Hint Resolve s_setup_sfp s_caps : safe.
Lemma s_setup_link sp w : Safe (ixmap_setup_mac_link_82599 sp w).
Proof. unfold ixmap_setup_mac_link_82599. safe_go. Qed.
Lemma s_init_ops : Safe ixmap_init_ops_82599.
Proof. unfold ixmap_init_ops_82599. safe_go. Qed.
Lemma s_phy_ops : Safe ixmap_init_phy_ops_82599.
Proof. unfold ixmap_init_phy_ops_82599, ixmap_identify_phy_82599. safe_go. Qed.
Lemma s_reset_poll n v : Safe (reset_poll n v).
Proof. revert v. induction n as [|n IH]; intros v; cbn [reset_poll]; safe_go. Qed.
Hint Resolve s_setup_link s_init_ops s_phy_ops s_reset_poll : safe.
Lemma s_mac_reset st : Safe (mac_reset st).
Proof. unfold mac_reset. safe_go. Qed.
Hint Resolve s_mac_reset : safe.
Lemma s_reset_loop n st : Safe (reset_loop n st).
Proof. revert st. induction n as [|n IH]; intros st; cbn [reset_loop]; safe_go. Qed.
Lemma s_restore st : Safe (restore_autoc st).
Proof. unfold restore_autoc. safe_go. Qed.
Hint Resolve s_reset_loop s_restore : safe.
Lemma s_reset_hw : Safe ixmap_reset_hw_82599.
Proof. unfold ixmap_reset_hw_82599. safe_go. Qed.
Lemma s_start_82599 : Safe ixmap_start_hw_82599.
Proof. unfold ixmap_start_hw_82599. safe_go. Qed.
Hint Resolve s_reset_hw s_start_82599 : safe.
Lemma s_init_hw : Safe ixmap_init_hw.
Proof. unfold ixmap_init_hw. safe_go. Qed.

(** What the kernel module calls of the hardware's code. *)
Definition entry_points : list (Hw D Z) :=
  [ixmap_init_ops_82599; ixmap_init_hw; ixmap_reset_hw_82599; ixmap_start_hw_82599; ixmap_stop_adapter;
   ixmap_setup_mac_link_82599 IXGBE_LINK_SPEED_10GB_FULL true; ixmap_set_fw_drv_ver 0xFF 0xFF 0xFF 0xFF].

Lemma s_entry_points : Forall (fun m => Safe m) entry_points.
Proof.
  repeat (apply Forall_cons; split); [..|apply s_stop| | |by apply Forall_nil]; eauto using s_init_ops, s_init_hw,
    s_reset_hw, s_start_82599, s_setup_link, s_drv_ver.
Qed.

(** C39: The driver's record of the hardware stays well-formed on any card, whatever
    the registers and the EEPROM return: initialising, resetting, starting and
    stopping the card, setting up the link and talking to its firmware keep the
    description of the EEPROM such that the shifts that depend on it are defined,
    keep the address of the registers, and have no undefined behaviour. *)
Theorem hw_code_typed m s :
  m ∈ entry_points -> ee_inv (hw_eeprom s.1) ->
  match m s with
  | Returns (_, s') => ee_inv (hw_eeprom s'.1) /\ hw_addr s'.1 = hw_addr s.1
  | Undefined => False
  | Unfinished => True
  end.
Proof.
  intros Hm Hs. pose proof (proj1 (Forall_forall _ _) s_entry_points m Hm s Hs) as Hsafe.
  destruct (m s) as [[x s']| |]; [|done|done]. by destruct Hsafe as (_ & ? & ?).
Qed.

End Functions.
