(* ===== verification/NvmDemo.v ===== *)
(** * A card with an EEPROM

    Registers that behave exactly as documented, as a card of their own, with
    two EEPROMs: one with a section and a right checksum, and one with a section
    that claims to reach beyond the last address. *)

From stdpp Require Import prelude list.
From S2P Require Import Prelude HwRegs Hw HwLogic Nvm NvmFacts Eeprom Checksum NvmRead Ixgbe82599 IxgbeProps HwSafe.
From S2P Require Import HwSafeProps.

(** 256 words: a section of two words at 64, the checksum, and a list of two
    modules at 80. *)
Definition demo_rom (length : Z) (i : Z) : Z :=
  if (3 <=? i) && (i <? 15) then (if i =? 5 then 64 else 0xFFFF)
  else if i =? 63 then u16 (0xBABA - 0xA5A5 - 0xABCD - 11 * 0xFFFF - 64 - 80)
  else if i =? 64 then u16 length else if i =? 65 then 0xABCD else if i =? 1 then 0xA5A5
  else if i =? 43 then 80 else if i =? 81 then 6 else if i =? 82 then 120 else if i =? 83 then 5
  else if i =? 84 then 140 else if i =? 85 then 0xFFFF else 0.

Definition demo_chip (length : Z) : chip := Chip (demo_rom length) 2 false 3 5.

(** The state of the card, for the chip whose section has this length. *)
Record demo_card (length : Z) := DemoCard { dc : nvm }.
Arguments DemoCard {length}.
Arguments dc {length}.

Definition eec_value (c : chip) (x : nvm) : Z :=
  let p := nv_pins x in
  Z.b2z (p_sk p) + 2 * Z.b2z (p_cs p) + 4 * Z.b2z (p_di p) + 8 * Z.b2z (nv_do x) + 64 * Z.b2z (p_req p) +
  128 * Z.b2z (granted x) + 256 + 1024 * Z.b2z (ch_wide c) + 2048 * ch_size c.

Definition demo_read (c : chip) (r : Z) (x : nvm) : Z * nvm :=
  if r =? IXGBE_EEC then (eec_value c x, eec_read x)
  else if r =? IXGBE_EERD then
    (match nv_eerd x with Some (a, O) => ch_rom c a * 65536 + 2 | _ => 0 end, eerd_read x)
  else if r =? IXGBE_SWSM then
    (Z.b2z (nv_smbi x) + 2 * Z.b2z (nv_swesmbi x), set_sem true (nv_swesmbi x) x)
  else if r =? IXGBE_GSSR then (nv_gssr x, x)
  else (0, x).

Definition demo_write (c : chip) (r v : Z) (x : nvm) : nvm :=
  if r =? IXGBE_EEC then eec_write c (pins_of v) x
  else if r =? IXGBE_EERD then eerd_write c v x
  else if r =? IXGBE_SWSM then set_sem (Z.testbit v 0) (Z.testbit v 1) x
  else if r =? IXGBE_GSSR then set_gssr v x
  else x.

#[export] Instance demo_device length : Device (demo_card length) := {
  readl r d := let '(v, x) := demo_read (demo_chip length) r (dc d) in (v, DemoCard x);
  writel r v d := DemoCard (demo_write (demo_chip length) r v (dc d));
  delay _ d := d;
  pci_read_config_word _ d := (0, d)
}.

Lemma demo_rom_range length i : 0 <= demo_rom length i < 2 ^ 16.
Proof.
  unfold demo_rom. assert (forall x, 0 <= u16 x < 2 ^ 16) as Hu by (intros x; apply Z.mod_pos_bound; lia).
  repeat case_match; try apply Hu; lia.
Qed.

Lemma demo_chip_ok length : chip_ok (demo_chip length).
Proof. split; [apply demo_rom_range|]. split; [cbn; lia|]. split; [cbn; lia|by vm_compute]. Qed.

(** What a read of EEC shows. *)
Lemma eec_value_shows length x : eec_shows (demo_chip length) (u32 (eec_value (demo_chip length) x)) x.
Proof.
  unfold eec_shows, eec_value. cbn [ch_wide ch_size demo_chip].
  destruct x as [smbi sw gssr [sk cs di req] wait B o e]. cbn [nv_pins nv_do p_sk p_cs p_di p_req].
  destruct (granted _), sk, cs, di, req, o; vm_compute; repeat split.
Qed.

#[export] Program Instance demo_nvm length : NvmDevice (demo_card length) (demo_chip length) := {
  nvm_of d := set_gssr (u32 (nv_gssr (dc d))) (dc d)
}.
Next Obligation. apply demo_chip_ok. Qed.
Next Obligation. done. Qed.
Next Obligation. done. Qed.
Next Obligation.
  intros length [x]. destruct x as [smbi sw gssr p wait B o e]. repeat split; destruct smbi, sw; reflexivity.
Qed.
Next Obligation. done. Qed.
Next Obligation. done. Qed.
Next Obligation.
  intros length v [x] Hv. cbn. unfold set_gssr. cbn. f_equal. by apply Z.mod_small.
Qed.
Next Obligation.
  intros length [x]. split; [|done]. pose proof (eec_value_shows length x) as E. exact E.
Qed.
Next Obligation. done. Qed.
Next Obligation.
  intros length [x]. split; [|destruct x as [smbi sw gssr p wait B o [[a [|k]]|]]; reflexivity].
  cbn. unfold eerd_shows. cbn [set_gssr nv_eerd]. destruct (nv_eerd x) as [[a [|k]]|]; [|done|done].
  pose proof (demo_rom_range length a) as Hr. unfold u32. rewrite Z.mod_small by lia. split.
  - change 65536 with (2 ^ 16).
    rewrite <- (lor_low (demo_rom length a) 2 16) by lia.
    rewrite Z.lor_spec, Z.mul_pow2_bits_low by lia. reflexivity.
  - cbn [ch_rom demo_chip]. rewrite Z.shiftr_div_pow2 by lia. symmetry. apply Z.div_unique with 2; lia.
Qed.
Next Obligation. intros length v [x]. cbn. unfold eerd_write. by destruct (Z.testbit v 0). Qed.

(** An idle card and a driver that has not looked at it. *)
Definition demo_state length : ixmap_hw * demo_card length :=
  (IxmapHw 0x1000
     (MacInfo ixmap_mac_82599EB (replicate 6 0) (replicate 6 0) 0 128 128 128 512 128 128 0 0 64 true false false 0 false)
     (PhyInfo ixmap_phy_unknown 5 ixmap_media_type_unknown false)
     (EepromInfo ixmap_eeprom_uninitialized 0 0 0 0) (BusInfo 0 0) IXGBE_DEV_ID_82599_SFP 0x8086 0 0 1 false false,
   DemoCard (Nvm false false 0x140 (Pins false true false false) 0 [] false None)).

Lemma demo_ready length : nvm_ready (demo_chip length) (demo_state length).
Proof. eexists _, _. split; [repeat split|]. { done. } split; [by vm_compute|]. by right. Qed.

Lemma eeprom_read_correct_witness :
  exists s', ixmap_read_eeprom_82599 65 (demo_state 2) = Returns ((0, Some 0xABCD), s') /\
    nvm_ready (demo_chip 2) s'.
Proof.
  destruct (eeprom_read_correct (demo_chip 2) 65 (demo_state 2)) as (s' & E & Hs'); [lia|apply demo_ready|].
  exists s'. split; [|exact Hs']. rewrite E. vm_compute. reflexivity.
Defined.

Lemma demo_pointers length : words (demo_rom length) 3 12 = [0xFFFF; 0xFFFF; 64] ++ replicate 9 0xFFFF.
Proof. reflexivity. Qed.

Lemma demo_sections : sections_in (demo_rom 2) (word_size (demo_chip 2)).
Proof.
  unfold sections_in. rewrite demo_pointers. repeat (apply Forall_cons; split); [..|by apply Forall_nil];
    (intros H0 Hf; split; [by vm_compute in Hf |- *|]; intros _; by vm_compute in Hf |- *).
Qed.

Lemma validate_checksum_correct_witness :
  exists s' status, ixmap_validate_eeprom_checksum (demo_state 2) =
      Returns ((status, Some (demo_rom 2 63)), s') /\ status = 0.
Proof.
  destruct (validate_checksum_correct (ch_rom (demo_chip 2)) (word_size (demo_chip 2)) (demo_state 2))
    as (s' & status & E & _ & Hok & _); [exact demo_sections|exact (demo_ready 2)|].
  exists s', status. split; [exact E|]. apply Hok. by vm_compute.
Defined.

Lemma checksum_endless_witness :
  ixmap_validate_eeprom_checksum (demo_state 65471) = Unfinished.
Proof.
  apply (checksum_endless (ch_rom (demo_chip 65471)) (word_size (demo_chip 65471)) 2 (demo_state 65471)).
  - lia.
  - apply demo_ready.
  - change (words (demo_rom 65471) 3 2) with [0xFFFF; 0xFFFF].
    repeat (apply Forall_cons; split); [..|by apply Forall_nil]; (intros H0 Hf; by vm_compute in Hf).
  - by vm_compute.
Defined.

Lemma sfp_offsets_correct_witness :
  exists s', ixmap_get_sfp_init_sequence_offsets (demo_state 2) = Returns (inr (84, 140), s').
Proof.
  destruct (sfp_offsets_correct (ch_rom (demo_chip 2)) (word_size (demo_chip 2)) (demo_state 2))
    as (r & s' & E & _ & _ & Hr).
  - exact (demo_ready 2).
  - cbn. lia.
  - done.
  - exists s'. rewrite E. f_equal. f_equal.
    apply (Hr ltac:(vm_compute; congruence) ltac:(vm_compute; congruence) [(6, 120); (5, 140)]); vm_compute;
      repeat split; congruence.
Defined.

Lemma hw_code_typed_witness :
  match ixmap_init_ops_82599 (demo_state 2) with
  | Returns (_, s') => ee_inv (hw_eeprom s'.1) /\ hw_addr s'.1 = 0x1000
  | _ => False
  end.
Proof.
  assert (exists y, ixmap_init_ops_82599 (demo_state 2) = Returns y) as [[y s'] E] by (vm_compute; by eexists).
  pose proof (hw_code_typed ixmap_init_ops_82599 (demo_state 2) ltac:(left) ltac:(by left)) as Ht.
  rewrite E in Ht |- *. exact Ht.
Defined.
