(* ===== verification/Kmain.v ===== *)
(** * The kernel module: adapters and interrupts (src/kmod/ixmap_main.c)

    Probing and removing a device, switching it on and off, its interrupts.  The
    code works on the adapter, on the card (Hw.v) and on resources of the system
    (Os.v) together; [K] is the monad over the three.  The answers of the system
    decide which calls succeed.  An array or object of the driver that was freed
    leaves a pointer that must not be used: [Freed]. *)

From stdpp Require Import prelude list.
From S2P Require Import Prelude Os Kdma HwRegs Hw Eeprom Common Ixgbe82599.

(** ** Data *)

(** A pointer to something that only its holder refers to. *)
Inductive pointer (A : Type) := Null | Freed | At (x : A).
Arguments Null {A}. Arguments Freed {A}. Arguments At {A} x.

(** What the PCI core knows of the device. *)
Record pci_dev := PciDev {
  pdev_name : Z;
  pdev_vendor : Z;
  pdev_device : Z;
  pdev_revision : Z;
  pdev_subsystem_vendor : Z;
  pdev_subsystem_device : Z;
  pdev_start : Z;
  pdev_len : Z
}.

Record msix_entry := MsixEntry { me_vector : Z; me_entry : Z }.

(** [adapter->msix_entries] *)
Record entry_array := EntryArray { ea_ptr : Z; ea_entries : list msix_entry }.

(** A reference to [struct eventfd_ctx]: its address, and the event descriptor it
    is the context of. *)
Record eventfd_ctx := EventfdCtx { efd_ptr : Z; efd_fd : Z }.

(** [struct ixmap_irq]; the entry it points to is an element of the adapter's
    array. *)
Record ixmap_irq := IxmapIrq { irq_ptr : Z; irq_efd_ctx : option eventfd_ctx; irq_msix_entry : Z }.

(** [adapter->rx_irq], [adapter->tx_irq] *)
Record irq_array := IrqArray { ia_ptr : Z; ia_irqs : list (pointer ixmap_irq) }.

(** What [adapter->eeprom_id] shows. *)
Record eeprom_id := EepromId { ei_etrack_id : Z; ei_option_rom : option (Z * Z * Z) }.

(** [struct ixmap_adapter], with the addresses of it and of its [hw] and with
    [pdev->msix_enabled]. *)
Record ixmap_adapter := IxmapAdapter {
  ka_ptr : Z;
  ka_hw_ptr : Z;
  ka_pdev : pci_dev;
  ka_id : Z;
  ka_up : bool;
  ka_misc_name : Z;
  ka_refcount : Z;
  ka_dma_mask : Z;
  ka_iobase : Z;
  ka_iolen : Z;
  ka_areas : list dma_area;
  ka_eeprom_id : option eeprom_id;
  ka_msix_entries : pointer entry_array;
  ka_msix_enabled : bool;
  ka_num_q_vectors : Z;
  ka_rx_irq : pointer irq_array;
  ka_tx_irq : pointer irq_array;
  ka_link_speed : Z;
  ka_link_duplex : Z;
  ka_num_rx_queues : Z;
  ka_num_tx_queues : Z;
  ka_num_interrupt_rate : Z
}.

(** Assignments to fields. *)

Definition set_ka_up (x : bool) (a : ixmap_adapter) : ixmap_adapter :=
  IxmapAdapter (ka_ptr a) (ka_hw_ptr a) (ka_pdev a) (ka_id a) x (ka_misc_name a) (ka_refcount a) (ka_dma_mask a)
    (ka_iobase a) (ka_iolen a) (ka_areas a) (ka_eeprom_id a) (ka_msix_entries a) (ka_msix_enabled a)
    (ka_num_q_vectors a) (ka_rx_irq a) (ka_tx_irq a) (ka_link_speed a) (ka_link_duplex a) (ka_num_rx_queues a)
    (ka_num_tx_queues a) (ka_num_interrupt_rate a).
Definition set_ka_misc_name (x : Z) (a : ixmap_adapter) : ixmap_adapter :=
  IxmapAdapter (ka_ptr a) (ka_hw_ptr a) (ka_pdev a) (ka_id a) (ka_up a) x (ka_refcount a) (ka_dma_mask a)
    (ka_iobase a) (ka_iolen a) (ka_areas a) (ka_eeprom_id a) (ka_msix_entries a) (ka_msix_enabled a)
    (ka_num_q_vectors a) (ka_rx_irq a) (ka_tx_irq a) (ka_link_speed a) (ka_link_duplex a) (ka_num_rx_queues a)
    (ka_num_tx_queues a) (ka_num_interrupt_rate a).
Definition set_ka_refcount (x : Z) (a : ixmap_adapter) : ixmap_adapter :=
  IxmapAdapter (ka_ptr a) (ka_hw_ptr a) (ka_pdev a) (ka_id a) (ka_up a) (ka_misc_name a) x (ka_dma_mask a)
    (ka_iobase a) (ka_iolen a) (ka_areas a) (ka_eeprom_id a) (ka_msix_entries a) (ka_msix_enabled a)
    (ka_num_q_vectors a) (ka_rx_irq a) (ka_tx_irq a) (ka_link_speed a) (ka_link_duplex a) (ka_num_rx_queues a)
    (ka_num_tx_queues a) (ka_num_interrupt_rate a).
Definition set_ka_areas (x : list dma_area) (a : ixmap_adapter) : ixmap_adapter :=
  IxmapAdapter (ka_ptr a) (ka_hw_ptr a) (ka_pdev a) (ka_id a) (ka_up a) (ka_misc_name a) (ka_refcount a)
    (ka_dma_mask a) (ka_iobase a) (ka_iolen a) x (ka_eeprom_id a) (ka_msix_entries a) (ka_msix_enabled a)
    (ka_num_q_vectors a) (ka_rx_irq a) (ka_tx_irq a) (ka_link_speed a) (ka_link_duplex a) (ka_num_rx_queues a)
    (ka_num_tx_queues a) (ka_num_interrupt_rate a).
Definition set_ka_eeprom_id (x : option eeprom_id) (a : ixmap_adapter) : ixmap_adapter :=
  IxmapAdapter (ka_ptr a) (ka_hw_ptr a) (ka_pdev a) (ka_id a) (ka_up a) (ka_misc_name a) (ka_refcount a)
    (ka_dma_mask a) (ka_iobase a) (ka_iolen a) (ka_areas a) x (ka_msix_entries a) (ka_msix_enabled a)
    (ka_num_q_vectors a) (ka_rx_irq a) (ka_tx_irq a) (ka_link_speed a) (ka_link_duplex a) (ka_num_rx_queues a)
    (ka_num_tx_queues a) (ka_num_interrupt_rate a).
Definition set_ka_msix_entries (x : pointer entry_array) (a : ixmap_adapter) : ixmap_adapter :=
  IxmapAdapter (ka_ptr a) (ka_hw_ptr a) (ka_pdev a) (ka_id a) (ka_up a) (ka_misc_name a) (ka_refcount a)
    (ka_dma_mask a) (ka_iobase a) (ka_iolen a) (ka_areas a) (ka_eeprom_id a) x (ka_msix_enabled a)
    (ka_num_q_vectors a) (ka_rx_irq a) (ka_tx_irq a) (ka_link_speed a) (ka_link_duplex a) (ka_num_rx_queues a)
    (ka_num_tx_queues a) (ka_num_interrupt_rate a).
Definition set_ka_msix_enabled (x : bool) (a : ixmap_adapter) : ixmap_adapter :=
  IxmapAdapter (ka_ptr a) (ka_hw_ptr a) (ka_pdev a) (ka_id a) (ka_up a) (ka_misc_name a) (ka_refcount a)
    (ka_dma_mask a) (ka_iobase a) (ka_iolen a) (ka_areas a) (ka_eeprom_id a) (ka_msix_entries a) x
    (ka_num_q_vectors a) (ka_rx_irq a) (ka_tx_irq a) (ka_link_speed a) (ka_link_duplex a) (ka_num_rx_queues a)
    (ka_num_tx_queues a) (ka_num_interrupt_rate a).
Definition set_ka_num_q_vectors (x : Z) (a : ixmap_adapter) : ixmap_adapter :=
  IxmapAdapter (ka_ptr a) (ka_hw_ptr a) (ka_pdev a) (ka_id a) (ka_up a) (ka_misc_name a) (ka_refcount a)
    (ka_dma_mask a) (ka_iobase a) (ka_iolen a) (ka_areas a) (ka_eeprom_id a) (ka_msix_entries a)
    (ka_msix_enabled a) x (ka_rx_irq a) (ka_tx_irq a) (ka_link_speed a) (ka_link_duplex a) (ka_num_rx_queues a)
    (ka_num_tx_queues a) (ka_num_interrupt_rate a).
Definition set_ka_rx_irq (x : pointer irq_array) (a : ixmap_adapter) : ixmap_adapter :=
  IxmapAdapter (ka_ptr a) (ka_hw_ptr a) (ka_pdev a) (ka_id a) (ka_up a) (ka_misc_name a) (ka_refcount a)
    (ka_dma_mask a) (ka_iobase a) (ka_iolen a) (ka_areas a) (ka_eeprom_id a) (ka_msix_entries a)
    (ka_msix_enabled a) (ka_num_q_vectors a) x (ka_tx_irq a) (ka_link_speed a) (ka_link_duplex a)
    (ka_num_rx_queues a) (ka_num_tx_queues a) (ka_num_interrupt_rate a).
Definition set_ka_tx_irq (x : pointer irq_array) (a : ixmap_adapter) : ixmap_adapter :=
  IxmapAdapter (ka_ptr a) (ka_hw_ptr a) (ka_pdev a) (ka_id a) (ka_up a) (ka_misc_name a) (ka_refcount a)
    (ka_dma_mask a) (ka_iobase a) (ka_iolen a) (ka_areas a) (ka_eeprom_id a) (ka_msix_entries a)
    (ka_msix_enabled a) (ka_num_q_vectors a) (ka_rx_irq a) x (ka_link_speed a) (ka_link_duplex a)
    (ka_num_rx_queues a) (ka_num_tx_queues a) (ka_num_interrupt_rate a).
Definition set_ka_link_speed (x : Z) (a : ixmap_adapter) : ixmap_adapter :=
  IxmapAdapter (ka_ptr a) (ka_hw_ptr a) (ka_pdev a) (ka_id a) (ka_up a) (ka_misc_name a) (ka_refcount a)
    (ka_dma_mask a) (ka_iobase a) (ka_iolen a) (ka_areas a) (ka_eeprom_id a) (ka_msix_entries a)
    (ka_msix_enabled a) (ka_num_q_vectors a) (ka_rx_irq a) (ka_tx_irq a) x (ka_link_duplex a) (ka_num_rx_queues
    a) (ka_num_tx_queues a) (ka_num_interrupt_rate a).
Definition set_ka_link_duplex (x : Z) (a : ixmap_adapter) : ixmap_adapter :=
  IxmapAdapter (ka_ptr a) (ka_hw_ptr a) (ka_pdev a) (ka_id a) (ka_up a) (ka_misc_name a) (ka_refcount a)
    (ka_dma_mask a) (ka_iobase a) (ka_iolen a) (ka_areas a) (ka_eeprom_id a) (ka_msix_entries a)
    (ka_msix_enabled a) (ka_num_q_vectors a) (ka_rx_irq a) (ka_tx_irq a) (ka_link_speed a) x (ka_num_rx_queues
    a) (ka_num_tx_queues a) (ka_num_interrupt_rate a).
Definition set_ka_num_rx_queues (x : Z) (a : ixmap_adapter) : ixmap_adapter :=
  IxmapAdapter (ka_ptr a) (ka_hw_ptr a) (ka_pdev a) (ka_id a) (ka_up a) (ka_misc_name a) (ka_refcount a)
    (ka_dma_mask a) (ka_iobase a) (ka_iolen a) (ka_areas a) (ka_eeprom_id a) (ka_msix_entries a)
    (ka_msix_enabled a) (ka_num_q_vectors a) (ka_rx_irq a) (ka_tx_irq a) (ka_link_speed a) (ka_link_duplex a) x
    (ka_num_tx_queues a) (ka_num_interrupt_rate a).
Definition set_ka_num_tx_queues (x : Z) (a : ixmap_adapter) : ixmap_adapter :=
  IxmapAdapter (ka_ptr a) (ka_hw_ptr a) (ka_pdev a) (ka_id a) (ka_up a) (ka_misc_name a) (ka_refcount a)
    (ka_dma_mask a) (ka_iobase a) (ka_iolen a) (ka_areas a) (ka_eeprom_id a) (ka_msix_entries a)
    (ka_msix_enabled a) (ka_num_q_vectors a) (ka_rx_irq a) (ka_tx_irq a) (ka_link_speed a) (ka_link_duplex a)
    (ka_num_rx_queues a) x (ka_num_interrupt_rate a).
Definition set_ka_num_interrupt_rate (x : Z) (a : ixmap_adapter) : ixmap_adapter :=
  IxmapAdapter (ka_ptr a) (ka_hw_ptr a) (ka_pdev a) (ka_id a) (ka_up a) (ka_misc_name a) (ka_refcount a)
    (ka_dma_mask a) (ka_iobase a) (ka_iolen a) (ka_areas a) (ka_eeprom_id a) (ka_msix_entries a)
    (ka_msix_enabled a) (ka_num_q_vectors a) (ka_rx_irq a) (ka_tx_irq a) (ka_link_speed a) (ka_link_duplex a)
    (ka_num_rx_queues a) (ka_num_tx_queues a) x.

Definition DMA_BIT_MASK (n : Z) : Z := 2 ^ n - 1.

(** Memory that [kzalloc] has cleared. *)
Definition zero_hw : ixmap_hw :=
  IxmapHw 0
    (MacInfo ixmap_mac_unknown (replicate 6 0) (replicate 6 0) 0 0 0 0 0 0 0 0 0 0 false false false 0 false)
    (PhyInfo ixmap_phy_unknown 0 ixmap_media_type_unknown false)
    (EepromInfo ixmap_eeprom_uninitialized 0 0 0 0) (BusInfo 0 0) 0 0 0 0 0 false false.

Definition set_hw_addr (x : Z) (h : ixmap_hw) : ixmap_hw :=
  IxmapHw x (hw_mac h) (hw_phy h) (hw_eeprom h) (hw_bus h) (hw_device_id h) (hw_vendor_id h)
    (hw_subsystem_device_id h) (hw_subsystem_vendor_id h) (hw_revision_id h) (hw_adapter_stopped h)
    (hw_force_full_reset h).

Definition EINVAL : Z := 22.

(** ** The monad *)

(** The adapter, its [hw] and the card, the system, the global list of adapters
    (address and number) and the event contexts signalled so far, last one first. *)
Record kstate (D : Type) := KState {
  k_ad : ixmap_adapter;
  k_hw : ixmap_hw;
  k_dev : D;
  k_os : os;
  k_dev_list : list (Z * Z);
  k_signals : list eventfd_ctx
}.
Arguments KState {D}. Arguments k_ad {D}. Arguments k_hw {D}. Arguments k_dev {D}.
Arguments k_os {D}. Arguments k_dev_list {D}. Arguments k_signals {D}.

Definition K (D A : Type) := kstate D -> result (A * kstate D).

#[export] Instance K_ret {D} : MRet (K D) := fun A x s => Returns (x, s).
#[export] Instance K_bind {D} : MBind (K D) := fun A B f m s =>
  match m s with
  | Returns (x, s') => f x s'
  | Undefined => Undefined
  | Unfinished => Unfinished
  end.

Section Kernel.

Context {D : Type} `{Device D} `{EepromOps D}.

Definition k_undefined {A} : K D A := fun _ => Undefined.
Definition k_unfinished {A} : K D A := fun _ => Unfinished.

(** Something that concerns the system only. *)
Definition sys {A} (m : M A) : K D A := fun s =>
  match m (k_os s) with
  | Some (x, o) => Returns (x, KState (k_ad s) (k_hw s) (k_dev s) o (k_dev_list s) (k_signals s))
  | None => Undefined
  end.

(** Something that accesses the card, through the mapping of its registers. *)
Definition regs {A} (m : Hw D A) : K D A := fun s =>
  if bool_decide ((KIomap, hw_addr (k_hw s), 0) ∈ ledger (k_os s)) then
    match m (k_hw s, k_dev s) with
    | Returns (x, (h, d)) => Returns (x, KState (k_ad s) h d (k_os s) (k_dev_list s) (k_signals s))
    | Undefined => Undefined
    | Unfinished => Unfinished
    end
  else Undefined.

Definition ad {A} (f : ixmap_adapter -> A) : K D A := fun s => Returns (f (k_ad s), s).
Definition set_ad (f : ixmap_adapter -> ixmap_adapter) : K D unit := fun s =>
  Returns (tt, KState (f (k_ad s)) (k_hw s) (k_dev s) (k_os s) (k_dev_list s) (k_signals s)).
Definition hw {A} (f : ixmap_hw -> A) : K D A := fun s => Returns (f (k_hw s), s).
Definition set_hw (f : ixmap_hw -> ixmap_hw) : K D unit := fun s =>
  Returns (tt, KState (k_ad s) (f (k_hw s)) (k_dev s) (k_os s) (k_dev_list s) (k_signals s)).
Definition dev_list : K D (list (Z * Z)) := fun s => Returns (k_dev_list s, s).
Definition set_dev_list (l : list (Z * Z)) : K D unit := fun s =>
  Returns (tt, KState (k_ad s) (k_hw s) (k_dev s) (k_os s) l (k_signals s)).

Definition deref {A} (p : pointer A) : K D A := match p with At x => mret x | _ => k_undefined end.

(** An element of an array; there is none out of bounds. *)
Definition elem {A} (l : list A) (i : Z) : K D A :=
  match load l i with Some x => mret x | None => k_undefined end.

(** [for (i = start; i < start + n; i++)] *)
Fixpoint k_for (n : nat) (start : Z) (body : Z -> K D unit) : K D unit :=
  match n with
  | O => mret tt
  | S n => body start ;; k_for n (start + 1) body
  end.

(** The adapter as ixmap_dma.c sees it. *)
Definition dma_view (a : ixmap_adapter) (h : ixmap_hw) : adapter :=
  Adapter (ka_iobase a) (ka_iolen a) (hw_addr h) (ka_areas a).

Definition with_dma {A} (m : adapter -> M (A * adapter)) : K D A :=
  a ← ad (fun a => a);
  h ← hw (fun h => h);
  '(x, v) ← sys (m (dma_view a h));
  set_ad (set_ka_areas (areas v)) ;;
  mret x.

(** ** Adapters *)

Definition ixmap_adapter_inuse : K D bool :=
  ref ← ad ka_refcount;
  mret (negb (ref =? 1)).

Definition ixmap_adapter_get : K D unit := set_ad (fun a => set_ka_refcount (ka_refcount a + 1) a).
Definition ixmap_adapter_put : K D unit := set_ad (fun a => set_ka_refcount (ka_refcount a - 1) a).

Definition ixmap_alloc_enid : K D Z :=
  l ← dev_list;
  mret (Z.of_nat (length l)).

Definition sizeof_adapter : Z := 1.
Definition sizeof_hw : Z := 2.
Definition sizeof_irq : Z := 16.

(** Whether there is an adapter now. *)
Definition ixmap_adapter_alloc (pdev : pci_dev) : K D bool :=
  p ← sys (acquire KMalloc sizeof_adapter);
  match p with
  | None => mret false
  | Some p =>
    h ← sys (acquire KMalloc sizeof_hw);
    match h with
    | None => mret false
    | Some h =>
        id ← ixmap_alloc_enid;
        set_ad (fun _ => IxmapAdapter p h pdev id false 0 1 0 0 0 [] None Null false 0 Null Null 0 0 0 0 0) ;;
        set_hw (fun _ => zero_hw) ;;
        l ← dev_list;
        set_dev_list ((p, id) :: l) ;;
        mret true
    end
  end.

Definition ixmap_adapter_free : K D unit :=
  a ← ad (fun a => a);
  l ← dev_list;
  set_dev_list (filter (fun x => x.1 <> ka_ptr a) l) ;;
  sys (release KMalloc (ka_hw_ptr a) sizeof_hw) ;;
  sys (release KMalloc (ka_ptr a) sizeof_adapter).

(** ** Interrupts *)

Definition IXMAP_IRQ_RX : Z := 0.
Definition IXMAP_IRQ_TX : Z := 1.

(** The arrays and counts of a direction, 0 for receiving and 1 for sending. *)
Definition irqs_of (direction : Z) (a : ixmap_adapter) : pointer irq_array :=
  if direction =? 0 then ka_rx_irq a else ka_tx_irq a.
Definition set_irqs (direction : Z) (p : pointer irq_array) : K D unit :=
  set_ad (if direction =? 0 then set_ka_rx_irq p else set_ka_tx_irq p).
Definition queues_of (direction : Z) (a : ixmap_adapter) : Z :=
  if direction =? 0 then ka_num_rx_queues a else ka_num_tx_queues a.

(** [adapter->rx_irq[queue_idx]] and an assignment to it. *)
Definition irq_slot (direction queue_idx : Z) : K D (pointer ixmap_irq) :=
  p ← ad (irqs_of direction);
  arr ← deref p;
  elem (ia_irqs arr) queue_idx.
Definition set_irq_slot (direction queue_idx : Z) (x : pointer ixmap_irq) : K D unit :=
  p ← ad (irqs_of direction);
  arr ← deref p;
  match store (ia_irqs arr) queue_idx x with
  | Some l => set_irqs direction (At (IrqArray (ia_ptr arr) l))
  | None => k_undefined
  end.

(** [irq->msix_entry] *)
Definition entry_of (i : ixmap_irq) : K D msix_entry :=
  p ← ad ka_msix_entries;
  arr ← deref p;
  elem (ea_entries arr) (irq_msix_entry i).

(** [kfree] of an array of the adapter. *)
Definition free_irqs (direction : Z) : K D unit :=
  p ← ad (irqs_of direction);
  match p with
  | Null => mret tt
  | Freed => k_undefined
  | At arr => sys (release KMalloc (ia_ptr arr) (8 * Z.of_nat (length (ia_irqs arr)))) ;; set_irqs direction Freed
  end.
Definition free_entries : K D unit :=
  p ← ad ka_msix_entries;
  match p with
  | Null => mret tt
  | Freed => k_undefined
  | At arr =>
      sys (release KMalloc (ea_ptr arr) (8 * Z.of_nat (length (ea_entries arr)))) ;;
      set_ad (set_ka_msix_entries Freed)
  end.

Definition ixmap_irq_alloc (entry : Z) : K D (pointer ixmap_irq) :=
  p ← sys (acquire KMalloc sizeof_irq);
  mret match p with Some p => At (IxmapIrq p None entry) | None => Null end.

(** The context of a descriptor, if it is one of an event, with a reference that
    must be given back. *)
Definition eventfd_ctx_fdget (event_fd : Z) : K D (option eventfd_ctx) :=
  p ← sys (acquire KEventfd event_fd);
  mret ((fun p => EventfdCtx p event_fd) <$> p).

Definition eventfd_ctx_put (ctx : option eventfd_ctx) : K D unit :=
  match ctx with Some c => sys (release KEventfd (efd_ptr c) (efd_fd c)) | None => mret tt end.

Definition ixmap_irq_free (i : ixmap_irq) : K D unit :=
  eventfd_ctx_put (irq_efd_ctx i) ;;
  sys (release KMalloc (irq_ptr i) sizeof_irq).

(** The result, and the vector and entry on success. *)
Definition ixmap_irq_assign (type queue_idx event_fd : Z) : K D (Z * option msix_entry) :=
  a ← ad (fun a => a);
  if negb ((type =? IXMAP_IRQ_RX) || (type =? IXMAP_IRQ_TX)) then mret (- EINVAL, None)
  else if queues_of type a <? queue_idx then mret (- EINVAL, None)
  else
    slot ← irq_slot type queue_idx;
    efd_ctx ← eventfd_ctx_fdget event_fd;
    match efd_ctx with
    | None => mret (- EINVAL, None)
    | Some efd_ctx =>
        i ← deref slot;
        eventfd_ctx_put (irq_efd_ctx i) ;;
        set_irq_slot type queue_idx (At (IxmapIrq (irq_ptr i) (Some efd_ctx) (irq_msix_entry i))) ;;
        e ← entry_of i;
        mret (0, Some e)
    end.

(** [eventfd_signal], which adds one to the counter of the descriptor. *)
Definition eventfd_signal (c : eventfd_ctx) : K D unit := fun s =>
  Returns (tt, KState (k_ad s) (k_hw s) (k_dev s) (k_os s) (k_dev_list s) (c :: k_signals s)).

(** The handler; its argument is the address that [request_irq] was given. *)
Definition ixmap_interrupt (slot : pointer ixmap_irq) : K D unit :=
  i ← deref slot;
  match irq_efd_ctx i with
  | Some c => eventfd_signal c
  | None => mret tt
  end.

Definition ixmap_write_eitr (vector : Z) : K D unit :=
  rate ← ad ka_num_interrupt_rate;
  regs (IXGBE_WRITE_REG (IXGBE_EITR vector) (Z.lor (Z.land rate IXGBE_MAX_EITR) IXGBE_EITR_CNT_WDIS)).

Definition ixmap_set_ivar (direction queue msix_vector : Z) : K D unit :=
  let msix_vector := Z.lor (u8 msix_vector) IXGBE_IVAR_ALLOC_VAL in
  let index := 16 * Z.land (u8 queue) 1 + 8 * direction in
  let r := IXGBE_IVAR (Z.shiftr (u8 queue) 1) in
  regs (modify_reg r (fun ivar =>
    Z.lor (Z.land ivar (not32 (Z.shiftl 0xFF index))) (Z.shiftl msix_vector index))).

(** [request_irq] and [free_irq] *)
Definition request_irq (vector : Z) (i : ixmap_irq) : K D bool :=
  r ← sys ask;
  match r with
  | None => mret false
  | Some _ => sys (hold (KIrq, vector, irq_ptr i)) ;; mret true
  end.
Definition free_irq (vector : Z) (i : ixmap_irq) : K D unit := sys (release KIrq vector (irq_ptr i)).

Definition pci_disable_msix : K D unit :=
  a ← ad (fun a => a);
  if ka_msix_enabled a then
    sys (release KMsix (pdev_name (ka_pdev a)) 0) ;; set_ad (set_ka_msix_enabled false)
  else mret tt.

(** [pci_enable_msix]: a negative number (here [None]), 0 with the vectors set, from
    some number on, or how many are available: at least one, fewer than asked for. *)
Definition pci_enable_msix (nvec : Z) : K D (option Z) :=
  r ← sys ask;
  match r with
  | None => mret None
  | Some n =>
      if 0 <? n then mret (if 1 <? nvec then Some (Z.min n (nvec - 1)) else None)
      else
        p ← ad ka_msix_entries;
        arr ← deref p;
        pdev ← ad ka_pdev;
        sys (hold (KMsix, pdev_name pdev, 0)) ;;
        set_ad (set_ka_msix_enabled true) ;;
        set_ad (set_ka_msix_entries (At (EntryArray (ea_ptr arr)
          (imap (fun i e => if (Z.of_nat i <? nvec) then MsixEntry (Z.of_nat i - n) (me_entry e) else e)
             (ea_entries arr))))) ;;
        mret (Some 0)
  end.

(** The loop around it; whether it has succeeded. *)
Fixpoint enable_loop (fuel : nat) (err : Z) : K D bool :=
  if err =? 0 then mret true
  else
    match fuel with
    | O => k_unfinished
    | S fuel =>
        r ← pci_enable_msix err;
        match r with None => mret false | Some err => enable_loop fuel err end
    end.

(** Set up the interrupts of a direction: [true], or [false] with the number of
    interrupts requested before the failure. *)
Fixpoint irq_loop (n : nat) (direction queue_idx vector num_requested : Z) : K D (bool * Z) :=
  match n with
  | O => mret (true, num_requested)
  | S n =>
      p ← ad ka_msix_entries;
      arr ← deref p;
      entry ← elem (ea_entries arr) vector;
      slot ← ixmap_irq_alloc vector;
      set_irq_slot direction queue_idx slot ;;
      match slot with
      | At i =>
          ok ← request_irq (me_vector entry) i;
          if negb ok then
            sys (release KMalloc (irq_ptr i) sizeof_irq) ;;
            set_irq_slot direction queue_idx Freed ;;
            mret (false, num_requested)
          else
            ixmap_set_ivar direction queue_idx vector ;;
            ixmap_write_eitr vector ;;
            irq_loop n direction (queue_idx + 1) (vector + 1) (num_requested + 1)
      | _ => mret (false, num_requested)
      end
  end.

(** Free the interrupt of a queue: on an error nobody has attached an event
    descriptor yet. *)
Definition irq_undo (direction i : Z) : K D unit :=
  slot ← irq_slot direction i;
  irq ← deref slot;
  e ← entry_of irq;
  free_irq (me_vector e) irq ;;
  sys (release KMalloc (irq_ptr irq) sizeof_irq) ;;
  set_irq_slot direction i Freed.

Definition irq_end (direction i : Z) : K D unit :=
  slot ← irq_slot direction i;
  irq ← deref slot;
  e ← entry_of irq;
  free_irq (me_vector e) irq ;;
  ixmap_irq_free irq ;;
  set_irq_slot direction i Freed.

Definition ixmap_free_msix : K D unit :=
  a ← ad (fun a => a);
  k_for (Z.to_nat (ka_num_rx_queues a)) 0 (irq_end 0) ;;
  k_for (Z.to_nat (ka_num_tx_queues a)) 0 (irq_end 1) ;;
  free_irqs 1 ;;
  free_irqs 0 ;;
  pci_disable_msix ;;
  free_entries ;;
  set_ad (set_ka_msix_entries Null) ;;
  set_ad (set_ka_num_q_vectors 0).

(** [kcalloc] of an array of pointers *)
Definition alloc_irqs (direction n : Z) : K D bool :=
  p ← sys (acquire KMalloc (8 * n));
  match p with
  | None => set_irqs direction Null ;; mret false
  | Some p => set_irqs direction (At (IrqArray p (replicate (Z.to_nat n) Null))) ;; mret true
  end.

Definition ixmap_configure_msix : K D Z :=
  a ← ad (fun a => a);
  max ← hw (fun h => mac_max_msix_vectors (hw_mac h));
  let nrx := ka_num_rx_queues a in
  let ntx := ka_num_tx_queues a in
  let vector_num := nrx + ntx in
  if max <? vector_num then mret (-1)
  else
    p ← sys (acquire KMalloc (8 * vector_num));
    match p with
    | None => set_ad (set_ka_msix_entries Null) ;; mret (-1)
    | Some p =>
      set_ad (set_ka_msix_entries (At (EntryArray p
        ((fun i => MsixEntry 0 (Z.of_nat i)) <$> seq 0 (Z.to_nat vector_num))))) ;;
      let err_pci_enable_msix : K D Z :=
        pci_disable_msix ;; free_entries ;; set_ad (set_ka_msix_entries Null) ;; mret (-1) in
      enabled ← enable_loop (Z.to_nat vector_num) vector_num;
      if negb enabled then err_pci_enable_msix
      else
        set_ad (set_ka_num_q_vectors vector_num) ;;
        rx_ok ← alloc_irqs 0 nrx;
        if negb rx_ok then err_pci_enable_msix
        else
          tx_ok ← alloc_irqs 1 ntx;
          if negb tx_ok then free_irqs 0 ;; err_pci_enable_msix
          else
            let err_alloc_irq_rx (num_rx_requested : Z) : K D Z :=
              k_for (Z.to_nat num_rx_requested) 0 (irq_undo 0) ;;
              free_irqs 1 ;; free_irqs 0 ;; err_pci_enable_msix in
            '(ok, num_rx_requested) ← irq_loop (Z.to_nat nrx) 0 0 0 0;
            if negb ok then err_alloc_irq_rx num_rx_requested
            else
              '(ok, num_tx_requested) ← irq_loop (Z.to_nat ntx) 1 0 nrx 0;
              if negb ok then
                k_for (Z.to_nat num_tx_requested) 0 (irq_undo 1) ;;
                err_alloc_irq_rx num_rx_requested
              else mret 0
    end.

(** ** Switching a device on and off *)

Definition ixmap_release_hw_control : K D unit :=
  regs (modify_reg IXGBE_CTRL_EXT (fun v => Z.land v (not32 IXGBE_CTRL_EXT_DRV_LOAD))).

Definition ixmap_take_hw_control : K D unit :=
  regs (modify_reg IXGBE_CTRL_EXT (fun v => Z.lor v IXGBE_CTRL_EXT_DRV_LOAD)).

Definition ixmap_setup_gpie : K D unit :=
  regs (IXGBE_WRITE_REG (IXGBE_EIAM_EX 0) 0xFFFFFFFF) ;;
  regs (IXGBE_WRITE_REG (IXGBE_EIAM_EX 1) 0xFFFFFFFF) ;;
  regs (IXGBE_WRITE_REG IXGBE_EIAC IXGBE_EIMS_RTX_QUEUE) ;;
  regs (IXGBE_WRITE_REG IXGBE_GPIE
    (Z.lor (Z.lor (Z.lor IXGBE_GPIE_MSIX_MODE IXGBE_GPIE_PBA_SUPPORT) IXGBE_GPIE_OCD) IXGBE_GPIE_EIAME)).

(** The result of the reset is only reported. *)
Definition ixmap_reset : K D unit :=
  regs ixmap_init_hw ;;
  mret tt.

(** A call through a pointer that is null on other media. *)
Definition laser (m : Hw D unit) : K D unit :=
  ops ← hw (fun h => mac_laser_ops (hw_mac h));
  if ops : bool then regs m else mret tt.

Definition ixmap_up : K D Z :=
  ixmap_take_hw_control ;;
  ixmap_setup_gpie ;;
  ixmap_configure_msix ;;
  laser ixmap_enable_tx_laser_multispeed_fiber ;;
  regs (ixmap_setup_mac_link_82599 IXGBE_LINK_SPEED_10GB_FULL true) ;;
  regs ixmap_setup_fc ;;
  regs (IXGBE_READ_REG IXGBE_EICR) ;;
  set_ad (set_ka_up true) ;;
  mret 0.

Definition ixmap_down : K D Z :=
  regs (IXGBE_WRITE_REG IXGBE_EIMC 0xFFFF0000) ;;
  regs (IXGBE_WRITE_REG (IXGBE_EIMC_EX 0) 0xFFFFFFFF) ;;
  regs (IXGBE_WRITE_REG (IXGBE_EIMC_EX 1) 0xFFFFFFFF) ;;
  regs IXGBE_WRITE_FLUSH ;;
  n ← ad ka_num_q_vectors;
  k_for (Z.to_nat n) 0 (fun vector =>
    p ← ad ka_msix_entries; arr ← deref p; elem (ea_entries arr) vector ;; mret tt) ;;
  regs (IXGBE_WRITE_REG (IXGBE_TXDCTL 0) IXGBE_TXDCTL_SWFLSH) ;;
  regs (modify_reg IXGBE_DMATXCTL (fun v => Z.land v (not32 IXGBE_DMATXCTL_TE))) ;;
  offline ← sys ask;
  (match offline with Some _ => mret tt | None => ixmap_reset end) ;;
  laser ixmap_disable_tx_laser_multispeed_fiber ;;
  ixmap_free_msix ;;
  set_ad (set_ka_num_interrupt_rate 0) ;;
  set_ad (set_ka_num_rx_queues 0) ;;
  set_ad (set_ka_num_tx_queues 0) ;;
  ixmap_release_hw_control ;;
  set_ad (set_ka_up false) ;;
  mret 0.

(** ** The character device (ixmap_fops.c) *)

Definition MISCDEV_NAME_SIZE : Z := 32.

Definition ixmap_miscdev_register : K D Z :=
  name ← sys (acquire KMalloc MISCDEV_NAME_SIZE);
  match name with
  | None => mret (-1)
  | Some name =>
      set_ad (set_ka_misc_name name) ;;
      p ← ad ka_ptr;
      ok ← sys (grant KMisc p);
      if negb ok then sys (release KMalloc name MISCDEV_NAME_SIZE) ;; mret (-1)
      else mret 0
  end.

Definition ixmap_miscdev_deregister : K D unit :=
  p ← ad ka_ptr;
  sys (release KMisc p 0) ;;
  name ← ad ka_misc_name;
  sys (release KMalloc name MISCDEV_NAME_SIZE).

(** ** Probing and removing a device *)

Definition ixmap_sw_init : K D Z :=
  pdev ← ad ka_pdev;
  set_hw (fun h =>
    IxmapHw (hw_addr h)
      (MacInfo ixmap_mac_82599EB (mac_addr (hw_mac h)) (mac_perm_addr (hw_mac h)) (mac_mc_filter_type (hw_mac h))
        (mac_mcft_size (hw_mac h)) (mac_vft_size (hw_mac h)) (mac_num_rar_entries (hw_mac h))
        (mac_rx_pb_size (hw_mac h)) (mac_max_rx_queues (hw_mac h)) (mac_max_tx_queues (hw_mac h))
        (mac_orig_autoc (hw_mac h)) (mac_orig_autoc2 (hw_mac h)) (mac_max_msix_vectors (hw_mac h))
        (mac_arc_subsystem_valid (hw_mac h)) (mac_orig_link_settings_stored (hw_mac h))
        (mac_autotry_restart (hw_mac h)) (mac_flags (hw_mac h)) (mac_laser_ops (hw_mac h)))
      (hw_phy h) (hw_eeprom h) (hw_bus h) (pdev_device pdev) (pdev_vendor pdev) (pdev_subsystem_device pdev)
      (pdev_subsystem_vendor pdev) (pdev_revision pdev) (hw_adapter_stopped h) (hw_force_full_reset h)) ;;
  regs ixmap_init_ops_82599 ;;
  mret 0.

(** Addresses of 64 bits, or else of 32 bits, or neither. *)
Definition set_dma_masks : K D (option bool) :=
  m64 ← sys ask;
  c64 ← match m64 with Some _ => sys ask | None => mret None end;
  match c64 with
  | Some _ => mret (Some true)
  | None =>
      m32 ← sys ask;
      match m32 with
      | Some _ => mret (Some false)
      | None =>
          c32 ← sys ask;
          mret match c32 with Some _ => Some false | None => None end
      end
  end.

(** The versions of the EEPROM. *)
Definition read_eeprom_id : Hw D eeprom_id :=
  '(_, eeprom_verh) ← read_into 0x2e 0;
  '(_, eeprom_verl) ← read_into 0x2d 0;
  let etrack_id := Z.lor (u32 (Z.shiftl eeprom_verh 16)) eeprom_verl in
  '(_, offset) ← read_into 0x17 0;
  if negb (offset =? 0) && negb (offset =? 0xffff) then
    '(_, eeprom_cfg_blkh) ← read_into (u16 (offset + 0x84)) 0;
    '(_, eeprom_cfg_blkl) ← read_into (u16 (offset + 0x83)) 0;
    if negb (eeprom_cfg_blkl =? 0) && negb (eeprom_cfg_blkh =? 0) then
      let major := Z.shiftr eeprom_cfg_blkl 8 in
      let build := u16 (Z.lor (Z.shiftl eeprom_cfg_blkl 8) (Z.shiftr eeprom_cfg_blkh 8)) in
      let patch := Z.land eeprom_cfg_blkh 0x00ff in
      mret (EepromId etrack_id (Some (major, build, patch)))
    else mret (EepromId etrack_id None)
  else mret (EepromId etrack_id None).

(** From the reset on; whether the device was initialised. *)
Definition probe_hw : K D bool :=
  err ← regs ixmap_reset_hw_82599;
  if negb (err =? 0) then mret false
  else
    '(status, _) ← regs ixmap_validate_eeprom_checksum;
    if status <? 0 then mret false
    else
      perm_addr ← hw (fun h => mac_perm_addr (hw_mac h));
      if negb (ixmap_validate_mac_addr perm_addr =? 0) then mret false
      else
        id ← regs read_eeprom_id;
        set_ad (set_ka_eeprom_id (Some id)) ;;
        regs ixmap_start_hw_82599 ;;
        laser ixmap_disable_tx_laser_multispeed_fiber ;;
        regs (ixmap_read_pba_string (Some (replicate (Z.to_nat IXGBE_PBANUM_LENGTH) 0)) IXGBE_PBANUM_LENGTH) ;;
        regs (ixmap_set_fw_drv_ver 0xFF 0xFF 0xFF 0xFF) ;;
        err ← ixmap_miscdev_register;
        mret (negb (err <? 0)).

(** From [pci_enable_device] on. *)
Definition probe_enabled (pdev : pci_dev) : K D bool :=
  masks ← set_dma_masks;
  match masks with
  | None => mret false
  | Some pci_using_dac =>
    regions ← sys (grant KRegions (pdev_name pdev));
    if negb regions then mret false
    else
      let err_alloc : K D bool := sys (release KRegions (pdev_name pdev) 0) ;; mret false in
      allocated ← ixmap_adapter_alloc pdev;
      if negb allocated then err_alloc
      else
        set_ad (fun a => IxmapAdapter (ka_ptr a) (ka_hw_ptr a) (ka_pdev a) (ka_id a) (ka_up a) (ka_misc_name a)
          (ka_refcount a) (if pci_using_dac : bool then DMA_BIT_MASK 64 else DMA_BIT_MASK 32)
          (pdev_start pdev) (pdev_len pdev) [] (ka_eeprom_id a) (ka_msix_entries a) (ka_msix_enabled a) (ka_num_q_vectors a)
          (ka_rx_irq a) (ka_tx_irq a) (ka_link_speed a) (ka_link_duplex a) (ka_num_rx_queues a)
          (ka_num_tx_queues a) (ka_num_interrupt_rate a)) ;;
        hw_addr ← with_dma ixmap_dma_map_iobase;
        match hw_addr with
        | None => ixmap_adapter_free ;; err_alloc
        | Some hw_addr =>
            set_hw (set_hw_addr hw_addr) ;;
            ixmap_sw_init ;;
            ok ← probe_hw;
            if negb ok then
              with_dma (fun v => v ← ixmap_dma_unmap_all v; mret (tt, v)) ;;
              ixmap_adapter_free ;;
              err_alloc
            else mret true
        end
  end.

(** Whether the device is probed, the error codes of the system left out. *)
Definition ixmap_probe (pdev : pci_dev) : K D bool :=
  enabled ← sys (grant KPci (pdev_name pdev));
  if negb enabled then mret false else probe_enabled pdev.

Definition ixmap_remove : K D unit :=
  a ← ad (fun a => a);
  (if ka_up a then ixmap_down ;; mret tt else mret tt) ;;
  ixmap_miscdev_deregister ;;
  with_dma (fun v => v ← ixmap_dma_unmap_all v; mret (tt, v)) ;;
  sys (release KRegions (pdev_name (ka_pdev a)) 0) ;;
  sys (release KPci (pdev_name (ka_pdev a)) 0) ;;
  ixmap_adapter_put ;;
  ixmap_adapter_free.

End Kernel.
