(* ===== verification/Fops.v ===== *)
(** * The kernel module: the character device (src/kmod/ixmap_fops.c)

    What a program may ask of an adapter.  [user_arg] is what the memory at the
    address given to [ioctl] holds when it is read as each of the requests, [None]
    where reading it faults.  The semaphore of the adapter makes the operations
    follow one another; taking it is no step of its own here. *)

From stdpp Require Import prelude list.
From S2P Require Import Prelude Os Kdma HwRegs Hw Eeprom Common Ixgbe82599 Kmain.

(** ** Requests *)

Definition EAGAIN : Z := 11.
Definition EFAULT : Z := 14.
Definition EBUSY : Z := 16.
Definition ENODEV : Z := 19.
Definition EOVERFLOW : Z := 75.
Definition EBADFD : Z := 77.
Definition EALREADY : Z := 114.

(** [_IOW(type, nr, int)] *)
Definition IOW (type nr : Z) : Z := Z.lor (Z.lor (Z.shiftl 1 30) (Z.shiftl 4 16)) (Z.lor (Z.shiftl type 8) nr).

Definition IXMAP_INFO : Z := IOW 69 201.
Definition IXMAP_UP : Z := IOW 69 202.
Definition IXMAP_DOWN : Z := IOW 69 203.
Definition IXMAP_RESET : Z := IOW 69 204.
Definition IXMAP_CHECK_LINK : Z := IOW 69 205.
Definition IXMAP_MAP : Z := IOW 85 210.
Definition IXMAP_UNMAP : Z := IOW 85 211.
Definition IXMAP_IRQ : Z := IOW 69 220.

Record ixmap_info_req := InfoReq {
  ir_mmio_base : Z;
  ir_mmio_size : Z;
  ir_mac_type : ixmap_mac_type;
  ir_mac_addr : list Z;
  ir_phy_type : ixmap_phy_type;
  ir_max_interrupt_rate : Z;
  ir_num_interrupt_rate : Z;
  ir_num_rx_queues : Z;
  ir_num_tx_queues : Z;
  ir_max_rx_queues : Z;
  ir_max_tx_queues : Z;
  ir_max_msix_vectors : Z
}.

Record ixmap_up_req := UpReq { ur_num_interrupt_rate : Z; ur_num_rx_queues : Z; ur_num_tx_queues : Z }.
Record ixmap_link_req := LinkReq { lr_speed : Z; lr_duplex : Z; lr_flush : Z }.

(** With the request, what [dma_map_sg] will make of its pages. *)
Record ixmap_map_req := MapReq {
  mr_addr_virtual : Z;
  mr_addr_dma : Z;
  mr_size : Z;
  mr_cache : Z;
  mr_sg : sg_mapped
}.
Record ixmap_unmap_req := UnmapReq { nr_addr_dma : Z }.
Record ixmap_irq_req := IrqReq { qr_type : Z; qr_queue_idx : Z; qr_event_fd : Z }.

Record user_arg := UserArg {
  u_up : option ixmap_up_req;
  u_map : option ixmap_map_req;
  u_unmap : option ixmap_unmap_req;
  u_irq : option ixmap_irq_req
}.

(** What is copied to the program. *)
Inductive reply :=
| RInfo (r : ixmap_info_req)
| RLink (r : ixmap_link_req)
| RMap (addr_dma : Z)
| RIrq (e : msix_entry).

Section Fops.

Context {D : Type} `{Device D} `{EepromOps D}.

(** [copy_to_user], which may fault. *)
Definition copy_to_user (r : reply) : K D (option reply) :=
  ok ← sys ask;
  mret match ok with Some _ => Some r | None => None end.

(** ** Commands: the result of the call and what the program gets *)

Definition ixmap_cmd_up (arg : option ixmap_up_req) : K D Z :=
  up ← ad ka_up;
  if up : bool then mret (- EALREADY)
  else
    match arg with
    | None => mret (- EFAULT)
    | Some req =>
        if IXGBE_MAX_EITR <? ur_num_interrupt_rate req then mret (- EINVAL)
        else if IXGBE_MAX_RSS_INDICES <? ur_num_rx_queues req then mret (- EINVAL)
        else if IXGBE_MAX_RSS_INDICES <? ur_num_tx_queues req then mret (- EINVAL)
        else
          set_ad (set_ka_num_interrupt_rate (ur_num_interrupt_rate req)) ;;
          set_ad (set_ka_num_rx_queues (ur_num_rx_queues req)) ;;
          set_ad (set_ka_num_tx_queues (ur_num_tx_queues req)) ;;
          err ← ixmap_up;
          if negb (err =? 0) then ixmap_down ;; mret err else mret 0
    end.

Definition ixmap_cmd_down : K D Z :=
  up ← ad ka_up;
  if negb up then mret (- EALREADY)
  else ixmap_down ;; mret 0.

Definition ixmap_cmd_reset : K D Z :=
  up ← ad ka_up;
  if negb up then mret 0
  else ixmap_reset ;; mret 0.

Definition ixmap_cmd_check_link : K D (Z * option reply) :=
  up ← ad ka_up;
  if negb up then mret (- EAGAIN, None)
  else
    '(link_speed, link_up) ← regs (ixmap_check_mac_link false);
    old ← ad ka_link_speed;
    flush ← (if link_up : bool then
               (if old =? 0 then
                  set_ad (set_ka_link_speed (u16 link_speed)) ;; set_ad (set_ka_link_duplex 2)
                else mret tt) ;;
               mret 0
             else if negb (old =? 0) then
               set_ad (set_ka_link_speed 0) ;; set_ad (set_ka_link_duplex 0) ;; mret 1
             else mret 0);
    a ← ad (fun a => a);
    r ← copy_to_user (RLink (LinkReq (ka_link_speed a) (ka_link_duplex a) flush));
    mret (match r with Some _ => 0 | None => - EFAULT end, r).

Definition ixmap_cmd_info : K D (Z * option reply) :=
  a ← ad (fun a => a);
  h ← hw (fun h => h);
  r ← copy_to_user (RInfo (InfoReq (ka_iobase a) (ka_iolen a) (mac_type (hw_mac h)) (mac_perm_addr (hw_mac h))
        (phy_type (hw_phy h)) IXGBE_MAX_EITR (ka_num_interrupt_rate a) (ka_num_rx_queues a) (ka_num_tx_queues a)
        IXGBE_MAX_RSS_INDICES IXGBE_MAX_RSS_INDICES (mac_max_msix_vectors (hw_mac h))));
  mret (match r with Some _ => 0 | None => - EFAULT end, r).

Definition ixmap_cmd_map (partial : bool) (arg : option ixmap_map_req) : K D (Z * option reply) :=
  match arg with
  | None => mret (- EFAULT, None)
  | Some req =>
      if mr_size req =? 0 then mret (- EINVAL, None)
      else
        addr_dma ← with_dma (fun v => ixmap_dma_map partial v (mr_addr_virtual req) (mr_size req) (mr_sg req));
        if addr_dma =? 0 then mret (- EFAULT, None)
        else
          r ← copy_to_user (RMap addr_dma);
          match r with
          | None => with_dma (fun v => ixmap_dma_unmap v addr_dma) ;; mret (- EFAULT, None)
          | Some _ => mret (0, r)
          end
  end.

Definition ixmap_cmd_unmap (arg : option ixmap_unmap_req) : K D Z :=
  match arg with
  | None => mret (- EFAULT)
  | Some req => with_dma (fun v => ixmap_dma_unmap v (nr_addr_dma req))
  end.

Definition ixmap_cmd_irq (arg : option ixmap_irq_req) : K D (Z * option reply) :=
  match arg with
  | None => mret (- EFAULT, None)
  | Some req =>
      '(ret, e) ← ixmap_irq_assign (qr_type req) (qr_queue_idx req) (qr_event_fd req);
      match e with
      | None => mret (ret, None)
      | Some e =>
          r ← copy_to_user (RIrq e);
          mret (match r with Some _ => 0 | None => - EFAULT end, r)
      end
  end.

(** ** File operations *)

(** The result and whether [file->private_data] is the adapter now. *)
Definition ixmap_open : K D (Z * bool) :=
  inuse ← ixmap_adapter_inuse;
  if inuse : bool then mret (- EBUSY, false)
  else ixmap_adapter_get ;; mret (0, true).

Definition ixmap_close (adapter : bool) : K D Z :=
  if negb adapter then mret 0
  else
    ixmap_cmd_down ;;
    ixmap_adapter_put ;;
    mret 0.

Definition no_reply (m : K D Z) : K D (Z * option reply) := r ← m; mret (r, None).

Definition ixmap_ioctl (partial adapter : bool) (cmd : Z) (arg : user_arg) : K D (Z * option reply) :=
  if negb adapter then mret (- EBADFD, None)
  else if cmd =? IXMAP_INFO then ixmap_cmd_info
  else if cmd =? IXMAP_UP then no_reply (ixmap_cmd_up (u_up arg))
  else if cmd =? IXMAP_MAP then ixmap_cmd_map partial (u_map arg)
  else if cmd =? IXMAP_UNMAP then no_reply (ixmap_cmd_unmap (u_unmap arg))
  else if cmd =? IXMAP_DOWN then no_reply ixmap_cmd_down
  else if cmd =? IXMAP_RESET then no_reply ixmap_cmd_reset
  else if cmd =? IXMAP_CHECK_LINK then ixmap_cmd_check_link
  else if cmd =? IXMAP_IRQ then ixmap_cmd_irq (u_irq arg)
  else mret (- EINVAL, None).

(** A mapping into the program: its first page frame, its size and the cache mode. *)
Record vm_mapping := VmMapping { vm_pfn : Z; vm_size : Z; vm_cache : Z }.

Definition ixmap_mmap (adapter : bool) (vm_start vm_end vm_pgoff : Z) : K D (Z * option vm_mapping) :=
  let size := u64 (vm_end - vm_start) in
  let offset := u64 (Z.shiftl vm_pgoff PAGE_SHIFT) in
  if negb adapter then mret (- ENODEV, None)
  else if negb (offset =? 0) then mret (- EINVAL, None)
  else
    a ← ad (fun a => a);
    h ← hw (fun h => h);
    match ixmap_dma_area_lookup (dma_view a h) (ka_iobase a) with
    | None => mret (- ENOENT, None)
    | Some (_, area) =>
        if negb (ar_size area =? size) then mret (- EOVERFLOW, None)
        else
          r ← sys ask;
          match r with
          | None => mret (- EAGAIN, None)
          | Some _ => mret (0, Some (VmMapping (Z.shiftr (ar_addr_dma area) PAGE_SHIFT) size (ar_cache area)))
          end
    end.

End Fops.
