(* ===== verification/KLogic.v ===== *)
(** * Reasoning about the kernel module

    [kt total a W R m Q]: when the adapter is [a], the driver's data and the card
    satisfy [W] and the resources [R] are held, next to any others, then [m] has no
    undefined behaviour; what it returns, the adapter, the resources held then and
    the card satisfy [Q].  If [total] is set it does return; otherwise it may also
    be caught in one of the loops over the EEPROM that have no bound. *)

From stdpp Require Import prelude list.
From S2P Require Import Prelude Os Kdma HwRegs Hw HwLogic Eeprom Common Ixgbe82599 HwSafe Kmain.

Section Logic.

Context {D : Type} `{Device D} `{EepromOps D}.

Notation st := (ixmap_hw * D)%type.

Implicit Types (a : ixmap_adapter) (W : st -> Prop) (R : list res).

Definition post (A : Type) := A -> ixmap_adapter -> list res -> st -> Prop.

Definition kt (total : bool) a W R {A} (m : K D A) (Q : post A) : Prop :=
  forall s L, k_ad s = a -> W (k_hw s, k_dev s) -> ledger (k_os s) ≡ₚ R ++ L ->
    match m s with
    | Returns (x, s') => exists R', Q x (k_ad s') R' (k_hw s', k_dev s') /\ ledger (k_os s') ≡ₚ R' ++ L
    | Undefined => False
    | Unfinished => total = false
    end.

(** The same for code that concerns the card only. *)
Definition hwt (total : bool) W {A} (m : Hw D A) (Q : A -> st -> Prop) : Prop :=
  forall s, W s ->
    match m s with
    | Returns (x, s') => Q x s'
    | Undefined => False
    | Unfinished => total = false
    end.

Lemma hwt_runs t {A} W (m : Hw D A) Q : runs W m Q -> hwt t W m Q.
Proof. intros Hm s Hs. destruct (Hm s Hs) as (x & s' & -> & HQ). exact HQ. Qed.

(** The registers are mapped at [p], and what is known of the EEPROM is in order. *)
Definition Live (p : Z) (s : st) : Prop := hw_addr s.1 = p /\ ee_inv (hw_eeprom s.1).

Lemma hwt_safe p {A} (m : Hw D A) Q : safe ee_inv m Q -> hwt false (Live p) m (fun x s => Q x /\ Live p s).
Proof.
  intros Hm s [Hp He]. specialize (Hm s He). destruct (m s) as [[x s']| |]; [|done|done].
  destruct Hm as (Hq & He' & Ha). unfold Live. by rewrite Ha.
Qed.

(** Single accesses return, on any card. *)
Lemma hwt_drv t p {A} (m : Hw D A) :
  (forall h, runs (Drv h) m (fun _ => Drv h)) -> hwt t (Live p) m (fun _ => Live p).
Proof.
  intros Hm s [Hp He]. destruct (Hm s.1 s eq_refl) as (x & s' & -> & E). unfold Live. by rewrite E.
Qed.

Lemma d_modify r f h : runs (D := D) (Drv h) (modify_reg r f) (fun _ => Drv h).
Proof. eapply r_bind; [apply d_read|]. intros v. apply d_write. Qed.

(** ** Rules *)

Lemma kt_ret t a W R {A} (x : A) (Q : post A) :
  (forall s, W s -> Q x a R s) -> kt t a W R (mret x) Q.
Proof. intros HQ s L <- Hw HL. exists R. split; [by apply HQ|done]. Qed.

Lemma kt_bind t a W R {A B} (m : K D A) (f : A -> K D B) (P : post A) (Q : post B) :
  kt t a W R m P -> (forall x a' R', kt t a' (P x a' R') R' (f x) Q) -> kt t a W R (m ≫= f) Q.
Proof.
  intros Hm Hf s L Ha Hw HL. unfold mbind, K_bind. specialize (Hm s L Ha Hw HL).
  destruct (m s) as [[x s']| |]; [|done|done]. destruct Hm as (R' & HP & HL').
  exact (Hf x (k_ad s') R' s' L eq_refl HP HL').
Qed.

Lemma kt_weaken t a W R {A} (m : K D A) (P Q : post A) :
  kt t a W R m P -> (forall x a' R' s, P x a' R' s -> Q x a' R' s) -> kt t a W R m Q.
Proof.
  intros Hm HPQ s L Ha Hw HL. specialize (Hm s L Ha Hw HL). destruct (m s) as [[x s']| |]; [|done|done].
  destruct Hm as (R' & HP & HL'). exists R'. split; [by apply HPQ|done].
Qed.

Lemma kt_total t a W R {A} (m : K D A) (Q : post A) : kt true a W R m Q -> kt t a W R m Q.
Proof. intros Hm s L Ha Hw HL. specialize (Hm s L Ha Hw HL). by destruct (m s) as [[x s']| |]. Qed.

(** What is known of the card may be weakened, and may carry facts. *)
Lemma kt_pre t a (W W' : st -> Prop) R {A} (m : K D A) (Q : post A) :
  (forall s, W s -> W' s) -> kt t a W' R m Q -> kt t a W R m Q.
Proof. intros Hi Hm s L Ha Hw HL. exact (Hm s L Ha (Hi _ Hw) HL). Qed.

Lemma kt_pure t a (F : Prop) W R {A} (m : K D A) (Q : post A) :
  (F -> kt t a W R m Q) -> kt t a (fun s => F /\ W s) R m Q.
Proof. intros Hm s L Ha [HF Hw] HL. exact (Hm HF s L Ha Hw HL). Qed.

Lemma kt_forget t a (F W : st -> Prop) R {A} (m : K D A) (Q : post A) :
  kt t a W R m Q -> kt t a (fun s => F s /\ W s) R m Q.
Proof. apply kt_pre. by intros s [_ Hs]. Qed.

Lemma kt_exists t a {B} (W : B -> st -> Prop) R {A} (m : K D A) (Q : post A) :
  (forall y, kt t a (W y) R m Q) -> kt t a (fun s => exists y, W y s) R m Q.
Proof. intros Hm s L Ha [y Hw] HL. exact (Hm y s L Ha Hw HL). Qed.

Lemma kt_need t a W R R' {A} (m : K D A) (Q : post A) : R ≡ₚ R' -> kt t a W R' m Q -> kt t a W R m Q.
Proof. intros Hp Hm s L Ha Hw HL. apply Hm; [done|done|]. by rewrite HL, Hp. Qed.

(** What [m] does not need stays. *)
Lemma kt_frame t a W R F {A} (m : K D A) (Q : post A) :
  kt t a W R m Q -> kt t a W (R ++ F) m (fun x a' R' s => exists R1, R' = R1 ++ F /\ Q x a' R1 s).
Proof.
  intros Hm s L Ha Hw HL. specialize (Hm s (F ++ L) Ha Hw). rewrite HL, (assoc_L (++)) in Hm.
  specialize (Hm ltac:(done)). destruct (m s) as [[x s']| |]; [|done|done]. destruct Hm as (R1 & HQ & HL').
  exists (R1 ++ F). split; [by exists R1|]. by rewrite HL', (assoc_L (++)).
Qed.

Lemma kt_ret_bind t a W R {A B} (x : A) (f : A -> K D B) (Q : post B) :
  kt t a W R (f x) Q -> kt t a W R (mret x ≫= f) Q.
Proof. intros Hf s L. exact (Hf s L). Qed.

Lemma kt_ad t a W R {A B} (g : ixmap_adapter -> A) (f : A -> K D B) (Q : post B) :
  kt t a W R (f (g a)) Q -> kt t a W R (ad g ≫= f) Q.
Proof. intros Hf s L <- Hw HL. exact (Hf s L eq_refl Hw HL). Qed.

Lemma kt_set_ad t a W R {B} g (f : unit -> K D B) (Q : post B) :
  kt t (g a) W R (f tt) Q -> kt t a W R (set_ad g ≫= f) Q.
Proof. intros Hf s L <- Hw HL. exact (Hf (KState _ _ _ _ _ _) L eq_refl Hw HL). Qed.

Lemma kt_hw t a W R {A B} (g : ixmap_hw -> A) (f : A -> K D B) (Q : post B) :
  (forall x, kt t a (fun s => g s.1 = x /\ W s) R (f x) Q) -> kt t a W R (hw g ≫= f) Q.
Proof. intros Hf s L Ha Hw HL. apply (Hf (g (k_hw s)) s L Ha); [by split|done]. Qed.

Lemma kt_sys t a W R {A B} (m : M A) mid (f : A -> K D B) (Q : post B) :
  triple R m mid -> (forall x, kt t a W (mid x) (f x) Q) -> kt t a W R (sys m ≫= f) Q.
Proof.
  intros Hm Hf s L Ha Hw HL. unfold mbind, K_bind, sys. destruct (Hm (k_os s) L HL) as (x & o & -> & HL').
  exact (Hf x (KState _ _ _ o _ _) L Ha Hw HL').
Qed.

Lemma kt_sys_out t a W R {A B} (m : M A) (mid : A -> list res -> Prop) (f : A -> K D B) (Q : post B) :
  outcomes R m mid -> (forall x R', mid x R' -> kt t a W R' (f x) Q) -> kt t a W R (sys m ≫= f) Q.
Proof.
  intros Hm Hf s L Ha Hw HL. unfold mbind, K_bind, sys. destruct (Hm (k_os s) L HL) as (x & o & R' & -> & Hx & HL').
  exact (Hf x R' Hx (KState _ _ _ o _ _) L Ha Hw HL').
Qed.

Lemma kt_regs t a W R {A B} (m : Hw D A) (P : A -> st -> Prop) p (f : A -> K D B) (Q : post B) :
  hwt t W m P -> (forall s, W s -> hw_addr s.1 = p) -> (KIomap, p, 0) ∈ R ->
  (forall x, kt t a (P x) R (f x) Q) -> kt t a W R (regs m ≫= f) Q.
Proof.
  intros Hm Hp HR Hf s L Ha Hw HL. unfold mbind, K_bind, regs. rewrite bool_decide_true.
  2:{ pose proof (Hp _ Hw) as E. cbn in E. rewrite E, HL. apply elem_of_app. by left. }
  specialize (Hm _ Hw). destruct (m (k_hw s, k_dev s)) as [[x [h d]]| |]; [|done|done].
  exact (Hf x (KState _ h d _ _ _) L Ha Hm HL).
Qed.

Lemma kt_last t a W R {A} (m : K D A) (Q : post A) : kt t a W R (m ≫= mret) Q -> kt t a W R m Q.
Proof.
  intros Hm s L Ha Hw HL. specialize (Hm s L Ha Hw HL). unfold mbind, K_bind, mret, K_ret in Hm.
  destruct (m s) as [[x s']| |]; done.
Qed.

Lemma kt_deref t a W R {A B} (x : A) (f : A -> K D B) (Q : post B) :
  kt t a W R (f x) Q -> kt t a W R (deref (At x) ≫= f) Q.
Proof. apply kt_ret_bind. Qed.

Lemma kt_elem t a W R {A B} (l : list A) i x (f : A -> K D B) (Q : post B) :
  0 <= i -> l !! Z.to_nat i = Some x -> kt t a W R (f x) Q -> kt t a W R (elem l i ≫= f) Q.
Proof.
  intros Hi Hx Hf. unfold elem, load. rewrite (proj2 (Z.leb_le 0 i) Hi), Hx. by apply kt_ret_bind.
Qed.

(** Something that reads the adapter only. *)
Lemma kt_reads t a W R {A B} (m : K D A) x (f : A -> K D B) (Q : post B) :
  (forall s, k_ad s = a -> m s = Returns (x, s)) -> kt t a W R (f x) Q -> kt t a W R (m ≫= f) Q.
Proof.
  intros Hm Hf s L Ha Hw HL. unfold mbind, K_bind. rewrite (Hm s Ha). exact (Hf s L Ha Hw HL).
Qed.

(** Something that changes the adapter only. *)
Lemma kt_changes t a a' W R {A B} (m : K D A) x (f : A -> K D B) (Q : post B) :
  (forall s, k_ad s = a -> m s = Returns (x, KState a' (k_hw s) (k_dev s) (k_os s) (k_dev_list s) (k_signals s))) ->
  kt t a' W R (f x) Q -> kt t a W R (m ≫= f) Q.
Proof.
  intros Hm Hf s L Ha Hw HL. unfold mbind, K_bind. rewrite (Hm s Ha). exact (Hf (KState _ _ _ _ _ _) L eq_refl Hw HL).
Qed.

Lemma kt_assoc t a W R {A B C} (m : K D A) (g : A -> K D B) (f : B -> K D C) (Q : post C) :
  kt t a W R (m ≫= fun x => g x ≫= f) Q -> kt t a W R ((m ≫= g) ≫= f) Q.
Proof.
  intros Hm s L Ha Hw HL. specialize (Hm s L Ha Hw HL). unfold mbind, K_bind in *.
  by destruct (m s) as [[x s']| |].
Qed.

Lemma kt_release t a W R R' k x n {B} (f : unit -> K D B) (Q : post B) :
  R ≡ₚ (k, x, n) :: R' -> kt t a W R' (f tt) Q -> kt t a W R (sys (release k x n) ≫= f) Q.
Proof. intros Hp Hf. eapply kt_need; [exact Hp|]. eapply kt_sys; [apply t_release|]. by intros []. Qed.

Lemma kt_acquire t a W R k n {B} (f : option Z -> K D B) (Q : post B) :
  (forall x, kt t a W ((k, x, n) :: R) (f (Some x)) Q) -> kt t a W R (f None) Q ->
  kt t a W R (sys (acquire k n) ≫= f) Q.
Proof. intros Hs Hn. eapply kt_sys; [apply t_acquire|]. intros [x|]; [apply Hs|exact Hn]. Qed.

Lemma kt_ask t a W R {B} (f : option Z -> K D B) (Q : post B) :
  (forall r, kt t a W R (f r) Q) -> kt t a W R (sys ask ≫= f) Q.
Proof. intros Hf. eapply kt_sys; [apply t_ask|]. exact Hf. Qed.

Lemma kt_hold t a W R r {B} (f : unit -> K D B) (Q : post B) :
  kt t a W (r :: R) (f tt) Q -> kt t a W R (sys (hold r) ≫= f) Q.
Proof.
  intros Hf. eapply (kt_sys _ _ _ _ _ (fun _ => r :: R)); [|by intros []].
  intros s L Hs. eexists _, _. split; [done|]. cbn. by rewrite Hs.
Qed.

Lemma kt_set_hw t a W W' R {B} g (f : unit -> K D B) (Q : post B) :
  (forall s, W s -> W' (g s.1, s.2)) -> kt t a W' R (f tt) Q -> kt t a W R (set_hw g ≫= f) Q.
Proof. intros Hi Hf s L Ha Hw HL. exact (Hf (KState _ _ _ _ _ _) L Ha (Hi _ Hw) HL). Qed.

Lemma kt_dev_list t a W R {B} (f : _ -> K D B) (Q : post B) :
  (forall x, kt t a W R (f x) Q) -> kt t a W R (dev_list ≫= f) Q.
Proof. intros Hf s L. exact (Hf _ s L). Qed.

Lemma kt_set_dev_list t a W R l {B} (f : unit -> K D B) (Q : post B) :
  kt t a W R (f tt) Q -> kt t a W R (set_dev_list l ≫= f) Q.
Proof. intros Hf s L Ha Hw HL. exact (Hf (KState _ _ _ _ _ _) L Ha Hw HL). Qed.

(** Calls into ixmap_dma.c. *)
Definition dview a (p : Z) : adapter := Adapter (ka_iobase a) (ka_iolen a) p (ka_areas a).

Lemma kt_with_dma t a W R p {A B} (m : adapter -> M (A * adapter)) mid (f : A -> K D B) (Q : post B) :
  (forall s, W s -> hw_addr s.1 = p) -> outcomes R (m (dview a p)) mid ->
  (forall x v R', mid (x, v) R' -> kt t (set_ka_areas (areas v) a) W R' (f x) Q) ->
  kt t a W R (with_dma m ≫= f) Q.
Proof.
  intros Hp Hm Hf. unfold with_dma. apply kt_assoc, kt_ad, kt_assoc, kt_hw. intros h s L Ha [Hh Hw] HL.
  assert (dma_view a h = dview a p) as -> by (cbn in Hh; subst h; unfold dma_view, dview; f_equal; exact (Hp _ Hw)). clear h Hh.
  revert s L Ha Hw HL. eapply kt_assoc, kt_sys_out; [exact Hm|]. intros [x v] R' HR. apply kt_assoc, kt_set_ad, kt_ret_bind.
  by apply Hf.
Qed.

(** A loop that gives what it needs in round [i] for what it has then. *)
Lemma kt_for t n start body (I : Z -> ixmap_adapter -> Prop) (P : Z -> list res) W a :
  I start a ->
  (forall i a, start <= i < start + Z.of_nat n -> I i a ->
     kt t a W (P i) (body i) (fun _ a' R' s => I (i + 1) a' /\ R' ≡ₚ P (i + 1) /\ W s)) ->
  kt t a W (P start) (k_for n start body)
    (fun _ a' R' s => I (start + Z.of_nat n) a' /\ R' ≡ₚ P (start + Z.of_nat n) /\ W s).
Proof.
  revert start a. induction n as [|n IH]; intros start a HI Hb; cbn [k_for].
  - apply kt_ret. intros s Hs. by rewrite Z.add_0_r.
  - eapply kt_bind; [apply Hb; [lia|done]|]. intros u a' R'. cbv beta.
    apply kt_pure. intros HI'. apply kt_pure. intros HR. eapply kt_need; [exact HR|].
    replace (start + Z.of_nat (S n)) with (start + 1 + Z.of_nat n) by lia. apply IH; [done|].
    intros i a2 Hi. apply Hb. lia.
Qed.

End Logic.
