(* ===== verification/Kirq.v ===== *)
(** * Interrupts of an adapter: what they hold

    Switching the interrupts on takes everything or nothing, and switching them
    off gives back what switching on has taken, the event descriptors attached
    since included. *)

From stdpp Require Import prelude list.
From S2P Require Import Prelude Os Kdma HwRegs Hw HwLogic Eeprom Common Ixgbe82599 HwSafe Kmain KLogic.

(** ** The adapter's arrays *)

Definition irqs_set (direction : Z) (p : pointer irq_array) (a : ixmap_adapter) : ixmap_adapter :=
  if direction =? 0 then set_ka_rx_irq p a else set_ka_tx_irq p a.

Lemma irqs_set_of d p a : irqs_of d (irqs_set d p a) = p.
Proof. unfold irqs_of, irqs_set. by destruct (d =? 0). Qed.
Lemma irqs_set_twice d p q a : irqs_set d p (irqs_set d q a) = irqs_set d p a.
Proof. unfold irqs_set. by destruct (d =? 0). Qed.
Lemma irqs_set_same d p a : irqs_of d a = p -> irqs_set d p a = a.
Proof. intros <-. unfold irqs_set, irqs_of. destruct a. by destruct (d =? 0). Qed.
Lemma irqs_set_entries d p a : ka_msix_entries (irqs_set d p a) = ka_msix_entries a.
Proof. unfold irqs_set. by destruct (d =? 0). Qed.
Lemma irqs_set_rate d p a : ka_num_interrupt_rate (irqs_set d p a) = ka_num_interrupt_rate a.
Proof. unfold irqs_set. by destruct (d =? 0). Qed.

(** ** What they hold *)

Definition vec (es : list msix_entry) (i : ixmap_irq) : Z :=
  default 0 (me_vector <$> es !! Z.to_nat (irq_msix_entry i)).

Definition efd_res (i : ixmap_irq) : list res :=
  match irq_efd_ctx i with Some c => [(KEventfd, efd_ptr c, efd_fd c)] | None => [] end.

Definition slot_res (es : list msix_entry) (x : pointer ixmap_irq) : list res :=
  match x with
  | At i => (KMalloc, irq_ptr i, sizeof_irq) :: (KIrq, vec es i, irq_ptr i) :: efd_res i
  | _ => []
  end.

Definition slots_res (es : list msix_entry) (l : list (pointer ixmap_irq)) : list res :=
  concat (slot_res es <$> l).

Lemma slots_res_snoc es l x : slots_res es (l ++ [x]) ≡ₚ slot_res es x ++ slots_res es l.
Proof.
  unfold slots_res. rewrite fmap_app, concat_app. cbn. rewrite app_nil_r. by rewrite Permutation_app_comm.
Qed.

Lemma slots_res_drop es l k x :
  l !! k = Some x -> slots_res es (drop k l) = slot_res es x ++ slots_res es (drop (S k) l).
Proof. intros Hx. unfold slots_res. by rewrite (drop_S l x k Hx). Qed.

(** The interrupt of each queue points to its entry. *)
Definition irqs_at (base : Z) (l : list (pointer ixmap_irq)) : Prop :=
  forall k x, l !! k = Some x -> exists i, x = At i /\ irq_msix_entry i = base + Z.of_nat k.

(** No event descriptor is attached. *)
Definition no_efd (l : list (pointer ixmap_irq)) : Prop :=
  forall k i, l !! k = Some (At i) -> irq_efd_ctx i = None.

Lemma irqs_at_snoc base l i :
  irqs_at base l -> irq_msix_entry i = base + Z.of_nat (length l) -> irqs_at base (l ++ [At i]).
Proof.
  intros Hl He k x [Hx|(Hk & Hx)]%lookup_app_Some; [by apply Hl|]. apply list_lookup_singleton_Some in Hx as [Hk' <-].
  exists i. split; [done|]. rewrite He. lia.
Qed.

Lemma no_efd_snoc l i : no_efd l -> irq_efd_ctx i = None -> no_efd (l ++ [At i]).
Proof.
  intros Hl He k j [Hx|(Hk & Hx)]%lookup_app_Some; [by apply (Hl k)|].
  apply list_lookup_singleton_Some in Hx as [_ [= <-]]. done.
Qed.

Section Irqs.

Context {D : Type} `{Device D} `{EepromOps D}.

Notation st := (ixmap_hw * D)%type.

Implicit Types (a : ixmap_adapter) (R : list res).

(** ** Access to the arrays *)

Lemma kt_irq_slot t a (W : st -> Prop) R d i pi l x {B} (f : _ -> K D B) Q :
  irqs_of d a = At (IrqArray pi l) -> 0 <= i -> l !! Z.to_nat i = Some x ->
  kt t a W R (f x) Q -> kt t a W R (irq_slot d i ≫= f) Q.
Proof.
  intros Ha Hi Hx. apply kt_reads. intros s <-. unfold irq_slot, mbind, K_bind, ad. rewrite Ha. cbn.
  unfold elem. by rewrite load_lookup, Hx.
Qed.

Lemma kt_set_slot t a (W : st -> Prop) R d i pi l x {B} (f : _ -> K D B) Q :
  irqs_of d a = At (IrqArray pi l) -> 0 <= i < Z.of_nat (length l) ->
  kt t (irqs_set d (At (IrqArray pi (<[Z.to_nat i := x]> l))) a) W R (f tt) Q ->
  kt t a W R (set_irq_slot d i x ≫= f) Q.
Proof.
  intros Ha Hi. apply kt_changes. intros s <-. unfold set_irq_slot, mbind, K_bind, ad. rewrite Ha. cbn.
  rewrite store_some by done. unfold set_irqs, set_ad, irqs_set. by destruct (d =? 0).
Qed.

Lemma kt_entry_of t a (W : st -> Prop) R i pe es e {B} (f : _ -> K D B) Q :
  ka_msix_entries a = At (EntryArray pe es) -> 0 <= irq_msix_entry i -> es !! Z.to_nat (irq_msix_entry i) = Some e ->
  kt t a W R (f e) Q -> kt t a W R (entry_of i ≫= f) Q.
Proof.
  intros Ha Hi Hx. apply kt_reads. intros s <-. unfold entry_of, mbind, K_bind, ad. rewrite Ha. cbn.
  unfold elem. by rewrite load_lookup, Hx.
Qed.

Lemma kt_free_irqs t a (W : st -> Prop) R R' d arr {B} (f : _ -> K D B) Q :
  irqs_of d a = At arr -> R ≡ₚ (KMalloc, ia_ptr arr, 8 * Z.of_nat (length (ia_irqs arr))) :: R' ->
  kt t (irqs_set d Freed a) W R' (f tt) Q -> kt t a W R (free_irqs d ≫= f) Q.
Proof.
  intros Ha HR Hf. unfold free_irqs. apply kt_assoc, kt_ad. rewrite Ha. apply kt_assoc.
  eapply kt_release; [exact HR|]. unfold set_irqs. apply kt_set_ad. unfold irqs_set in Hf. by destruct (d =? 0).
Qed.

Lemma kt_free_entries t a (W : st -> Prop) R R' arr {B} (f : _ -> K D B) Q :
  ka_msix_entries a = At arr -> R ≡ₚ (KMalloc, ea_ptr arr, 8 * Z.of_nat (length (ea_entries arr))) :: R' ->
  kt t (set_ka_msix_entries Freed a) W R' (f tt) Q -> kt t a W R (free_entries ≫= f) Q.
Proof.
  intros Ha HR Hf. unfold free_entries. apply kt_assoc, kt_ad. rewrite Ha. apply kt_assoc.
  eapply kt_release; [exact HR|]. by apply kt_set_ad.
Qed.

Definition msix_on_res a : list res :=
  if ka_msix_enabled a then [(KMsix, pdev_name (ka_pdev a), 0)] else [].

Lemma kt_disable_msix t a (W : st -> Prop) R R' {B} (f : _ -> K D B) Q :
  R ≡ₚ msix_on_res a ++ R' ->
  kt t (set_ka_msix_enabled false a) W R' (f tt) Q -> kt t a W R (pci_disable_msix ≫= f) Q.
Proof.
  intros HR Hf. unfold pci_disable_msix, msix_on_res in *. apply kt_assoc, kt_ad.
  destruct (ka_msix_enabled a) eqn:E.
  - apply kt_assoc. eapply kt_release; [exact HR|]. by apply kt_set_ad.
  - apply kt_ret_bind. eapply kt_need; [exact HR|]. destruct a. cbn in E. by subst.
Qed.

Lemma kt_efd_put t a (W : st -> Prop) R i {B} (f : _ -> K D B) Q :
  kt t a W R (f tt) Q -> kt t a W (efd_res i ++ R) (eventfd_ctx_put (irq_efd_ctx i) ≫= f) Q.
Proof.
  intros Hf. unfold eventfd_ctx_put, efd_res. destruct (irq_efd_ctx i) as [c|]; [|by apply kt_ret_bind].
  eapply kt_release; [|exact Hf]. done.
Qed.

(** ** One interrupt *)

(** Any of the loops that free interrupts: the slot is left as a pointer that must
    not be used. *)
Definition frees (d : Z) (body : Z -> K D unit) (ok : ixmap_irq -> Prop) : Prop :=
  forall t a (W : st -> Prop) R j pi l i pe es, irqs_of d a = At (IrqArray pi l) ->
    ka_msix_entries a = At (EntryArray pe es) -> 0 <= j -> l !! Z.to_nat j = Some (At i) -> ok i ->
    0 <= irq_msix_entry i < Z.of_nat (length es) ->
    kt t a W (slot_res es (At i) ++ R) (body j)
      (fun _ a' R' s => a' = irqs_set d (At (IrqArray pi (<[Z.to_nat j := Freed]> l))) a /\ R' ≡ₚ R /\ W s).

Lemma irq_end_frees d : frees d (irq_end d) (fun _ => True).
Proof.
  intros t a W R j pi l i pe es Ha Hpe Hj Hl _ Hi. destruct (lookup_lt_is_Some_2 es (Z.to_nat (irq_msix_entry i))) as [e He]; [lia|].
  pose proof (lookup_lt_Some _ _ _ Hl) as Hlen. unfold irq_end, slot_res, vec. rewrite He. cbn [fmap option_fmap option_map default].
  eapply kt_irq_slot; [exact Ha|done|exact Hl|]. apply kt_deref. eapply kt_entry_of; [done|lia|exact He|].
  unfold free_irq. eapply kt_release; [cbn [app]; apply perm_swap|]. unfold ixmap_irq_free. apply kt_assoc.
  eapply kt_need; [|apply (kt_efd_put _ _ _ ((KMalloc, irq_ptr i, sizeof_irq) :: R))]; [cbn [app]; solve_Permutation|].
  eapply kt_release; [done|]. apply kt_last. eapply kt_set_slot; [exact Ha|lia|]. by apply kt_ret.
Qed.

Lemma irq_undo_frees d : frees d (irq_undo d) (fun i => irq_efd_ctx i = None).
Proof.
  intros t a W R j pi l i pe es Ha Hpe Hj Hl Hefd Hi.
  destruct (lookup_lt_is_Some_2 es (Z.to_nat (irq_msix_entry i))) as [e He]; [lia|].
  pose proof (lookup_lt_Some _ _ _ Hl) as Hlen. unfold irq_undo, slot_res, vec, efd_res. rewrite He, Hefd. cbn [fmap option_fmap option_map default].
  eapply kt_irq_slot; [exact Ha|done|exact Hl|]. apply kt_deref. eapply kt_entry_of; [done|lia|exact He|].
  unfold free_irq. eapply kt_release; [cbn [app]; apply perm_swap|]. eapply kt_release; [done|].
  apply kt_last. eapply kt_set_slot; [exact Ha|lia|]. by apply kt_ret.
Qed.

(** ** The loops that free *)

Lemma kt_free_loop d body ok t a (W : st -> Prop) R pi pe es base done rest :
  frees d body ok -> irqs_of d a = At (IrqArray pi (done ++ rest)) -> ka_msix_entries a = At (EntryArray pe es) ->
  0 <= base -> base + Z.of_nat (length done) <= Z.of_nat (length es) -> irqs_at base done ->
  (forall k i, done !! k = Some (At i) -> ok i) ->
  kt t a W (slots_res es done ++ R) (k_for (length done) 0 body)
    (fun _ a' R' s => (exists l, a' = irqs_set d (At (IrqArray pi l)) a /\ length l = length (done ++ rest)) /\ R' ≡ₚ R /\ W s).
Proof.
  intros Hf Ha Hpe Hb Hes Hat Hok.
  eapply kt_weaken; [apply (kt_for t (length done) 0 body
    (fun i a' => exists l, a' = irqs_set d (At (IrqArray pi l)) a /\ length l = length (done ++ rest) /\
       forall k, (Z.to_nat i <= k)%nat -> l !! k = (done ++ rest) !! k)
    (fun i => slots_res es (drop (Z.to_nat i) done) ++ R) W a)|].
  - exists (done ++ rest). by rewrite irqs_set_same.
  - intros i a' Hi (l & -> & Hlen & Hl). destruct (lookup_lt_is_Some_2 done (Z.to_nat i)) as [x Hx]; [lia|].
    destruct (Hat _ _ Hx) as (q & -> & Hq). rewrite (slots_res_drop _ _ _ _ Hx), <- (assoc_L (++)).
    replace (Z.to_nat (i + 1)) with (S (Z.to_nat i)) by lia.
    eapply kt_weaken; [eapply (Hf t _ W _ i pi l q pe es)|].
    + apply irqs_set_of.
    + by rewrite irqs_set_entries.
    + lia.
    + rewrite Hl by done. by apply lookup_app_l_Some.
    + by eapply Hok.
    + lia.
    + intros u a' R' s (-> & HR & Hw). split; [|done]. eexists. rewrite irqs_set_twice. split; [done|].
      rewrite length_insert. split; [done|]. intros k Hk. rewrite list_lookup_insert_ne by lia. apply Hl. lia.
  - intros u a' R' s ((l & -> & Hlen & _) & HR & Hw). split; [by exists l|]. split; [|done].
    rewrite HR. rewrite drop_ge by lia. done.
Qed.

(** ** Switching on *)

(** Programming the interrupt of queue [q] takes what is known of the card from
    [W v] to [W (v + 1)], where [v] is its vector. *)
Definition programs (d base n rate p : Z) (W : Z -> st -> Prop) : Prop :=
  forall q a R B (k : K D B) Q, 0 <= q < n -> ka_num_interrupt_rate a = rate -> (KIomap, p, 0) ∈ R ->
    kt true a (W (base + q + 1)) R k Q ->
    kt true a (W (base + q)) R (ixmap_set_ivar d q (base + q) ;; ixmap_write_eitr (base + q) ;; k) Q.

Lemma replicate_snoc {A} (l : list A) n (x y : A) :
  <[length l := y]> (l ++ replicate (S n) x) = (l ++ [y]) ++ replicate n x.
Proof. rewrite insert_app_r_alt, Nat.sub_diag by lia. cbn. by rewrite <- (assoc_L (++)). Qed.

Definition loop_post d base pi es (len : nat) a R (W : Z -> st -> Prop) : post (bool * Z) :=
  fun r a' R' s => exists done rest, a' = irqs_set d (At (IrqArray pi (done ++ rest))) a /\
    length (done ++ rest) = len /\ irqs_at base done /\ no_efd done /\ R' ≡ₚ slots_res es done ++ R /\
    r.2 = Z.of_nat (length done) /\ (r.1 = true -> rest = []) /\ W (base + Z.of_nat (length done)) s.

Lemma kt_irq_loop d base m rate p W pi pe es n a R done :
  programs d base m rate p W -> irqs_of d a = At (IrqArray pi (done ++ replicate n Null)) ->
  ka_msix_entries a = At (EntryArray pe es) -> ka_num_interrupt_rate a = rate ->
  0 <= base -> Z.of_nat (length done + n) <= m -> base + m <= Z.of_nat (length es) ->
  irqs_at base done -> no_efd done -> (KIomap, p, 0) ∈ R ->
  kt true a (W (base + Z.of_nat (length done))) (slots_res es done ++ R)
    (irq_loop n d (Z.of_nat (length done)) (base + Z.of_nat (length done)) (Z.of_nat (length done)))
    (loop_post d base pi es (length done + n) a R W).
Proof.
  intros HW Ha Hpe Hrate Hb Hm Hes Hat Hefd HR.
  revert a done Ha Hpe Hrate Hm Hat Hefd. induction n as [|n IH]; intros a done Ha Hpe Hrate Hm Hat Hefd; cbn [irq_loop].
  { apply kt_ret. intros s Hs. exists done, []. cbn [replicate] in Ha. rewrite irqs_set_same by done.
    split_and!; try done; rewrite ?app_nil_r; lia. }
  set (v := base + Z.of_nat (length done)). set (q := Z.of_nat (length done)).
  destruct (lookup_lt_is_Some_2 es (Z.to_nat v)) as [e He]; [lia|].
  apply kt_ad. rewrite Hpe. apply kt_deref. eapply kt_elem; [lia|exact He|].
  assert (forall x, kt true a (W v) (slots_res es done ++ R)
    (set_irq_slot d q x ;; mret (false, q)) (loop_post d base pi es (length done + S n) a R W)) as Hfail.
  { intros x. eapply kt_set_slot; [exact Ha|rewrite length_app, length_replicate; lia|]. apply kt_ret. intros s Hs.
    exists done, (x :: replicate n Null). unfold q. rewrite Nat2Z.id, replicate_snoc, <- (assoc_L (++)).
    split_and!; try done. rewrite length_app. cbn. rewrite length_replicate. lia. }
  unfold ixmap_irq_alloc. apply kt_assoc, kt_acquire; [|apply kt_ret_bind, Hfail].
  intros x. apply kt_ret_bind. set (i := IxmapIrq x None v).
  eapply kt_set_slot; [exact Ha|rewrite length_app, length_replicate; lia|]. cbv beta iota.
  unfold q. rewrite Nat2Z.id, replicate_snoc. fold q. set (a1 := irqs_set _ _ a).
  assert (irqs_of d a1 = At (IrqArray pi ((done ++ [At i]) ++ replicate n Null))) as Ha1 by apply irqs_set_of.
  unfold request_irq. apply kt_assoc, kt_ask. intros [r|].
  - apply kt_assoc, kt_hold, kt_ret_bind. cbn [negb]. fold q.
    apply (HW q); [lia|unfold a1; by rewrite irqs_set_rate|do 2 right; apply elem_of_app; by right|].
    specialize (IH a1 (done ++ [At i])). rewrite length_app in IH. cbn [length] in IH.
    replace (Z.of_nat (length done + 1)) with (q + 1) in IH by lia.
    replace (base + (q + 1)) with (v + 1) in IH by lia. replace (base + q + 1) with (v + 1) by lia.
    eapply kt_need; [|eapply kt_weaken; [apply IH|]].
    + rewrite (slots_res_snoc es done (At i)). cbn [slot_res efd_res irq_ptr irq_efd_ctx i app].
      unfold vec. cbn [irq_msix_entry i]. rewrite He. cbn. solve_Permutation.
    + exact Ha1.
    + unfold a1. by rewrite irqs_set_entries.
    + unfold a1. by rewrite irqs_set_rate.
    + lia.
    + by apply irqs_at_snoc.
    + by apply no_efd_snoc.
    + intros y a' R' s (done' & rest & -> & Hlen & Hrest). exists done', rest. unfold a1. rewrite irqs_set_twice.
      split; [done|]. split; [lia|done].
  - apply kt_ret_bind. cbn [negb]. eapply kt_release; [done|].
    eapply kt_set_slot; [exact Ha1|rewrite !length_app, length_replicate; cbn; lia|]. apply kt_ret. intros s Hs.
    exists done, (Freed :: replicate n Null). unfold a1. rewrite irqs_set_twice. unfold q. rewrite Nat2Z.id.
    rewrite <- (assoc_L (++)), insert_app_r_alt, Nat.sub_diag by lia. cbn [app list_insert insert].
    split_and!; try done. rewrite length_app. cbn. rewrite length_replicate. lia.
Qed.

(** Enabling MSI-X ends after fewer rounds than vectors are asked for: each answer
    is smaller than the request. *)
Lemma kt_enable_loop fuel err a (W : st -> Prop) R pe es :
  0 <= err -> (Z.to_nat err <= fuel)%nat -> ka_msix_entries a = At (EntryArray pe es) -> ka_msix_enabled a = false ->
  kt true a W R (enable_loop fuel err)
    (fun ok a' R' s => exists es' b, a' = set_ka_msix_entries (At (EntryArray pe es')) (set_ka_msix_enabled b a) /\
       me_entry <$> es' = me_entry <$> es /\ R' ≡ₚ msix_on_res a' ++ R /\ W s).
Proof.
  intros Herr Hfuel Hpe Hb.
  assert (a = set_ka_msix_entries (At (EntryArray pe es)) (set_ka_msix_enabled false a)) as Hsame.
  { destruct a. cbn in *. by subst. }
  assert (forall ok : bool, kt true a W R (mret ok)
    (fun ok a' R' s => exists es' b, a' = set_ka_msix_entries (At (EntryArray pe es')) (set_ka_msix_enabled b a) /\
       me_entry <$> es' = me_entry <$> es /\ R' ≡ₚ msix_on_res a' ++ R /\ W s)) as Hret.
  { intros ok. apply kt_ret. intros s Hs. exists es, false. unfold msix_on_res. by rewrite Hb. }
  revert err Herr Hfuel. induction fuel as [|fuel IH]; intros err Herr Hfuel; cbn [enable_loop];
    destruct (Z.eqb_spec err 0) as [->|Hne]; try apply Hret; [lia|].
  unfold pci_enable_msix. apply kt_assoc, kt_ask. intros [n|]; [|apply kt_ret_bind, Hret].
  destruct (0 <? n) eqn:En; [apply kt_ret_bind; destruct (Z.ltb_spec 1 err); [apply IH; lia|apply Hret]|].
  apply kt_assoc, kt_ad. rewrite Hpe. apply kt_assoc, kt_deref, kt_assoc, kt_ad, kt_assoc, kt_hold, kt_assoc, kt_set_ad,
    kt_assoc, kt_set_ad, kt_ret_bind. cbn [ea_ptr ea_entries].
  destruct fuel; cbn [enable_loop Z.eqb]; apply kt_ret; intros s Hs; eexists _, true; (split; [reflexivity|]);
    (split; [|done]); rewrite fmap_imap; apply list_eq; intros k; rewrite list_lookup_imap, list_lookup_fmap;
    destruct (es !! k); cbn; [|done| |done]; by case_match.
Qed.

(** ** The adapter with and without interrupts *)

Definition not_at {A} (p : pointer A) : Prop := match p with At _ => False | _ => True end.

Definition msix_off a : Prop :=
  ka_msix_entries a = Null /\ ka_msix_enabled a = false /\ not_at (ka_rx_irq a) /\ not_at (ka_tx_irq a).

Definition msix_on a : Prop :=
  exists pe es prx lrx ptx ltx, ka_msix_entries a = At (EntryArray pe es) /\
    ka_rx_irq a = At (IrqArray prx lrx) /\ ka_tx_irq a = At (IrqArray ptx ltx) /\
    Z.of_nat (length lrx) = ka_num_rx_queues a /\ Z.of_nat (length ltx) = ka_num_tx_queues a /\
    irqs_at 0 lrx /\ irqs_at (ka_num_rx_queues a) ltx /\
    me_entry <$> es = Z.of_nat <$> seq 0 (length lrx + length ltx) /\
    ka_num_q_vectors a = Z.of_nat (length lrx + length ltx).

Definition msix_res a : list res :=
  match ka_msix_entries a, ka_rx_irq a, ka_tx_irq a with
  | At (EntryArray pe es), At (IrqArray prx lrx), At (IrqArray ptx ltx) =>
      (KMalloc, pe, 8 * Z.of_nat (length es)) :: (KMalloc, prx, 8 * Z.of_nat (length lrx)) ::
      (KMalloc, ptx, 8 * Z.of_nat (length ltx)) :: msix_on_res a ++ slots_res es lrx ++ slots_res es ltx
  | _, _, _ => []
  end.

(** The fields that switching interrupts on and off leaves alone. *)
Definition core a : ixmap_adapter :=
  set_ka_msix_entries Null (set_ka_msix_enabled false (set_ka_num_q_vectors 0
    (set_ka_rx_irq Null (set_ka_tx_irq Null a)))).

Definition conf_post a R (W : Z -> st -> Prop) : post Z :=
  fun r a' R' s => core a' = core a /\
    ((r = 0 /\ msix_on a' /\ R' ≡ₚ msix_res a' ++ R /\ W (ka_num_rx_queues a + ka_num_tx_queues a) s) \/
     (r = -1 /\ msix_off a' /\ R' ≡ₚ R /\ exists v, W v s)).

(** The end of the clean-up after a failure. *)
Lemma kt_conf_err a1 a R R0 pe es (W : Z -> st -> Prop) v :
  core a1 = core a -> ka_msix_entries a1 = At (EntryArray pe es) -> not_at (ka_rx_irq a1) -> not_at (ka_tx_irq a1) ->
  R0 ≡ₚ msix_on_res a1 ++ (KMalloc, pe, 8 * Z.of_nat (length es)) :: R ->
  kt true a1 (W v) R0
    (pci_disable_msix ;; free_entries ;; set_ad (set_ka_msix_entries Null) ;; mret (-1)) (conf_post a R W).
Proof.
  intros Hc Hpe Hrx Htx HR. eapply kt_disable_msix; [exact HR|]. eapply kt_free_entries; [exact Hpe|done|].
  apply kt_set_ad, kt_ret. intros s Hs. split; [by rewrite <- Hc|]. right. split; [done|]. split; [|eauto].
  unfold msix_off. done.
Qed.

Lemma core_irqs_set d p a : core (irqs_set d p a) = core a.
Proof. unfold irqs_set. by destruct (d =? 0). Qed.

Lemma on_res_irqs_set d p a : msix_on_res (irqs_set d p a) = msix_on_res a.
Proof. unfold irqs_set, msix_on_res. by destruct (d =? 0). Qed.

Lemma kt_alloc_irqs t a (W : st -> Prop) R d n (f : bool -> K D Z) Q :
  0 <= n ->
  (forall x, kt t (irqs_set d (At (IrqArray x (replicate (Z.to_nat n) Null))) a) W ((KMalloc, x, 8 * n) :: R) (f true) Q) ->
  kt t (irqs_set d Null a) W R (f false) Q ->
  kt t a W R (alloc_irqs d n ≫= f) Q.
Proof.
  intros Hn Hs Hf. unfold alloc_irqs, set_irqs. apply kt_assoc. unfold irqs_set in *.
  apply kt_acquire; [intros x; specialize (Hs x)|]; apply kt_assoc, kt_set_ad, kt_ret_bind; by destruct (d =? 0).
Qed.

(** After the interrupts of both directions are requested, or some of them. *)
Section Clean.

Context (a1 a : ixmap_adapter) (R : list res) (pe : Z) (es : list msix_entry) (prx ptx : Z).
Context (W : Z -> st -> Prop) (v : Z).
Hypothesis (Hcore : core a1 = core a) (Hpe : ka_msix_entries a1 = At (EntryArray pe es)).

Notation err_pci_enable_msix :=
  (pci_disable_msix ;; free_entries ;; set_ad (set_ka_msix_entries Null) ;; mret (-1)).

(** What is held besides the interrupts. *)
Definition arrays_res (nrx ntx : nat) : list res :=
  (KMalloc, ptx, 8 * Z.of_nat ntx) :: (KMalloc, prx, 8 * Z.of_nat nrx) :: msix_on_res a1 ++
  (KMalloc, pe, 8 * Z.of_nat (length es)) :: R.

Lemma kt_clean_rx done rest ltx :
  irqs_of 0 a1 = At (IrqArray prx (done ++ rest)) -> irqs_of 1 a1 = At (IrqArray ptx ltx) ->
  Z.of_nat (length done) <= Z.of_nat (length es) -> irqs_at 0 done -> no_efd done ->
  kt true a1 (W v) (slots_res es done ++ arrays_res (length (done ++ rest)) (length ltx))
    (k_for (Z.to_nat (Z.of_nat (length done))) 0 (irq_undo 0) ;; free_irqs 1 ;; free_irqs 0 ;; err_pci_enable_msix)
    (conf_post a R W).
Proof.
  intros Hrx Htx Hl Hat Hefd. rewrite Nat2Z.id. eapply kt_bind.
  - eapply (kt_free_loop 0 _ _ _ a1 (W v) _ prx pe es 0 done rest (irq_undo_frees 0)); [exact Hrx|exact Hpe|lia|lia|exact Hat|].
    intros k i Hi. by apply (Hefd k).
  - intros u a' R'. apply kt_pure. intros (l & -> & Hlen). apply kt_pure. intros HR.
    eapply kt_free_irqs; [exact Htx|exact HR|]. cbn [ia_ptr ia_irqs].
    eapply kt_free_irqs; [reflexivity|cbn [ia_ptr ia_irqs]; rewrite Hlen; reflexivity|].
    eapply (kt_conf_err _ _ _ _ pe es); [exact Hcore|exact Hpe|done|done|done].
Qed.

Lemma kt_clean_tx done rest lrx :
  irqs_of 1 a1 = At (IrqArray ptx (done ++ rest)) -> irqs_of 0 a1 = At (IrqArray prx lrx) ->
  Z.of_nat (length lrx + length done) <= Z.of_nat (length es) -> irqs_at (Z.of_nat (length lrx)) done -> no_efd done ->
  irqs_at 0 lrx -> no_efd lrx ->
  kt true a1 (W v) (slots_res es done ++ slots_res es lrx ++ arrays_res (length lrx) (length (done ++ rest)))
    (k_for (Z.to_nat (Z.of_nat (length done))) 0 (irq_undo 1) ;;
     k_for (Z.to_nat (Z.of_nat (length lrx))) 0 (irq_undo 0) ;; free_irqs 1 ;; free_irqs 0 ;; err_pci_enable_msix)
    (conf_post a R W).
Proof.
  intros Htx Hrx Hl Hat Hefd Hatr Hefdr. rewrite !Nat2Z.id. eapply kt_bind.
  - eapply (kt_free_loop 1 _ _ _ a1 (W v) _ ptx pe es (Z.of_nat (length lrx)) done rest (irq_undo_frees 1));
      [exact Htx|exact Hpe|lia|lia|exact Hat|]. intros k i Hi. by apply (Hefd k).
  - intros u a' R'. apply kt_pure. intros (l & -> & Hlen). apply kt_pure. intros HR. eapply kt_need; [exact HR|].
    eapply kt_bind.
    + eapply (kt_free_loop 0 _ _ _ _ (W v) _ prx pe es 0 lrx [] (irq_undo_frees 0));
        [rewrite app_nil_r; exact Hrx|exact Hpe|lia|lia|exact Hatr|]. intros k i Hi. by apply (Hefdr k).
    + intros u' a' R''. apply kt_pure. intros (l' & -> & Hlen'). apply kt_pure. intros HR'. rewrite app_nil_r in Hlen'.
      eapply kt_free_irqs; [reflexivity|cbn [ia_ptr ia_irqs]; rewrite Hlen; exact HR'|].
      eapply kt_free_irqs; [reflexivity|cbn [ia_ptr ia_irqs]; rewrite Hlen'; reflexivity|].
      eapply (kt_conf_err _ _ _ _ pe es); [exact Hcore|exact Hpe|done|done|done].
Qed.

End Clean.

(** Requesting the interrupts, when the arrays are there: those for sending after
    those for receiving. *)
Section Requests.

Context (a : ixmap_adapter) (R : list res) (pe : Z) (es : list msix_entry) (prx ptx rate p : Z) (nrx ntx : nat).
Context (W : Z -> st -> Prop).
Hypothesis (Hnrx : ka_num_rx_queues a = Z.of_nat nrx) (Hntx : ka_num_tx_queues a = Z.of_nat ntx).
Hypothesis (Hrate : ka_num_interrupt_rate a = rate) (Hes : me_entry <$> es = Z.of_nat <$> seq 0 (nrx + ntx)).
Hypothesis (HWr : programs 0 0 (Z.of_nat nrx) rate p W).
Hypothesis (HWt : programs 1 (Z.of_nat nrx) (Z.of_nat ntx) rate p W) (HR : (KIomap, p, 0) ∈ R).

Lemma requests_len : (length es = nrx + ntx)%nat.
Proof using Hes. apply (f_equal length) in Hes. by rewrite !length_fmap, length_seq in Hes. Qed.

Lemma requests_rate a1 : core a1 = core a -> ka_num_interrupt_rate a1 = rate.
Proof using Hrate. intros E. rewrite <- Hrate. exact (f_equal ka_num_interrupt_rate E). Qed.

Lemma requests_io a1 : (KIomap, p, 0) ∈ arrays_res a1 R pe es prx ptx nrx ntx.
Proof using HR. unfold arrays_res. do 2 right. apply elem_of_app. right. by right. Qed.

Lemma kt_requests_tx a3 lrx :
  core a3 = core a -> ka_num_q_vectors a3 = Z.of_nat (nrx + ntx) -> ka_msix_entries a3 = At (EntryArray pe es) ->
  ka_rx_irq a3 = At (IrqArray prx lrx) -> ka_tx_irq a3 = At (IrqArray ptx (replicate ntx Null)) ->
  length lrx = nrx -> irqs_at 0 lrx -> no_efd lrx ->
  kt true a3 (W (Z.of_nat nrx)) (slots_res es lrx ++ arrays_res a3 R pe es prx ptx nrx ntx)
    ('(ok, num_tx_requested) ← irq_loop ntx 1 0 (Z.of_nat nrx) 0;
     if negb ok then
       k_for (Z.to_nat num_tx_requested) 0 (irq_undo 1) ;;
       k_for (Z.to_nat (Z.of_nat (length lrx))) 0 (irq_undo 0) ;; free_irqs 1 ;; free_irqs 0 ;;
       pci_disable_msix ;; free_entries ;; set_ad (set_ka_msix_entries Null) ;; mret (-1)
     else mret 0)
    (conf_post a R W).
Proof using Hnrx Hntx Hrate Hes HWt HR.
  intros Hcore Hnq Hpe Hrx Htx Hl Hat Hefd. pose proof requests_len as Hlen. eapply kt_bind.
  { pose proof (kt_irq_loop 1 (Z.of_nat nrx) (Z.of_nat ntx) rate p W ptx pe es ntx a3
      (slots_res es lrx ++ arrays_res a3 R pe es prx ptx nrx ntx) []) as Hloop.
    cbn [length Nat.add Z.of_nat] in Hloop. rewrite Z.add_0_r in Hloop.
    apply Hloop; try done; try lia; [by apply requests_rate|]. apply elem_of_app. right. apply requests_io. }
  intros [ok m] a' R'. apply kt_exists. intros ltx. apply kt_exists. intros rest.
  apply kt_pure. intros ->. apply kt_pure. intros Hl2. apply kt_pure. intros Hat2. apply kt_pure. intros Hefd2.
  apply kt_pure. intros HR'. apply kt_pure. cbn [fst snd length Nat.add] in Hl2 |- *. intros ->. apply kt_pure. intros Hrest.
  set (a4 := irqs_set 1 _ a3).
  assert (arrays_res a3 R pe es prx ptx nrx ntx = arrays_res a4 R pe es prx ptx nrx ntx) as Harr by done.
  rewrite Harr in HR'. eapply kt_need; [exact HR'|].
  assert (length ltx <= ntx)%nat as Hle by (rewrite <- Hl2, length_app; lia).
  destruct ok; cbn [negb].
  2:{ eapply kt_need; [|apply (kt_clean_tx a4 a R pe es prx ptx W _ Hcore Hpe ltx rest lrx); try done; try lia].
      - by rewrite Hl2, Hl.
      - by rewrite Hl. }
  rewrite (Hrest eq_refl), app_nil_r in Hl2. apply kt_ret. intros s Hs. split; [done|]. left. split; [done|].
  assert (ka_tx_irq a4 = At (IrqArray ptx ltx)) as Htx4 by (unfold a4; by rewrite (Hrest eq_refl), app_nil_r).
  assert (ka_num_rx_queues a4 = Z.of_nat nrx) as Hr4 by (rewrite <- Hnrx; exact (f_equal ka_num_rx_queues Hcore)).
  assert (ka_num_tx_queues a4 = Z.of_nat ntx) as Ht4 by (rewrite <- Hntx; exact (f_equal ka_num_tx_queues Hcore)).
  split.
  { exists pe, es, prx, lrx, ptx, ltx. rewrite Hl, Hl2, Hr4, Ht4. split_and!; try done. }
  split; [|by rewrite Hnrx, Hntx, <- Hl2].
  unfold msix_res, arrays_res. change (ka_msix_entries a4) with (ka_msix_entries a3).
  change (ka_rx_irq a4) with (ka_rx_irq a3). rewrite Hpe, Hrx, Htx4, Hl, Hl2. solve_Permutation.
Qed.

Lemma kt_requests a2 :
  core a2 = core a -> ka_num_q_vectors a2 = Z.of_nat (nrx + ntx) -> ka_msix_entries a2 = At (EntryArray pe es) ->
  ka_rx_irq a2 = At (IrqArray prx (replicate nrx Null)) -> ka_tx_irq a2 = At (IrqArray ptx (replicate ntx Null)) ->
  kt true a2 (W 0) (arrays_res a2 R pe es prx ptx nrx ntx)
    ('(ok, num_rx_requested) ← irq_loop nrx 0 0 0 0;
     if negb ok then
       k_for (Z.to_nat num_rx_requested) 0 (irq_undo 0) ;; free_irqs 1 ;; free_irqs 0 ;;
       pci_disable_msix ;; free_entries ;; set_ad (set_ka_msix_entries Null) ;; mret (-1)
     else
       '(ok, num_tx_requested) ← irq_loop ntx 1 0 (Z.of_nat nrx) 0;
       if negb ok then
         k_for (Z.to_nat num_tx_requested) 0 (irq_undo 1) ;;
         k_for (Z.to_nat num_rx_requested) 0 (irq_undo 0) ;; free_irqs 1 ;; free_irqs 0 ;;
         pci_disable_msix ;; free_entries ;; set_ad (set_ka_msix_entries Null) ;; mret (-1)
       else mret 0)
    (conf_post a R W).
Proof using Hnrx Hntx Hrate Hes HWr HWt HR.
  intros Hcore Hnq Hpe Hrx Htx. pose proof requests_len as Hlen. eapply kt_bind.
  { apply (kt_irq_loop 0 0 (Z.of_nat nrx) rate p W prx pe es nrx a2 (arrays_res a2 R pe es prx ptx nrx ntx) []);
      try done; try lia; [by apply requests_rate|apply requests_io]. }
  intros [ok m] a' R'. apply kt_exists. intros lrx. apply kt_exists. intros rest.
  apply kt_pure. intros ->. apply kt_pure. intros Hl. apply kt_pure. intros Hat. apply kt_pure. intros Hefd.
  apply kt_pure. intros HR'. apply kt_pure. cbn [fst snd length Nat.add] in Hl |- *. intros ->. apply kt_pure. intros Hrest.
  set (a3 := irqs_set 0 _ a2).
  assert (arrays_res a2 R pe es prx ptx nrx ntx = arrays_res a3 R pe es prx ptx nrx ntx) as Harr by done.
  rewrite Harr in HR'. eapply kt_need; [exact HR'|].
  assert (length lrx <= nrx)%nat as Hle by (rewrite <- Hl, length_app; lia).
  destruct ok; cbn [negb].
  2:{ eapply kt_need; [|apply (kt_clean_rx a3 a R pe es prx ptx W _ Hcore Hpe lrx rest (replicate ntx Null)); try done; lia].
      by rewrite Hl, length_replicate. }
  rewrite (Hrest eq_refl), app_nil_r in Hl.
  apply (kt_pre _ _ _ (W (Z.of_nat nrx))); [by rewrite <- Hl|].
  apply kt_requests_tx; try done. unfold a3. by rewrite (Hrest eq_refl), app_nil_r.
Qed.

End Requests.

(** Switching the interrupts on. *)
Lemma kt_configure a (W : Z -> st -> Prop) R p rate :
  msix_off a -> 0 <= ka_num_rx_queues a -> 0 <= ka_num_tx_queues a -> ka_num_interrupt_rate a = rate ->
  programs 0 0 (ka_num_rx_queues a) rate p W -> programs 1 (ka_num_rx_queues a) (ka_num_tx_queues a) rate p W ->
  (KIomap, p, 0) ∈ R ->
  kt true a (W 0) R ixmap_configure_msix (conf_post a R W).
Proof.
  intros (He & Hen & Hrx & Htx) Hnr Hnt Hrate HWr HWt HR. unfold ixmap_configure_msix. apply kt_ad, kt_hw. intros max.
  apply (kt_pre _ _ _ (W 0)); [by intros s [_ Hs]|]. cbv zeta.
  assert (exists nrx, ka_num_rx_queues a = Z.of_nat nrx) as [nrx Enr] by (exists (Z.to_nat (ka_num_rx_queues a)); lia).
  assert (exists ntx, ka_num_tx_queues a = Z.of_nat ntx) as [ntx Ent] by (exists (Z.to_nat (ka_num_tx_queues a)); lia).
  rewrite Enr, Ent, <- Nat2Z.inj_add, !Nat2Z.id in *.
  destruct (max <? _).
  { apply kt_ret. intros s Hs. split; [done|]. right. unfold msix_off. split_and!; try done. by exists 0. }
  apply kt_acquire.
  2:{ apply kt_set_ad, kt_ret. intros s Hs. split; [done|]. right. unfold msix_off. split_and!; try done. by exists 0. }
  intros pe. apply kt_set_ad. set (a1 := set_ka_msix_entries _ a). eapply kt_bind.
  { apply (kt_enable_loop _ _ a1 (W 0) _ pe); [lia|lia|reflexivity|exact Hen]. }
  intros ok a' R'. apply kt_exists. intros es. apply kt_exists. intros b. apply kt_pure. intros ->.
  apply kt_pure. rewrite <- list_fmap_compose. intros Hes. apply kt_pure. intros HR'. eapply kt_need; [exact HR'|].
  assert (length es = nrx + ntx)%nat as Hlen by (apply (f_equal length) in Hes; by rewrite !length_fmap, length_seq in Hes).
  set (a2 := set_ka_msix_entries (At (EntryArray pe es)) _).
  assert (8 * Z.of_nat (nrx + ntx) = 8 * Z.of_nat (length es)) as -> by (by rewrite Hlen).
  destruct ok; cbn [negb]; [|by apply (kt_conf_err a2 a R _ pe es)].
  apply kt_set_ad. set (a3 := set_ka_num_q_vectors _ a2). apply kt_alloc_irqs; [lia| |].
  2:{ cbn [negb]. by apply (kt_conf_err (irqs_set 0 Null a3) a R _ pe es). }
  intros prx. cbn [negb]. rewrite Nat2Z.id. set (a4 := irqs_set 0 _ a3). apply kt_alloc_irqs; [lia| |].
  2:{ cbn [negb]. eapply kt_free_irqs; [reflexivity|cbn [ia_ptr ia_irqs]; rewrite length_replicate; reflexivity|].
      by apply (kt_conf_err (irqs_set 0 Freed (irqs_set 1 Null a4)) a R _ pe es). }
  intros ptx. cbn [negb]. rewrite Nat2Z.id. set (a5 := irqs_set 1 _ a4).
  exact (kt_requests a R pe es prx ptx rate p nrx ntx W Enr Ent Hrate Hes HWr HWt HR a5 eq_refl eq_refl eq_refl eq_refl eq_refl).
Qed.

(** Switching them off. *)
Lemma kt_free_msix t a (W : st -> Prop) R :
  msix_on a ->
  kt t a W (msix_res a ++ R) ixmap_free_msix
    (fun _ a' R' s => core a' = core a /\ msix_off a' /\ ka_num_q_vectors a' = 0 /\ R' ≡ₚ R /\ W s).
Proof.
  intros (pe & es & prx & lrx & ptx & ltx & Hpe & Hrx & Htx & Hlr & Hlt & Hatr & Hatt & Hes & Hnq).
  assert (length es = length lrx + length ltx)%nat as Hlen
    by (apply (f_equal length) in Hes; by rewrite !length_fmap, length_seq in Hes).
  unfold ixmap_free_msix. apply kt_ad. rewrite <- Hlr, <- Hlt, !Nat2Z.id. unfold msix_res. rewrite Hpe, Hrx, Htx.
  eapply kt_need; [|eapply kt_bind;
    [eapply (kt_free_loop 0 _ _ _ a W _ prx pe es 0 lrx [] (irq_end_frees 0)); try done; try lia; by rewrite app_nil_r|]].
  { instantiate (1 := slots_res es ltx ++ (KMalloc, ptx, 8 * Z.of_nat (length ltx)) ::
      (KMalloc, prx, 8 * Z.of_nat (length lrx)) :: msix_on_res a ++ (KMalloc, pe, 8 * Z.of_nat (length es)) :: R).
    cbn [app]. solve_Permutation. }
  intros u a' R'. apply kt_pure. intros (l & -> & Hl). apply kt_pure. intros HR'. eapply kt_need; [exact HR'|].
  eapply kt_bind.
  { eapply (kt_free_loop 1 _ _ _ _ W _ ptx pe es _ ltx [] (irq_end_frees 1)); [rewrite app_nil_r; exact Htx|exact Hpe| | |exact Hatt|done]; lia. }
  intros u' a' R''. apply kt_pure. intros (l' & -> & Hl'). apply kt_pure. intros HR''. rewrite app_nil_r in Hl, Hl'.
  eapply kt_free_irqs; [reflexivity|cbn [ia_ptr ia_irqs]; rewrite Hl'; exact HR''|].
  eapply kt_free_irqs; [reflexivity|cbn [ia_ptr ia_irqs]; rewrite Hl; reflexivity|].
  eapply kt_disable_msix; [reflexivity|]. eapply kt_free_entries; [exact Hpe|reflexivity|].
  apply kt_set_ad, kt_last, kt_set_ad, kt_ret. intros s Hs. done.
Qed.

End Irqs.
