(* ===== verification/KmainProps.v ===== *)
(** * The kernel module: interrupts of the queues

    Every queue gets its own vector, and the card is programmed accordingly; what
    [ixmap_irq_assign] and [ixmap_down] do, and where they fail. *)

From stdpp Require Import prelude list.
From S2P Require Import Prelude Os Kdma HwRegs Hw HwLogic Eeprom Common RegCard Ixgbe82599 HwSafe Kmain KLogic Kirq.

(** ** Bytes of a register *)

Lemma byte_at_testbit z k j : 0 <= k -> 0 <= j < 8 -> Z.testbit (byte_at z k) j = Z.testbit z (8 * k + j).
Proof.
  intros Hk Hj. unfold byte_at. change 255 with (Z.ones 8).
  rewrite Z.land_spec, Z.shiftr_spec, Z.ones_spec_low, andb_true_r by lia. f_equal. lia.
Qed.

Lemma byte_at_range z k : 0 <= byte_at z k < 256.
Proof. unfold byte_at. change 255 with (Z.ones 8). rewrite Z.land_ones by lia. apply Z.mod_pos_bound. lia. Qed.

Lemma byte_eq x y : 0 <= x < 256 -> 0 <= y < 256 -> (forall j, 0 <= j < 8 -> Z.testbit x j = Z.testbit y j) -> x = y.
Proof.
  intros Hx Hy Hb. apply Z.bits_inj'. intros j Hj. destruct (decide (j < 8)); [by apply Hb|].
  rewrite !testbit_small with (n := 8) by lia. done.
Qed.

(** One byte is replaced. *)
Definition set_byte (x w k : Z) : Z := u32 (Z.lor (Z.land x (not32 (Z.shiftl 0xFF (8 * k)))) (Z.shiftl w (8 * k))).

Lemma set_byte_testbit x w k n : 0 <= w < 256 -> 0 <= k < 4 -> 0 <= n < 32 ->
  Z.testbit (set_byte x w k) n = if (8 * k <=? n) && (n <? 8 * k + 8) then Z.testbit w (n - 8 * k) else Z.testbit x n.
Proof.
  intros Hw Hk Hn. unfold set_byte. reg_bits. rewrite !Z.shiftl_spec by lia. change 0xFF with (Z.ones 8).
  destruct (Z.leb_spec (8 * k) n), (Z.ltb_spec n (8 * k + 8)); cbn [andb].
  - rewrite Z.ones_spec_low by lia. cbn. by rewrite andb_false_r.
  - rewrite Z.ones_spec_high, (testbit_small w 8) by lia. cbn. by rewrite andb_true_r, orb_false_r.
  - rewrite (Z.testbit_neg_r (Z.ones 8)), (Z.testbit_neg_r w) by lia. cbn. by rewrite andb_true_r, orb_false_r.
  - lia.
Qed.

Lemma set_byte_here x w k : 0 <= w < 256 -> 0 <= k < 4 -> byte_at (set_byte x w k) k = w.
Proof.
  intros Hw Hk. apply byte_eq; [apply byte_at_range|done|]. intros j Hj.
  rewrite byte_at_testbit, set_byte_testbit by lia.
  rewrite (proj2 (Z.leb_le _ _)), (proj2 (Z.ltb_lt _ _)) by lia. cbn. f_equal. lia.
Qed.

Lemma set_byte_there x w k k' : 0 <= w < 256 -> 0 <= k < 4 -> 0 <= k' < 4 -> k' <> k ->
  byte_at (set_byte x w k) k' = byte_at x k'.
Proof.
  intros Hw Hk Hk' Hne. apply byte_eq; [apply byte_at_range|apply byte_at_range|]. intros j Hj.
  rewrite !byte_at_testbit, set_byte_testbit by lia.
  destruct (Z.leb_spec (8 * k) (8 * k' + j)), (Z.ltb_spec (8 * k' + j) (8 * k + 8)); cbn; [lia|done|done|done].
Qed.

(** ** Vectors *)

(** The vector of a queue: those for receiving come first. *)
Definition vector_of (nrx d q : Z) : Z := if d =? 0 then q else nrx + q.

(** The registers route a queue to a vector, and its rate is set. *)
Definition routed (rate : Z) (f : Z -> Z) (d q v : Z) : Prop :=
  byte_at (f (IXGBE_IVAR (Z.shiftr q 1))) (2 * Z.land q 1 + d) = 0x80 + v /\
  f (IXGBE_EITR v) = Z.lor (Z.land rate IXGBE_MAX_EITR) IXGBE_EITR_CNT_WDIS.

Definition queues (nrx ntx d : Z) : Z := if d =? 0 then nrx else ntx.

(** All queues whose vector is below [V]. *)
Definition wired (nrx ntx rate V : Z) (f : Z -> Z) : Prop :=
  forall d q, 0 <= d <= 1 -> 0 <= q < queues nrx ntx d -> vector_of nrx d q < V -> routed rate f d q (vector_of nrx d q).

Lemma half_parts q : 0 <= q -> q = 2 * Z.shiftr q 1 + Z.land q 1 /\ 0 <= Z.land q 1 <= 1.
Proof.
  intros Hq. rewrite Z.shiftr_div_pow2 by lia. assert (Z.land q 1 = q mod 2) as -> by (by apply (Z.land_ones q 1)).
  change (2 ^ 1) with 2.
  pose proof (Z.div_mod q 2). pose proof (Z.mod_pos_bound q 2). lia.
Qed.

Lemma eitr_inj v w : 0 <= v < 32 -> 0 <= w < 32 -> IXGBE_EITR v = IXGBE_EITR w -> v = w.
Proof. intros Hv Hw. unfold IXGBE_EITR. destruct (Z.leb_spec v 23), (Z.leb_spec w 23); lia. Qed.

Lemma eitr_ivar v i : 0 <= v < 32 -> 0 <= i < 8 -> IXGBE_EITR v <> IXGBE_IVAR i.
Proof. intros Hv Hi. unfold IXGBE_EITR, IXGBE_IVAR. destruct (Z.leb_spec v 23); lia. Qed.

Section Wiring.

Context (nrx ntx rate : Z).
Hypothesis (Hnr : 0 <= nrx <= 16) (Hnt : 0 <= ntx <= 16).

Definition itr : Z := Z.lor (Z.land rate IXGBE_MAX_EITR) IXGBE_EITR_CNT_WDIS.

(** The writes for one queue: its byte of IVAR and its EITR. *)
Definition wire (f : Z -> Z) (d q v : Z) : Z -> Z :=
  upd (upd f (IXGBE_IVAR (Z.shiftr q 1)) (set_byte (f (IXGBE_IVAR (Z.shiftr q 1))) (0x80 + v) (2 * Z.land q 1 + d)))
    (IXGBE_EITR v) itr.

Lemma wired_step f d q :
  0 <= d <= 1 -> 0 <= q < queues nrx ntx d -> wired nrx ntx rate (vector_of nrx d q) f ->
  wired nrx ntx rate (vector_of nrx d q + 1) (wire f d q (vector_of nrx d q)).
Proof using Hnr Hnt.
  intros Hd Hq Hf d' q' Hd' Hq' Hv. unfold queues, vector_of in *.
  destruct (half_parts q) as [Eq Rq]; [lia|]. destruct (half_parts q') as [Eq' Rq']; [lia|].
  assert (0 <= q < 16 /\ 0 <= q' < 16) as [Bq Bq'] by (destruct (d =? 0), (d' =? 0); lia).
  set (v := if d =? 0 then q else nrx + q) in *. set (v' := if d' =? 0 then q' else nrx + q') in *.
  assert (0 <= v < 32 /\ 0 <= v' < 32) as [Bv Bv'] by (unfold v, v'; destruct (d =? 0), (d' =? 0); lia).
  destruct (decide (v' = v)) as [Ev|Ev].
  - assert (d' = d /\ q' = q) as [-> ->].
    { unfold v, v' in *. destruct (Z.eqb_spec d 0), (Z.eqb_spec d' 0); lia. }
    unfold routed, wire. rewrite Ev, upd_here. split; [|done].
    rewrite upd_there, upd_here by (apply not_eq_sym, eitr_ivar; lia). apply set_byte_here; lia.
  - destruct (Hf d' q' Hd' Hq') as [Hi He]; [change (v' < v); lia|].
    change (vector_of nrx d' q') with v' in Hi, He. unfold routed, wire.
    rewrite upd_there by (apply not_eq_sym, eitr_ivar; lia). split.
    + destruct (decide (IXGBE_IVAR (Z.shiftr q' 1) = IXGBE_IVAR (Z.shiftr q 1))) as [Er|Er]; [|by rewrite upd_there].
      rewrite Er in *. rewrite upd_here, set_byte_there; [exact Hi|lia|lia|lia|]. unfold IXGBE_IVAR in Er.
      unfold v, v' in *. destruct (Z.eqb_spec d 0), (Z.eqb_spec d' 0); lia.
    + rewrite upd_there by (intros E; apply eitr_inj in E; lia). by rewrite upd_there by (apply eitr_ivar; lia).
Qed.

End Wiring.

Section Routing.

Context {D : Type} `{Device D} `{!RegCard D} `{EepromOps D}.

Notation st := (ixmap_hw * D)%type.

Hypothesis (Hivar : forall i, 0 <= i < 8 -> plain (IXGBE_IVAR i)).

Lemma itr_range rate : 0 <= itr rate < 2 ^ 32.
Proof.
  unfold itr. apply lor_bound; [|by vm_compute].
  assert (Z.land rate IXGBE_MAX_EITR = Z.land rate IXGBE_MAX_EITR mod 2 ^ 12) as ->.
  { rewrite <- Z.land_ones, <- Z.land_assoc by lia. done. }
  pose proof (Z.mod_pos_bound (Z.land rate IXGBE_MAX_EITR) (2 ^ 12)). lia.
Qed.

Lemma kt_wire h f d q v rate a R B (k : K D B) Q :
  0 <= d <= 1 -> 0 <= q < 16 -> 0 <= v < 32 -> ka_num_interrupt_rate a = rate -> (KIomap, hw_addr h, 0) ∈ R ->
  kt true a (Regs h (wire rate f d q v)) R k Q ->
  kt true a (Regs h f) R (ixmap_set_ivar d q v ;; ixmap_write_eitr v ;; k) Q.
Proof using Hivar.
  intros Hd Hq Hv Hr HR Hk. destruct (half_parts q) as [Eq Rq]; [lia|].
  unfold ixmap_set_ivar. cbv zeta. unfold u8. rewrite (Z.mod_small q), (Z.mod_small v) by lia.
  replace (16 * Z.land q 1 + 8 * d) with (8 * (2 * Z.land q 1 + d)) by lia.
  replace (Z.lor v IXGBE_IVAR_ALLOC_VAL) with (0x80 + v).
  2:{ unfold IXGBE_IVAR_ALLOC_VAL. rewrite Z.lor_comm. symmetry. apply (lor_low 1 v 7); lia. }
  eapply kt_regs; [apply hwt_runs, g_modify, Hivar; lia|by intros s (-> & _)|exact HR|]. intros u.
  unfold ixmap_write_eitr. apply kt_assoc, kt_ad. rewrite Hr.
  eapply kt_regs; [apply hwt_runs, g_write|by intros s (-> & _)|exact HR|]. intros u'.
  eapply kt_pre; [|exact Hk]. intros s Hs. unfold wire, itr.
  replace (Z.lor (Z.land rate IXGBE_MAX_EITR) IXGBE_EITR_CNT_WDIS)
    with (u32 (Z.lor (Z.land rate IXGBE_MAX_EITR) IXGBE_EITR_CNT_WDIS)); [exact Hs|].
  apply Z.mod_small, itr_range.
Qed.

(** What is known of the card when the vectors below [V] are set. *)
Definition Wired (nrx ntx rate : Z) (h : ixmap_hw) (V : Z) (s : st) : Prop :=
  exists f, wired nrx ntx rate V f /\ Regs h f s.

Lemma wired_programs d nrx ntx rate h :
  0 <= d <= 1 -> 0 <= nrx <= 16 -> 0 <= ntx <= 16 ->
  programs d (vector_of nrx d 0) (queues nrx ntx d) rate (hw_addr h) (Wired nrx ntx rate h).
Proof using Hivar.
  intros Hd Hnr Hnt q a R B k Q Hq Hr HR Hk.
  assert (vector_of nrx d 0 + q = vector_of nrx d q) as Ev by (unfold vector_of; destruct (d =? 0); lia).
  rewrite Ev in *. apply kt_exists. intros f. apply kt_pure. intros Hw.
  assert (0 <= q < 16) by (unfold queues in Hq; destruct (d =? 0); lia).
  eapply kt_wire; [done|done|unfold vector_of; destruct (d =? 0); lia|exact Hr|exact HR|].
  eapply kt_pre; [|exact Hk]. intros s Hs. exists (wire rate f d q (vector_of nrx d q)). split; [|done].
  by apply wired_step.
Qed.

(** C11: the interrupts of a device.  With at most 16 queues per direction,
    [ixmap_configure_msix] returns.  Either it succeeds: then every queue has an
    interrupt of its own that points to its own MSI-X entry, the vector of each
    queue is what the card's IVAR registers hold for it, marked valid, and the rate
    of each vector is set; and what is held is exactly the arrays, the vectors and
    the requested interrupts.  Or it fails: then nothing of all that is held and no
    array is left that could be used. *)
Theorem configure_msix_correct s f L :
  msix_off (k_ad s) -> 0 <= ka_num_rx_queues (k_ad s) <= 16 -> 0 <= ka_num_tx_queues (k_ad s) <= 16 ->
  Regs (k_hw s) f (k_hw s, k_dev s) -> ledger (k_os s) ≡ₚ (KIomap, hw_addr (k_hw s), 0) :: L ->
  exists r s', ixmap_configure_msix s = Returns (r, s') /\ core (k_ad s') = core (k_ad s) /\
    ((r = 0 /\ msix_on (k_ad s') /\ ledger (k_os s') ≡ₚ msix_res (k_ad s') ++ ledger (k_os s) /\
      exists f', Regs (k_hw s) f' (k_hw s', k_dev s') /\
        forall d q, 0 <= d <= 1 -> 0 <= q < queues_of d (k_ad s) ->
          routed (ka_num_interrupt_rate (k_ad s)) f' d q (vector_of (ka_num_rx_queues (k_ad s)) d q)) \/
     (r = -1 /\ msix_off (k_ad s') /\ ledger (k_os s') ≡ₚ ledger (k_os s))).
Proof using Hivar.
  intros Hoff Hnr Hnt Hregs HL. set (a := k_ad s) in *.
  set (W := Wired (ka_num_rx_queues a) (ka_num_tx_queues a) (ka_num_interrupt_rate a) (k_hw s)).
  assert (W 0 (k_hw s, k_dev s)) as HW0.
  { exists f. split; [|done]. intros d q Hd Hq Hv. unfold vector_of in Hv. destruct (d =? 0); lia. }
  pose proof (kt_configure a W [(KIomap, hw_addr (k_hw s), 0)] (hw_addr (k_hw s)) (ka_num_interrupt_rate a) Hoff
    (proj1 Hnr) (proj1 Hnt) eq_refl (wired_programs 0 _ _ _ _ ltac:(lia) Hnr Hnt)) as Hc.
  pose proof (wired_programs 1 (ka_num_rx_queues a) (ka_num_tx_queues a) (ka_num_interrupt_rate a) (k_hw s) ltac:(lia) Hnr Hnt) as Ht.
  unfold vector_of, queues in Ht. cbn [Z.eqb] in Ht. rewrite Z.add_0_r in Ht.
  specialize (Hc Ht ltac:(left) s L eq_refl HW0 HL).
  destruct (ixmap_configure_msix s) as [[r s']| |]; [|done|done]. destruct Hc as (R' & [Hcore Hc] & HL').
  exists r, s'. split; [done|]. split; [done|].
  destruct Hc as [(-> & Hon & HR & f' & Hw & Hf')|(-> & Hoff' & HR & _)].
  - left. split; [done|]. split; [done|]. split; [rewrite HL', HR, <- (assoc_L (++)); cbn; by rewrite HL|].
    exists f'. split; [done|]. intros d q Hd Hq. unfold queues_of in Hq. apply Hw; [done|done|].
    unfold vector_of. destruct (d =? 0); lia.
  - right. split; [done|]. split; [done|]. rewrite HL', HR. by rewrite HL.
Qed.

End Routing.

(** ** Event descriptors *)

Lemma slots_res_at es l k x y :
  l !! k = Some x -> exists F, slots_res es l ≡ₚ slot_res es x ++ F /\ slots_res es (<[k := y]> l) ≡ₚ slot_res es y ++ F.
Proof.
  intros Hx. exists (slots_res es (take k l) ++ slots_res es (drop (S k) l)).
  assert (forall z, slots_res es (take k l ++ z :: drop (S k) l) ≡ₚ
    slot_res es z ++ slots_res es (take k l) ++ slots_res es (drop (S k) l)) as Hz.
  { intros z. unfold slots_res. rewrite fmap_app, concat_app. cbn [fmap list_fmap concat]. solve_Permutation. }
  split.
  - rewrite <- (Hz x). by rewrite take_drop_middle.
  - rewrite <- (Hz y). rewrite insert_take_drop; [done|]. by eapply lookup_lt_Some.
Qed.

(** The array of a direction among what the interrupts hold. *)
Lemma msix_res_part a d pe es pi l pj m :
  0 <= d <= 1 -> ka_msix_entries a = At (EntryArray pe es) -> irqs_of d a = At (IrqArray pi l) ->
  irqs_of (1 - d) a = At (IrqArray pj m) ->
  exists F, msix_res a ≡ₚ slots_res es l ++ F /\
    forall l', length l' = length l -> msix_res (irqs_set d (At (IrqArray pi l')) a) ≡ₚ slots_res es l' ++ F.
Proof.
  intros Hd Hpe Hl Hm.
  exists ((KMalloc, pe, 8 * Z.of_nat (length es)) :: (KMalloc, pi, 8 * Z.of_nat (length l)) ::
    (KMalloc, pj, 8 * Z.of_nat (length m)) :: msix_on_res a ++ slots_res es m).
  unfold irqs_of in *. assert (d = 0 \/ d = 1) as [-> | ->] by lia; [change (1 - 0) with 1 in Hm|change (1 - 1) with 0 in Hm];
    cbn [Z.eqb] in Hl, Hm;
    (split; [unfold msix_res; rewrite Hpe, Hl, Hm; solve_Permutation|]); intros l' Hlen;
    unfold msix_res, irqs_set; cbn [Z.eqb];
    [change (ka_msix_entries (set_ka_rx_irq _ a)) with (ka_msix_entries a);
     change (ka_tx_irq (set_ka_rx_irq _ a)) with (ka_tx_irq a); cbn [ka_rx_irq set_ka_rx_irq]
    |change (ka_msix_entries (set_ka_tx_irq _ a)) with (ka_msix_entries a);
     change (ka_rx_irq (set_ka_tx_irq _ a)) with (ka_rx_irq a); cbn [ka_tx_irq set_ka_tx_irq]];
    rewrite Hpe, Hm, Hlen; unfold msix_on_res; cbn; solve_Permutation.
Qed.

(** The interrupt of a queue. *)
Definition irq_at (a : ixmap_adapter) (d q : Z) : option ixmap_irq :=
  match irqs_of d a with
  | At arr => match load (ia_irqs arr) q with Some (At i) => Some i | _ => None end
  | _ => None
  end.

(** [msix_on] for a direction. *)
Lemma msix_on_dir a d :
  msix_on a -> 0 <= d <= 1 ->
  exists pe es pi l pj m, ka_msix_entries a = At (EntryArray pe es) /\ irqs_of d a = At (IrqArray pi l) /\
    irqs_of (1 - d) a = At (IrqArray pj m) /\ Z.of_nat (length l) = queues_of d a /\
    irqs_at (vector_of (ka_num_rx_queues a) d 0) l /\
    (forall k, (k < length es)%nat -> exists e, es !! k = Some e /\ me_entry e = Z.of_nat k) /\
    vector_of (ka_num_rx_queues a) d 0 + queues_of d a <= Z.of_nat (length es) /\ 0 <= ka_num_rx_queues a.
Proof.
  intros (pe & es & prx & lrx & ptx & ltx & Hpe & Hrx & Htx & Hlr & Hlt & Hatr & Hatt & Hes & Hnq) Hd.
  assert (length es = length lrx + length ltx)%nat as Hlen
    by (apply (f_equal length) in Hes; by rewrite !length_fmap, length_seq in Hes).
  assert (forall k, (k < length es)%nat -> exists e, es !! k = Some e /\ me_entry e = Z.of_nat k) as Hent.
  { intros k Hk. destruct (lookup_lt_is_Some_2 es k Hk) as [e He]. exists e. split; [done|].
    apply (f_equal (fun l => l !! k)) in Hes. rewrite !list_lookup_fmap, He, lookup_seq_lt in Hes by lia.
    by injection Hes. }
  unfold irqs_of, queues_of, vector_of. rewrite <- Hlr, <- Hlt in *.
  assert (d = 0 \/ d = 1) as [-> | ->] by lia; cbn [Z.eqb]; [change (1 - 0 =? 0) with false|change (1 - 1 =? 0) with true].
  - exists pe, es, prx, lrx, ptx, ltx. split_and!; try done; lia.
  - exists pe, es, ptx, ltx, prx, lrx. rewrite Z.add_0_r. split_and!; try done; lia.
Qed.

(** What attaching descriptor [fd] to the interrupt of a queue comes to: an error
    and no change, or the object of this queue alone has a context of [fd] now
    instead of what it had, and of the references held, [L] and [L'] beforehand and
    afterwards, only these two differ. *)
Definition assign_post (a : ixmap_adapter) (d q fd : Z) (r : Z * option msix_entry) (a' : ixmap_adapter)
    (L L' : list res) : Prop :=
  (r = (- EINVAL, None) /\ a' = a /\ L' ≡ₚ L) \/
  exists e c i F, r = (0, Some e) /\ me_entry e = vector_of (ka_num_rx_queues a) d q /\
    irq_at a d q = Some i /\ efd_fd c = fd /\
    irq_at a' d q = Some (IxmapIrq (irq_ptr i) (Some c) (irq_msix_entry i)) /\
    L ≡ₚ efd_res i ++ F /\ L' ≡ₚ (KEventfd, efd_ptr c, fd) :: F /\
    msix_on a' /\ core a' = core a /\
    forall d' q', 0 <= d' <= 1 -> 0 <= q' -> (d', q') <> (d, q) -> irq_at a' d' q' = irq_at a d' q'.

Lemma irqs_at_insert base l k i i' :
  irqs_at base l -> l !! k = Some (At i) -> irq_msix_entry i' = irq_msix_entry i -> irqs_at base (<[k := At i']> l).
Proof.
  intros Hl Hk He j x [(<- & <- & _)|(Hne & Hx)]%list_lookup_insert_Some; [|by apply Hl].
  exists i'. split; [done|]. rewrite He. by destruct (Hl k _ Hk) as (? & [= <-] & ?).
Qed.

Lemma msix_on_insert a d pi l k i i' :
  msix_on a -> 0 <= d <= 1 -> irqs_of d a = At (IrqArray pi l) -> l !! k = Some (At i) ->
  irq_msix_entry i' = irq_msix_entry i -> msix_on (irqs_set d (At (IrqArray pi (<[k := At i']> l))) a).
Proof.
  intros (pe & es & prx & lrx & ptx & ltx & Hpe & Hrx & Htx & Hlr & Hlt & Hatr & Hatt & Hes & Hnq) Hd Hl Hk He.
  unfold irqs_of, irqs_set in *. assert (d = 0 \/ d = 1) as [-> | ->] by lia; cbn [Z.eqb] in *.
  - rewrite Hrx in Hl. injection Hl as <- <-. exists pe, es, prx, (<[k := At i']> lrx), ptx, ltx.
    rewrite length_insert. split_and!; try done. by eapply irqs_at_insert.
  - rewrite Htx in Hl. injection Hl as <- <-. exists pe, es, prx, lrx, ptx, (<[k := At i']> ltx).
    rewrite length_insert. split_and!; try done. by eapply irqs_at_insert.
Qed.

Lemma irq_at_insert a d pi l k x d' q' :
  irqs_of d a = At (IrqArray pi l) -> 0 <= d <= 1 -> 0 <= d' <= 1 -> 0 <= q' -> (d', q') <> (d, Z.of_nat k) ->
  irq_at (irqs_set d (At (IrqArray pi (<[k := x]> l))) a) d' q' = irq_at a d' q'.
Proof.
  intros Hl Hd Hd' Hq Hne. unfold irq_at, irqs_set, irqs_of in *.
  destruct (Z.eqb_spec d 0), (Z.eqb_spec d' 0); try done; cbn; rewrite Hl; cbn;
    rewrite !load_lookup, list_lookup_insert_ne; try done; intros ->; apply Hne; f_equal; lia.
Qed.

Section Assign.

Context {D : Type} `{Device D} `{EepromOps D}.

Notation st := (ixmap_hw * D)%type.

Lemma kt_fdget t a (W : st -> Prop) R fd {B} (f : option eventfd_ctx -> K D B) Q :
  kt t a W R (f None) Q -> (forall p, kt t a W ((KEventfd, p, fd) :: R) (f (Some (EventfdCtx p fd))) Q) ->
  kt t a W R (eventfd_ctx_fdget fd ≫= f) Q.
Proof.
  intros Hn Hs. unfold eventfd_ctx_fdget. apply kt_assoc. apply kt_acquire; [intros p|]; apply kt_ret_bind; [apply Hs|exact Hn].
Qed.

Lemma kt_irq_assign t a (W : st -> Prop) R d q fd :
  msix_on a -> 0 <= d <= 1 -> 0 <= q < queues_of d a ->
  kt t a W (msix_res a ++ R) (ixmap_irq_assign d q fd)
    (fun r a' R' s => assign_post a d q fd r a' (msix_res a ++ R) R' /\ R' ≡ₚ msix_res a' ++ R /\ W s).
Proof.
  intros Hon Hd Hq.
  destruct (msix_on_dir a d Hon Hd) as (pe & es & pi & l & pj & m & Hpe & Hl & Hm & Hlen & Hat & Hent & Hes & Hnr).
  destruct (lookup_lt_is_Some_2 l (Z.to_nat q)) as [x Hx]; [lia|]. destruct (Hat _ _ Hx) as (i & -> & Hi).
  assert (0 <= vector_of (ka_num_rx_queues a) d 0) as Hv0 by (unfold vector_of; destruct (d =? 0); lia).
  destruct (Hent (Z.to_nat (irq_msix_entry i))) as (e & He & Hme); [lia|].
  destruct (msix_res_part a d pe es pi l pj m Hd Hpe Hl Hm) as (F & HF & HF').
  unfold ixmap_irq_assign. apply kt_ad. replace (negb _) with false.
  2:{ unfold IXMAP_IRQ_RX, IXMAP_IRQ_TX. destruct (Z.eqb_spec d 0), (Z.eqb_spec d 1); [done..|lia]. }
  rewrite (proj2 (Z.ltb_ge (queues_of d a) q)) by lia.
  eapply kt_irq_slot; [exact Hl|lia|exact Hx|]. apply kt_fdget; [apply kt_ret; intros s Hs; split; [by left|done]|].
  intros c. apply kt_deref. set (i' := IxmapIrq (irq_ptr i) (Some (EventfdCtx c fd)) (irq_msix_entry i)).
  destruct (slots_res_at es l (Z.to_nat q) (At i) (At i') Hx) as (G & HG & HG').
  specialize (HF' (<[Z.to_nat q := At i']> l) ltac:(by rewrite length_insert)). rewrite HG' in HF'. rewrite HG in HF.
  set (a' := irqs_set d (At (IrqArray pi (<[Z.to_nat q := At i']> l))) a) in *.
  set (F2 := (KMalloc, irq_ptr i, sizeof_irq) :: (KIrq, vec es i, irq_ptr i) :: G ++ F ++ R).
  assert (msix_res a ++ R ≡ₚ efd_res i ++ F2) as Hold.
  { rewrite HF. unfold F2. cbn [slot_res]. solve_Permutation. }
  eapply kt_need; [|apply (kt_efd_put _ _ _ ((KEventfd, c, fd) :: F2))]; [rewrite Hold; solve_Permutation|].
  eapply kt_set_slot; [exact Hl|lia|]. fold a'.
  eapply kt_entry_of; [unfold a'; rewrite irqs_set_entries; exact Hpe|lia|exact He|]. apply kt_ret. intros s Hs.
  split; [|split; [rewrite HF'; cbn [slot_res efd_res irq_ptr irq_efd_ctx i']; unfold F2, vec; cbn [irq_msix_entry i']; solve_Permutation|done]].
  right. exists e, (EventfdCtx c fd), i, F2. split; [done|]. split; [rewrite Hme; unfold vector_of in *; destruct (d =? 0); lia|].
  split; [unfold irq_at; rewrite Hl; cbn [ia_irqs]; by rewrite load_lookup, Hx by lia|]. split; [done|].
  split; [unfold irq_at, a'; rewrite irqs_set_of; cbn [ia_irqs]; by rewrite load_lookup, list_lookup_insert_eq by lia|].
  split; [exact Hold|]. split; [done|].
  split; [by eapply msix_on_insert|]. split; [apply core_irqs_set|]. intros d' q' Hd' Hq' Hne.
  apply irq_at_insert; try done. by rewrite Z2Nat.id by lia.
Qed.

End Assign.
