(* ===== verification/KirqProps.v ===== *)
(** * The kernel module: event descriptors, and interrupts that are missing

    The interrupt of a queue signals the descriptor attached last.  The bound that
    [ixmap_irq_assign] tests is one too high, and [ixmap_down] relies on
    interrupts that [ixmap_up] may have failed to get. *)

From stdpp Require Import prelude list.
From S2P Require Import Prelude Os Kdma HwRegs Hw HwLogic Eeprom Common RegCard Ixgbe82599 NvmRead HwSafe Kmain Fops.
From S2P Require Import KLogic Kirq KmainProps.

(** ** Attaching a descriptor *)

Section Deliver.

Context {D : Type} `{Device D}.

Lemma assign_post_perm a d q fd r a' L1 L2 L1' L2' :
  L1 ≡ₚ L1' -> L2 ≡ₚ L2' -> assign_post a d q fd r a' L1 L2 -> assign_post a d q fd r a' L1' L2'.
Proof.
  intros H1 H2 [(Hr & Ha & HL)|(e & c & i & F & Hr & He & Hi & Hc & Hi' & HL & HL' & Hrest)].
  - left. by rewrite <- H1, <- H2.
  - right. exists e, c, i, F. do 5 (split; [done|]). split; [by rewrite <- H1|]. split; [by rewrite <- H2|done].
Qed.

(** The handler of a queue, run on the object of that queue. *)
Lemma irq_slot_at (s : kstate D) d q i :
  irq_at (k_ad s) d q = Some i -> (irq_slot d q ≫= ixmap_interrupt) s = ixmap_interrupt (At i) s.
Proof.
  unfold irq_at, irq_slot, mbind, K_bind, ad, deref, elem. destruct (irqs_of d (k_ad s)) as [| |arr]; [done|done|]. cbn.
  destruct (load (ia_irqs arr) q) as [[| |j]|]; [done|done| |done]. by intros [= ->].
Qed.

(** C36: interrupts reach the program that asked for them.  When the interrupts are
    set up, [ixmap_irq_assign] for an existing queue either refuses the descriptor
    and changes nothing, or attaches the context of this very descriptor to that
    queue and no other, gives the reference to the one attached before back and keeps
    one to the new, and reports the queue's own MSI-X entry.  From then on the
    handler of that queue's interrupt signals exactly this descriptor. *)
Theorem irq_assign_delivers (s : kstate D) d q fd L :
  msix_on (k_ad s) -> 0 <= d <= 1 -> 0 <= q < queues_of d (k_ad s) ->
  ledger (k_os s) ≡ₚ msix_res (k_ad s) ++ L ->
  exists r s', ixmap_irq_assign d q fd s = Returns (r, s') /\
    assign_post (k_ad s) d q fd r (k_ad s') (ledger (k_os s)) (ledger (k_os s')) /\
    ledger (k_os s') ≡ₚ msix_res (k_ad s') ++ L /\
    (r.1 = 0 -> exists c s2, efd_fd c = fd /\ (irq_slot d q ≫= ixmap_interrupt) s' = Returns (tt, s2) /\
       k_signals s2 = c :: k_signals s').
Proof.
  intros Hon Hd Hq HL.
  pose proof (kt_irq_assign true (k_ad s) (fun _ => True) L d q fd Hon Hd Hq s [] eq_refl I) as Ha.
  rewrite app_nil_r in Ha. specialize (Ha HL). destruct (ixmap_irq_assign d q fd s) as [[r s']| |]; [|done|done].
  destruct Ha as (R' & (Hp & HR & _) & HL'). rewrite app_nil_r in HL'. exists r, s'. split; [done|].
  split; [by eapply assign_post_perm; [symmetry; exact HL|symmetry; exact HL'|exact Hp]|].
  split; [by rewrite HL', HR|]. intros Hr.
  destruct Hp as [(-> & _)|(e & c & i & F & _ & _ & _ & Hc & Hi & _)]; [done|]. exists c.
  rewrite (irq_slot_at s' d q _ Hi). by eexists.
Qed.

(** One queue too many.  The test [queue_idx > num] lets the number of queues
    itself pass: the array is read one element past its end, and on a device that
    is down, where it has no queues and no array, a null or freed pointer is used. *)
Theorem irq_assign_past_end (s : kstate D) d fd :
  msix_on (k_ad s) \/ msix_off (k_ad s) -> 0 <= d <= 1 ->
  ixmap_irq_assign d (queues_of d (k_ad s)) fd s = Undefined.
Proof.
  intros Ha Hd. unfold ixmap_irq_assign, mbind, K_bind, ad. cbv beta iota.
  replace (negb _) with false.
  2:{ unfold IXMAP_IRQ_RX, IXMAP_IRQ_TX. destruct (Z.eqb_spec d 0), (Z.eqb_spec d 1); [done..|lia]. }
  rewrite Z.ltb_irrefl. unfold irq_slot, mbind, K_bind, ad. destruct Ha as [Hon|(_ & _ & Hrx & Htx)].
  - destruct (msix_on_dir (k_ad s) d Hon Hd) as (pe & es & pi & l & pj & m & _ & Hl & _ & Hlen & _).
    rewrite Hl. cbn. unfold elem. rewrite <- Hlen, load_lookup, Nat2Z.id by lia.
    by rewrite (lookup_ge_None_2 l (length l)) by lia.
  - unfold irqs_of. destruct (d =? 0); [destruct (ka_rx_irq (k_ad s))|destruct (ka_tx_irq (k_ad s))]; done.
Qed.

(** ** Missing interrupts *)

(** Code that does not return, from any state with adapter [a]. *)
Definition stuck {A} (a : ixmap_adapter) (m : K D A) : Prop := forall s y, k_ad s = a -> m s <> Returns y.

(** Code that leaves the adapter alone. *)
Definition keeps {A} (m : K D A) : Prop := forall s x s', m s = Returns (x, s') -> k_ad s' = k_ad s.

Lemma stuck_here {A B} a (m : K D A) (f : A -> K D B) : stuck a m -> stuck a (m ≫= f).
Proof. intros Hm s y Ha. unfold mbind, K_bind. destruct (m s) as [z| |] eqn:E; [by apply Hm in E|done|done]. Qed.

Lemma stuck_later {A B} a (m : K D A) (f : A -> K D B) : keeps m -> (forall x, stuck a (f x)) -> stuck a (m ≫= f).
Proof.
  intros Hm Hf s y Ha. unfold mbind, K_bind. destruct (m s) as [[x s']| |] eqn:E; [|done|done].
  apply Hf. by rewrite (Hm _ _ _ E).
Qed.

Lemma keeps_regs {A} (m : Hw D A) : keeps (regs m).
Proof.
  intros s x s' E. unfold regs in E. case_bool_decide; [|done]. destruct (m _) as [[y [h d]]| |]; [|done|done].
  by injection E as _ <-.
Qed.
Lemma keeps_sys {A} (m : M A) : keeps (sys m).
Proof. intros s x s' E. unfold sys in E. destruct (m _) as [[y o]|]; [|done]. by injection E as _ <-. Qed.
Lemma keeps_hw {A} (g : ixmap_hw -> A) : keeps (hw g).
Proof. by intros s x s' [= _ <-]. Qed.
Lemma keeps_ret {A} (y : A) : keeps (mret y).
Proof. by intros s x s' [= _ <-]. Qed.
Lemma keeps_bind {A B} (m : K D A) (f : A -> K D B) : keeps m -> (forall x, keeps (f x)) -> keeps (m ≫= f).
Proof.
  intros Hm Hf s x s' E. unfold mbind, K_bind in E. destruct (m s) as [[y s1]| |] eqn:E1; [|done|done].
  by rewrite (Hf _ _ _ _ E), (Hm _ _ _ E1).
Qed.
Lemma keeps_laser (m : Hw D unit) : keeps (laser m).
Proof. apply keeps_bind; [apply keeps_hw|]. intros [|]; [apply keeps_regs|apply keeps_ret]. Qed.
Lemma keeps_reset : keeps ixmap_reset.
Proof. apply keeps_bind; [apply keeps_regs|]. intros r. apply keeps_ret. Qed.

Lemma stuck_ad {A B} a (g : ixmap_adapter -> A) (f : A -> K D B) : stuck a (f (g a)) -> stuck a (ad g ≫= f).
Proof. intros Hf s y Ha. unfold mbind, K_bind, ad. rewrite Ha. by apply Hf. Qed.

Lemma stuck_deref {A B} a (p : pointer A) (f : A -> K D B) : not_at p -> stuck a (deref p ≫= f).
Proof. intros Hp s y Ha. destruct p; done. Qed.

(** Freeing the interrupts of an adapter that has none. *)
Lemma stuck_free_msix a : msix_off a -> 0 < ka_num_rx_queues a -> stuck a ixmap_free_msix.
Proof.
  intros (_ & _ & Hrx & _) Hn. unfold ixmap_free_msix. apply stuck_ad, stuck_here.
  destruct (Z.to_nat (ka_num_rx_queues a)) as [|n] eqn:E; [lia|]. cbn [k_for]. apply stuck_here.
  unfold irq_end, irq_slot. apply stuck_here, stuck_ad. by apply stuck_deref.
Qed.

(** A device that is up without interrupts cannot be switched off.  [ixmap_up]
    only logs the failure of [ixmap_configure_msix] and reports success; the
    [ixmap_down] that must follow, at the latest when the file is closed, then uses
    arrays that were never allocated or are already freed.  It has undefined
    behaviour unless the reset before hangs: it never returns. *)
Theorem down_without_interrupts (s : kstate D) y :
  msix_off (k_ad s) -> 0 < ka_num_rx_queues (k_ad s) -> ixmap_down s <> Returns y.
Proof.
  intros Hoff Hn. enough (stuck (k_ad s) ixmap_down) as Hs by by apply Hs. unfold ixmap_down.
  do 4 (apply stuck_later; [apply keeps_regs|]; intros ?). apply stuck_ad.
  assert (ka_msix_entries (k_ad s) = Null) as He by apply Hoff.
  destruct (Z.to_nat (ka_num_q_vectors (k_ad s))) as [|n]; cbn [k_for].
  2:{ apply stuck_here, stuck_here, stuck_ad, stuck_deref. by rewrite He. }
  apply stuck_later; [apply keeps_ret|]. intros ?.
  do 2 (apply stuck_later; [apply keeps_regs|]; intros ?). apply stuck_later; [apply keeps_sys|]. intros off.
  apply stuck_later; [destruct off; [apply keeps_ret|apply keeps_reset]|]. intros ?.
  apply stuck_later; [apply keeps_laser|]. intros ?. apply stuck_here. by apply stuck_free_msix.
Qed.

End Deliver.
