(* ===== verification/KmainDemo.v ===== *)
(** * A device of the kernel module, for witnesses

    A card all of whose registers hold what is written to them, an adapter with
    and without interrupts, and what the theorems say of them. *)

From stdpp Require Import prelude list.
From S2P Require Import Prelude Os Kdma HwRegs Hw HwLogic Eeprom Common RegCard Ixgbe82599 NvmRead HwSafe Kmain Fops.
From S2P Require Import KLogic Kirq KmainProps KirqProps.

Definition demo_pdev : pci_dev := PciDev 7 0x8086 0x10FB 1 0x8086 3 0xf0000000 0x80000.

Definition demo_card : reg_file := RegFile (fun _ => 0).

Definition demo_hw : ixmap_hw :=
  let m := hw_mac zero_hw in
  set_hw_addr 0x77 (set_hw_mac
    (MacInfo ixmap_mac_82599EB (mac_addr m) (mac_perm_addr m) 0 0 0 0 0 0 0 0 0 64 false false false 0 false) zero_hw).

(** An adapter with [n] queues per direction but no interrupts. *)
Definition demo_off (n : Z) : ixmap_adapter :=
  IxmapAdapter 0x10 0x20 demo_pdev 0 false 0 2 0 0xf0000000 0x80000 [] None Null false 0 Null Null 0 0 n n 8.

Definition demo_state (a : ixmap_adapter) (l : list (option Z)) (held : list res) : kstate reg_file :=
  KState a demo_hw demo_card (Os l ((KIomap, 0x77, 0) :: held)) [] [].

(** Two queues per direction; the system first offers three vectors, then grants
    them, then everything else. *)
Definition demo_answers : list (option Z) := Some 1 :: Some 3 :: Some (-40) :: replicate 20 (Some 9).

Lemma demo_off_ok n : msix_off (demo_off n).
Proof. done. Qed.

Lemma configure_msix_correct_witness :
  (match ixmap_configure_msix (demo_state (demo_off 2) demo_answers []) with Returns (r, _) => r | _ => 1 end) = 0 /\
  exists r s', ixmap_configure_msix (demo_state (demo_off 2) demo_answers []) = Returns (r, s') /\
    core (k_ad s') = core (demo_off 2).
Proof.
  split; [vm_compute; reflexivity|].
  assert (forall i, 0 <= i < 8 -> plain (D := reg_file) (IXGBE_IVAR i)) as Hp by done.
  destruct (configure_msix_correct Hp (demo_state (demo_off 2) demo_answers []) (fun _ => 0) []) as (r & s' & E & Hc & _).
  - apply demo_off_ok.
  - cbn. lia.
  - cbn. lia.
  - split; [done|]. split; [cbn; lia|done].
  - reflexivity.
  - exists r, s'. by split.
Defined.

(** The same adapter with one queue per direction and its interrupts. *)
Definition demo_on : ixmap_adapter :=
  IxmapAdapter 0x10 0x20 demo_pdev 0 true 0 2 0 0xf0000000 0x80000 [] None
    (At (EntryArray 0x30 [MsixEntry 41 0; MsixEntry 42 1])) true 2
    (At (IrqArray 0x40 [At (IxmapIrq 0x50 None 0)])) (At (IrqArray 0x48 [At (IxmapIrq 0x58 (Some (EventfdCtx 5 2)) 1)])) 0 0 1 1 8.

Lemma demo_on_ok : msix_on demo_on.
Proof.
  assert (forall base x, irq_msix_entry x = base -> irqs_at base [At x]) as Hat.
  { intros base x Hx k y Hy. apply list_lookup_singleton_Some in Hy as [-> <-]. exists x. split; [done|]. rewrite Hx. lia. }
  eexists _, _, _, _, _, _. split_and!; try reflexivity; by apply Hat.
Qed.

(** Descriptor 3 in the place of descriptor 2. *)
Lemma demo_assigned :
  match ixmap_irq_assign 1 0 3 (demo_state demo_on [Some 6] (msix_res demo_on)) with Returns (r, _) => r.1 | _ => 1 end = 0.
Proof. reflexivity. Qed.

Lemma irq_assign_delivers_witness :
  exists r s' c s2, ixmap_irq_assign 1 0 3 (demo_state demo_on [Some 6] (msix_res demo_on)) = Returns (r, s') /\
    ledger (k_os s') ≡ₚ msix_res (k_ad s') ++ [(KIomap, 0x77, 0)] /\
    (irq_slot 1 0 ≫= ixmap_interrupt) s' = Returns (tt, s2) /\ k_signals s2 = [c] /\ efd_fd c = 3.
Proof.
  destruct (irq_assign_delivers (demo_state demo_on [Some 6] (msix_res demo_on)) 1 0 3 [(KIomap, 0x77, 0)])
    as (r & s' & E & _ & HL & Hs); [apply demo_on_ok|lia|cbn; lia|cbn; solve_Permutation|].
  pose proof demo_assigned as Hr. rewrite E in Hr. destruct (Hs Hr) as (c & s2 & Hc & Hi & Hk).
  exists r, s', c, s2. split; [exact E|]. split; [exact HL|]. split; [exact Hi|]. split; [|exact Hc].
  rewrite Hk. vm_compute in E. by injection E as _ <-.
Defined.

Lemma irq_assign_past_end_witness :
  ixmap_irq_assign 0 0 3 (demo_state (demo_off 0) [Some 6] []) = Undefined /\
  ixmap_irq_assign 0 1 3 (demo_state demo_on [Some 6] (msix_res demo_on)) = Undefined.
Proof.
  split.
  - exact (irq_assign_past_end (demo_state (demo_off 0) [Some 6] []) 0 3 (or_intror (demo_off_ok 0)) ltac:(lia)).
  - exact (irq_assign_past_end (demo_state demo_on [Some 6] (msix_res demo_on)) 0 3 (or_introl demo_on_ok) ltac:(lia)).
Defined.

(** Switched on when the system refuses the vectors. *)
Definition demo_up : result (Z * kstate reg_file) :=
  ixmap_cmd_up (Some (UpReq 8 1 1)) (demo_state (demo_off 0) [Some 1; None] []).
Definition demo_refused : kstate reg_file :=
  match demo_up with Returns (_, s) => s | _ => demo_state (demo_off 0) [] [] end.

Lemma down_without_interrupts_witness :
  (match demo_up with Returns (r, _) => r | _ => 1 end) = 0 /\ forall y, ixmap_down demo_refused <> Returns y.
Proof.
  split; [vm_compute; reflexivity|]. intros y.
  apply down_without_interrupts; [|vm_compute; reflexivity].
  assert (k_ad demo_refused = set_ka_up true (demo_off 1)) as -> by (vm_compute; reflexivity). apply demo_off_ok.
Defined.
