(* ===== verification/Klife.v ===== *)
(** * The kernel module: the life of a device

    From probing to removing: with any sequence of requests in between, nothing is
    used that is not there, and everything is given back. *)

From stdpp Require Import prelude list.
From S2P Require Import Prelude Os Kdma KdmaProps HwRegs Hw HwLogic Eeprom Common Ixgbe82599 NvmRead HwSafe.
From S2P Require Import HwSafeProps Kmain Fops KLogic Kirq KmainProps.

(** ** What a device holds *)

(** A device that is probed. *)
Definition base_res (a : ixmap_adapter) : list res :=
  [(KPci, pdev_name (ka_pdev a), 0); (KRegions, pdev_name (ka_pdev a), 0);
   (KMalloc, ka_ptr a, sizeof_adapter); (KMalloc, ka_hw_ptr a, sizeof_hw);
   (KMisc, ka_ptr a, 0); (KMalloc, ka_misc_name a, MISCDEV_NAME_SIZE)].

(** Its areas, one of which is that of the registers. *)
Definition dma_res (a : ixmap_adapter) (p : Z) : list res := concat (area_res (dview a p) <$> ka_areas a).

Definition areas_ok (io : Z) (l : list dma_area) : Prop :=
  Forall area_ok l /\ Exists (fun x => ar_addr_dma x = io) l.

(** Its interrupts, if it is up. *)
Definition up_res (a : ixmap_adapter) : list res := if ka_up a then msix_res a else [].

Definition held (a : ixmap_adapter) (p : Z) : list res := up_res a ++ dma_res a p ++ base_res a.

(** A device in order; [opened] tells whether a program has it open. *)
Definition sound (opened : bool) (a : ixmap_adapter) : Prop :=
  areas_ok (ka_iobase a) (ka_areas a) /\ ka_refcount a = (if opened then 2 else 1) /\
  if ka_up a then msix_on a
  else msix_off a /\ ka_num_q_vectors a = 0 /\ ka_num_rx_queues a = 0 /\ ka_num_tx_queues a = 0.

Lemma io_held a p R : areas_ok (ka_iobase a) (ka_areas a) -> (KIomap, p, 0) ∈ dma_res a p ++ R.
Proof.
  intros [_ [x [Hx E]]%Exists_exists]. apply elem_of_app. left. unfold dma_res. apply list_elem_of_In, in_concat.
  exists (area_res (dview a p) x). split; [apply list_elem_of_In, list_elem_of_fmap; by exists x|].
  apply list_elem_of_In. unfold area_res. cbn [iobase dview]. rewrite E, Z.eqb_refl. left.
Qed.

(** Fields that interrupts do not concern. *)
Lemma core_fields a a' : core a' = core a ->
  ka_refcount a' = ka_refcount a /\ ka_up a' = ka_up a /\ ka_areas a' = ka_areas a /\ ka_iobase a' = ka_iobase a /\
  ka_num_rx_queues a' = ka_num_rx_queues a /\ ka_num_tx_queues a' = ka_num_tx_queues a /\
  base_res a' = base_res a /\ forall p, dma_res a' p = dma_res a p.
Proof.
  intros E. pose proof (f_equal ka_refcount E). pose proof (f_equal ka_up E). pose proof (f_equal ka_areas E).
  pose proof (f_equal ka_iobase E). pose proof (f_equal ka_num_rx_queues E). pose proof (f_equal ka_num_tx_queues E).
  split_and!; try done; [exact (f_equal base_res E)|]. intros p. exact (f_equal (fun a => dma_res a p) E).
Qed.

(** ** Areas *)

Lemma o_dma_unmap v addr R :
  Forall area_ok (areas v) -> addr <> iobase v ->
  outcomes (concat (area_res v <$> areas v) ++ R) (ixmap_dma_unmap v addr)
    (fun r R' => (r.2 = v \/ exists i x, areas v !! i = Some x /\ ar_addr_dma x = addr /\
                    r.2 = set_areas (delete i (areas v)) v) /\
                 R' ≡ₚ concat (area_res v <$> areas r.2) ++ R).
Proof.
  intros Hok Hio. unfold ixmap_dma_unmap. destruct (ixmap_dma_area_lookup v addr) as [[i x]|] eqn:E.
  2:{ apply o_ret. split; [by left|done]. }
  apply list_find_Some in E as (Hx & Ha & _). cbv zeta. set (v' := set_areas (delete i (areas v)) v).
  eapply o_bind.
  - eapply t_need; [|apply (t_area_free v' x)].
    + rewrite (delete_Permutation _ _ _ Hx). cbn [fmap list_fmap concat]. rewrite <- (assoc_L (++)). reflexivity.
    + rewrite Forall_forall in Hok. apply Hok. by eapply list_elem_of_lookup_2.
  - intros u. apply o_ret. split; [|done]. right. by exists i, x.
Qed.

Lemma areas_ok_delete io l i x :
  areas_ok io l -> l !! i = Some x -> ar_addr_dma x <> io -> areas_ok io (delete i l).
Proof.
  intros [Hf He] Hx Hne. pose proof (delete_Permutation _ _ _ Hx) as Hp. split.
  - rewrite Hp in Hf. by apply Forall_cons in Hf as [_ Hf].
  - rewrite Hp in He. apply Exists_cons in He as [He|He]; done.
Qed.

Lemma areas_ok_insert io l pos x : areas_ok io l -> area_ok x -> areas_ok io (insert_area x pos l).
Proof.
  intros [Hf He] Hx. unfold insert_area. assert (take pos l ++ x :: drop pos l ≡ₚ x :: l) as Hp.
  { rewrite <- Permutation_middle. by rewrite take_drop. }
  split; rewrite Hp; [by apply Forall_cons|by right].
Qed.

Section Life.

Context {D : Type} `{Device D}.

Notation st := (ixmap_hw * D)%type.

Implicit Types (a : ixmap_adapter) (R : list res).

(** ** Accesses to the card *)

Lemma kt_card a R p {A B} (m : Hw D A) (f : A -> K D B) Q0 Q :
  safe ee_inv m Q0 -> (KIomap, p, 0) ∈ R -> (forall x, Q0 x -> kt false a (Live p) R (f x) Q) ->
  kt false a (Live p) R (regs m ≫= f) Q.
Proof.
  intros Hm HR Hf. eapply kt_regs; [by apply hwt_safe|by intros s []|exact HR|]. intros x. apply kt_pure. apply Hf.
Qed.

Lemma kt_laser a R p (m : Hw D unit) {B} (f : _ -> K D B) Q :
  safe ee_inv m any -> (KIomap, p, 0) ∈ R -> kt false a (Live p) R (f tt) Q ->
  kt false a (Live p) R (laser m ≫= f) Q.
Proof.
  intros Hm HR Hf. unfold laser. apply kt_assoc, kt_hw. intros ops. apply kt_forget.
  destruct ops; [|by apply kt_ret_bind]. eapply kt_card; [exact Hm|exact HR|]. by intros [] _.
Qed.

Lemma live_programs d base n rate p : programs (D := D) d base n rate p (fun _ => Live p).
Proof.
  intros q a R B k Q Hq Hr HR Hk. unfold ixmap_set_ivar. cbv zeta.
  eapply kt_regs; [apply hwt_drv; intros h; apply d_modify|by intros s []|exact HR|]. intros u.
  unfold ixmap_write_eitr. apply kt_assoc, kt_ad.
  eapply kt_regs; [apply hwt_drv; intros h; apply d_write|by intros s []|exact HR|]. intros u'. exact Hk.
Qed.

Ltac card := eapply kt_card; [solve [eauto 1 with safe | eapply s_any; eauto 1 with safe]|eassumption|intros ? _].

(** ** On and off *)

Lemma kt_up a R p :
  msix_off a -> 0 <= ka_num_rx_queues a -> 0 <= ka_num_tx_queues a -> (KIomap, p, 0) ∈ R ->
  kt false a (Live p) R ixmap_up
    (fun r a' R' s => r = 0 /\ core a' = core (set_ka_up true a) /\
       ((msix_on a' /\ R' ≡ₚ msix_res a' ++ R) \/ (msix_off a' /\ R' ≡ₚ R)) /\ Live p s).
Proof.
  intros Hoff Hnr Hnt HR. unfold ixmap_up, ixmap_take_hw_control, ixmap_setup_gpie.
  eapply kt_card; [apply s_modify|exact HR|intros _ _]. do 3 (apply kt_assoc; card). card.
  eapply kt_bind.
  { apply kt_total. exact (kt_configure a (fun _ => Live p) R p _ Hoff Hnr Hnt eq_refl
      (live_programs _ _ _ _ _) (live_programs _ _ _ _ _) HR). }
  intros r a' R'. apply (kt_pre _ _ _ (fun s => (core a' = core a /\
    ((msix_on a' /\ R' ≡ₚ msix_res a' ++ R) \/ (msix_off a' /\ R' ≡ₚ R))) /\ Live p s)).
  { intros s [Hc [(_ & Hon & HR' & Hl)|(_ & Ho & HR' & _ & Hl)]]; split; try done; split; auto. }
  apply kt_pure. intros [Hc Hcase].
  assert ((KIomap, p, 0) ∈ R') as HRio.
  { destruct Hcase as [[_ ->]|[_ ->]]; [apply elem_of_app; by right|done]. }
  eapply kt_laser; [apply s_laser_on|exact HRio|].
  eapply kt_card; [apply s_setup_link|exact HRio|intros ? _]. eapply kt_card; [apply s_fc|exact HRio|intros ? _]. card.
  apply kt_set_ad, kt_ret. intros s Hs. split; [done|]. split; [|split; [|done]].
  - transitivity (set_ka_up true (core a')); [done|]. by rewrite Hc.
  - exact Hcase.
Qed.

(** The fields after switching off. *)
Definition downed a : ixmap_adapter :=
  set_ka_up false (set_ka_num_tx_queues 0 (set_ka_num_rx_queues 0 (set_ka_num_interrupt_rate 0 a))).

Lemma kt_sync a R p :
  msix_on a ->
  kt (D := D) false a (Live p) R (k_for (Z.to_nat (ka_num_q_vectors a)) 0 (fun vector =>
    p ← ad ka_msix_entries; arr ← deref p; elem (ea_entries arr) vector ;; mret tt))
    (fun _ a' R' s => a' = a /\ R' ≡ₚ R /\ Live p s).
Proof.
  intros (pe & es & prx & lrx & ptx & ltx & Hpe & Hrx & Htx & Hlr & Hlt & Hatr & Hatt & Hes & Hnq).
  assert (length es = length lrx + length ltx)%nat as Hlen
    by (apply (f_equal length) in Hes; by rewrite !length_fmap, length_seq in Hes).
  apply (kt_for false _ 0 _ (fun _ a' => a' = a) (fun _ => R) (Live p) a eq_refl). intros i a' Hi ->.
  destruct (lookup_lt_is_Some_2 es (Z.to_nat i)) as [e He]; [lia|].
  apply kt_ad. rewrite Hpe. apply kt_deref. eapply kt_elem; [lia|exact He|]. apply kt_ret. by intros s Hs.
Qed.

Lemma kt_down a R p :
  msix_on a -> (KIomap, p, 0) ∈ R ->
  kt false a (Live p) (msix_res a ++ R) ixmap_down
    (fun r a' R' s => r = 0 /\ core a' = core (downed a) /\ msix_off a' /\ ka_num_q_vectors a' = 0 /\ R' ≡ₚ R /\ Live p s).
Proof.
  intros Hon HR. assert ((KIomap, p, 0) ∈ msix_res a ++ R) as HR2 by (apply elem_of_app; by right).
  unfold ixmap_down, ixmap_release_hw_control. do 3 card. eapply kt_card; [apply s_flush|exact HR2|intros _ _]. apply kt_ad.
  eapply kt_bind; [by apply kt_sync|]. intros u a' R'. apply kt_pure. intros ->. apply kt_pure. intros HR'.
  eapply kt_need; [exact HR'|]. clear R' HR'. card. eapply kt_card; [apply s_modify|exact HR2|intros _ _]. apply kt_ask.
  intros off. eapply (kt_bind _ _ _ _ _ _ (fun _ a' R' s => a' = a /\ R' ≡ₚ msix_res a ++ R /\ Live p s)).
  { destruct off; [by apply kt_ret|]. unfold ixmap_reset. eapply kt_card; [apply s_init_hw|exact HR2|intros r _]. by apply kt_ret. }
  intros u' a' R'. apply kt_pure. intros ->. apply kt_pure. intros HR'. eapply kt_need; [exact HR'|].
  eapply kt_laser; [apply s_laser_off|exact HR2|]. eapply kt_bind; [by apply kt_free_msix|].
  intros u'' a' R''. apply kt_pure. intros Hc. apply kt_pure. intros Hoff. apply kt_pure. intros Hq.
  apply kt_pure. intros HR''. eapply kt_need; [exact HR''|]. do 3 apply kt_set_ad.
  eapply kt_card; [apply s_modify|exact HR|intros _ _]. apply kt_set_ad, kt_ret. intros s Hs. split; [done|].
  split; [transitivity (downed (core a')); [done|by rewrite Hc]|]. done.
Qed.

(** ** Requests *)

(** A device that is up although it has no interrupts. *)
Definition broken a : Prop := ka_up a = true /\ msix_off a.

Definition in_order (o : bool) (p : Z) {A} : post (D := D) A :=
  fun _ a R s => (sound o a /\ R ≡ₚ held a p) /\ Live p s.

Definition in_order_or_broken (o : bool) (p : Z) {A} : post (D := D) A :=
  fun _ a R s => ((sound o a /\ R ≡ₚ held a p) \/ broken a) /\ Live p s.

Lemma kt_order t o p a R {A} (m : K D A) :
  kt t a (Live p) R m (in_order o p) -> kt t a (Live p) R m (in_order_or_broken o p).
Proof. intros Hm. eapply kt_weaken; [exact Hm|]. intros x a' R' s [Ha Hs]. split; [by left|done]. Qed.

Lemma sound_io o a p : sound o a -> (KIomap, p, 0) ∈ held a p.
Proof. intros [Ha _]. unfold held. apply elem_of_app. right. by apply io_held. Qed.

Lemma kt_copy t o p a r :
  sound o a -> kt (D := D) t a (Live p) (held a p) (copy_to_user r) (in_order o p).
Proof. intros Ha. unfold copy_to_user. apply kt_ask. intros ok. by apply kt_ret. Qed.

Lemma kt_cmd_info o p a : sound o a -> kt (D := D) false a (Live p) (held a p) ixmap_cmd_info (in_order o p).
Proof.
  intros Ha. unfold ixmap_cmd_info. apply kt_ad, kt_hw. intros h. apply kt_forget.
  eapply kt_bind; [by apply kt_copy|]. intros x a' R'. apply kt_ret. by intros s.
Qed.

Lemma kt_cmd_reset o p a : sound o a -> kt (D := D) false a (Live p) (held a p) ixmap_cmd_reset (in_order o p).
Proof.
  intros Ha. unfold ixmap_cmd_reset, ixmap_reset. apply kt_ad. destruct (ka_up a); cbn [negb]; [|by apply kt_ret].
  apply kt_assoc. eapply kt_card; [apply s_init_hw|by eapply sound_io|intros r _]. apply kt_ret_bind. by apply kt_ret.
Qed.

Lemma kt_cmd_check_link o p a :
  sound o a -> kt (D := D) false a (Live p) (held a p) ixmap_cmd_check_link (in_order o p).
Proof.
  intros Ha. unfold ixmap_cmd_check_link. apply kt_ad. destruct (ka_up a); cbn [negb]; [|by apply kt_ret].
  eapply kt_card; [apply s_check_link|by eapply sound_io|]. intros [speed up] _. apply kt_ad.
  assert (forall v : Z, forall a2, sound o a2 -> kt false a2 (Live p) (held a2 p)
    (a ← ad (fun a => a);
     r ← copy_to_user (RLink (LinkReq (ka_link_speed a) (ka_link_duplex a) v));
     mret (match r with Some _ => 0 | None => - EFAULT end, r)) (in_order o p)) as Hend.
  { intros v a2 Ha2. apply kt_ad. eapply kt_bind; [by apply kt_copy|]. intros x a' R'. apply kt_ret. by intros s. }
  destruct up; [apply kt_assoc|]; destruct (ka_link_speed a =? 0); cbn [negb].
  - apply kt_assoc, kt_set_ad, kt_set_ad, kt_ret_bind.
    exact (Hend 0 (set_ka_link_duplex 2 (set_ka_link_speed (u16 speed) a)) Ha).
  - apply kt_ret_bind, kt_ret_bind. exact (Hend 0 _ Ha).
  - apply kt_ret_bind. exact (Hend 0 _ Ha).
  - apply kt_assoc, kt_set_ad, kt_assoc, kt_set_ad, kt_ret_bind.
    exact (Hend 1 (set_ka_link_duplex 0 (set_ka_link_speed 0 a)) Ha).
Qed.

Lemma kt_cmd_down o p a : sound o a -> kt (D := D) false a (Live p) (held a p) ixmap_cmd_down (in_order o p).
Proof.
  intros Ha. pose proof Ha as (Har & Href & Hup). unfold ixmap_cmd_down, held, up_res. apply kt_ad.
  destruct (ka_up a) eqn:Eu; cbn [negb].
  - eapply kt_bind; [apply kt_down; [done|by apply io_held]|]. intros r a' R'. apply kt_pure. intros _.
    apply kt_pure. intros Hc. apply kt_pure. intros Hoff. apply kt_pure. intros Hq. apply kt_pure. intros HR.
    destruct (core_fields _ _ Hc) as (E1 & E2 & E3 & E4 & E5 & E6 & E7 & E8). cbn in E1, E2, E3, E4, E5, E6.
    apply kt_ret. intros s Hs. split; [|done]. unfold sound, held, up_res. rewrite E1, E2, E3, E4, E5, E6, E7, E8. done.
  - apply kt_ret. intros s Hs. split; [|done]. split; [done|]. unfold held, up_res. by rewrite Eu.
Qed.

Lemma kt_cmd_up o p a arg :
  sound o a ->
  (forall r, arg = Some r -> 0 <= ur_num_rx_queues r /\ 0 <= ur_num_tx_queues r) ->
  kt (D := D) false a (Live p) (held a p) (ixmap_cmd_up arg) (in_order_or_broken o p).
Proof.
  intros Ha Harg. pose proof Ha as (Har & Href & Hup).
  assert (forall r : Z, kt (D := D) false a (Live p) (held a p) (mret r) (in_order_or_broken o p)) as Hret.
  { intros r. apply kt_ret. intros s Hs. split; [by left|done]. }
  unfold ixmap_cmd_up. apply kt_ad. destruct (ka_up a) eqn:Eu; [apply Hret|].
  destruct arg as [r|]; [|apply Hret]. destruct (Harg r eq_refl) as [Hr Ht].
  destruct (_ <? _); [apply Hret|]. destruct (_ <? _); [apply Hret|]. destruct (_ <? _); [apply Hret|].
  do 3 apply kt_set_ad. set (a1 := set_ka_num_tx_queues _ _).
  assert (held a p = dma_res a1 p ++ base_res a1) as -> by (unfold held, up_res; by rewrite Eu).
  eapply kt_bind.
  { apply (kt_up a1); [by apply Hup|done|done|]. by apply io_held. }
  intros x a' R'. apply kt_pure. intros ->. apply kt_pure. intros Hc. apply kt_pure. intros Hcase. cbn [Z.eqb negb].
  destruct (core_fields _ _ Hc) as (E1 & E2 & E3 & E4 & _ & _ & E7 & E8). cbn in E1, E2, E3, E4.
  apply kt_ret. intros s Hs. split; [|done]. destruct Hcase as [[Hon HR]|[Hoff _]]; [left|by right].
  unfold sound, held, up_res. rewrite E1, E2, E3, E4, E7, E8. done.
Qed.

Lemma held_areas a p l :
  held (set_ka_areas l a) p ≡ₚ concat (area_res (dview a p) <$> l) ++ up_res a ++ base_res a.
Proof. unfold held. change (dma_res (set_ka_areas l a) p) with (concat (area_res (dview a p) <$> l)).
  change (up_res (set_ka_areas l a)) with (up_res a). change (base_res (set_ka_areas l a)) with (base_res a).
  solve_Permutation. Qed.

Lemma set_ka_areas_same a : set_ka_areas (ka_areas a) a = a.
Proof. by destruct a. Qed.

Lemma held_split a p : held a p ≡ₚ concat (area_res (dview a p) <$> ka_areas a) ++ up_res a ++ base_res a.
Proof. rewrite <- held_areas. by rewrite set_ka_areas_same. Qed.

Lemma kt_dma_unmap t o p a addr {B} (f : Z -> K D B) Q :
  sound o a -> addr <> ka_iobase a ->
  (forall x a', sound o a' -> kt t a' (Live p) (held a' p) (f x) Q) ->
  kt t a (Live p) (held a p) (with_dma (fun v => ixmap_dma_unmap v addr) ≫= f) Q.
Proof.
  intros Ha Hne Hf. pose proof Ha as ([Hok Hex] & Hrest).
  eapply kt_need; [apply held_split|].
  eapply kt_with_dma; [by intros s []|by apply (o_dma_unmap (dview a p))|].
  intros x v R' [Hv HR]. cbn [snd] in Hv, HR.
  assert (sound o (set_ka_areas (areas v) a)) as Ha'.
  { split; [|exact Hrest]. cbn [ka_areas set_ka_areas ka_iobase]. destruct Hv as [->|(i & y & Hy & Ey & ->)]; [done|].
    cbn [areas set_areas dview]. apply (areas_ok_delete _ _ _ y); [done|exact Hy|by rewrite Ey]. }
  eapply kt_need; [|apply Hf, Ha']. rewrite held_areas. exact HR.
Qed.

Lemma kt_cmd_unmap o p a arg :
  sound o a -> (forall r, arg = Some r -> nr_addr_dma r <> ka_iobase a) ->
  kt (D := D) false a (Live p) (held a p) (ixmap_cmd_unmap arg) (in_order o p).
Proof.
  intros Ha Harg. unfold ixmap_cmd_unmap. destruct arg as [r|]; [|by apply kt_ret].
  apply kt_last. eapply kt_dma_unmap; [exact Ha|by apply Harg|]. intros x a' Ha'. by apply kt_ret.
Qed.

Lemma kt_cmd_map o p a arg :
  sound o a -> (forall r, arg = Some r -> dma_start (mr_sg r) <> ka_iobase a) ->
  kt (D := D) false a (Live p) (held a p) (ixmap_cmd_map false arg) (in_order o p).
Proof.
  intros Ha Harg. pose proof Ha as (Hok & Hrest). unfold ixmap_cmd_map. destruct arg as [r|]; [|by apply kt_ret].
  specialize (Harg r eq_refl). destruct (mr_size r =? 0); [by apply kt_ret|].
  eapply kt_need; [apply held_split|].
  eapply kt_with_dma; [by intros s []|by apply (o_dma_map (dview a p))|]. intros x v R' Hpost.
  assert (sound o (set_ka_areas (areas v) a) /\ R' ≡ₚ held (set_ka_areas (areas v) a) p /\
    (x = 0 \/ x = dma_start (mr_sg r))) as (Ha' & HR & Hx).
  { destruct Hpost as [([= -> ->] & HR)|(Ex & area & pos & Hao & _ & _ & _ & Ev & HR)]; cbn [fst snd] in *.
    - cbn [areas dview]. rewrite set_ka_areas_same. split; [done|]. split; [|by left].
      by rewrite HR, held_split.
    - subst v. split; [|split; [|by right]].
      + split; [|exact Hrest]. by apply areas_ok_insert.
      + rewrite HR, held_areas. cbn [areas set_areas dview]. unfold insert_area. rewrite fmap_app, concat_app. cbn [fmap list_fmap concat].
        rewrite <- (take_drop pos (ka_areas a)) at 1. rewrite fmap_app, concat_app. solve_Permutation. }
  eapply kt_need; [exact HR|]. destruct (Z.eqb_spec x 0) as [->|Hx0]; [by apply kt_ret|].
  unfold copy_to_user. apply kt_assoc, kt_ask. intros ok. apply kt_ret_bind. destruct ok; [by apply kt_ret|].
  eapply kt_dma_unmap; [exact Ha'|by destruct Hx as [->| ->]|]. intros y a' Ha''. by apply kt_ret.
Qed.

Lemma kt_cmd_irq o p a arg :
  sound o a ->
  (forall r, arg = Some r -> 0 <= qr_queue_idx r /\ (0 <= qr_type r <= 1 -> qr_queue_idx r <> queues_of (qr_type r) a)) ->
  kt (D := D) false a (Live p) (held a p) (ixmap_cmd_irq arg) (in_order o p).
Proof.
  intros Ha Harg. pose proof Ha as (Hok & Href & Hup). unfold ixmap_cmd_irq. destruct arg as [r|]; [|by apply kt_ret].
  destruct (Harg r eq_refl) as [H0 Hne]. destruct (decide (0 <= qr_type r <= 1)) as [Ht|Ht].
  2:{ unfold ixmap_irq_assign. apply kt_assoc, kt_ad. replace (negb _) with true; [apply kt_ret_bind; by apply kt_ret|].
      unfold IXMAP_IRQ_RX, IXMAP_IRQ_TX. destruct (Z.eqb_spec (qr_type r) 0), (Z.eqb_spec (qr_type r) 1); lia. }
  specialize (Hne Ht). destruct (Z.ltb_spec (queues_of (qr_type r) a) (qr_queue_idx r)) as [Hgt|Hle].
  { unfold ixmap_irq_assign. apply kt_assoc, kt_ad. replace (_ || _) with true.
    - cbn [negb]. rewrite (proj2 (Z.ltb_lt _ _) Hgt). apply kt_ret_bind. by apply kt_ret.
    - unfold IXMAP_IRQ_RX, IXMAP_IRQ_TX. destruct (Z.eqb_spec (qr_type r) 0), (Z.eqb_spec (qr_type r) 1); [done..|lia]. }
  destruct (ka_up a) eqn:Eu.
  2:{ destruct Hup as (_ & _ & E1 & E2). unfold queues_of in *. rewrite E1, E2 in *. destruct (_ =? 0); lia. }
  unfold held, up_res. rewrite Eu. eapply kt_bind; [apply kt_irq_assign; [done|done|lia]|]. intros [ret e] a' R'.
  apply kt_pure. intros Hp. apply kt_pure. intros HR.
  assert (sound o a' /\ R' ≡ₚ held a' p) as [Ha' HR'].
  { destruct Hp as [(_ & -> & _)|(ent & c & i & F & _ & _ & _ & _ & _ & _ & _ & Hon & Hc & _)].
    - split; [done|]. unfold held, up_res. by rewrite Eu.
    - destruct (core_fields _ _ Hc) as (E1 & E2 & E3 & E4 & _ & _ & E7 & E8). unfold sound, held, up_res.
      rewrite E1, E2, E3, E4, E7, E8, Eu. done. }
  eapply kt_need; [exact HR'|]. destruct e as [e|]; [|by apply kt_ret].
  eapply kt_bind; [by apply kt_copy|]. intros x a2 R2. apply kt_ret. by intros s.
Qed.

End Life.
