(* ===== verification/KlifeProps.v ===== *)
(** * The kernel module: probing, any requests, removing

    [run] lets a program and the card do as they please with a probed device.  It
    stops where the code is known to fail: at a request beyond what the driver
    checks ([proper]), or when the device came up without interrupts. *)

From stdpp Require Import prelude list.
From S2P Require Import Prelude Os Kdma KdmaProps HwRegs Hw HwLogic Eeprom Common Ixgbe82599 NvmRead HwSafe.
From S2P Require Import HwSafeProps Kmain Fops KLogic Kirq KmainProps Klife.

Inductive event :=
| EOpen
| EClose
| EIoctl (cmd : Z) (arg : user_arg)
| EMmap (vm_start vm_end vm_pgoff : Z)
| EInterrupt (d q : Z).

Definition valid_queue (a : ixmap_adapter) (d q : Z) : bool :=
  (0 <=? d) && (d <=? 1) && (0 <=? q) && (q <? queues_of d a).

(** Requests under which the code behaves.  Left out are two that the driver's
    checks accept and must not: an interrupt for the queue whose index is the number
    of queues ([irq_assign_past_end]) and unmapping the area of the registers
    ([unmap_registers_undefined]); and mapping memory that the IOMMU puts at the
    address of the registers.  Numbers and indices of queues are unsigned;
    interrupts come from queues that have one. *)
Definition proper (a : ixmap_adapter) (e : event) : bool :=
  match e with
  | EIoctl cmd arg =>
      if cmd =? IXMAP_UP then
        match u_up arg with Some r => (0 <=? ur_num_rx_queues r) && (0 <=? ur_num_tx_queues r) | None => true end
      else if cmd =? IXMAP_IRQ then
        match u_irq arg with
        | Some r => (0 <=? qr_queue_idx r) &&
            negb ((0 <=? qr_type r) && (qr_type r <=? 1) && (qr_queue_idx r =? queues_of (qr_type r) a))
        | None => true
        end
      else if cmd =? IXMAP_MAP then
        match u_map arg with Some r => negb (dma_start (mr_sg r) =? ka_iobase a) | None => true end
      else if cmd =? IXMAP_UNMAP then
        match u_unmap arg with Some r => negb (nr_addr_dma r =? ka_iobase a) | None => true end
      else true
  | EInterrupt d q => ka_up a && valid_queue a d q
  | _ => true
  end.

(** Up, but without interrupts. *)
Definition no_interrupts (a : ixmap_adapter) : bool :=
  ka_up a && match ka_msix_entries a with At _ => false | _ => true end.

Section Run.

Context {D : Type} `{Device D}.

Notation st := (ixmap_hw * D)%type.

(** One event; whether the device is open afterwards, [None] to stop. *)
Definition step (opened : bool) (e : event) : K D (option bool) :=
  a ← ad (fun a => a);
  if negb (proper a e) then mret None
  else
    match e with
    | EOpen => '(_, ok) ← ixmap_open; mret (Some (opened || ok))
    | EClose => if opened then ixmap_close true ;; mret (Some false) else mret (Some false)
    | EIoctl cmd arg =>
        if opened then
          ixmap_ioctl false true cmd arg ;;
          a ← ad (fun a => a);
          mret (if no_interrupts a then None else Some true)
        else mret (Some false)
    | EMmap s e o => if opened then ixmap_mmap true s e o ;; mret (Some true) else mret (Some false)
    | EInterrupt d q => (irq_slot d q ≫= ixmap_interrupt) ;; mret (Some opened)
    end.

Fixpoint run (opened : bool) (es : list event) : K D (option bool) :=
  match es with
  | [] => mret (Some opened)
  | e :: es => r ← step opened e; match r with Some o => run o es | None => mret None end
  end.

(** What [step] and [run] come to. *)
Definition run_post (p : Z) : post (D := D) (option bool) :=
  fun r a R s => match r with Some o => (sound o a /\ R ≡ₚ held a p) /\ Live p s | None => True end.

Lemma kt_open t o p a :
  sound o a ->
  kt (D := D) t a (Live p) (held a p) ixmap_open
    (fun r a' R' s => r = (if o then (- EBUSY, false) else (0, true)) /\ (sound true a' /\ R' ≡ₚ held a' p) /\ Live p s).
Proof.
  intros Ha. pose proof Ha as (Hok & Href & Hup). unfold ixmap_open, ixmap_adapter_inuse, ixmap_adapter_get.
  apply kt_assoc, kt_ad, kt_ret_bind. rewrite Href. destruct o; cbn [Z.eqb negb]; [by apply kt_ret|].
  apply kt_set_ad, kt_ret. intros s Hs. split; [done|]. split; [|done]. rewrite Href. done.
Qed.

Lemma kt_close p a :
  sound true a -> kt (D := D) false a (Live p) (held a p) (ixmap_close true) (in_order false p).
Proof.
  intros Ha. unfold ixmap_close, ixmap_adapter_put. cbn [negb]. eapply kt_bind; [by apply kt_cmd_down|].
  intros r a' R'. apply kt_pure. intros [(Hok & Href & Hup) HR]. eapply kt_need; [exact HR|].
  apply kt_set_ad, kt_ret. intros s Hs. split; [|done]. rewrite Href. done.
Qed.

Lemma proper_ioctl a cmd arg : proper a (EIoctl cmd arg) = true ->
  (cmd = IXMAP_UP -> forall r, u_up arg = Some r -> 0 <= ur_num_rx_queues r /\ 0 <= ur_num_tx_queues r) /\
  (cmd = IXMAP_IRQ -> forall r, u_irq arg = Some r ->
     0 <= qr_queue_idx r /\ (0 <= qr_type r <= 1 -> qr_queue_idx r <> queues_of (qr_type r) a)) /\
  (cmd = IXMAP_MAP -> forall r, u_map arg = Some r -> dma_start (mr_sg r) <> ka_iobase a) /\
  (cmd = IXMAP_UNMAP -> forall r, u_unmap arg = Some r -> nr_addr_dma r <> ka_iobase a).
Proof.
  cbn [proper]. intros Hp. split_and!; intros -> r E; repeat case_match; try discriminate; simplify_eq; clear -Hp.
  - lia.
  - rewrite andb_true_iff, negb_true_iff, !andb_false_iff in Hp. lia.
  - lia.
  - lia.
Qed.

Lemma kt_no_reply o p a (m : K D Z) :
  kt false a (Live p) (held a p) m (in_order_or_broken o p) ->
  kt false a (Live p) (held a p) (no_reply m) (in_order_or_broken o p).
Proof. intros Hm. unfold no_reply. eapply kt_bind; [exact Hm|]. intros x a' R'. apply kt_ret. by intros s. Qed.

Lemma kt_ioctl o p a cmd arg :
  sound o a -> proper a (EIoctl cmd arg) = true ->
  kt (D := D) false a (Live p) (held a p) (ixmap_ioctl false true cmd arg) (in_order_or_broken o p).
Proof.
  intros Ha (Hup & Hirq & Hmap & Hunmap)%proper_ioctl. unfold ixmap_ioctl. cbn [negb].
  destruct (Z.eqb_spec cmd IXMAP_INFO); [by apply kt_order, kt_cmd_info|].
  destruct (Z.eqb_spec cmd IXMAP_UP); [by apply kt_no_reply, kt_cmd_up; [|apply Hup]|].
  destruct (Z.eqb_spec cmd IXMAP_MAP); [by apply kt_order, kt_cmd_map; [|apply Hmap]|].
  destruct (Z.eqb_spec cmd IXMAP_UNMAP); [by apply kt_no_reply, kt_order, kt_cmd_unmap; [|apply Hunmap]|].
  destruct (Z.eqb_spec cmd IXMAP_DOWN); [by apply kt_no_reply, kt_order, kt_cmd_down|].
  destruct (Z.eqb_spec cmd IXMAP_RESET); [by apply kt_no_reply, kt_order, kt_cmd_reset|].
  destruct (Z.eqb_spec cmd IXMAP_CHECK_LINK); [by apply kt_order, kt_cmd_check_link|].
  destruct (Z.eqb_spec cmd IXMAP_IRQ); [by apply kt_order, kt_cmd_irq; [|apply Hirq]|].
  apply kt_ret. intros s Hs. split; [by left|done].
Qed.

Lemma kt_mmap o p a vs ve off :
  sound o a -> kt (D := D) false a (Live p) (held a p) (ixmap_mmap true vs ve off) (in_order o p).
Proof.
  intros Ha. unfold ixmap_mmap. cbn [negb]. destruct (negb _); [by apply kt_ret|]. apply kt_ad, kt_hw. intros h.
  apply kt_forget. destruct (ixmap_dma_area_lookup _ _) as [[i x]|]; [|by apply kt_ret].
  destruct (negb _); [by apply kt_ret|]. apply kt_ask. intros [r|]; by apply kt_ret.
Qed.

Lemma kt_interrupt t o p a d q :
  sound o a -> proper a (EInterrupt d q) = true ->
  kt (D := D) t a (Live p) (held a p) (irq_slot d q ≫= ixmap_interrupt) (in_order o p).
Proof.
  intros Ha. cbn [proper]. unfold valid_queue. rewrite !andb_true_iff. intros (Eu & ((Hd & Hd') & Hq) & Hq').
  pose proof Ha as (_ & _ & Hon). rewrite Eu in Hon.
  destruct (msix_on_dir a d Hon) as (pe & es & pi & l & pj & m & _ & Hl & _ & Hlen & Hat & _); [lia|].
  destruct (lookup_lt_is_Some_2 l (Z.to_nat q)) as [x Hx]; [lia|]. destruct (Hat _ _ Hx) as (i & -> & _).
  eapply kt_irq_slot; [exact Hl|lia|exact Hx|]. unfold ixmap_interrupt. apply kt_deref.
  destruct (irq_efd_ctx i) as [c|]; [|by apply kt_ret].
  intros s L Hs Hw HL. exists (held a p). split; [|exact HL]. rewrite <- Hs in Ha |- *. done.
Qed.

Lemma sound_interrupts o a : sound o a -> no_interrupts a = false.
Proof.
  intros (_ & _ & Hup). unfold no_interrupts. destruct (ka_up a); [|done].
  destruct Hup as (pe & es & prx & lrx & ptx & ltx & -> & _). done.
Qed.

Lemma broken_interrupts a : broken a -> no_interrupts a = true.
Proof. intros [Eu (He & _)]. unfold no_interrupts. by rewrite Eu, He. Qed.

Lemma kt_step o p a e :
  sound o a -> kt (D := D) false a (Live p) (held a p) (step o e) (run_post p).
Proof.
  intros Ha. unfold step. apply kt_ad. destruct (proper a e) eqn:Ep; cbn [negb]; [|by apply kt_ret].
  destruct e as [| |cmd arg|vs ve off|d q].
  - eapply kt_bind; [by apply kt_open|]. intros r a' R'. apply kt_pure. intros ->. destruct o; by apply kt_ret.
  - destruct o; [|by apply kt_ret]. eapply kt_bind; [by apply kt_close|]. intros r a' R'. by apply kt_ret.
  - destruct o; [|by apply kt_ret]. eapply kt_bind; [by apply kt_ioctl|]. intros r a' R'. apply kt_pure.
    intros [[Ha' HR]|Hb]; apply kt_ad.
    + rewrite (sound_interrupts _ _ Ha'). by apply kt_ret.
    + rewrite (broken_interrupts _ Hb). by apply kt_ret.
  - destruct o; [|by apply kt_ret]. eapply kt_bind; [by apply kt_mmap|]. intros r a' R'. by apply kt_ret.
  - eapply kt_bind; [by apply kt_interrupt|]. intros r a' R'. by apply kt_ret.
Qed.

Lemma kt_run o p a es : sound o a -> kt (D := D) false a (Live p) (held a p) (run o es) (run_post p).
Proof.
  revert o a. induction es as [|e es IH]; intros o a Ha; cbn [run]; [by apply kt_ret|].
  eapply kt_bind; [by apply kt_step|]. intros [o'|] a' R'; [|by apply kt_ret].
  apply kt_pure. intros [Ha' HR]. eapply kt_need; [exact HR|]. by apply IH.
Qed.

(** ** Removing *)

Lemma o_unmap_all v R :
  Forall area_ok (areas v) ->
  outcomes (concat (area_res v <$> areas v) ++ R) (v ← ixmap_dma_unmap_all v; mret (tt, v)) (fun _ R' => R' ≡ₚ R).
Proof. intros Hok. eapply o_bind; [by apply t_dma_unmap_all|]. intros v'. by apply o_ret. Qed.

Lemma kt_adapter_free t a (W : st -> Prop) R R' {B} (f : unit -> K D B) Q :
  R ≡ₚ (KMalloc, ka_hw_ptr a, sizeof_hw) :: (KMalloc, ka_ptr a, sizeof_adapter) :: R' ->
  kt t a W R' (f tt) Q -> kt t a W R (ixmap_adapter_free ≫= f) Q.
Proof.
  intros HR Hf. unfold ixmap_adapter_free. apply kt_assoc, kt_ad, kt_assoc, kt_dev_list. intros l.
  apply kt_assoc, kt_set_dev_list, kt_assoc. eapply kt_release; [exact HR|]. eapply kt_release; [reflexivity|exact Hf].
Qed.

(** What is left of a device that is down. *)
Lemma kt_remove_down a0 a p :
  ka_pdev a0 = ka_pdev a -> areas_ok (ka_iobase a) (ka_areas a) ->
  kt (D := D) false a (Live p) (dma_res a p ++ base_res a)
    (ixmap_miscdev_deregister ;;
     with_dma (fun v => v ← ixmap_dma_unmap_all v; mret (tt, v)) ;;
     sys (release KRegions (pdev_name (ka_pdev a0)) 0) ;;
     sys (release KPci (pdev_name (ka_pdev a0)) 0) ;;
     ixmap_adapter_put ;;
     ixmap_adapter_free)
    (fun _ _ R' _ => R' ≡ₚ []).
Proof.
  intros -> [Hok _]. unfold ixmap_miscdev_deregister, base_res. apply kt_assoc, kt_ad, kt_assoc.
  eapply (kt_need _ _ _ _ ((KMisc, ka_ptr a, 0) :: (KMalloc, ka_misc_name a, MISCDEV_NAME_SIZE) :: dma_res a p ++
    [(KPci, pdev_name (ka_pdev a), 0); (KRegions, pdev_name (ka_pdev a), 0);
     (KMalloc, ka_ptr a, sizeof_adapter); (KMalloc, ka_hw_ptr a, sizeof_hw)])); [solve_Permutation|].
  eapply kt_release; [reflexivity|]. apply kt_assoc, kt_ad. eapply kt_release; [reflexivity|].
  eapply kt_with_dma; [by intros s []|by apply (o_unmap_all (dview a p))|]. intros [] v R' HR. eapply kt_need; [exact HR|].
  eapply kt_release; [apply perm_swap|]. eapply kt_release; [reflexivity|].
  unfold ixmap_adapter_put. apply kt_set_ad, kt_last. eapply kt_adapter_free; [apply perm_swap|]. by apply kt_ret.
Qed.

Lemma kt_remove o p a : sound o a -> kt (D := D) false a (Live p) (held a p) ixmap_remove (fun _ _ R' _ => R' ≡ₚ []).
Proof.
  intros Ha. pose proof Ha as (Hok & Href & Hup). unfold ixmap_remove, held, up_res. apply kt_ad.
  destruct (ka_up a).
  - apply kt_assoc. eapply kt_bind; [apply kt_down; [done|by apply io_held]|]. intros r a' R'. apply kt_pure. intros _.
    apply kt_pure. intros Hc. apply kt_pure. intros _. apply kt_pure. intros _. apply kt_pure. intros HR. apply kt_ret_bind.
    destruct (core_fields _ _ Hc) as (_ & _ & E3 & E4 & _ & _ & E7 & E8). cbn in E3, E4.
    change (base_res (downed a)) with (base_res a) in E7. change (dma_res (downed a)) with (dma_res a) in E8.
    eapply kt_need; [rewrite HR, <- E7, <- E8; reflexivity|].
    apply kt_remove_down; [exact (eq_sym (f_equal ka_pdev Hc))|by rewrite E3, E4].
  - apply kt_ret_bind. by apply kt_remove_down.
Qed.

End Run.
