(* ===== verification/Kprobe.v ===== *)
(** * The kernel module: probing

    What [ixmap_probe] holds when it succeeds, and what it has given back when it
    fails, on any card. *)

From stdpp Require Import prelude list.
From S2P Require Import Prelude Os Kdma KdmaProps HwRegs Hw HwLogic Eeprom Common RegCard Ixgbe82599 NvmRead HwSafe.
From S2P Require Import HwSafeProps Kmain Fops KLogic Kirq KmainProps Klife KlifeProps KmainDemo.

Section Probe.

Context {D : Type} `{Device D}.

Notation st := (ixmap_hw * D)%type.

Implicit Types (a : ixmap_adapter) (R : list res).

Lemma kt_masks t a (W : st -> Prop) R {B} (f : option bool -> K D B) Q :
  (forall r, kt t a W R (f r) Q) -> kt t a W R (set_dma_masks ≫= f) Q.
Proof.
  intros Hf. unfold set_dma_masks. apply kt_assoc, kt_ask. intros m64.
  assert (forall c64 : option Z, kt t a W R (match c64 with
    | Some _ => mret (Some true)
    | None => m32 ← sys ask; match m32 with
              | Some _ => mret (Some false)
              | None => c32 ← sys ask; mret match c32 with Some _ => Some false | None => None end
              end
    end ≫= f) Q) as Hrest.
  { intros [c|]; [by apply kt_ret_bind|]. apply kt_assoc, kt_ask. intros [m|]; [by apply kt_ret_bind|].
    apply kt_assoc, kt_ask. intros c. by apply kt_ret_bind. }
  apply kt_assoc. destruct m64; [apply kt_ask; intros c; apply Hrest|apply kt_ret_bind; exact (Hrest None)].
Qed.

Lemma o_map_iobase v R :
  areas v = [] ->
  outcomes R (ixmap_dma_map_iobase v)
    (fun r R' => (r = (None, v) /\ R' ≡ₚ R) \/
       exists h x, r = (Some h, set_areas [DmaArea x 1 (iolen v) IXGBE_DMA_CACHE_DISABLE (iobase v) 0 [] 0 0] v) /\
         R' ≡ₚ (KMalloc, x, sizeof_dma_area) :: (KIomap, h, 0) :: R).
Proof.
  intros Hv. unfold ixmap_dma_map_iobase, ixmap_dma_area_whereto. rewrite Hv. cbn [whereto].
  own_out.
  - apply o_ret. right. by eexists _, _.
  - apply o_ret. by left.
  - apply o_ret. by left.
Qed.

(** The adapter while it is being probed. *)
Definition probing a a' : Prop := exists id name, a' = set_ka_misc_name name (set_ka_eeprom_id id a).

Lemma probing_refl a : probing a a.
Proof. exists (ka_eeprom_id a), (ka_misc_name a). by destruct a. Qed.

Lemma s_eeprom_id : safe (D := D) ee_inv read_eeprom_id any.
Proof.
  unfold read_eeprom_id. pose proof (s_read_into_any (D := D)) as Hr.
  do 3 (eapply s_bind; [apply Hr|]; intros [? ?] _). destruct (_ && _); [|by apply s_ret].
  do 2 (eapply s_bind; [apply Hr|]; intros [? ?] _). destruct (_ && _); by apply s_ret.
Qed.

Definition probe_hw_post a R p : post (D := D) bool :=
  fun ok a' R' s => (probing a a' /\
    (if ok : bool then R' ≡ₚ (KMisc, ka_ptr a, 0) :: (KMalloc, ka_misc_name a', MISCDEV_NAME_SIZE) :: R else R' ≡ₚ R)) /\ Live p s.

Lemma kt_probe_hw a R p :
  (KIomap, p, 0) ∈ R -> kt (D := D) false a (Live p) R probe_hw (probe_hw_post a R p).
Proof.
  intros HR.
  assert (kt (D := D) false a (Live p) R (mret false) (probe_hw_post a R p)) as Hfail.
  { apply kt_ret. intros s Hs. split; [|done]. split; [apply probing_refl|done]. }
  unfold probe_hw. eapply kt_card; [apply s_reset_hw|exact HR|intros err _]. destruct (negb _); [exact Hfail|].
  eapply kt_card; [apply s_validate|exact HR|intros [status c] _]. destruct (status <? 0); [exact Hfail|].
  apply kt_hw. intros mac. apply kt_forget. destruct (negb _); [exact Hfail|].
  eapply kt_card; [apply s_eeprom_id|exact HR|intros id _]. apply kt_set_ad. set (a1 := set_ka_eeprom_id _ a).
  eapply kt_card; [apply s_start_82599|exact HR|intros r _]. eapply kt_laser; [apply s_laser_off|exact HR|].
  eapply kt_card; [eapply s_any, s_pba; [reflexivity|by vm_compute]|exact HR|intros r' _].
  eapply kt_card; [apply s_drv_ver|exact HR|intros r'' _].
  unfold ixmap_miscdev_register. apply kt_assoc, kt_acquire.
  2:{ apply kt_ret_bind, kt_ret. intros s Hs. split; [|done]. split; [|by cbn]. exists (Some id), (ka_misc_name a). by destruct a. }
  intros name. apply kt_assoc, kt_set_ad, kt_assoc, kt_ad, kt_assoc.
  eapply kt_sys; [apply t_grant|]. intros [|]; cbn [negb].
  - apply kt_ret_bind, kt_ret. intros s Hs. split; [|done]. split; [by eexists _, _|by cbn].
  - apply kt_assoc. eapply kt_release; [reflexivity|]. apply kt_ret_bind, kt_ret. intros s Hs. split; [|done].
    split; [by eexists _, _|by cbn].
Qed.

(** What stays behind when probing fails, if the device was enabled. *)
Definition left_behind (pdev : pci_dev) R : Prop :=
  R ≡ₚ [(KPci, pdev_name pdev, 0)] \/
  exists x, R ≡ₚ [(KMalloc, x, sizeof_adapter); (KPci, pdev_name pdev, 0)].

Definition probe_post (pdev : pci_dev) : post (D := D) bool :=
  fun ok a R s => if ok : bool then exists p, (sound false a /\ R ≡ₚ held a p) /\ Live p s else left_behind pdev R.

(** The adapter once it is allocated and told where its registers are. *)
Definition fresh (pdev : pci_dev) (id : Z) (ptr hptr mask : Z) : ixmap_adapter :=
  IxmapAdapter ptr hptr pdev id false 0 1 mask (pdev_start pdev) (pdev_len pdev) [] None Null false 0 Null Null 0 0 0 0 0.

Definition mapped (x : Z) a : ixmap_adapter :=
  set_ka_areas [DmaArea x 1 (ka_iolen a) IXGBE_DMA_CACHE_DISABLE (ka_iobase a) 0 [] 0 0] a.

Lemma mapped_res x a p R :
  (KMalloc, x, sizeof_dma_area) :: (KIomap, p, 0) :: R ≡ₚ dma_res (mapped x a) p ++ R.
Proof.
  unfold dma_res. cbn [ka_areas mapped set_ka_areas fmap list_fmap concat]. unfold area_res.
  cbn [ar_addr_dma iobase dview ka_iobase hw_addr ar_ptr]. rewrite Z.eqb_refl. cbn [app]. apply perm_swap.
Qed.

Lemma mapped_ok x a : areas_ok (ka_iobase a) (ka_areas (mapped x a)).
Proof. split; [by repeat constructor|by left]. Qed.

(** Set-up that fails after the registers were mapped. *)
Lemma kt_probe_undo a p R R' (Q : post bool) :
  Forall area_ok (ka_areas a) ->
  R ≡ₚ dma_res a p ++ (KMalloc, ka_hw_ptr a, sizeof_hw) :: (KMalloc, ka_ptr a, sizeof_adapter) :: R' ->
  forall rest, (forall a', kt (D := D) false a' (Live p) R' rest Q) ->
  kt false a (Live p) R
    (with_dma (fun v => v ← ixmap_dma_unmap_all v; mret (tt, v)) ;; ixmap_adapter_free ;; rest) Q.
Proof.
  intros Hok HR rest Hrest. eapply kt_need; [exact HR|].
  eapply kt_with_dma; [by intros s []|by apply (o_unmap_all (dview a p))|]. intros [] v R1 HR1.
  eapply kt_need; [exact HR1|]. eapply kt_adapter_free; [reflexivity|]. apply Hrest.
Qed.

(** What a device holds from its allocation on. *)
Definition alloc_res (pdev : pci_dev) (ptr hptr : Z) : list res :=
  [(KMalloc, hptr, sizeof_hw); (KMalloc, ptr, sizeof_adapter); (KRegions, pdev_name pdev, 0); (KPci, pdev_name pdev, 0)].

Lemma probed_sound pdev id ptr hptr mask x p a R :
  probing (mapped x (fresh pdev id ptr hptr mask)) a ->
  R ≡ₚ (KMisc, ptr, 0) :: (KMalloc, ka_misc_name a, MISCDEV_NAME_SIZE) ::
       dma_res (mapped x (fresh pdev id ptr hptr mask)) p ++ alloc_res pdev ptr hptr ->
  sound false a /\ R ≡ₚ held a p.
Proof.
  intros (eid & name & ->) HR. split; [|rewrite HR; unfold held, base_res, alloc_res; cbn; solve_Permutation].
  split_and!; [apply (mapped_ok x (fresh pdev id ptr hptr mask))|done|]. cbn. split_and!; done.
Qed.

Lemma kt_probe_mapped pdev id ptr hptr mask x p :
  let a := mapped x (fresh pdev id ptr hptr mask) in
  kt (D := D) false a (Live 0) (dma_res a p ++ alloc_res pdev ptr hptr)
    (set_hw (set_hw_addr p) ;;
     ixmap_sw_init ;;
     ok ← probe_hw;
     if negb ok then
       with_dma (fun v => v ← ixmap_dma_unmap_all v; mret (tt, v)) ;;
       ixmap_adapter_free ;;
       sys (release KRegions (pdev_name pdev) 0) ;; mret false
     else mret true)
    (probe_post pdev).
Proof.
  intros a. set (R := dma_res a p ++ alloc_res pdev ptr hptr).
  assert ((KIomap, p, 0) ∈ R) as Hio by (apply io_held, (mapped_ok x (fresh pdev id ptr hptr mask))).
  apply (kt_set_hw _ _ _ (Live p)); [by intros [h d] [_ He]|]. unfold ixmap_sw_init. apply kt_assoc, kt_ad, kt_assoc.
  apply (kt_set_hw _ _ _ (Live p)); [by intros [h d] []|]. apply kt_assoc.
  eapply kt_card; [apply s_init_ops|exact Hio|]. intros u _. apply kt_ret_bind.
  eapply kt_bind; [by apply kt_probe_hw|]. intros [|] a' R'; apply kt_pure; intros [Ha' HR]; cbn [negb].
  - apply kt_ret. intros s Hs. exists p. split; [|done]. by eapply probed_sound.
  - apply (kt_probe_undo _ _ _ [(KRegions, pdev_name pdev, 0); (KPci, pdev_name pdev, 0)]).
    + destruct Ha' as (eid & name & ->). apply (mapped_ok x (fresh pdev id ptr hptr mask)).
    + rewrite HR. destruct Ha' as (eid & name & ->). done.
    + intros a2. eapply kt_release; [reflexivity|]. apply kt_ret. intros s _. by left.
Qed.

(** Probing, on any card and however the kernel answers. *)
Lemma kt_probe_enabled a0 pdev :
  kt (D := D) false a0 (fun _ => True) [(KPci, pdev_name pdev, 0)] (probe_enabled pdev) (probe_post pdev).
Proof.
  unfold probe_enabled.
  assert (forall a, kt (D := D) false a (fun _ => True) [(KPci, pdev_name pdev, 0)] (mret false) (probe_post pdev)) as Hpci.
  { intros a. apply kt_ret. intros s _. by left. }
  apply kt_masks. intros [dac|]; [|apply Hpci]. eapply kt_sys; [apply t_grant|]. intros [|]; cbn [negb]; [|apply Hpci].
  unfold ixmap_adapter_alloc. apply kt_assoc, kt_acquire.
  2:{ apply kt_ret_bind. eapply kt_release; [reflexivity|apply Hpci]. }
  intros ptr. apply kt_assoc, kt_acquire.
  2:{ apply kt_ret_bind. eapply kt_release; [apply perm_swap|]. apply kt_ret. intros s _. right. by exists ptr. }
  intros hptr. unfold ixmap_alloc_enid. do 2 apply kt_assoc. apply kt_dev_list. intros l. apply kt_ret_bind, kt_assoc, kt_set_ad.
  apply kt_assoc, (kt_set_hw _ _ _ (Live 0)); [by intros s _; split; [|left]|]. apply kt_assoc, kt_dev_list. intros l'.
  apply kt_assoc, kt_set_dev_list, kt_ret_bind. cbn [negb]. apply kt_set_ad.
  set (a := fresh pdev (Z.of_nat (length l)) ptr hptr (if dac then DMA_BIT_MASK 64 else DMA_BIT_MASK 32)).
  match goal with |- kt _ ?b _ _ _ _ => change b with a end. eapply kt_with_dma; [by intros s []|by apply o_map_iobase|].
  intros y v R' [[[= -> ->] HR]|(p & x & [= -> ->] & HR)]; eapply kt_need; try exact HR.
  - eapply kt_adapter_free; [reflexivity|]. eapply kt_release; [reflexivity|].
    apply kt_ret. intros s _. by left.
  - eapply kt_need; [apply (mapped_res x a)|]. apply kt_probe_mapped.
Qed.

Lemma kt_probe a0 pdev :
  kt (D := D) false a0 (fun _ => True) [] (ixmap_probe pdev)
    (fun ok a R s => probe_post pdev ok a R s \/ ok = false /\ R ≡ₚ []).
Proof.
  unfold ixmap_probe. eapply kt_sys; [apply t_grant|]. intros [|]; cbn [negb].
  - eapply kt_weaken; [apply kt_probe_enabled|]. intros x a R s Hx. by left.
  - apply kt_ret. intros s _. by right.
Qed.

End Probe.
