(* ===== verification/Kdevice.v ===== *)
(** * The kernel module: a device from probing to removing

    The composition of probing, any proper requests of a program and any interrupts,
    and removing, on any card and whatever the kernel refuses; then a card on which all
    of it succeeds. *)

From stdpp Require Import prelude list.
From S2P Require Import Prelude Os Kdma KdmaProps HwRegs Hw HwLogic Eeprom Nvm Common RegCard Ixgbe82599 NvmRead.
From S2P Require Import NvmDemo HwSafe HwSafeProps Kmain Fops KLogic Kirq KmainProps Klife KlifeProps KmainDemo.
From S2P Require Import Kprobe.

Section Device.

Context {D : Type} `{Device D}.

(** [Some true] when the device was probed and removed, [Some false] when it could
    not be probed, [None] when [run] stopped. *)
Definition life (pdev : pci_dev) (es : list event) : K D (option bool) :=
  probed ← ixmap_probe pdev;
  if negb probed then mret (Some false)
  else
    r ← run false es;
    match r with Some _ => ixmap_remove ;; mret (Some true) | None => mret None end.

Lemma kt_life a0 pdev es :
  kt (D := D) false a0 (fun _ => True) [] (life pdev es) (fun r _ R _ =>
    match r with Some true => R ≡ₚ [] | Some false => R ≡ₚ [] \/ left_behind pdev R | None => True end).
Proof.
  unfold life. eapply kt_bind; [apply kt_probe|]. intros [|] a R; cbn [negb].
  - apply kt_pre with (fun s => exists p, (sound false a /\ R ≡ₚ held a p) /\ Live p s); [by intros s [?|[? _]]|].
    apply kt_exists. intros p. apply kt_pure. intros [Hs HR]. eapply kt_need; [exact HR|].
    eapply kt_bind; [by apply kt_run|].
    intros [o|] a' R'; [|by apply kt_ret]. apply kt_pure. intros [Ha' HR']. eapply kt_need; [exact HR'|].
    eapply kt_bind; [by eapply kt_remove|]. intros u a2 R2. by apply kt_ret.
  - apply kt_ret. intros s [Hs|[_ Hs]]; [by right|by left].
Qed.

(** C9: From probing a device to removing it again, with any sequence of opens,
    closes, requests and interrupts in between, whatever the registers and the EEPROM
    hold and whatever the kernel refuses, the module has no undefined behaviour: no
    use of memory it has freed or does not have, no access to registers that are not
    mapped, no double release; and once the device is removed, everything acquired
    was given back (a device that cannot be probed may stay enabled, [left_behind]).
    Left out is where the code is known to fail: [get_user_pages] pins all pages
    asked for or none; a run stops at a request that is not [proper], namely one for
    the interrupt of the queue whose index is the number of queues, or to unmap the
    registers, both of which the driver's checks accept, or a mapping that the IOMMU
    puts at the registers' address; and it stops when the device came up without
    interrupts. *)
Theorem device_life pdev es s :
  match life pdev es s with
  | Returns (Some true, s') => ledger (k_os s') ≡ₚ ledger (k_os s)
  | Returns (Some false, s') =>
      exists R, (R ≡ₚ [] \/ left_behind pdev R) /\ ledger (k_os s') ≡ₚ R ++ ledger (k_os s)
  | Returns (None, _) => True
  | Undefined => False
  | Unfinished => True
  end.
Proof.
  pose proof (kt_life (k_ad s) pdev es s (ledger (k_os s)) eq_refl I ltac:(done)) as Hl.
  destruct (life pdev es s) as [[[[|]|] s']| |]; [| |done..]; destruct Hl as (R & HR & HL); [|by exists R].
  by rewrite HL, HR.
Qed.

(** A device that the kernel enabled but whose set-up fails is never disabled
    again: [ixmap_probe] returns with the device still enabled, and, when the
    structure of the hardware could not be allocated, with the adapter still
    allocated. *)
Theorem probe_failure_leaks pdev s x l s' :
  answers (k_os s) = Some x :: l -> ixmap_probe (D := D) pdev s = Returns (false, s') ->
  exists R, left_behind pdev R /\ ledger (k_os s') ≡ₚ R ++ ledger (k_os s).
Proof.
  intros Ho. unfold ixmap_probe, mbind, K_bind, sys, grant, mbind, M_bind, ask. rewrite Ho. unfold hold. cbn [answers ledger mret M_ret negb]. intros E.
  match type of E with probe_enabled pdev ?s1 = _ =>
    pose proof (kt_probe_enabled (k_ad s) pdev s1 (ledger (k_os s)) eq_refl I ltac:(reflexivity)) as Hp end.
  rewrite E in Hp. exact Hp.
Qed.

(** C37: A device is open at most once: after any sequence of events that [run]
    does not stop at, a further open
    is refused with -EBUSY, and changes nothing, exactly when a program has the
    device open; the reference count is 2 then and 1 otherwise. *)
Theorem open_exclusive pdev es s s1 o s2 :
  ixmap_probe (D := D) pdev s = Returns (true, s1) -> run false es s1 = Returns (Some o, s2) ->
  ka_refcount (k_ad s2) = (if o then 2 else 1) /\
  exists s3, ixmap_open s2 = Returns (if o then (- EBUSY, false) else (0, true), s3) /\
    (o = true -> s3 = s2) /\ ka_refcount (k_ad s3) = 2.
Proof.
  intros Ep Er. pose proof (kt_probe (k_ad s) pdev s (ledger (k_os s)) eq_refl I ltac:(done)) as Hp. rewrite Ep in Hp.
  destruct Hp as (R & [(p & [Ha HR] & Hl)|[? _]] & HL); [|done]. rewrite HR in HL.
  pose proof (kt_run false p (k_ad s1) es Ha s1 _ eq_refl Hl HL) as Hr. rewrite Er in Hr.
  destruct Hr as (R2 & [[(_ & Href & _) _] _] & _). split; [exact Href|].
  unfold ixmap_open, ixmap_adapter_inuse, ixmap_adapter_get, ad, set_ad, mbind, K_bind, mret, K_ret. rewrite Href.
  destruct o; eexists; (split; [reflexivity|]); (split; [done|]); cbn; by rewrite Href.
Qed.

End Device.

(** ** A card on which everything succeeds *)

(** The EEPROM of [NvmDemo] with data for module 5. *)
Definition probe_chip : chip :=
  Chip (fun i => if i =? 141 then 0x17 else if i =? 142 then 0xFFFF else demo_rom 2 i) 2 false 3 5.

Record probe_card := ProbeCard { pc : nvm }.

#[export] Instance probe_device : Device probe_card := {
  readl r d :=
    if r =? IXGBE_RAL 0 then (0x30201002, d)
    else if r =? IXGBE_RAH 0 then (0x80005040, d)
    else if r =? IXGBE_ANLP1 then (IXGBE_ANLP1_AN_STATE_MASK, d)
    else let '(v, x) := demo_read probe_chip r (pc d) in (v, ProbeCard x);
  writel r v d := ProbeCard (demo_write probe_chip r v (pc d));
  delay _ d := d;
  pci_read_config_word _ d := (63, d)
}.

(** The kernel grants everything, and vectors at once when asked. *)
Definition probe_state (l : list (option Z)) : kstate probe_card :=
  KState (demo_off 0) zero_hw (ProbeCard (Nvm false false 0 (Pins false true false false) 0 [] false None)) (Os l []) [] [].

Definition life_answers : list (option Z) := (Some <$> seqZ 100 12) ++ [Some (-9)] ++ (Some <$> seqZ 113 20).

(** Opened, up with a queue per direction, an interrupt for the event descriptor 3
    and another attempt to open. *)
Definition life_events : list event :=
  [EOpen; EIoctl IXMAP_UP (UserArg (Some (UpReq 8 1 1)) None None None);
   EIoctl IXMAP_IRQ (UserArg None None None (Some (IrqReq 0 0 3))); EInterrupt 0 0; EOpen].

Example life_of_a_device :
  match life demo_pdev life_events (probe_state life_answers) with
  | Returns (r, s) => (r, ledger (k_os s), k_signals s)
  | _ => (None, [], [])
  end = (Some true, [], [EventfdCtx 119 3]).
Proof. vm_compute. reflexivity. Qed.

Definition outcome {A B} (f : A -> kstate probe_card -> B) (r : result (A * kstate probe_card)) : option B :=
  match r with Returns (x, s) => Some (f x s) | _ => None end.

Lemma outcome_some {A B} (f : A -> kstate probe_card -> B) r y :
  outcome f r = Some y -> exists x s, r = Returns (x, s) /\ f x s = y.
Proof. destruct r as [[x s]| |]; [|done|done]. intros [= <-]. by exists x, s. Qed.

Lemma life_returns :
  outcome (fun r _ => r) (life demo_pdev life_events (probe_state life_answers)) = Some (Some true).
Proof. vm_compute. reflexivity. Qed.

Lemma device_life_witness :
  exists s', life demo_pdev life_events (probe_state life_answers) = Returns (Some true, s') /\ ledger (k_os s') ≡ₚ [].
Proof.
  destruct (outcome_some _ _ _ life_returns) as (r & s' & E & ->). exists s'. split; [exact E|].
  pose proof (device_life demo_pdev life_events (probe_state life_answers)) as Hl. rewrite E in Hl. exact Hl.
Defined.

Lemma probe_refused : outcome (fun b _ => b) (ixmap_probe demo_pdev (probe_state [Some 1])) = Some false.
Proof. vm_compute. reflexivity. Qed.

Lemma probe_failure_leaks_witness :
  exists s', ixmap_probe demo_pdev (probe_state [Some 1]) = Returns (false, s') /\
    exists R, left_behind demo_pdev R /\ ledger (k_os s') ≡ₚ R ++ [].
Proof.
  destruct (outcome_some _ _ _ probe_refused) as (b & s' & E & ->). exists s'. split; [exact E|].
  exact (probe_failure_leaks demo_pdev (probe_state [Some 1]) 1 [] s' eq_refl E).
Defined.

Lemma life_runs :
  outcome (fun b s => (b, outcome (fun r _ => r) (run false life_events s))) (ixmap_probe demo_pdev (probe_state life_answers)) =
  Some (true, Some (Some true)).
Proof. vm_compute. reflexivity. Qed.

Lemma open_exclusive_witness :
  exists s1 s2 s3, ixmap_probe demo_pdev (probe_state life_answers) = Returns (true, s1) /\
    run false life_events s1 = Returns (Some true, s2) /\ ixmap_open s2 = Returns ((- EBUSY, false), s3).
Proof.
  destruct (outcome_some _ _ _ life_runs) as (b & s1 & E & [-> F]%pair_equal_spec).
  destruct (outcome_some _ _ _ F) as (r & s2 & E2 & ->).
  destruct (open_exclusive demo_pdev life_events _ s1 true s2 E E2) as (_ & s3 & E3 & _).
  exists s1, s2, s3. split; [exact E|]. split; [exact E2|exact E3].
Defined.

(** ** What the driver's checks leave open *)

(** The area of the registers can be unmapped like any other; the next access to a
    register, here to bring the device up, goes to memory that is no longer mapped. *)
Definition unmap_registers : K probe_card Z :=
  ixmap_probe demo_pdev ;; ixmap_open ;;
  '(r, _) ← ixmap_ioctl false true IXMAP_UNMAP (UserArg None None (Some (UnmapReq (pdev_start demo_pdev))) None);
  mret r.

Example unmap_registers_undefined :
  outcome (fun r _ => r) (unmap_registers (probe_state life_answers)) = Some 0 /\
  (unmap_registers ;; ixmap_ioctl false true IXMAP_UP (UserArg (Some (UpReq 8 1 1)) None None None)) (probe_state life_answers) = Undefined.
Proof. split; vm_compute; reflexivity. Qed.

(** The number of a device is the number of devices there are: of two devices the
    first is removed, and the next one gets the number of the second. *)
Example enid_repeats :
  outcome (fun _ s => (snd <$> k_dev_list s))
    ((ixmap_adapter_alloc demo_pdev ;; a ← ad (fun a => a); ixmap_adapter_alloc demo_pdev ;;
      set_ad (fun _ => a) ;; ixmap_adapter_free ;; ixmap_adapter_alloc demo_pdev) (probe_state life_answers)) =
  Some [1; 1].
Proof. vm_compute. reflexivity. Qed.
