(* ===== verification/Lists.v ===== *)
(** * Intrusive lists (src/src/linux/list.h)

    The lists of the kernel module, the tables and the worker threads, as the
    pointers they are made of.  The memory has a part per field: [nx] holds [next]
    of a [list_head] or [hlist_node] and [first] of an [hlist_head], by the address
    of the structure, [pv] holds [prev] or [pprev].  A pointer to a pointer
    ([pprev]) always is the address of a [next] or a [first], which is where its
    structure starts.  [None] is an access to memory that is not there; address 0
    never is. *)

From stdpp Require Import prelude gmap list.
From S2P Require Import Prelude.

Record heap := Heap { nx : gmap Z Z; pv : gmap Z Z }.

Definition LM (A : Type) := heap -> option (A * heap).

#[export] Instance LM_ret : MRet LM := fun A x m => Some (x, m).
#[export] Instance LM_bind : MBind LM := fun A B f c m =>
  match c m with Some (x, m') => f x m' | None => None end.

(** [p->next] (or [*pprev], or [first]) and [p->prev] (or [pprev]) *)
Definition next (p : Z) : LM Z := fun m => match nx m !! p with Some x => Some (x, m) | None => None end.
Definition prev (p : Z) : LM Z := fun m => match pv m !! p with Some x => Some (x, m) | None => None end.
Definition set_next (p v : Z) : LM unit := fun m =>
  match nx m !! p with Some _ => Some (tt, Heap (<[p := v]> (nx m)) (pv m)) | None => None end.
Definition set_prev (p v : Z) : LM unit := fun m =>
  match pv m !! p with Some _ => Some (tt, Heap (nx m) (<[p := v]> (pv m))) | None => None end.

Definition LIST_POISON1 : Z := 0x00100100.
Definition LIST_POISON2 : Z := 0x00200200.

(** ** Doubly linked lists *)

Definition INIT_LIST_HEAD (list : Z) : LM unit := set_next list list ;; set_prev list list.

Definition __list_add (new prev next : Z) : LM unit :=
  set_prev next new ;; set_next new next ;; set_prev new prev ;; set_next prev new.

Definition list_add (new head : Z) : LM unit := n ← next head; __list_add new head n.
Definition list_add_tail (new head : Z) : LM unit := p ← prev head; __list_add new p head.

Definition __list_del (prev next : Z) : LM unit := set_prev next prev ;; set_next prev next.

Definition __list_del_entry (entry : Z) : LM unit := p ← prev entry; n ← next entry; __list_del p n.

Definition list_del (entry : Z) : LM unit :=
  p ← prev entry; n ← next entry; __list_del p n ;;
  set_next entry LIST_POISON1 ;; set_prev entry LIST_POISON2.

Definition list_replace (old new : Z) : LM unit :=
  n ← next old; set_next new n ;; n ← next new; set_prev n new ;;
  p ← prev old; set_prev new p ;; p ← prev new; set_next p new.

Definition list_replace_init (old new : Z) : LM unit := list_replace old new ;; INIT_LIST_HEAD old.

Definition list_del_init (entry : Z) : LM unit := __list_del_entry entry ;; INIT_LIST_HEAD entry.

Definition list_move (list head : Z) : LM unit := __list_del_entry list ;; list_add list head.
Definition list_move_tail (list head : Z) : LM unit := __list_del_entry list ;; list_add_tail list head.

Definition list_is_last (list head : Z) : LM bool := n ← next list; mret (n =? head).

Definition list_empty (head : Z) : LM bool := n ← next head; mret (n =? head).

Definition list_empty_careful (head : Z) : LM bool :=
  n ← next head;
  if n =? head then p ← prev head; mret (n =? p) else mret false.

Definition list_rotate_left (head : Z) : LM unit :=
  empty ← list_empty head;
  if negb empty then first ← next head; list_move_tail first head else mret tt.

Definition list_is_singular (head : Z) : LM bool :=
  empty ← list_empty head;
  if negb empty then n ← next head; p ← prev head; mret (n =? p) else mret false.

Definition __list_cut_position (list head entry : Z) : LM unit :=
  new_first ← next entry;
  n ← next head; set_next list n ;;
  n ← next list; set_prev n list ;;
  set_prev list entry ;;
  set_next entry list ;;
  set_next head new_first ;;
  set_prev new_first head.

Definition list_cut_position (list head entry : Z) : LM unit :=
  empty ← list_empty head;
  if empty : bool then mret tt
  else
    singular ← list_is_singular head;
    n ← (if singular : bool then next head else mret 0);
    if singular && (negb (n =? entry) && negb (head =? entry)) then mret tt
    else if entry =? head then INIT_LIST_HEAD list
    else __list_cut_position list head entry.

Definition __list_splice (list p n : Z) : LM unit :=
  first ← next list;
  last ← prev list;
  set_prev first p ;; set_next p first ;; set_next last n ;; set_prev n last.

Definition list_splice (list head : Z) : LM unit :=
  empty ← list_empty list;
  if negb empty then n ← next head; __list_splice list head n else mret tt.

Definition list_splice_tail (list head : Z) : LM unit :=
  empty ← list_empty list;
  if negb empty then p ← prev head; __list_splice list p head else mret tt.

Definition list_splice_init (list head : Z) : LM unit :=
  empty ← list_empty list;
  if negb empty then n ← next head; __list_splice list head n ;; INIT_LIST_HEAD list else mret tt.

Definition list_splice_tail_init (list head : Z) : LM unit :=
  empty ← list_empty list;
  if negb empty then p ← prev head; __list_splice list p head ;; INIT_LIST_HEAD list else mret tt.

(** ** Loops

    The address of an entry stands for the entry that contains it ([list_entry]).
    A round adds the entry to those seen so far; [None] also when the loop takes
    more than [fuel] rounds. *)

Fixpoint walk (step : Z -> LM Z) (fuel : nat) (pos head : Z) : LM (list Z) :=
  if pos =? head then mret []
  else
    match fuel with
    | O => fun _ => None
    | S fuel => n ← step pos; l ← walk step fuel n head; mret (pos :: l)
    end.

Definition list_for_each (fuel : nat) (head : Z) : LM (list Z) := pos ← next head; walk next fuel pos head.
Definition list_for_each_prev (fuel : nat) (head : Z) : LM (list Z) := pos ← prev head; walk prev fuel pos head.

(** The loop whose body may remove the entry. *)
Fixpoint walk_safe (body : Z -> LM unit) (fuel : nat) (pos n head : Z) : LM unit :=
  if pos =? head then mret tt
  else
    match fuel with
    | O => fun _ => None
    | S fuel => body pos ;; n' ← next n; walk_safe body fuel n n' head
    end.

Definition list_for_each_safe (fuel : nat) (head : Z) (body : Z -> LM unit) : LM unit :=
  pos ← next head; n ← next pos; walk_safe body fuel pos n head.

(** ** Lists with a single pointer at the head *)

Definition INIT_HLIST_HEAD (ptr : Z) : LM unit := set_next ptr 0.

Definition INIT_HLIST_NODE (h : Z) : LM unit := set_next h 0 ;; set_prev h 0.

Definition hlist_unhashed (h : Z) : LM bool := p ← prev h; mret (p =? 0).

Definition hlist_empty (h : Z) : LM bool := f ← next h; mret (f =? 0).

Definition __hlist_del (n : Z) : LM unit :=
  x ← next n;
  pprev ← prev n;
  set_next pprev x ;;
  if negb (x =? 0) then set_prev x pprev else mret tt.

Definition hlist_del (n : Z) : LM unit :=
  __hlist_del n ;; set_next n LIST_POISON1 ;; set_prev n LIST_POISON2.

Definition hlist_del_init (n : Z) : LM unit :=
  unhashed ← hlist_unhashed n;
  if negb unhashed then __hlist_del n ;; INIT_HLIST_NODE n else mret tt.

Definition hlist_add_head (n h : Z) : LM unit :=
  first ← next h;
  set_next n first ;;
  (if negb (first =? 0) then set_prev first n else mret tt) ;;
  set_next h n ;;
  set_prev n h.

Definition hlist_add_before (n x : Z) : LM unit :=
  p ← prev x; set_prev n p ;;
  set_next n x ;;
  set_prev x n ;;
  p ← prev n; set_next p n.

Definition hlist_add_behind (n p : Z) : LM unit :=
  x ← next p; set_next n x ;;
  set_next p n ;;
  set_prev n p ;;
  x ← next n;
  if negb (x =? 0) then x ← next n; set_prev x n else mret tt.

Definition hlist_add_fake (n : Z) : LM unit := set_prev n n.

Definition hlist_move_list (old new : Z) : LM unit :=
  first ← next old; set_next new first ;;
  first ← next new;
  (if negb (first =? 0) then set_prev first new else mret tt) ;;
  set_next old 0.

Definition hlist_for_each (fuel : nat) (head : Z) : LM (list Z) := pos ← next head; walk next fuel pos 0.

(** [n] is read before the body runs. *)
Fixpoint hwalk_safe (body : Z -> LM unit) (fuel : nat) (pos : Z) : LM unit :=
  if pos =? 0 then mret tt
  else
    match fuel with
    | O => fun _ => None
    | S fuel => n ← next pos; body pos ;; hwalk_safe body fuel n
    end.

Definition hlist_for_each_safe (fuel : nat) (head : Z) (body : Z -> LM unit) : LM unit :=
  pos ← next head; hwalk_safe body fuel pos.
