(* ===== verification/ListsProps.v ===== *)
(** * What the doubly linked lists promise

    A list is the cycle of links from its head through its entries and back.
    [lists m W]: the heap [m] holds the lists [W], each given by its head.  The
    abstract specification is a step relation on [W]; the operations on pointers
    simulate it. *)

From stdpp Require Import prelude gmap list.
From S2P Require Import Prelude Lists.

(** ** Links *)

Definition link (m : heap) (ab : Z * Z) : Prop := nx m !! ab.1 = Some ab.2 /\ pv m !! ab.2 = Some ab.1.

Definition linked (m : heap) (L : list (Z * Z)) : Prop := NoDup L.*1 /\ NoDup L.*2 /\ Forall (link m) L.

Definition mapped (m : heap) (a : Z) : Prop := is_Some (nx m !! a) /\ is_Some (pv m !! a).

(** The same structures are there. *)
Definition same_dom (m m' : heap) : Prop := forall a, (is_Some (nx m !! a) <-> is_Some (nx m' !! a)) /\
  (is_Some (pv m !! a) <-> is_Some (pv m' !! a)).

#[export] Instance linked_perm m : Proper ((≡ₚ) ==> iff) (linked m).
Proof.
  intros L L' HL. unfold linked. rewrite HL. done.
Qed.

Lemma same_dom_refl m : same_dom m m.
Proof. done. Qed.
Lemma same_dom_trans m1 m2 m3 : same_dom m1 m2 -> same_dom m2 m3 -> same_dom m1 m3.
Proof. intros H1 H2 a. destruct (H1 a) as [-> ->]. apply H2. Qed.
Lemma mapped_dom m m' a : same_dom m m' -> mapped m a -> mapped m' a.
Proof. intros Hd [H1 H2]. destruct (Hd a) as [E1 E2]. split; [by apply E1|by apply E2]. Qed.

Lemma set_next_ok p v m : is_Some (nx m !! p) -> set_next p v m = Some (tt, Heap (<[p := v]> (nx m)) (pv m)).
Proof. intros [x Hx]. unfold set_next. by rewrite Hx. Qed.
Lemma set_prev_ok p v m : is_Some (pv m !! p) -> set_prev p v m = Some (tt, Heap (nx m) (<[p := v]> (pv m))).
Proof. intros [x Hx]. unfold set_prev. by rewrite Hx. Qed.

Lemma insert_some (g : gmap Z Z) k v a : is_Some (g !! k) -> is_Some (g !! a) <-> is_Some (<[k := v]> g !! a).
Proof.
  intros Hk. destruct (decide (a = k)) as [->|Hne]; [rewrite lookup_insert_eq; naive_solver|by rewrite lookup_insert_ne].
Qed.

Lemma insert_keeps (g : gmap Z Z) k v a : is_Some (g !! a) -> is_Some (<[k := v]> g !! a).
Proof.
  intros Ha. destruct (decide (a = k)) as [->|Hne]; [rewrite lookup_insert_eq; by eexists|by rewrite lookup_insert_ne].
Qed.

(** What is there stays there. *)
Ltac there := cbn [nx pv]; repeat apply insert_keeps; solve [done | by eexists].
Ltac dom := intros ?; cbn [nx pv]; split; (rewrite <- !insert_some by there); done.

(** One step of a sequence of accesses. *)
Lemma run_next p x m {B} (f : Z -> LM B) : nx m !! p = Some x -> (next p ≫= f) m = f x m.
Proof. intros Hx. unfold mbind, LM_bind, next. by rewrite Hx. Qed.
Lemma run_prev p x m {B} (f : Z -> LM B) : pv m !! p = Some x -> (prev p ≫= f) m = f x m.
Proof. intros Hx. unfold mbind, LM_bind, prev. by rewrite Hx. Qed.
Lemma run_bind {A B} (c : LM A) (f : A -> LM B) x m m' : c m = Some (x, m') -> (c ≫= f) m = f x m'.
Proof. intros Hc. unfold mbind, LM_bind. by rewrite Hc. Qed.

(** ** Linking and unlinking *)

Lemma links_apart m p n L a b :
  linked m ((p, n) :: L) -> (a, b) ∈ L -> a <> p /\ b <> n.
Proof.
  intros (H1 & H2 & _) Hab. cbn in H1, H2. apply NoDup_cons in H1 as [H1 _]. apply NoDup_cons in H2 as [H2 _].
  split; intros ->; [apply H1|apply H2]; apply list_elem_of_fmap; eexists; (split; [|exact Hab]); done.
Qed.

(** Two links in place of one, with [new] between. *)
Lemma list_add_ok m p n new L :
  linked m ((p, n) :: L) -> mapped m new -> new ∉ ((p, n) :: L).*1 -> new ∉ ((p, n) :: L).*2 ->
  exists m', __list_add new p n m = Some (tt, m') /\ linked m' ((p, new) :: (new, n) :: L) /\ same_dom m m'.
Proof.
  intros HL [Hn Hp] N1 N2. pose proof HL as (H1 & H2 & [Hl HF]%Forall_cons). destruct Hl as [Lp Ln]. cbn [fst snd] in Lp, Ln.
  assert (new <> p /\ new <> n) as [Np Nn] by (cbn in N1, N2; set_solver).
  unfold __list_add. erewrite run_bind by (apply set_prev_ok; there).
  erewrite run_bind by (by apply set_next_ok). cbn [nx pv].
  erewrite run_bind by (apply set_prev_ok; there). cbn [nx pv].
  rewrite set_next_ok by there. cbn [nx pv].
  eexists. split; [reflexivity|]. split.
  - split; [|split]; cbn [fmap list_fmap fst snd] in *.
    + apply NoDup_cons in H1 as [H1 H1']. constructor; [set_solver|]. constructor; [set_solver|done].
    + apply NoDup_cons in H2 as [H2 H2']. constructor; [set_solver|]. constructor; [set_solver|done].
    + constructor; [|constructor].
      * split; cbn; [by rewrite lookup_insert_eq|by rewrite lookup_insert_eq].
      * split; cbn; [by rewrite lookup_insert_ne, lookup_insert_eq by done|by rewrite lookup_insert_ne, lookup_insert_eq by done].
      * apply Forall_forall. intros [a b] Hab. destruct (links_apart _ _ _ _ _ _ HL Hab) as [Ha Hb].
        pose proof (proj1 (Forall_forall _ _) HF _ Hab) as [E1 E2]. cbn [fst snd] in E1, E2.
        assert (a <> new /\ b <> new) as [Na Nb].
        { split; intros ->; [apply N1|apply N2]; right; apply list_elem_of_fmap; eexists; (split; [|exact Hab]); done. }
        split; cbn; by rewrite !lookup_insert_ne by done.
  - dom.
Qed.

(** One link in place of two. *)
Lemma list_del_ok m p e n L :
  linked m ((p, e) :: (e, n) :: L) ->
  exists m', __list_del p n m = Some (tt, m') /\ linked m' ((p, n) :: L) /\ same_dom m m' /\
    nx m' !! e = (if decide (p = e) then Some n else nx m !! e) /\ pv m' !! e = (if decide (n = e) then Some p else pv m !! e).
Proof.
  intros HL. pose proof HL as (H1 & H2 & [[Lp Le] [[Le' Ln] HF]%Forall_cons]%Forall_cons). cbn [fst snd] in Lp, Le, Le', Ln.
  unfold __list_del. erewrite run_bind by (apply set_prev_ok; there).
  rewrite set_next_ok by there. cbn [nx pv]. eexists. split; [reflexivity|]. split_and!.
  - cbn [fmap list_fmap fst snd] in *. apply NoDup_cons in H1 as [N1 H1]. apply NoDup_cons in H1 as [N1' H1].
    apply NoDup_cons in H2 as [N2 H2]. apply NoDup_cons in H2 as [N2' H2]. split; [|split]; cbn.
    + constructor; [set_solver|done].
    + by constructor.
    + constructor; [split; cbn; by rewrite lookup_insert_eq|]. apply Forall_forall. intros [a b] Hab.
      pose proof (proj1 (Forall_forall _ _) HF _ Hab) as [E1 E2]. cbn [fst snd] in E1, E2.
      assert (a ∈ L.*1 /\ b ∈ L.*2) as [Ha Hb] by (split; apply list_elem_of_fmap; eexists; (split; [|exact Hab]); done).
      split; cbn; rewrite lookup_insert_ne; set_solver.
  - dom.
  - cbn. destruct (decide (p = e)) as [->|Hne]; [by rewrite lookup_insert_eq|by rewrite lookup_insert_ne].
  - cbn. destruct (decide (n = e)) as [->|Hne]; [by rewrite lookup_insert_eq|by rewrite lookup_insert_ne].
Qed.

(** ** Paths and cycles *)

Fixpoint path (a : Z) (l : list Z) (b : Z) : list (Z * Z) :=
  match l with [] => [(a, b)] | x :: l => (a, x) :: path x l b end.

(** The lists of a heap, by their heads. *)
Notation world := (gmap Z (list Z)).

Definition cycle (hl : Z * list Z) : list (Z * Z) := path hl.1 hl.2 hl.1.
Definition links (W : world) : list (Z * Z) := concat (cycle <$> map_to_list W).
Definition lists (m : heap) (W : world) : Prop := linked m (links W).

(** In none of the lists, and not the head of one. *)
Definition fresh (W : world) (e : Z) : Prop := e ∉ (links W).*1.

Lemma path_fst a l b : (path a l b).*1 = a :: l.
Proof. revert a. induction l as [|x l IH]; intros a; cbn; [done|]. f_equal. apply IH. Qed.
Lemma path_snd a l b : (path a l b).*2 = l ++ [b].
Proof. revert a. induction l as [|x l IH]; intros a; cbn; [done|]. f_equal. apply IH. Qed.

Lemma path_join a l1 x l2 b : path a (l1 ++ x :: l2) b = path a l1 x ++ path x l2 b.
Proof. revert a. induction l1 as [|y l1 IH]; intros a; cbn; [done|]. f_equal. apply IH. Qed.

(** A stretch in the middle can be exchanged. *)
Lemma path_middle a l1 l2 b : exists p n R, p = default a (last l1) /\ n = default b (head l2) /\
  forall l, path a (l1 ++ l ++ l2) b ≡ₚ path p l n ++ R.
Proof.
  revert a. induction l1 as [|y l1 IH]; intros a.
  - destruct l2 as [|x l2].
    + exists a, b, []. split_and!; [done..|]. intros l. by rewrite !app_nil_r.
    + exists a, x, (path x l2 b). split_and!; [done..|]. intros l. cbn [app]. by rewrite path_join.
  - destruct (IH y) as (p & n & R & Hp & Hn & HR). exists p, n, ((a, y) :: R). split_and!; [|done|].
    + destruct l1; [done|]. rewrite Hp. destruct (last_is_Some (z :: l1)) as [_ [u Hu]]; [done|].
      change (last (y :: z :: l1)) with (last (z :: l1)). by rewrite Hu.
    + intros l. cbn [app path]. rewrite HR. apply Permutation_middle.
Qed.

Lemma links_insert W h l : W !! h = None -> links (<[h := l]> W) ≡ₚ path h l h ++ links W.
Proof.
  intros Hh. unfold links. pose proof (map_to_list_insert W h l Hh) as Hp.
  rewrite Hp. done.
Qed.

Lemma links_lookup W h l : W !! h = Some l -> links W ≡ₚ path h l h ++ links (delete h W).
Proof.
  intros Hh. rewrite <- (insert_id W h l Hh) at 1. rewrite <- insert_delete_eq. apply links_insert, lookup_delete_eq.
Qed.

Lemma links_update W h l l' : W !! h = Some l -> links (<[h := l']> W) ≡ₚ path h l' h ++ links (delete h W).
Proof. intros Hh. rewrite <- insert_delete_eq. apply links_insert, lookup_delete_eq. Qed.

(** A stretch of a list of the world can be exchanged. *)
Lemma links_middle W h l1 l l2 : W !! h = Some (l1 ++ l ++ l2) ->
  exists p n R, p = default h (last l1) /\ n = default h (head l2) /\ links W ≡ₚ path p l n ++ R /\
    forall l', links (<[h := l1 ++ l' ++ l2]> W) ≡ₚ path p l' n ++ R.
Proof.
  intros Hh. destruct (path_middle h l1 l2 h) as (p & n & R & Hp & Hn & HR).
  exists p, n, (R ++ links (delete h W)). split_and!; [done|done|..].
  - rewrite (links_lookup _ _ _ Hh), HR. by rewrite (assoc_L (++)).
  - intros l'. rewrite (links_update _ _ _ _ Hh), HR. by rewrite (assoc_L (++)).
Qed.

Lemma links_ends W : (links W).*2 ≡ₚ (links W).*1.
Proof.
  unfold links. induction (map_to_list W) as [|[h l] k IH]; [done|].
  change (concat (cycle <$> (h, l) :: k)) with (path h l h ++ concat (cycle <$> k)).
  rewrite !fmap_app, IH, path_fst, path_snd. by rewrite <- Permutation_cons_append.
Qed.

Lemma fresh_both W e : fresh W e -> e ∉ (links W).*1 /\ e ∉ (links W).*2.
Proof. intros He. split; [done|]. by rewrite links_ends. Qed.

Lemma linked_in m L a b : linked m L -> (a, b) ∈ L -> nx m !! a = Some b /\ pv m !! b = Some a.
Proof. intros (_ & _ & HF) Hab. exact (proj1 (Forall_forall _ _) HF _ Hab). Qed.

Lemma linked_tail m L1 L2 : linked m (L1 ++ L2) -> linked m L2.
Proof.
  intros (H1 & H2 & HF). rewrite fmap_app in H1, H2. split_and!; [by apply NoDup_app in H1 as (_ & _ & ?)|
    by apply NoDup_app in H2 as (_ & _ & ?)|by apply Forall_app in HF as [_ ?]].
Qed.

Lemma lists_delete m W h : lists m W -> lists m (delete h W).
Proof.
  intros HW. destruct (W !! h) as [l|] eqn:Hh; [|by rewrite delete_id].
  unfold lists in *. rewrite (links_lookup _ _ _ Hh) in HW. by eapply linked_tail.
Qed.

(** ** Each operation *)

Definition does (m : heap) (c : LM unit) (W' : world) : Prop :=
  exists m', c m = Some (tt, m') /\ lists m' W' /\ same_dom m m'.

Lemma does_bind m c1 c2 W1 W2 :
  does m c1 W1 -> (forall m1, lists m1 W1 -> same_dom m m1 -> does m1 c2 W2) -> does m (c1 ;; c2) W2.
Proof.
  intros (m1 & E1 & H1 & D1) H2. destruct (H2 m1 H1 D1) as (m2 & E2 & H2' & D2). exists m2.
  split; [|split; [done|by eapply same_dom_trans]]. by rewrite (run_bind _ _ tt m m1 E1).
Qed.

Lemma does_nothing m W : lists m W -> does m (mret tt) W.
Proof. intros HW. exists m. split; [done|]. split; [done|apply same_dom_refl]. Qed.

Lemma fresh_none W e : fresh W e -> W !! e = None.
Proof.
  intros He. destruct (W !! e) as [l|] eqn:E; [|done]. exfalso. apply He. rewrite (links_lookup _ _ _ E), fmap_app, path_fst.
  by left.
Qed.

Lemma init_ok m W h : lists m W -> fresh W h -> mapped m h -> does m (INIT_LIST_HEAD h) (<[h := []]> W).
Proof.
  intros HW Hh [Hn Hp]. unfold INIT_LIST_HEAD, does. erewrite run_bind by (by apply set_next_ok).
  rewrite set_prev_ok by done. eexists. split; [reflexivity|]. cbn [nx pv]. destruct (fresh_both _ _ Hh) as [N1 N2]. split.
  - unfold lists. rewrite links_insert by (by apply fresh_none). cbn [path app]. destruct HW as (H1 & H2 & HF).
    split; [|split]; cbn; [by constructor..|]. constructor; [split; cbn; by rewrite lookup_insert_eq|].
    apply Forall_forall. intros [a b] Hab. pose proof (proj1 (Forall_forall _ _) HF _ Hab) as [E1 E2]. cbn [fst snd] in E1, E2.
    assert (a <> h /\ b <> h) as [Ha Hb].
    { split; intros ->; [apply N1|apply N2]; apply list_elem_of_fmap; eexists; (split; [|exact Hab]); done. }
    split; cbn; by rewrite lookup_insert_ne.
  - dom.
Qed.

(** Between two neighbours. *)
Lemma insert_ok m W h l1 l2 new :
  lists m W -> W !! h = Some (l1 ++ l2) -> fresh W new -> mapped m new ->
  does m (__list_add new (default h (last l1)) (default h (head l2))) (<[h := l1 ++ new :: l2]> W).
Proof.
  intros HW Hh Hnew Hm. destruct (links_middle W h l1 [] l2 Hh) as (p & n & R & <- & <- & HL & HL').
  destruct (fresh_both _ _ Hnew) as [N1 N2]. unfold lists in HW. rewrite HL in HW, N1, N2.
  destruct (list_add_ok m p n new R HW Hm N1 N2) as (m' & E & Hl & Hd). exists m'. split; [done|]. split; [|done].
  unfold lists. by rewrite (HL' [new]).
Qed.

Lemma neighbours m W h l1 l2 :
  lists m W -> W !! h = Some (l1 ++ l2) ->
  nx m !! default h (last l1) = Some (default h (head l2)) /\ pv m !! default h (head l2) = Some (default h (last l1)).
Proof.
  intros HW Hh. destruct (links_middle W h l1 [] l2 Hh) as (p & n & R & <- & <- & HL & _).
  apply (linked_in m _ p n HW). rewrite HL. by left.
Qed.

Lemma add_ok m W h l new :
  lists m W -> W !! h = Some l -> fresh W new -> mapped m new -> does m (list_add new h) (<[h := new :: l]> W).
Proof.
  intros HW Hh Hnew Hm. unfold does, list_add.
  rewrite (run_next _ _ _ _ (proj1 (neighbours m W h [] l HW Hh))). by apply (insert_ok m W h [] l new).
Qed.

Lemma add_tail_ok m W h l new :
  lists m W -> W !! h = Some l -> fresh W new -> mapped m new -> does m (list_add_tail new h) (<[h := l ++ [new]]> W).
Proof.
  intros HW Hh Hnew Hm. rewrite <- (app_nil_r l) in Hh. unfold does, list_add_tail.
  rewrite (run_prev _ _ _ _ (proj2 (neighbours m W h l [] HW Hh))). by apply (insert_ok m W h l [] new).
Qed.

Lemma around m W h l1 e l2 :
  lists m W -> W !! h = Some (l1 ++ e :: l2) ->
  nx m !! e = Some (default h (head l2)) /\ pv m !! e = Some (default h (last l1)).
Proof.
  intros HW Hh. split; [|exact (proj2 (neighbours m W h l1 (e :: l2) HW Hh))].
  change (e :: l2) with ([e] ++ l2) in Hh. rewrite (assoc_L (++)) in Hh. pose proof (neighbours m W h (l1 ++ [e]) l2 HW Hh) as [E _].
  by rewrite last_snoc in E.
Qed.

Lemma unlink_ok m W h l1 e l2 :
  lists m W -> W !! h = Some (l1 ++ e :: l2) ->
  does m (__list_del_entry e) (<[h := l1 ++ l2]> W) /\ fresh (<[h := l1 ++ l2]> W) e /\ mapped m e.
Proof.
  intros HW Hh. destruct (around m W h l1 e l2 HW Hh) as [En Ep].
  destruct (links_middle W h l1 [e] l2 Hh) as (p & n & R & Hp & Hn & HL & HL'). rewrite <- Hp in Ep. rewrite <- Hn in En.
  unfold lists in HW. rewrite HL in HW. destruct (list_del_ok m p e n R HW) as (m' & E & Hl & Hd & _). split; [|split].
  - exists m'. split; [|split; [unfold lists; by rewrite (HL' [])|done]]. unfold __list_del_entry.
    rewrite (run_prev _ _ _ _ Ep), (run_next _ _ _ _ En). exact E.
  - unfold fresh. rewrite (HL' []). cbn. destruct HW as (H1 & _ & _). cbn in H1.
    apply NoDup_cons in H1 as [N1 H1]. apply NoDup_cons in H1 as [N2 _]. set_solver.
  - split; by eexists.
Qed.

(** Writes to a structure that is in no list. *)
Lemma poison_ok m W e x y :
  lists m W -> fresh W e -> mapped m e -> does m (set_next e x ;; set_prev e y) W.
Proof.
  intros HW He [Hn Hp]. unfold does. erewrite run_bind by (by apply set_next_ok). rewrite set_prev_ok by done.
  eexists. split; [reflexivity|]. cbn [nx pv]. destruct (fresh_both _ _ He) as [N1 N2]. split.
  - destruct HW as (H1 & H2 & HF). split_and!; [done..|]. apply Forall_forall. intros [a b] Hab.
    pose proof (proj1 (Forall_forall _ _) HF _ Hab) as [E1 E2]. cbn [fst snd] in E1, E2.
    assert (a <> e /\ b <> e) as [Ha Hb].
    { split; intros ->; [apply N1|apply N2]; apply list_elem_of_fmap; eexists; (split; [|exact Hab]); done. }
    split; cbn; by rewrite lookup_insert_ne.
  - dom.
Qed.

Lemma list_del_eq e m : list_del e m = (__list_del_entry e ;; (set_next e LIST_POISON1 ;; set_prev e LIST_POISON2)) m.
Proof.
  unfold list_del, __list_del_entry, mbind, LM_bind. destruct (prev e m) as [[p m1]|]; [|done].
  by destruct (next e m1) as [[n m2]|].
Qed.

Lemma del_ok m W h l1 e l2 :
  lists m W -> W !! h = Some (l1 ++ e :: l2) -> does m (list_del e) (<[h := l1 ++ l2]> W).
Proof.
  intros HW Hh. destruct (unlink_ok m W h l1 e l2 HW Hh) as (Hu & Hf & Hm). unfold does. rewrite list_del_eq.
  eapply does_bind; [exact Hu|]. intros m1 H1 Hd. apply poison_ok; [done|done|by eapply mapped_dom].
Qed.

Lemma del_init_ok m W h l1 e l2 :
  lists m W -> W !! h = Some (l1 ++ e :: l2) -> does m (list_del_init e) (<[e := []]> (<[h := l1 ++ l2]> W)).
Proof.
  intros HW Hh. destruct (unlink_ok m W h l1 e l2 HW Hh) as (Hu & Hf & Hm).
  eapply does_bind; [exact Hu|]. intros m1 H1 Hd. apply init_ok; [done|done|by eapply mapped_dom].
Qed.

Lemma move_ok m W h l1 e l2 k l :
  lists m W -> W !! h = Some (l1 ++ e :: l2) -> <[h := l1 ++ l2]> W !! k = Some l ->
  does m (list_move e k) (<[k := e :: l]> (<[h := l1 ++ l2]> W)).
Proof.
  intros HW Hh Hk. destruct (unlink_ok m W h l1 e l2 HW Hh) as (Hu & Hf & Hm).
  eapply does_bind; [exact Hu|]. intros m1 H1 Hd. apply add_ok; [done|done|done|by eapply mapped_dom].
Qed.

Lemma move_tail_ok m W h l1 e l2 k l :
  lists m W -> W !! h = Some (l1 ++ e :: l2) -> <[h := l1 ++ l2]> W !! k = Some l ->
  does m (list_move_tail e k) (<[k := l ++ [e]]> (<[h := l1 ++ l2]> W)).
Proof.
  intros HW Hh Hk. destruct (unlink_ok m W h l1 e l2 HW Hh) as (Hu & Hf & Hm).
  eapply does_bind; [exact Hu|]. intros m1 H1 Hd. apply add_tail_ok; [done|done|done|by eapply mapped_dom].
Qed.

(** Questions *)
Lemma next_head m W h l : lists m W -> W !! h = Some l -> nx m !! h = Some (default h (head l)).
Proof. intros HW Hh. exact (proj1 (neighbours m W h [] l HW Hh)). Qed.
Lemma prev_head m W h l : lists m W -> W !! h = Some l -> pv m !! h = Some (default h (last l)).
Proof.
  intros HW Hh. rewrite <- (app_nil_r l) in Hh. exact (proj2 (neighbours m W h l [] HW Hh)).
Qed.

Lemma head_not_in m W h l : lists m W -> W !! h = Some l -> h ∉ l /\ NoDup l.
Proof.
  intros (H1 & _ & _) Hh. rewrite (links_lookup _ _ _ Hh), fmap_app, path_fst in H1. cbn in H1.
  apply NoDup_cons in H1 as [N1 H1]. apply NoDup_app in H1 as [Hl _]. set_solver.
Qed.

Lemma empty_ok m W h l : lists m W -> W !! h = Some l -> list_empty h m = Some (bool_decide (l = []), m).
Proof.
  intros HW Hh. unfold list_empty. rewrite (run_next _ _ _ _ (next_head m W h l HW Hh)).
  destruct (head_not_in m W h l HW Hh) as [Hn _]. destruct l as [|x l]; cbn.
  - by rewrite Z.eqb_refl.
  - rewrite (proj2 (Z.eqb_neq _ _)) by set_solver. done.
Qed.

Lemma rotate_ok m W h l :
  lists m W -> W !! h = Some l ->
  does m (list_rotate_left h) (<[h := match l with [] => [] | x :: t => t ++ [x] end]> W).
Proof.
  intros HW Hh. unfold does, list_rotate_left. rewrite (run_bind _ _ _ _ _ (empty_ok m W h l HW Hh)).
  destruct l as [|x l]; cbn [bool_decide decide_rel negb].
  - rewrite bool_decide_true by done. cbn [negb]. rewrite insert_id by done. by apply does_nothing.
  - rewrite bool_decide_false by done. cbn [negb]. rewrite (run_next _ _ _ _ (next_head m W h _ HW Hh)). cbn [head default].
    rewrite <- (insert_insert_eq W h (l ++ [x]) l). apply (move_tail_ok m W h [] x l h l HW Hh). by rewrite lookup_insert_eq.
Qed.

(** ** Stretches *)

(** Links [B] in place of [A]. *)
Lemma rewire m m' A B R :
  linked m (A ++ R) -> Forall (link m') B -> (forall a, a ∈ R.*1 -> nx m' !! a = nx m !! a) ->
  (forall b, b ∈ R.*2 -> pv m' !! b = pv m !! b) -> NoDup (B.*1 ++ R.*1) -> NoDup (B.*2 ++ R.*2) -> linked m' (B ++ R).
Proof.
  intros (_ & _ & [_ HF]%Forall_app) HB Hn Hp N1 N2. split_and!; [by rewrite fmap_app..|]. apply Forall_app. split; [done|].
  apply Forall_forall. intros [a b] Hab. pose proof (proj1 (Forall_forall _ _) HF _ Hab) as [E1 E2]. cbn [fst snd] in E1, E2.
  assert (a ∈ R.*1 /\ b ∈ R.*2) as [Ha Hb] by (split; apply list_elem_of_fmap; eexists; (split; [|exact Hab]); done).
  split; cbn; [by rewrite Hn|by rewrite Hp].
Qed.

Lemma path_ends x l : exists M, forall a b, path a (x :: l) b ≡ₚ (a, x) :: (default x (last l), b) :: M.
Proof.
  assert (exists M, forall b, path x l b ≡ₚ (default x (last l), b) :: M) as [M HM].
  { revert x. induction l as [|y l IH]; intros x; [by exists []|]. destruct (IH y) as [M HM]. exists ((x, y) :: M).
    intros b. cbn [path]. rewrite HM. rewrite perm_swap. do 2 f_equiv. destruct l as [|z l]; [done|].
    change (last (y :: z :: l)) with (last (z :: l)). destruct (last_is_Some (z :: l)) as [_ [u Hu]]; [done|]. by rewrite Hu. }
  exists M. intros a b. cbn [path]. by rewrite HM.
Qed.

Lemma splice_links m h f z p n M R :
  linked m ([(h, f); (z, h); (p, n)] ++ M ++ R) ->
  exists m', __list_splice h p n m = Some (tt, m') /\ linked m' ([(p, f); (z, n)] ++ M ++ R) /\ same_dom m m'.
Proof.
  intros HL. pose proof (linked_in m _ h f HL) as [E1 E2]; [set_solver|].
  pose proof (linked_in m _ z h HL) as [E3 E4]; [set_solver|]. pose proof (linked_in m _ p n HL) as [E5 E6]; [set_solver|].
  pose proof HL as (H1 & H2 & _). cbn in H1, H2. rewrite !NoDup_cons in H1, H2. rewrite fmap_app in H1, H2.
  unfold __list_splice. rewrite (run_next _ _ _ _ E1), (run_prev _ _ _ _ E4).
  erewrite run_bind by (apply set_prev_ok; there). erewrite run_bind by (apply set_next_ok; there). cbn [nx pv].
  erewrite run_bind by (apply set_next_ok; there). cbn [nx pv].
  rewrite set_prev_ok by there. cbn [nx pv]. eexists. split; [reflexivity|]. split.
  - eapply rewire; [exact HL|..]; cbn.
    + repeat constructor; cbn; rewrite ?lookup_insert_eq; try done; by rewrite lookup_insert_ne, lookup_insert_eq by set_solver.
    + intros a Ha. rewrite fmap_app in Ha. by rewrite !lookup_insert_ne by set_solver.
    + intros b Hb. rewrite fmap_app in Hb. by rewrite !lookup_insert_ne by set_solver.
    + rewrite !NoDup_cons, !fmap_app. set_solver.
    + rewrite !NoDup_cons, !fmap_app. set_solver.
  - dom.
Qed.

(** The whole of list [h1] goes into list [h2]; [h1] is not a list any more. *)
Lemma splice_ok m W h1 h2 x t l1 l2 :
  lists m W -> h1 <> h2 -> W !! h1 = Some (x :: t) -> W !! h2 = Some (l1 ++ l2) ->
  does m (__list_splice h1 (default h2 (last l1)) (default h2 (head l2))) (<[h2 := l1 ++ (x :: t) ++ l2]> (delete h1 W)) /\
  fresh (<[h2 := l1 ++ (x :: t) ++ l2]> (delete h1 W)) h1 /\ mapped m h1.
Proof.
  intros HW Hne Hh1 Hh2. assert (delete h1 W !! h2 = Some (l1 ++ l2)) as Hh2' by (by rewrite lookup_delete_ne).
  destruct (links_middle _ h2 l1 [] l2 Hh2') as (p & n & R & <- & <- & HL & HL'). destruct (path_ends x t) as [M HM].
  set (z := default x (last t)) in HM.
  assert (links W ≡ₚ [(h1, x); (z, h1); (p, n)] ++ M ++ R) as HLW.
  { rewrite (links_lookup _ _ _ Hh1), HL, HM. cbn. by rewrite <- Permutation_middle. }
  pose proof HW as HW'. unfold lists in HW'. rewrite HLW in HW'.
  destruct (splice_links m h1 x z p n M R HW') as (m' & E & Hl & Hd).
  assert (links (<[h2 := l1 ++ (x :: t) ++ l2]> (delete h1 W)) ≡ₚ [(p, x); (z, n)] ++ M ++ R) as HLn
    by (rewrite HL', HM; done).
  split; [exists m'; split; [done|]; split; [unfold lists; by rewrite HLn|done]|]. split.
  - unfold fresh. rewrite HLn. destruct HW' as (H1 & _ & _). cbn in H1 |- *. rewrite !NoDup_cons in H1. set_solver.
  - split; [rewrite (next_head m W h1 _ HW Hh1)|rewrite (prev_head m W h1 _ HW Hh1)]; by eexists.
Qed.

Lemma splice_init_ok m W h1 h2 la l2 :
  lists m W -> h1 <> h2 -> W !! h1 = Some la -> W !! h2 = Some l2 ->
  does m (list_splice_init h1 h2) (<[h1 := []]> (<[h2 := la ++ l2]> W)).
Proof.
  intros HW Hne Hh1 Hh2. unfold does, list_splice_init. rewrite (run_bind _ _ _ _ _ (empty_ok m W h1 la HW Hh1)).
  destruct la as [|x t].
  - rewrite bool_decide_true by done. cbn [negb app]. rewrite (insert_id W h2) by done. rewrite insert_id by done. by apply does_nothing.
  - rewrite bool_decide_false by done. cbn [negb]. rewrite (run_next _ _ _ _ (next_head m W h2 _ HW Hh2)).
    destruct (splice_ok m W h1 h2 x t [] l2 HW Hne Hh1 Hh2) as (Hs & Hf & Hm).
    rewrite <- (insert_delete_eq _ h1), (delete_insert_ne W) by done.
    eapply does_bind; [exact Hs|].
    intros m1 H1 Hd. apply init_ok; [done|done|by eapply mapped_dom].
Qed.

Lemma splice_tail_init_ok m W h1 h2 la l2 :
  lists m W -> h1 <> h2 -> W !! h1 = Some la -> W !! h2 = Some l2 ->
  does m (list_splice_tail_init h1 h2) (<[h1 := []]> (<[h2 := l2 ++ la]> W)).
Proof.
  intros HW Hne Hh1 Hh2. unfold does, list_splice_tail_init. rewrite (run_bind _ _ _ _ _ (empty_ok m W h1 la HW Hh1)).
  destruct la as [|x t].
  - rewrite bool_decide_true by done. cbn [negb]. rewrite app_nil_r. rewrite (insert_id W h2) by done. rewrite insert_id by done.
    by apply does_nothing.
  - rewrite bool_decide_false by done. cbn [negb]. rewrite (run_prev _ _ _ _ (prev_head m W h2 _ HW Hh2)).
    assert (W !! h2 = Some (l2 ++ [])) as Hh2' by (by rewrite app_nil_r).
    destruct (splice_ok m W h1 h2 x t l2 [] HW Hne Hh1 Hh2') as (Hs & Hf & Hm). rewrite (app_nil_r (x :: t)) in Hs, Hf.
    rewrite <- (insert_delete_eq _ h1), (delete_insert_ne W) by done.
    eapply does_bind; [exact Hs|].
    intros m1 H1 Hd. apply init_ok; [done|done|by eapply mapped_dom].
Qed.

Lemma splice_only_ok m W h1 h2 la l2 :
  lists m W -> h1 <> h2 -> W !! h1 = Some la -> W !! h2 = Some l2 ->
  does m (list_splice h1 h2) (<[h2 := la ++ l2]> (delete h1 W)) /\
  does m (list_splice_tail h1 h2) (<[h2 := l2 ++ la]> (delete h1 W)).
Proof.
  intros HW Hne Hh1 Hh2. unfold does, list_splice, list_splice_tail.
  rewrite !(run_bind _ _ _ _ _ (empty_ok m W h1 la HW Hh1)). destruct la as [|x t].
  - rewrite bool_decide_true by done. cbn [negb app]. rewrite app_nil_r.
    rewrite insert_id by (by rewrite lookup_delete_ne). split; apply does_nothing; by apply lists_delete.
  - rewrite bool_decide_false by done. cbn [negb]. rewrite (run_next _ _ _ _ (next_head m W h2 _ HW Hh2)).
    rewrite (run_prev _ _ _ _ (prev_head m W h2 _ HW Hh2)).
    split; [apply (splice_ok m W h1 h2 x t [] l2 HW Hne Hh1 Hh2)|]. rewrite <- (app_nil_r (x :: t)).
    apply (splice_ok m W h1 h2 x t l2 [] HW Hne Hh1). by rewrite app_nil_r.
Qed.

(** An entry takes the place of another. *)
Lemma replace_ok m W h l1 old l2 new :
  lists m W -> W !! h = Some (l1 ++ old :: l2) -> fresh W new -> mapped m new ->
  does m (list_replace old new) (<[h := l1 ++ new :: l2]> W) /\ fresh (<[h := l1 ++ new :: l2]> W) old /\ mapped m old.
Proof.
  intros HW Hh Hnew [Hmn Hmp]. destruct (around m W h l1 old l2 HW Hh) as [En Ep].
  destruct (links_middle W h l1 [old] l2 Hh) as (p & n & R & Hp & Hn & HL & HL'). rewrite <- Hp in Ep. rewrite <- Hn in En.
  destruct (fresh_both _ _ Hnew) as [N1 N2]. pose proof HW as HW'. unfold lists in HW'. rewrite HL in HW', N1, N2.
  change (path p [old] n ++ R) with ([(p, old); (old, n)] ++ R) in HW'.
  pose proof (linked_in m _ p old HW') as [E1 E2]; [set_solver|]. pose proof (linked_in m _ old n HW') as [E3 E4]; [set_solver|].
  pose proof HW' as (H1 & H2 & _). cbn in H1, H2, N1, N2. rewrite !NoDup_cons in H1, H2.
  assert (links (<[h := l1 ++ new :: l2]> W) ≡ₚ [(p, new); (new, n)] ++ R) as HLn by (by rewrite (HL' [new])).
  split; [|split; [unfold fresh; rewrite HLn; cbn; set_solver|split; by eexists]].
  unfold does, list_replace. rewrite (run_next _ _ _ _ En). erewrite run_bind by (by apply set_next_ok).
  rewrite (run_next _ n) by (cbn; by rewrite lookup_insert_eq).
  erewrite run_bind by (apply set_prev_ok; there). cbn [nx pv].
  rewrite (run_prev _ p) by (cbn; rewrite lookup_insert_ne by set_solver; done).
  erewrite run_bind by (apply set_prev_ok; there). cbn [nx pv].
  rewrite (run_prev _ p) by (cbn; by rewrite lookup_insert_eq).
  rewrite set_next_ok by there. cbn [nx pv].
  eexists. split; [reflexivity|]. split.
  - unfold lists. rewrite HLn. eapply rewire; [exact HW'|..]; cbn.
    + repeat constructor; cbn; rewrite ?lookup_insert_eq; try done; by rewrite lookup_insert_ne, lookup_insert_eq by set_solver.
    + intros a Ha. by rewrite !lookup_insert_ne by set_solver.
    + intros b Hb. by rewrite !lookup_insert_ne by set_solver.
    + rewrite !NoDup_cons. set_solver.
    + rewrite !NoDup_cons. set_solver.
  - dom.
Qed.

Lemma replace_init_ok m W h l1 old l2 new :
  lists m W -> W !! h = Some (l1 ++ old :: l2) -> fresh W new -> mapped m new ->
  does m (list_replace_init old new) (<[old := []]> (<[h := l1 ++ new :: l2]> W)).
Proof.
  intros HW Hh Hnew Hm. destruct (replace_ok m W h l1 old l2 new HW Hh Hnew Hm) as (Hr & Hf & Ho).
  eapply does_bind; [exact Hr|]. intros m1 H1 Hd. apply init_ok; [done|done|by eapply mapped_dom].
Qed.

(** The entries up to [e] become a list of their own. *)
Lemma cut_links m lst h f e n M R :
  linked m ([(h, f); (e, n)] ++ M ++ R) -> mapped m lst -> lst ∉ ([(h, f); (e, n)] ++ M ++ R).*1 ->
  lst ∉ ([(h, f); (e, n)] ++ M ++ R).*2 ->
  exists m', __list_cut_position lst h e m = Some (tt, m') /\
    linked m' ([(lst, f); (e, lst); (h, n)] ++ M ++ R) /\ same_dom m m'.
Proof.
  intros HL [Hmn Hmp] N1 N2. pose proof (linked_in m _ h f HL) as [E1 E2]; [set_solver|].
  pose proof (linked_in m _ e n HL) as [E3 E4]; [set_solver|].
  pose proof HL as (H1 & H2 & _). cbn in H1, H2, N1, N2. rewrite !NoDup_cons in H1, H2. rewrite fmap_app in H1, H2, N1, N2.
  unfold __list_cut_position. rewrite (run_next _ _ _ _ E3), (run_next _ _ _ _ E1).
  erewrite run_bind by (by apply set_next_ok). rewrite (run_next _ f) by (cbn; by rewrite lookup_insert_eq).
  erewrite run_bind by (apply set_prev_ok; there). cbn [nx pv].
  erewrite run_bind by (apply set_prev_ok; there). cbn [nx pv].
  erewrite run_bind by (apply set_next_ok; there). cbn [nx pv].
  erewrite run_bind by (apply set_next_ok; there). rewrite set_prev_ok by there. cbn [nx pv]. eexists. split; [reflexivity|]. split.
  - eapply rewire; [exact HL|..]; cbn.
    + repeat constructor; cbn; repeat first [rewrite lookup_insert_eq | rewrite lookup_insert_ne by set_solver]; done.
    + intros a Ha. rewrite fmap_app in Ha. by rewrite !lookup_insert_ne by set_solver.
    + intros b Hb. rewrite fmap_app in Hb. by rewrite !lookup_insert_ne by set_solver.
    + rewrite !NoDup_cons, !fmap_app. set_solver.
    + rewrite !NoDup_cons, !fmap_app. set_solver.
  - dom.
Qed.

Lemma singular_ok m W h l :
  lists m W -> W !! h = Some l -> list_is_singular h m = Some (bool_decide (length l = 1%nat), m).
Proof.
  intros HW Hh. unfold list_is_singular. rewrite (run_bind _ _ _ _ _ (empty_ok m W h l HW Hh)).
  destruct (head_not_in m W h l HW Hh) as [Hn Hd]. destruct l as [|x l].
  - by rewrite bool_decide_true.
  - rewrite bool_decide_false by done. cbn [negb]. rewrite (run_next _ _ _ _ (next_head m W h _ HW Hh)).
    rewrite (run_prev _ _ _ _ (prev_head m W h _ HW Hh)). unfold mret, LM_ret. do 2 f_equal. cbn [head default].
    destruct l as [|y l]; [cbn; by rewrite Z.eqb_refl|]. rewrite bool_decide_false by (cbn; lia).
    apply Z.eqb_neq. intros E. apply NoDup_cons in Hd as [Hd _]. apply Hd.
    destruct (last_is_Some (y :: l)) as [_ [z Hz]]; [done|]. change (last (x :: y :: l)) with (last (y :: l)) in E.
    rewrite Hz in E. cbn in E. subst z. by apply last_Some_elem_of.
Qed.

Lemma cut_ok m W h l1 e l2 lst :
  lists m W -> W !! h = Some (l1 ++ e :: l2) -> fresh W lst -> mapped m lst ->
  does m (list_cut_position lst h e) (<[lst := l1 ++ [e]]> (<[h := l2]> W)).
Proof.
  intros HW Hh Hf Hm. destruct (head_not_in m W h _ HW Hh) as [Hn Hd]. unfold does, list_cut_position.
  rewrite (run_bind _ _ _ _ _ (empty_ok m W h _ HW Hh)), bool_decide_false by (by destruct l1).
  rewrite (run_bind _ _ _ _ _ (singular_ok m W h _ HW Hh)).
  assert (forall s : bool, s = bool_decide (length (l1 ++ e :: l2) = 1%nat) ->
    exists n, ((if s then next h else mret 0) : LM Z) m = Some (n, m) /\ s && (negb (n =? e) && negb (h =? e)) = false) as Hs.
  { intros [|] Es; [|by exists 0]. symmetry in Es. apply bool_decide_eq_true in Es. rewrite length_app in Es. cbn in Es.
    destruct l1; [|cbn in Es; lia]. destruct l2; [|cbn in Es; lia]. exists e. split; [|by rewrite Z.eqb_refl].
    unfold next. by rewrite (next_head m W h _ HW Hh). }
  destruct (Hs _ eq_refl) as (n & En & Ec). rewrite (run_bind _ _ _ _ _ En), Ec, (proj2 (Z.eqb_neq _ _)) by set_solver. clear Hs En Ec n.
  change (e :: l2) with ([e] ++ l2) in Hh. rewrite (assoc_L (++)) in Hh.
  destruct (links_middle W h [] (l1 ++ [e]) l2 Hh) as (p & n & R & -> & Hnn & HL & HL').
  assert (exists x t, l1 ++ [e] = x :: t /\ default x (last t) = e) as (x & t & Ek & El).
  { destruct l1 as [|x t]; [by exists e, []|]. exists x, (t ++ [e]). split; [done|]. by rewrite last_snoc. }
  destruct (path_ends x t) as [M HM]. rewrite El in HM. rewrite Ek in HL.
  destruct (fresh_both _ _ Hf) as [N1 N2]. pose proof HW as HW'. unfold lists in HW'. rewrite HL, HM in HW', N1, N2.
  destruct (cut_links m lst h x e n M R HW' Hm N1 N2) as (m' & E & Hl & Hdm). exists m'. split; [done|]. split; [|done].
  specialize (HL' []). cbn [app path] in HL'.
  assert (<[h := l2]> W !! lst = None) as Hlst.
  { apply fresh_none. unfold fresh. rewrite HL'. cbn in N1 |- *. rewrite fmap_app in N1. set_solver. }
  unfold lists. rewrite links_insert by done. rewrite Ek, HM, HL'.
  eapply linked_perm; [|exact Hl]. cbn. by rewrite <- Permutation_middle.
Qed.

(** ** Loops *)

Lemma walk_ok m W h l1 l2 :
  lists m W -> W !! h = Some (l1 ++ l2) -> walk next (length l2) (default h (head l2)) h m = Some (l2, m).
Proof.
  intros HW. revert l1. induction l2 as [|x l2 IH]; intros l1 Hh; cbn [walk length head default].
  - cbn. by rewrite Z.eqb_refl.
  - destruct (head_not_in m W h _ HW Hh) as [Hn _]. rewrite (proj2 (Z.eqb_neq _ _)) by set_solver.
    rewrite (run_next _ _ _ _ (proj1 (around m W h l1 x l2 HW Hh))).
    change (x :: l2) with ([x] ++ l2) in Hh. rewrite (assoc_L (++)) in Hh.
    by rewrite (run_bind _ _ _ _ _ (IH _ Hh)).
Qed.

Lemma walk_prev_ok m W h l1 l2 :
  lists m W -> W !! h = Some (l1 ++ l2) -> walk prev (length l1) (default h (last l1)) h m = Some (reverse l1, m).
Proof.
  intros HW. revert l2. induction l1 as [|x l1 IH] using rev_ind; intros l2 Hh.
  - cbn. by rewrite Z.eqb_refl.
  - rewrite last_snoc, length_app, Nat.add_1_r, reverse_snoc. cbn [walk default].
    destruct (head_not_in m W h _ HW Hh) as [Hn _]. rewrite (proj2 (Z.eqb_neq _ _)) by set_solver.
    rewrite <- (assoc_L (++)) in Hh. cbn [app] in Hh. rewrite (run_prev _ _ _ _ (proj2 (around m W h l1 x l2 HW Hh))).
    by rewrite (run_bind _ _ _ _ _ (IH _ Hh)).
Qed.

(** Removing every entry in a loop. *)
Lemma walk_del m W h l :
  lists m W -> W !! h = Some l ->
  exists n, nx m !! default h (head l) = Some n /\ does m (walk_safe list_del (length l) (default h (head l)) n h) (<[h := []]> W).
Proof.
  revert m W. induction l as [|x l IH]; intros m W HW Hh.
  - exists h. split; [exact (next_head m W h [] HW Hh)|]. cbn. rewrite Z.eqb_refl, insert_id by done. by apply does_nothing.
  - destruct (head_not_in m W h _ HW Hh) as [Hn _]. exists (default h (head l)).
    split; [exact (proj1 (around m W h [] x l HW Hh))|]. cbn [length walk_safe head default].
    rewrite (proj2 (Z.eqb_neq _ _)) by set_solver. eapply does_bind; [exact (del_ok m W h [] x l HW Hh)|].
    intros m1 H1 Hd. cbn [app] in H1. destruct (IH m1 (<[h := l]> W) H1) as (n & En & Hdo); [by rewrite lookup_insert_eq|].
    rewrite insert_insert_eq in Hdo. unfold does. by rewrite (run_next _ _ _ _ En).
Qed.

(** ** The specification *)

Inductive lop :=
| OInit (h : Z)
| OAdd (n h : Z)
| OAddTail (n h : Z)
| ODel (e : Z)
| ODelInit (e : Z)
| OMove (e h : Z)
| OMoveTail (e h : Z)
| OReplace (old new : Z)
| OReplaceInit (old new : Z)
| ORotate (h : Z)
| OSplice (h1 h2 : Z)
| OSpliceTail (h1 h2 : Z)
| OSpliceInit (h1 h2 : Z)
| OSpliceTailInit (h1 h2 : Z)
| OCut (lst h e : Z)
| ODelAll (n : nat) (h : Z).

Definition exec (o : lop) : LM unit :=
  match o with
  | OInit h => INIT_LIST_HEAD h
  | OAdd n h => list_add n h
  | OAddTail n h => list_add_tail n h
  | ODel e => list_del e
  | ODelInit e => list_del_init e
  | OMove e h => list_move e h
  | OMoveTail e h => list_move_tail e h
  | OReplace old new => list_replace old new
  | OReplaceInit old new => list_replace_init old new
  | ORotate h => list_rotate_left h
  | OSplice h1 h2 => list_splice h1 h2
  | OSpliceTail h1 h2 => list_splice_tail h1 h2
  | OSpliceInit h1 h2 => list_splice_init h1 h2
  | OSpliceTailInit h1 h2 => list_splice_tail_init h1 h2
  | OCut lst h e => list_cut_position lst h e
  | ODelAll n h => list_for_each_safe n h list_del
  end.

Fixpoint exec_all (l : list lop) : LM unit :=
  match l with [] => mret tt | o :: l => exec o ;; exec_all l end.

(** The structures an operation takes from outside. *)
Definition takes (o : lop) : list Z :=
  match o with
  | OInit n | OAdd n _ | OAddTail n _ | OReplace _ n | OReplaceInit _ n | OCut n _ _ => [n]
  | _ => []
  end.

(** What the operations mean for sequences of entries. *)
Inductive lstep : lop -> world -> world -> Prop :=
| step_init W h : fresh W h -> lstep (OInit h) W (<[h := []]> W)
| step_add W n h l : fresh W n -> W !! h = Some l -> lstep (OAdd n h) W (<[h := n :: l]> W)
| step_add_tail W n h l : fresh W n -> W !! h = Some l -> lstep (OAddTail n h) W (<[h := l ++ [n]]> W)
| step_del W h l1 e l2 : W !! h = Some (l1 ++ e :: l2) -> lstep (ODel e) W (<[h := l1 ++ l2]> W)
| step_del_init W h l1 e l2 :
    W !! h = Some (l1 ++ e :: l2) -> lstep (ODelInit e) W (<[e := []]> (<[h := l1 ++ l2]> W))
| step_move W h l1 e l2 k l :
    W !! h = Some (l1 ++ e :: l2) -> <[h := l1 ++ l2]> W !! k = Some l ->
    lstep (OMove e k) W (<[k := e :: l]> (<[h := l1 ++ l2]> W))
| step_move_tail W h l1 e l2 k l :
    W !! h = Some (l1 ++ e :: l2) -> <[h := l1 ++ l2]> W !! k = Some l ->
    lstep (OMoveTail e k) W (<[k := l ++ [e]]> (<[h := l1 ++ l2]> W))
| step_replace W h l1 old l2 new :
    W !! h = Some (l1 ++ old :: l2) -> fresh W new -> lstep (OReplace old new) W (<[h := l1 ++ new :: l2]> W)
| step_replace_init W h l1 old l2 new :
    W !! h = Some (l1 ++ old :: l2) -> fresh W new ->
    lstep (OReplaceInit old new) W (<[old := []]> (<[h := l1 ++ new :: l2]> W))
| step_rotate_empty W h : W !! h = Some [] -> lstep (ORotate h) W W
| step_rotate W h x l : W !! h = Some (x :: l) -> lstep (ORotate h) W (<[h := l ++ [x]]> W)
| step_splice W h1 h2 l1 l2 :
    h1 <> h2 -> W !! h1 = Some l1 -> W !! h2 = Some l2 -> lstep (OSplice h1 h2) W (<[h2 := l1 ++ l2]> (delete h1 W))
| step_splice_tail W h1 h2 l1 l2 :
    h1 <> h2 -> W !! h1 = Some l1 -> W !! h2 = Some l2 -> lstep (OSpliceTail h1 h2) W (<[h2 := l2 ++ l1]> (delete h1 W))
| step_splice_init W h1 h2 l1 l2 :
    h1 <> h2 -> W !! h1 = Some l1 -> W !! h2 = Some l2 ->
    lstep (OSpliceInit h1 h2) W (<[h1 := []]> (<[h2 := l1 ++ l2]> W))
| step_splice_tail_init W h1 h2 l1 l2 :
    h1 <> h2 -> W !! h1 = Some l1 -> W !! h2 = Some l2 ->
    lstep (OSpliceTailInit h1 h2) W (<[h1 := []]> (<[h2 := l2 ++ l1]> W))
| step_cut W lst h l1 e l2 :
    W !! h = Some (l1 ++ e :: l2) -> fresh W lst -> lstep (OCut lst h e) W (<[lst := l1 ++ [e]]> (<[h := l2]> W))
| step_del_all W h l : W !! h = Some l -> lstep (ODelAll (length l) h) W (<[h := []]> W).

Inductive lrun : list lop -> world -> world -> Prop :=
| run_nil W : lrun [] W W
| run_cons o l W1 W2 W3 : lstep o W1 W2 -> lrun l W2 W3 -> lrun (o :: l) W1 W3.

Lemma lstep_ok m o W W' : lists m W -> Forall (mapped m) (takes o) -> lstep o W W' -> does m (exec o) W'.
Proof.
  intros HW Hm Hs. destruct Hs; cbn [takes exec] in *;
    try (apply Forall_cons in Hm as [Hm _]);
    try (by eauto using init_ok, add_ok, add_tail_ok, del_ok, del_init_ok, move_ok, move_tail_ok, replace_init_ok,
      splice_init_ok, splice_tail_init_ok, cut_ok).
  - by eapply replace_ok.
  - pose proof (rotate_ok m W h [] HW H) as Hr. by rewrite insert_id in Hr.
  - exact (rotate_ok m W h (x :: l) HW H).
  - by apply splice_only_ok.
  - by apply splice_only_ok.
  - destruct (walk_del m W h l HW H) as (n & En & Hd). unfold does, list_for_each_safe.
    by rewrite (run_next _ _ _ _ (next_head m W h l HW H)), (run_next _ _ _ _ En).
Qed.

(** What can be seen of a list. *)
Record shows (m : heap) (h : Z) (l : list Z) : Prop := {
  sh_each : list_for_each (length l) h m = Some (l, m);
  sh_prev : list_for_each_prev (length l) h m = Some (reverse l, m);
  sh_empty : list_empty h m = Some (bool_decide (l = []), m);
  sh_careful : list_empty_careful h m = Some (bool_decide (l = []), m);
  sh_singular : list_is_singular h m = Some (bool_decide (length l = 1%nat), m);
  sh_last l1 e l2 : l = l1 ++ e :: l2 -> list_is_last e h m = Some (bool_decide (l2 = []), m)
}.

Lemma lists_show m W h l : lists m W -> W !! h = Some l -> shows m h l.
Proof.
  intros HW Hh. pose proof (next_head m W h l HW Hh) as Hn. pose proof (prev_head m W h l HW Hh) as Hp.
  destruct (head_not_in m W h l HW Hh) as [Hni _]. split.
  - unfold list_for_each. rewrite (run_next _ _ _ _ Hn). exact (walk_ok m W h [] l HW Hh).
  - unfold list_for_each_prev. rewrite (run_prev _ _ _ _ Hp). apply (walk_prev_ok m W h l []); [done|]. by rewrite app_nil_r.
  - by eapply empty_ok.
  - unfold list_empty_careful. rewrite (run_next _ _ _ _ Hn). destruct l as [|x l]; cbn [head default].
    + rewrite Z.eqb_refl, (run_prev _ _ _ _ Hp). cbn. by rewrite Z.eqb_refl.
    + by rewrite (proj2 (Z.eqb_neq _ _)) by set_solver.
  - by eapply singular_ok.
  - intros l1 e l2 ->. unfold list_is_last. rewrite (run_next _ _ _ _ (proj1 (around m W h l1 e l2 HW Hh))).
    destruct l2 as [|x l2]; cbn; [by rewrite Z.eqb_refl|]. by rewrite (proj2 (Z.eqb_neq _ _)) by set_solver.
Qed.

(** C14: The lists of list.h are sequences.  Any run of the specification, in which
    entries are inserted, removed, moved, replaced, rotated, spliced, cut and
    removed in a loop, in any number of lists at once, is a run of the operations
    on pointers: none of them touches memory that is not there, afterwards every
    list is the one the specification says, and walking it in either direction
    and asking for its shape tells so. *)
Theorem lists_refine ops m W W' :
  lists m W -> Forall (fun o => Forall (mapped m) (takes o)) ops -> lrun ops W W' ->
  exists m', exec_all ops m = Some (tt, m') /\ lists m' W' /\ forall h l, W' !! h = Some l -> shows m' h l.
Proof.
  intros HW Hm Hr. assert (does m (exec_all ops) W') as (m' & E & HW' & _).
  { revert m HW Hm. induction Hr as [W|o ops W1 W2 W3 Hs _ IH]; intros m HW Hm; cbn [exec_all]; [by apply does_nothing|].
    apply Forall_cons in Hm as [Ho Hm]. eapply does_bind; [by eapply lstep_ok|]. intros m1 H1 Hd. apply IH; [done|].
    eapply Forall_impl; [exact Hm|]. intros o' Ho'. eapply Forall_impl; [exact Ho'|]. intros a. by apply mapped_dom. }
  exists m'. split_and!; [done|done|]. intros h l Hh. by eapply lists_show.
Qed.

(** Three entries in a list, moved to another one. *)
Definition demo_heap : heap :=
  let g := list_to_map ((fun a => (a, 0)) <$> [10; 20; 30; 40; 50]) in Heap g g.

Definition demo_ops : list lop :=
  [OInit 10; OAdd 20 10; OAddTail 30 10; OAdd 50 10; ORotate 10; OInit 40; OSpliceInit 10 40; ODel 30].

Ltac free := unfold fresh; apply (bool_decide_unpack _); vm_compute; exact I.

Lemma demo_run : exists W', lrun demo_ops ∅ W' /\ W' !! 40 = Some [20; 50] /\ W' !! 10 = Some [].
Proof.
  eexists. split.
  - eapply run_cons; [apply step_init; free|].
    eapply run_cons; [apply (step_add _ 20 10 []); [free|reflexivity]|].
    eapply run_cons; [apply (step_add_tail _ 30 10 [20]); [free|reflexivity]|].
    eapply run_cons; [apply (step_add _ 50 10 [20; 30]); [free|reflexivity]|].
    eapply run_cons; [apply (step_rotate _ 10 50 [20; 30]); reflexivity|].
    eapply run_cons; [apply step_init; free|].
    eapply run_cons; [apply (step_splice_init _ 10 40 [20; 30; 50] []); [done|reflexivity|reflexivity]|].
    eapply run_cons; [apply (step_del _ 40 [20] 30 [50]); reflexivity|]. apply run_nil.
  - split; reflexivity.
Qed.

Lemma lists_refine_witness :
  exists m', exec_all demo_ops demo_heap = Some (tt, m') /\ shows m' 40 [20; 50] /\ shows m' 10 [].
Proof.
  destruct demo_run as (W' & Hr & H40 & H10).
  destruct (lists_refine demo_ops demo_heap ∅ W') as (m' & E & _ & Hs).
  - split_and!; [constructor|constructor|constructor].
  - repeat constructor; cbn; by eexists.
  - exact Hr.
  - exists m'. split; [exact E|]. split; [exact (Hs 40 _ H40)|exact (Hs 10 _ H10)].
Defined.
