(* ===== verification/HlistProps.v ===== *)
(** * What the lists with a single pointer at the head promise

    The chains of the hash table and of the longest-prefix-match table.  A list is
    the path of links from its head through its nodes to 0; [pprev] of a node is
    the other end of the link that leads to it.  As in [ListsProps], the
    specification is a step relation on sequences, and the operations on pointers
    simulate it. *)

From stdpp Require Import prelude gmap list.
From S2P Require Import Prelude Lists ListsProps.

(** ** Links *)

Definition nz (l : list Z) : list Z := filter (fun b => b <> 0) l.
Arguments nz _ : simpl never.

Lemma nz_cons x l : nz (x :: l) = if decide (x = 0) then nz l else x :: nz l.
Proof. unfold nz. rewrite filter_cons. destruct (decide (x = 0)), (decide (x <> 0)); done. Qed.
Lemma nz_in x l : x ∈ nz l <-> x <> 0 /\ x ∈ l.
Proof. unfold nz. by rewrite list_elem_of_filter. Qed.

#[export] Instance nz_perm : Proper ((≡ₚ) ==> (≡ₚ)) nz.
Proof. intros l l' Hl. unfold nz. by rewrite Hl. Qed.

Definition hlink (m : heap) (ab : Z * Z) : Prop :=
  nx m !! ab.1 = Some ab.2 /\ (ab.2 <> 0 -> pv m !! ab.2 = Some ab.1).

Definition hlinked (m : heap) (L : list (Z * Z)) : Prop := NoDup L.*1 /\ NoDup (nz L.*2) /\ Forall (hlink m) L.

#[export] Instance hlinked_perm m : Proper ((≡ₚ) ==> iff) (hlinked m).
Proof. intros L L' HL. unfold hlinked. by rewrite HL. Qed.

Definition hlinks (W : gmap Z (list Z)) : list (Z * Z) :=
  concat ((fun hl : Z * list Z => path hl.1 hl.2 0) <$> map_to_list W).

(** No node is at address 0. *)
Definition hlists (m : heap) (W : gmap Z (list Z)) : Prop :=
  hlinked m (hlinks W) /\ forall h l, W !! h = Some l -> 0 ∉ l.

(** In no list and not a head; 0 is neither. *)
Definition hfresh (W : gmap Z (list Z)) (e : Z) : Prop := e <> 0 /\ e ∉ (hlinks W).*1.

Lemma hlinks_insert W h l : W !! h = None -> hlinks (<[h := l]> W) ≡ₚ path h l 0 ++ hlinks W.
Proof. intros Hh. unfold hlinks. pose proof (map_to_list_insert W h l Hh) as Hp. rewrite Hp. done. Qed.

Lemma hlinks_update W h l l' : W !! h = Some l -> hlinks (<[h := l']> W) ≡ₚ path h l' 0 ++ hlinks (delete h W).
Proof. intros Hh. rewrite <- insert_delete_eq. apply hlinks_insert, lookup_delete_eq. Qed.

Lemma hlinks_lookup W h l : W !! h = Some l -> hlinks W ≡ₚ path h l 0 ++ hlinks (delete h W).
Proof. intros Hh. rewrite <- (insert_id W h l Hh) at 1. by eapply hlinks_update. Qed.

Lemma hlinks_middle W h l1 l l2 : W !! h = Some (l1 ++ l ++ l2) ->
  exists p n R, p = default h (last l1) /\ n = default 0 (head l2) /\ hlinks W ≡ₚ path p l n ++ R /\
    forall l', hlinks (<[h := l1 ++ l' ++ l2]> W) ≡ₚ path p l' n ++ R.
Proof.
  intros Hh. destruct (path_middle h l1 l2 0) as (p & n & R & Hp & Hn & HR).
  exists p, n, (R ++ hlinks (delete h W)). split_and!; [done|done|..].
  - rewrite (hlinks_lookup _ _ _ Hh), HR. by rewrite (assoc_L (++)).
  - intros l'. rewrite (hlinks_update _ _ _ _ Hh), HR. by rewrite (assoc_L (++)).
Qed.

(** What is pointed to is a node of some list. *)
Lemma hlinks_ends W b : b ∈ (hlinks W).*2 -> b <> 0 -> b ∈ (hlinks W).*1.
Proof.
  unfold hlinks. induction (map_to_list W) as [|[h l] k IH]; [done|].
  change (concat ((fun hl : Z * list Z => path hl.1 hl.2 0) <$> (h, l) :: k))
    with (path h l 0 ++ concat ((fun hl : Z * list Z => path hl.1 hl.2 0) <$> k)).
  rewrite !fmap_app, path_fst, path_snd, !elem_of_app. set_solver.
Qed.

Lemma hfresh_ends W e : hfresh W e -> e ∉ (hlinks W).*2.
Proof. intros [H0 He] Hin. by apply He, hlinks_ends. Qed.

Lemma hfresh_none W e : hfresh W e -> W !! e = None.
Proof.
  intros [_ He]. destruct (W !! e) as [l|] eqn:E; [|done]. exfalso. apply He.
  rewrite (hlinks_lookup _ _ _ E), fmap_app, path_fst. by left.
Qed.

Lemma hlinked_in m L a b : hlinked m L -> (a, b) ∈ L -> nx m !! a = Some b /\ (b <> 0 -> pv m !! b = Some a).
Proof. intros (_ & _ & HF) Hab. exact (proj1 (Forall_forall _ _) HF _ Hab). Qed.

(** Links [B] in place of [A]. *)
Lemma hrewire m m' A B R :
  hlinked m (A ++ R) -> Forall (hlink m') B -> (forall a, a ∈ R.*1 -> nx m' !! a = nx m !! a) ->
  (forall b, b ∈ R.*2 -> b <> 0 -> pv m' !! b = pv m !! b) -> NoDup (B.*1 ++ R.*1) -> NoDup (nz (B.*2 ++ R.*2)) ->
  hlinked m' (B ++ R).
Proof.
  intros (_ & _ & [_ HF]%Forall_app) HB Hn Hp N1 N2. split_and!; [by rewrite fmap_app..|]. apply Forall_app. split; [done|].
  apply Forall_forall. intros [a b] Hab. pose proof (proj1 (Forall_forall _ _) HF _ Hab) as [E1 E2]. cbn [fst snd] in E1, E2.
  assert (a ∈ R.*1 /\ b ∈ R.*2) as [Ha Hb] by (split; apply list_elem_of_fmap; eexists; (split; [|exact Hab]); done).
  split; cbn; [by rewrite Hn|]. intros Hb0. rewrite Hp by done. by apply E2.
Qed.

(** ** Inserting and removing a node *)

(** The heap with [new] between [p] and [n]. *)
Definition between (m : heap) (p new n : Z) : heap :=
  Heap (<[p := new]> (<[new := n]> (nx m))) (<[new := p]> (if n =? 0 then pv m else <[n := new]> (pv m))).

Lemma between_ok m p n new L :
  hlinked m ((p, n) :: L) -> new <> 0 -> new ∉ ((p, n) :: L).*1 -> new ∉ ((p, n) :: L).*2 ->
  hlinked (between m p new n) ((p, new) :: (new, n) :: L).
Proof.
  intros HL H0 N1 N2. pose proof HL as (H1 & H2 & _). cbn in H1, H2, N1, N2. rewrite NoDup_cons in H1. rewrite nz_cons in H2.
  change ((p, new) :: (new, n) :: L) with ([(p, new); (new, n)] ++ L).
  apply (hrewire m _ [(p, n)]); [exact HL|..]; cbn.
  - repeat constructor; cbn.
    + by rewrite lookup_insert_eq.
    + intros _. by rewrite lookup_insert_eq.
    + by rewrite lookup_insert_ne, lookup_insert_eq by set_solver.
    + intros Hn. rewrite lookup_insert_ne by set_solver. rewrite (proj2 (Z.eqb_neq _ _)) by done. by rewrite lookup_insert_eq.
  - intros a Ha. by rewrite !lookup_insert_ne by set_solver.
  - intros b Hb Hb0. rewrite lookup_insert_ne by set_solver. destruct (Z.eqb_spec n 0) as [|Hn]; [done|].
    rewrite lookup_insert_ne; [done|]. destruct (decide (n = 0)); [done|]. apply NoDup_cons in H2 as [H2 _].
    intros ->. apply H2, nz_in. done.
  - rewrite !NoDup_cons. set_solver.
  - rewrite !nz_cons. destruct (decide (new = 0)); [done|]. destruct (decide (n = 0)).
    + apply NoDup_cons. split; [|done]. rewrite nz_in. intros [_ ?]. apply N2. by right.
    + apply NoDup_cons in H2 as [H2 H2']. rewrite !NoDup_cons. split_and!; [|done|done].
      rewrite elem_of_cons, nz_in. intros [->|[_ ?]]; apply N2; [by left|by right].
Qed.

Lemma between_dom m p new n :
  is_Some (nx m !! p) -> mapped m new -> (n <> 0 -> is_Some (pv m !! n)) -> same_dom m (between m p new n).
Proof.
  intros Hp [Hn Hv] H0 a. unfold between. cbn [nx pv]. split; [rewrite <- !insert_some by there; done|].
  destruct (Z.eqb_spec n 0) as [|Hne]; [rewrite <- insert_some by there; done|].
  specialize (H0 Hne). rewrite <- !insert_some by there. done.
Qed.

Definition removed (m : heap) (p n : Z) : heap :=
  Heap (<[p := n]> (nx m)) (if n =? 0 then pv m else <[n := p]> (pv m)).

Lemma removed_ok m p e n L :
  hlinked m ((p, e) :: (e, n) :: L) -> e <> 0 -> hlinked (removed m p n) ((p, n) :: L) /\ same_dom m (removed m p n).
Proof.
  intros HL H0. pose proof (hlinked_in m _ p e HL) as [E1 E2]; [set_solver|].
  pose proof (hlinked_in m _ e n HL) as [E3 E4]; [set_solver|].
  pose proof HL as (H1 & H2 & _). cbn in H1, H2. rewrite !NoDup_cons in H1. rewrite !nz_cons in H2.
  destruct (decide (e = 0)); [done|]. apply NoDup_cons in H2 as [H2a H2]. split.
  - change ((p, n) :: L) with ([(p, n)] ++ L). apply (hrewire m _ [(p, e); (e, n)]); [exact HL|..]; cbn.
    + repeat constructor; cbn; [by rewrite lookup_insert_eq|]. intros Hn.
      rewrite (proj2 (Z.eqb_neq _ _)) by done. by rewrite lookup_insert_eq.
    + intros a Ha. by rewrite lookup_insert_ne by set_solver.
    + intros b Hb Hb0. destruct (Z.eqb_spec n 0) as [|Hn]; [done|]. rewrite lookup_insert_ne; [done|].
      destruct (decide (n = 0)); [done|]. apply NoDup_cons in H2 as [H2 _]. intros ->. apply H2, nz_in. done.
    + rewrite NoDup_cons. set_solver.
    + rewrite nz_cons. done.
  - intros a. cbn. split; [rewrite <- insert_some by there; done|]. destruct (Z.eqb_spec n 0) as [|Hn]; [done|].
    specialize (E4 Hn). cbn in E4. rewrite <- insert_some by there. done.
Qed.

(** ** Each operation *)

Definition hdoes (m : heap) (c : LM unit) (W' : gmap Z (list Z)) : Prop :=
  exists m', c m = Some (tt, m') /\ hlists m' W' /\ same_dom m m'.

Lemma hdoes_bind m c1 c2 W1 W2 :
  hdoes m c1 W1 -> (forall m1, hlists m1 W1 -> same_dom m m1 -> hdoes m1 c2 W2) -> hdoes m (c1 ;; c2) W2.
Proof.
  intros (m1 & E1 & H1 & D1) H2. destruct (H2 m1 H1 D1) as (m2 & E2 & H2' & D2). exists m2.
  split; [|split; [done|by eapply same_dom_trans]]. by rewrite (run_bind _ _ tt m m1 E1).
Qed.

Lemma hneighbours m W h l1 l2 :
  hlists m W -> W !! h = Some (l1 ++ l2) ->
  nx m !! default h (last l1) = Some (default 0 (head l2)) /\
  (default 0 (head l2) <> 0 -> pv m !! default 0 (head l2) = Some (default h (last l1))).
Proof.
  intros [HW _] Hh. destruct (hlinks_middle W h l1 [] l2 Hh) as (p & n & R & <- & <- & HL & _).
  apply (hlinked_in m _ p n HW). rewrite HL. by left.
Qed.

Lemma haround m W h l1 e l2 :
  hlists m W -> W !! h = Some (l1 ++ e :: l2) ->
  nx m !! e = Some (default 0 (head l2)) /\ pv m !! e = Some (default h (last l1)) /\ e <> 0.
Proof.
  intros HW Hh. assert (e <> 0) as He by (intros ->; eapply (proj2 HW); [exact Hh|set_solver]).
  split_and!; [|exact (proj2 (hneighbours m W h l1 (e :: l2) HW Hh) He)|done].
  change (e :: l2) with ([e] ++ l2) in Hh. rewrite (assoc_L (++)) in Hh.
  pose proof (hneighbours m W h (l1 ++ [e]) l2 HW Hh) as [E _]. by rewrite last_snoc in E.
Qed.

Lemma nodes_update (W : gmap Z (list Z)) h l :
  (forall k l, W !! k = Some l -> 0 ∉ l) -> 0 ∉ l -> forall k l', <[h := l]> W !! k = Some l' -> 0 ∉ l'.
Proof. intros HW Hl k l' [[-> <-]|[_ Hk]]%lookup_insert_Some; [done|by eapply HW]. Qed.

Lemma hinsert_ok m W h l1 l2 new :
  hlists m W -> W !! h = Some (l1 ++ l2) -> hfresh W new -> mapped m new ->
  hlists (between m (default h (last l1)) new (default 0 (head l2))) (<[h := l1 ++ new :: l2]> W) /\
  same_dom m (between m (default h (last l1)) new (default 0 (head l2))).
Proof.
  intros HW Hh Hf Hm. pose proof (hneighbours m W h l1 l2 HW Hh) as [En Ep].
  destruct (hlinks_middle W h l1 [] l2 Hh) as (p & n & R & Hp & Hn & HL & HL'). rewrite <- Hp, <- Hn in *.
  pose proof (hfresh_ends _ _ Hf) as N2. destruct Hf as [H0 N1]. destruct HW as [HW Hz]. rewrite HL in HW, N1, N2.
  split; [split|].
  - rewrite (HL' [new]). by apply between_ok.
  - apply nodes_update; [done|]. specialize (Hz _ _ Hh). set_solver.
  - apply between_dom; [by eexists|done|]. intros Hn0. by eexists; apply Ep.
Qed.

Lemma hadd_head_ok m W h l new :
  hlists m W -> W !! h = Some l -> hfresh W new -> mapped m new -> hdoes m (hlist_add_head new h) (<[h := new :: l]> W).
Proof.
  intros HW Hh Hf Hm. destruct (hinsert_ok m W h [] l new HW Hh Hf Hm) as [Hl Hd]. cbn [last default app] in Hl, Hd.
  exists (between m h new (default 0 (head l))). split; [|by split].
  pose proof (hneighbours m W h [] l HW Hh) as [En Ep]. cbn [last default] in En, Ep. set (f := default 0 (head l)) in *.
  destruct Hm as [Hmn Hmp]. unfold hlist_add_head, between. rewrite (run_next _ _ _ _ En).
  erewrite run_bind by (by apply set_next_ok). destruct (Z.eqb_spec f 0) as [E|Hne]; cbn [negb].
  - erewrite run_bind by reflexivity. erewrite run_bind by (apply set_next_ok; there). rewrite set_prev_ok by there. done.
  - specialize (Ep Hne). erewrite run_bind by (apply set_prev_ok; there).
    erewrite run_bind by (apply set_next_ok; there). rewrite set_prev_ok by there. done.
Qed.

Lemma hadd_before_ok m W h l1 x l2 new :
  hlists m W -> W !! h = Some (l1 ++ x :: l2) -> hfresh W new -> mapped m new ->
  hdoes m (hlist_add_before new x) (<[h := l1 ++ new :: x :: l2]> W).
Proof.
  intros HW Hh Hf Hm. destruct (hinsert_ok m W h l1 (x :: l2) new HW Hh Hf Hm) as [Hl Hd]. cbn [head default] in Hl, Hd.
  destruct (haround m W h l1 x l2 HW Hh) as (En & Ep & Hx). eexists. split; [|by split].
  pose proof (hneighbours m W h l1 (x :: l2) HW Hh) as [En' _]. cbn [head default] in En'. set (p := default h (last l1)) in *.
  assert (new <> x) as Hnx.
  { intros ->. apply (proj2 Hf). rewrite (hlinks_lookup _ _ _ Hh), fmap_app, path_fst. set_solver. }
  destruct Hm as [Hmn Hmp]. unfold hlist_add_before, between. rewrite (run_prev _ _ _ _ Ep).
  erewrite run_bind by (by apply set_prev_ok). erewrite run_bind by (apply set_next_ok; there).
  erewrite run_bind by (apply set_prev_ok; there). cbn [nx pv].
  rewrite (run_prev _ p) by (cbn; by rewrite lookup_insert_ne, lookup_insert_eq by done).
  rewrite set_next_ok by there. cbn [nx pv]. rewrite (proj2 (Z.eqb_neq _ _)) by done.
  by rewrite (insert_insert_ne (pv m) new x) by done.
Qed.

Lemma hadd_behind_ok m W h l1 p l2 new :
  hlists m W -> W !! h = Some (l1 ++ p :: l2) -> hfresh W new -> mapped m new ->
  hdoes m (hlist_add_behind new p) (<[h := l1 ++ p :: new :: l2]> W).
Proof.
  intros HW Hh Hf Hm. destruct (haround m W h l1 p l2 HW Hh) as (En & _ & Hp). pose proof Hh as Hh'.
  change (p :: l2) with ([p] ++ l2) in Hh'. rewrite (assoc_L (++)) in Hh'.
  destruct (hinsert_ok m W h (l1 ++ [p]) l2 new HW Hh' Hf Hm) as [Hl Hd].
  pose proof (hneighbours m W h (l1 ++ [p]) l2 HW Hh') as [_ Ep].
  rewrite last_snoc in Hl, Hd, Ep. cbn [default] in Hl, Hd, Ep. rewrite <- (assoc_L (++)) in Hl. cbn [app] in Hl.
  eexists. split; [|by split]. set (x := default 0 (head l2)) in *.
  assert (new <> p) as Hnp.
  { intros ->. apply (proj2 Hf). rewrite (hlinks_lookup _ _ _ Hh), fmap_app, path_fst. set_solver. }
  assert (x <> 0 -> new <> x) as Hnx.
  { intros Hx ->. apply (hfresh_ends _ _ Hf). rewrite (hlinks_lookup _ _ _ Hh), fmap_app, path_snd.
    apply elem_of_app. left. subst x. destruct l2 as [|y l2]; [done|]. set_solver. }
  destruct Hm as [Hmn Hmp]. unfold hlist_add_behind, between. rewrite (run_next _ _ _ _ En).
  erewrite run_bind by (by apply set_next_ok). erewrite run_bind by (apply set_next_ok; there).
  erewrite run_bind by (apply set_prev_ok; there). cbn [nx pv].
  rewrite (run_next _ x) by (cbn; by rewrite lookup_insert_ne, lookup_insert_eq by done).
  destruct (Z.eqb_spec x 0) as [E|Hne]; cbn [negb]; [done|].
  rewrite (run_next _ x) by (cbn; by rewrite lookup_insert_ne, lookup_insert_eq by done). specialize (Ep Hne).
  rewrite set_prev_ok by there. cbn [nx pv]. by rewrite (insert_insert_ne (pv m) new x) by (by apply Hnx).
Qed.

Lemma hunlink_ok m W h l1 e l2 :
  hlists m W -> W !! h = Some (l1 ++ e :: l2) ->
  hdoes m (__hlist_del e) (<[h := l1 ++ l2]> W) /\ hfresh (<[h := l1 ++ l2]> W) e /\ mapped m e /\ h <> e.
Proof.
  intros HW Hh. destruct (haround m W h l1 e l2 HW Hh) as (En & Ep & He).
  pose proof (hneighbours m W h l1 (e :: l2) HW Hh) as [Hp0 _].
  assert (default 0 (head l2) <> 0 -> is_Some (pv m !! default 0 (head l2))) as Hn0.
  { intros Hne. change (e :: l2) with ([e] ++ l2) in Hh. rewrite (assoc_L (++)) in Hh.
    eexists. exact (proj2 (hneighbours m W h (l1 ++ [e]) l2 HW Hh) Hne). }
  destruct (hlinks_middle W h l1 [e] l2 Hh) as (p & n & R & Hp & Hn & HL & HL'). rewrite <- Hp in Ep, Hp0. rewrite <- Hn in En, Hn0.
  pose proof HW as [HW' Hz]. rewrite HL in HW'. destruct (removed_ok m p e n R HW' He) as [Hl Hd]. split_and!.
  - exists (removed m p n). split; [|split; [split; [by rewrite (HL' [])|]|done]].
    + unfold __hlist_del, removed. rewrite (run_next _ _ _ _ En), (run_prev _ _ _ _ Ep).
      erewrite run_bind by (apply set_next_ok; there). destruct (Z.eqb_spec n 0) as [|Hne]; cbn [negb]; [done|].
      specialize (Hn0 Hne). by rewrite set_prev_ok by there.
    + apply nodes_update; [done|]. specialize (Hz _ _ Hh). set_solver.
  - split; [done|]. rewrite (HL' []). cbn. destruct HW' as (H1 & _ & _). cbn in H1. rewrite !NoDup_cons in H1. set_solver.
  - split; by eexists.
  - destruct HW' as (H1 & _ & _). rewrite <- HL, (hlinks_lookup _ _ _ Hh), fmap_app, path_fst in H1. cbn in H1.
    apply NoDup_cons in H1 as [H1 _]. set_solver.
Qed.

(** Writes to a node that is in no list. *)
Lemma hwrite_ok m W e x y :
  hlists m W -> hfresh W e -> mapped m e -> hdoes m (set_next e x ;; set_prev e y) W.
Proof.
  intros [HW Hz] He [Hn Hp]. unfold hdoes. erewrite run_bind by (by apply set_next_ok). rewrite set_prev_ok by done.
  eexists. split; [reflexivity|]. cbn [nx pv]. pose proof (hfresh_ends _ _ He) as N2. destruct He as [H0 N1]. split.
  - split; [|done]. change (hlinks W) with ([] ++ hlinks W).
    destruct HW as (H1 & H2 & HF). apply (hrewire m _ []); cbn; [by split|constructor|..|done|done].
    + intros a Ha. by rewrite lookup_insert_ne by set_solver.
    + intros b Hb _. by rewrite lookup_insert_ne by set_solver.
  - dom.
Qed.

Lemma hdel_ok m W h l1 e l2 :
  hlists m W -> W !! h = Some (l1 ++ e :: l2) -> hdoes m (hlist_del e) (<[h := l1 ++ l2]> W).
Proof.
  intros HW Hh. destruct (hunlink_ok m W h l1 e l2 HW Hh) as (Hu & Hf & Hm & _). eapply hdoes_bind; [exact Hu|].
  intros m1 H1 Hd. apply hwrite_ok; [done|done|by eapply mapped_dom].
Qed.

(** A head at address 0 there is not. *)
Lemma hdel_init_ok m W h l1 e l2 :
  hlists m W -> W !! h = Some (l1 ++ e :: l2) -> h <> 0 -> hdoes m (hlist_del_init e) (<[h := l1 ++ l2]> W).
Proof.
  intros HW Hh Hh0. destruct (hunlink_ok m W h l1 e l2 HW Hh) as (Hu & Hf & Hm & _).
  destruct (haround m W h l1 e l2 HW Hh) as (_ & Ep & _). unfold hdoes, hlist_del_init, hlist_unhashed.
  assert ((p ← prev e; mret (p =? 0)) m = Some (false, m)) as Eu.
  { rewrite (run_prev _ _ _ _ Ep). unfold mret, LM_ret. do 2 f_equal. apply Z.eqb_neq.
    destruct (last l1) as [z|] eqn:Ez; [|done]. cbn. intros ->. apply last_Some_elem_of in Ez.
    apply (proj2 HW _ _ Hh). set_solver. }
  rewrite (run_bind _ _ _ _ _ Eu). cbn [negb]. eapply hdoes_bind; [exact Hu|]. intros m1 H1 Hd.
  apply hwrite_ok; [done|done|by eapply mapped_dom].
Qed.

Lemma hinit_ok m W h : hlists m W -> hfresh W h -> is_Some (nx m !! h) -> hdoes m (INIT_HLIST_HEAD h) (<[h := []]> W).
Proof.
  intros [HW Hz] Hf Hh. exists (Heap (<[h := 0]> (nx m)) (pv m)). split; [by apply set_next_ok|]. split; [split|].
  - rewrite hlinks_insert by (by apply hfresh_none). destruct Hf as [H0 N1]. cbn [path].
    destruct HW as (H1 & H2 & HF). apply (hrewire m _ []); cbn.
    + by split.
    + repeat constructor; cbn; [by rewrite lookup_insert_eq|done].
    + intros a Ha. by rewrite lookup_insert_ne by set_solver.
    + done.
    + by constructor.
    + rewrite nz_cons. done.
  - apply nodes_update; [done|set_solver].
  - intros a. cbn. split; [rewrite <- insert_some by there; done|done].
Qed.

(** The heap when the nodes of [old] are those of [new]. *)
Definition moved (m : heap) (old new n : Z) : heap :=
  Heap (<[old := 0]> (<[new := n]> (nx m))) (if n =? 0 then pv m else <[n := new]> (pv m)).

Lemma moved_links m old new n L :
  hlinked m ((new, 0) :: (old, n) :: L) ->
  hlinked (moved m old new n) ((old, 0) :: (new, n) :: L) /\ same_dom m (moved m old new n).
Proof.
  intros HL. pose proof (hlinked_in m _ new 0 HL) as [En _]; [set_solver|].
  pose proof (hlinked_in m _ old n HL) as [Eo Ep]; [set_solver|].
  pose proof HL as (H1 & H2 & _). cbn in H1, H2. rewrite !NoDup_cons in H1. rewrite !nz_cons in H2.
  destruct (decide (0 = 0)); [|done]. split.
  - change ((old, 0) :: (new, n) :: L) with ([(old, 0); (new, n)] ++ L).
    apply (hrewire m _ [(new, 0); (old, n)]); [exact HL|..]; cbn.
    + repeat constructor; cbn; [by rewrite lookup_insert_eq|done|by rewrite lookup_insert_ne, lookup_insert_eq by set_solver|].
      intros Hn. rewrite (proj2 (Z.eqb_neq _ _)) by done. by rewrite lookup_insert_eq.
    + intros a Ha. by rewrite !lookup_insert_ne by set_solver.
    + intros b Hb Hb0. destruct (Z.eqb_spec n 0) as [|Hn]; [done|]. rewrite lookup_insert_ne; [done|].
      destruct (decide (n = 0)); [done|]. apply NoDup_cons in H2 as [H2 _]. intros ->. apply H2, nz_in. done.
    + rewrite !NoDup_cons. set_solver.
    + rewrite !nz_cons. by destruct (decide (0 = 0)).
  - intros a. cbn. split; [rewrite <- !insert_some by there; done|]. destruct (Z.eqb_spec n 0) as [|Hn]; [done|].
    specialize (Ep Hn). cbn in Ep. rewrite <- insert_some by there. done.
Qed.

Lemma path_head l b : exists T, forall a, path a l b = (a, default b (head l)) :: T.
Proof. destruct l as [|x l]; [by exists []|by exists (path x l b)]. Qed.

(** All nodes of [old] go to [new], which is empty before. *)
Lemma hmove_ok m W old new l :
  hlists m W -> old <> new -> W !! old = Some l -> W !! new = Some [] ->
  hdoes m (hlist_move_list old new) (<[old := []]> (<[new := l]> W)).
Proof.
  intros HW Hne Ho Hn. pose proof (hneighbours m W old [] l HW Ho) as [Eo Ep]. cbn [last default] in Eo, Ep.
  pose proof (hneighbours m W new [] [] HW Hn) as [En _]. cbn [last head default] in En.
  destruct (path_head l 0) as [T HT]. set (n := default 0 (head l)) in *. set (R := hlinks (delete old (delete new W))).
  assert (hlinks W ≡ₚ (new, 0) :: (old, n) :: T ++ R) as HLW.
  { assert (delete new W !! old = Some l) as Ho' by (by rewrite lookup_delete_ne).
    by rewrite (hlinks_lookup _ _ _ Hn), (hlinks_lookup _ _ _ Ho'), HT. }
  assert (hlinks (<[old := []]> (<[new := l]> W)) ≡ₚ (old, 0) :: (new, n) :: T ++ R) as HLn.
  { assert (<[new := l]> W !! old = Some l) as Ho2 by (by rewrite lookup_insert_ne).
    rewrite (hlinks_update _ _ _ _ Ho2), delete_insert_ne by done.
    assert (delete old W !! new = Some []) as Hn2 by (by rewrite lookup_delete_ne).
    rewrite (hlinks_update _ _ _ _ Hn2), HT. by rewrite delete_delete. }
  destruct HW as [HW Hz]. rewrite HLW in HW. destruct (moved_links m old new n _ HW) as [Hl Hd].
  exists (moved m old new n). split_and!; [|split; [by rewrite HLn|]|done].
  - unfold hlist_move_list, moved. rewrite (run_next _ _ _ _ Eo). erewrite run_bind by (apply set_next_ok; there).
    rewrite (run_next _ n) by (cbn; by rewrite lookup_insert_eq). destruct (Z.eqb_spec n 0) as [|Hn0]; cbn [negb].
    + erewrite run_bind by reflexivity. by rewrite set_next_ok by there.
    + specialize (Ep Hn0). erewrite run_bind by (apply set_prev_ok; there). by rewrite set_next_ok by there.
  - apply nodes_update; [apply nodes_update; [done|by eapply Hz]|set_solver].
Qed.

(** ** Loops *)

Lemma hwalk_ok m W h l1 l2 :
  hlists m W -> W !! h = Some (l1 ++ l2) -> walk next (length l2) (default 0 (head l2)) 0 m = Some (l2, m).
Proof.
  intros HW. revert l1. induction l2 as [|x l2 IH]; intros l1 Hh; cbn [walk length head default]; [done|].
  destruct (haround m W h l1 x l2 HW Hh) as (En & _ & Hx). rewrite (proj2 (Z.eqb_neq _ _)) by done.
  rewrite (run_next _ _ _ _ En). change (x :: l2) with ([x] ++ l2) in Hh. rewrite (assoc_L (++)) in Hh.
  by rewrite (run_bind _ _ _ _ _ (IH _ Hh)).
Qed.

(** Removing every node in a loop, as [hash_delete_all] does. *)
Lemma hwalk_del m W h l :
  hlists m W -> W !! h = Some l -> h <> 0 ->
  hdoes m (hwalk_safe hlist_del_init (length l) (default 0 (head l))) (<[h := []]> W).
Proof.
  revert m W. induction l as [|x l IH]; intros m W HW Hh H0.
  - cbn. rewrite insert_id by done. exists m. split_and!; [done|done|apply same_dom_refl].
  - destruct (haround m W h [] x l HW Hh) as (En & _ & Hx). cbn [length hwalk_safe head default].
    rewrite (proj2 (Z.eqb_neq _ _)) by done. unfold hdoes. rewrite (run_next _ _ _ _ En).
    eapply hdoes_bind; [exact (hdel_init_ok m W h [] x l HW Hh H0)|]. intros m1 H1 Hd. cbn [app] in H1.
    rewrite <- (insert_insert_eq W h [] l). apply IH; [done|by rewrite lookup_insert_eq|done].
Qed.

(** ** The specification *)

Inductive hop :=
| HInit (h : Z)
| HAddHead (n h : Z)
| HAddBefore (n x : Z)
| HAddBehind (n p : Z)
| HDel (e : Z)
| HDelInit (e : Z)
| HMove (old new : Z)
| HDelAll (n : nat) (h : Z).

Definition hexec (o : hop) : LM unit :=
  match o with
  | HInit h => INIT_HLIST_HEAD h
  | HAddHead n h => hlist_add_head n h
  | HAddBefore n x => hlist_add_before n x
  | HAddBehind n p => hlist_add_behind n p
  | HDel e => hlist_del e
  | HDelInit e => hlist_del_init e
  | HMove old new => hlist_move_list old new
  | HDelAll n h => hlist_for_each_safe n h hlist_del_init
  end.

Fixpoint hexec_all (l : list hop) : LM unit :=
  match l with [] => mret tt | o :: l => hexec o ;; hexec_all l end.

(** The memory an operation takes from outside: a head has one pointer, a node two. *)
Definition hneeds (m : heap) (o : hop) : Prop :=
  match o with
  | HInit h => is_Some (nx m !! h)
  | HAddHead n _ | HAddBefore n _ | HAddBehind n _ => mapped m n
  | _ => True
  end.

Inductive hstep : hop -> world -> world -> Prop :=
| hstep_init W h : hfresh W h -> hstep (HInit h) W (<[h := []]> W)
| hstep_add_head W n h l : hfresh W n -> W !! h = Some l -> hstep (HAddHead n h) W (<[h := n :: l]> W)
| hstep_add_before W n h l1 x l2 :
    hfresh W n -> W !! h = Some (l1 ++ x :: l2) -> hstep (HAddBefore n x) W (<[h := l1 ++ n :: x :: l2]> W)
| hstep_add_behind W n h l1 p l2 :
    hfresh W n -> W !! h = Some (l1 ++ p :: l2) -> hstep (HAddBehind n p) W (<[h := l1 ++ p :: n :: l2]> W)
| hstep_del W h l1 e l2 : W !! h = Some (l1 ++ e :: l2) -> hstep (HDel e) W (<[h := l1 ++ l2]> W)
| hstep_del_init W h l1 e l2 : W !! h = Some (l1 ++ e :: l2) -> hstep (HDelInit e) W (<[h := l1 ++ l2]> W)
| hstep_move W old new l :
    old <> new -> W !! old = Some l -> W !! new = Some [] -> hstep (HMove old new) W (<[old := []]> (<[new := l]> W))
| hstep_del_all W h l : W !! h = Some l -> hstep (HDelAll (length l) h) W (<[h := []]> W).

Inductive hrun : list hop -> world -> world -> Prop :=
| hrun_nil W : hrun [] W W
| hrun_cons o l W1 W2 W3 : hstep o W1 W2 -> hrun l W2 W3 -> hrun (o :: l) W1 W3.

(** No head is at address 0 either. *)
Lemma hstep_heads o W W' : hstep o W W' -> W !! 0 = None -> W' !! 0 = None.
Proof. intros Hs H0. destruct Hs; try match goal with H : hfresh _ _ |- _ => destruct H end; rewrite !lookup_insert_ne; congruence. Qed.

Lemma hneeds_dom m m' o : same_dom m m' -> hneeds m o -> hneeds m' o.
Proof. intros Hd. destruct o; cbn; try done; try (by apply mapped_dom). apply (Hd h). Qed.

Lemma hstep_ok m o W W' : hlists m W -> W !! 0 = None -> hneeds m o -> hstep o W W' -> hdoes m (hexec o) W'.
Proof.
  intros HW H0 Hm Hs.
  destruct Hs; cbn [hneeds hexec] in *;
    eauto using hinit_ok, hadd_head_ok, hadd_before_ok, hadd_behind_ok, hdel_ok, hmove_ok.
  - eapply hdel_init_ok; [done|done|congruence].
  - unfold hdoes, hlist_for_each_safe. rewrite (run_next _ _ _ _ (proj1 (hneighbours m W h [] l HW H))).
    apply hwalk_del; [done|done|congruence].
Qed.

(** What can be seen of a list. *)
Record hshows (m : heap) (h : Z) (l : list Z) : Prop := {
  hs_each : hlist_for_each (length l) h m = Some (l, m);
  hs_empty : hlist_empty h m = Some (bool_decide (l = []), m);
  hs_hashed : Forall (fun e => hlist_unhashed e m = Some (false, m)) l
}.

Lemma hlists_show m W h l : hlists m W -> W !! 0 = None -> W !! h = Some l -> hshows m h l.
Proof.
  intros HW H0 Hh. pose proof (proj1 (hneighbours m W h [] l HW Hh)) as Hn. cbn [last default] in Hn.
  pose proof (proj2 HW _ _ Hh) as Hz. split.
  - unfold hlist_for_each. rewrite (run_next _ _ _ _ Hn). exact (hwalk_ok m W h [] l HW Hh).
  - unfold hlist_empty. rewrite (run_next _ _ _ _ Hn). destruct l as [|x l]; [done|]. cbn.
    by rewrite (proj2 (Z.eqb_neq _ _)) by set_solver.
  - apply Forall_forall. intros e (l1 & l2 & ->)%list_elem_of_split. destruct (haround m W h l1 e l2 HW Hh) as (_ & Ep & _).
    unfold hlist_unhashed. rewrite (run_prev _ _ _ _ Ep). unfold mret, LM_ret. do 2 f_equal. apply Z.eqb_neq.
    destruct (last l1) as [z|] eqn:Ez; cbn; [|congruence]. apply last_Some_elem_of in Ez. intros ->. set_solver.
Qed.

(** C15: The chains of list.h are sequences.  Any run of the specification, in which
    nodes are put at the head of a chain, before or behind another node, removed,
    moved to another head and removed in a loop, is a run of the operations on
    pointers: none of them touches memory that is not there (the null pointer at
    the end of a chain included), afterwards every chain is the one the
    specification says, walking it yields its nodes, and exactly the empty ones
    are reported empty. *)
Theorem hlists_refine ops m W W' :
  hlists m W -> W !! 0 = None -> Forall (hneeds m) ops -> hrun ops W W' ->
  exists m', hexec_all ops m = Some (tt, m') /\ hlists m' W' /\ forall h l, W' !! h = Some l -> hshows m' h l.
Proof.
  intros HW H0 Hm Hr. assert (hdoes m (hexec_all ops) W' /\ W' !! 0 = None) as [(m' & E & HW' & _) H0'].
  { revert m HW H0 Hm. induction Hr as [W|o ops W1 W2 W3 Hs _ IH]; intros m HW H0 Hm; cbn [hexec_all].
    - split; [|done]. exists m. split_and!; [done|done|apply same_dom_refl].
    - apply Forall_cons in Hm as [Ho Hm]. pose proof (hstep_heads _ _ _ Hs H0) as H0'.
      destruct (hstep_ok m o W1 W2 HW H0 Ho Hs) as (m1 & E1 & H1 & D1).
      destruct (IH m1 H1 H0') as [Hd Hz]; [|split; [|done]].
      + eapply Forall_impl; [exact Hm|]. intros o'. by apply hneeds_dom.
      + destruct Hd as (m2 & E2 & H2 & D2). exists m2. split_and!; [|done|by eapply same_dom_trans].
        by rewrite (run_bind _ _ tt m m1 E1). }
  exists m'. split_and!; [done|done|]. intros h l Hh. by eapply hlists_show.
Qed.

(** A chain filled and emptied from the middle, and one moved to another head. *)
Definition hdemo_ops : list hop :=
  [HInit 10; HAddHead 20 10; HAddBehind 30 20; HAddBefore 50 30; HDelInit 20; HInit 40; HMove 10 40].

Ltac hfree := split; [done|]; apply (bool_decide_unpack _); vm_compute; exact I.

Lemma hdemo_run : exists W', hrun hdemo_ops ∅ W' /\ W' !! 40 = Some [50; 30] /\ W' !! 10 = Some [].
Proof.
  eexists. split.
  - eapply hrun_cons; [apply hstep_init; hfree|].
    eapply hrun_cons; [apply (hstep_add_head _ 20 10 []); [hfree|reflexivity]|].
    eapply hrun_cons; [apply (hstep_add_behind _ 30 10 [] 20 []); [hfree|reflexivity]|].
    eapply hrun_cons; [apply (hstep_add_before _ 50 10 [20] 30 []); [hfree|reflexivity]|].
    eapply hrun_cons; [apply (hstep_del_init _ 10 [] 20 [50; 30]); reflexivity|].
    eapply hrun_cons; [apply hstep_init; hfree|].
    eapply hrun_cons; [apply (hstep_move _ 10 40 [50; 30]); [done|reflexivity|reflexivity]|]. apply hrun_nil.
  - split; reflexivity.
Qed.

Lemma hlists_refine_witness :
  exists m', hexec_all hdemo_ops demo_heap = Some (tt, m') /\ hshows m' 40 [50; 30] /\ hshows m' 10 [].
Proof.
  destruct hdemo_run as (W' & Hr & H40 & H10).
  destruct (hlists_refine hdemo_ops demo_heap ∅ W') as (m' & E & _ & Hs).
  - split; [split_and!; constructor|done].
  - reflexivity.
  - repeat constructor; cbn; by eexists.
  - exact Hr.
  - exists m'. split; [exact E|]. split; [exact (Hs 40 _ H40)|exact (Hs 10 _ H10)].
Defined.
