(* ===== verification/Options.v ===== *)
(** * The command line (src/src/main.c)

    The options of the forwarder as [main] reads them, with what [getopt] and
    [sscanf] of the GNU C library do with the words of the command line
    ([POSIXLY_CORRECT] not set); then the program as a whole.  What is printed is
    not modelled. *)

From stdpp Require Import prelude list.
From Stdlib Require Import String Ascii.
From S2P Require Import Prelude Os Driver Plane Main.

Local Open Scope string_scope.
Local Open Scope Z_scope.

Definition IXGBE_20K_ITR : Z := 200.

(** ** getopt *)

(** What is left of a word with several options, and the words after it. *)
Record gstate := GState { g_nextchar : string; g_argv : list string }.

Inductive opt_kind := Flag | WithArg | Unknown.

Definition colon (s : string) : bool := match s with String ":" _ => true | _ => false end.

Fixpoint opt_find (optstring : string) (c : ascii) : opt_kind :=
  match optstring with
  | "" => Unknown
  | String o rest =>
      if Ascii.eqb o c && negb (Ascii.eqb c ":") then if colon rest then WithArg else Flag
      else opt_find rest c
  end.

(** The next word with options; other words are passed over, a double dash ends
    the options. *)
Fixpoint next_word (argv : list string) : option (string * list string) :=
  match argv with
  | [] => None
  | a :: rest =>
      if String.eqb a "--" then None
      else
        match a with
        | String "-" (String c s) => Some (String c s, rest)
        | _ => next_word rest
        end
  end.

(** [None] stands for -1; [optarg] is the empty string where there is none. *)
Definition getopt (optstring : string) (g : gstate) : option (ascii * string * gstate) :=
  match (match g_nextchar g with "" => next_word (g_argv g) | s => Some (s, g_argv g) end) with
  | None | Some ("", _) => None
  | Some (String c s, argv) =>
      match opt_find optstring c with
      | Unknown => Some ("?"%char, "", GState s argv)
      | Flag => Some (c, "", GState s argv)
      | WithArg =>
          match s with
          | "" =>
              match argv with
              | [] => Some ("?"%char, "", GState "" [])
              | a :: argv => Some (c, a, GState "" argv)
              end
          | _ => Some (c, s, GState "" argv)
          end
      end
  end.

(** ** sscanf with the format %u *)

Definition code (c : ascii) : Z := Z.of_N (N_of_ascii c).
Definition isspace (c : ascii) : bool := (code c =? 32) || ((9 <=? code c) && (code c <=? 13)).
Definition isdigit (c : ascii) : bool := (48 <=? code c) && (code c <=? 57).

Fixpoint skip_spaces (s : string) : string :=
  match s with String c s' => if isspace c then skip_spaces s' else s | "" => "" end.

(** The digits at the start, as a number; [None] if there are none. *)
Fixpoint digits (s : string) (acc : option Z) : option Z :=
  match s with
  | String c s' => if isdigit c then digits s' (Some (10 * default 0 acc + (code c - 48))) else acc
  | "" => acc
  end.

(** [strtoul] saturates at 64 bits and the result is stored in 32. *)
Definition strtoul (negative : bool) (v : Z) : Z :=
  if 2 ^ 64 <=? v then 2 ^ 64 - 1 else if negative then (- v) mod 2 ^ 64 else v.

Definition sscanf_u (s : string) : option Z :=
  match skip_spaces s with
  | String "-" s => option_map (fun v => u32 (strtoul true v)) (digits s None)
  | String "+" s => option_map (fun v => u32 (strtoul false v)) (digits s None)
  | s => option_map (fun v => u32 (strtoul false v)) (digits s None)
  end.

(** ** The loop over the options *)

(** The members of [struct ixmapfwd] that the options set. *)
Record options := Options {
  o_num_cores : Z;
  o_num_ports : Z;
  o_promisc : Z;
  o_mtu_frame : Z;
  o_intr_rate : Z;
  o_buf_count : Z
}.

Definition default_options : options := Options 1 0 0 0 IXGBE_20K_ITR 8192.

Definition set_cores v o := Options v (o_num_ports o) (o_promisc o) (o_mtu_frame o) (o_intr_rate o) (o_buf_count o).
Definition set_ports v o := Options (o_num_cores o) v (o_promisc o) (o_mtu_frame o) (o_intr_rate o) (o_buf_count o).
Definition set_promisc v o := Options (o_num_cores o) (o_num_ports o) v (o_mtu_frame o) (o_intr_rate o) (o_buf_count o).
Definition set_mtu v o := Options (o_num_cores o) (o_num_ports o) (o_promisc o) v (o_intr_rate o) (o_buf_count o).
Definition set_count v o := Options (o_num_cores o) (o_num_ports o) (o_promisc o) (o_mtu_frame o) (o_intr_rate o) v.

(** [main] returns at once, or goes on. *)
Inductive parsed := Exit (ret : Z) | Go (o : options).

Definition optstring : string := "t:n:m:c:ph".

Definition number (f : Z -> options -> options) (optarg : string) (o : options) : parsed :=
  match sscanf_u optarg with Some v => Go (f v o) | None => Exit (-1) end.

(** The body of the loop. *)
Definition option_case (opt : ascii) (optarg : string) (o : options) : parsed :=
  match opt with
  | "t"%char => number set_cores optarg o
  | "n"%char => number set_ports optarg o
  | "m"%char => number set_mtu optarg o
  | "c"%char => number set_count optarg o
  | "p"%char => Go (set_promisc 1 o)
  | "h"%char => Exit 0
  | _ => Exit (-1)
  end.

(** [None] if the loop takes more than [fuel] rounds. *)
Fixpoint option_loop (fuel : nat) (g : gstate) (o : options) : option parsed :=
  match getopt optstring g with
  | None => Some (if o_num_ports o =? 0 then Exit (-1) else Go o)
  | Some (opt, optarg, g) =>
      match fuel with
      | O => None
      | S fuel =>
          match option_case opt optarg o with
          | Exit ret => Some (Exit ret)
          | Go o => option_loop fuel g o
          end
      end
  end.

(** The characters still to be read bound the rounds. *)
Definition g_size (g : gstate) : nat :=
  (String.length (g_nextchar g) + sum_list_with (fun a => S (String.length a)) (g_argv g))%nat.

(** [argv] without the name of the program. *)
Definition command_line (argv : list string) : option parsed :=
  let g := GState "" argv in option_loop (g_size g) g default_options.

(** ** The program *)

(** [info i] is what the device of port [i] reports. *)
Definition config_of (o : options) (info : nat -> info_req) : config :=
  Config (Z.to_nat (o_num_cores o)) (info <$> seq 0 (Z.to_nat (o_num_ports o))) (o_promisc o) (o_mtu_frame o)
    (o_buf_count o) (o_intr_rate o).

Definition program (argv : list string) (info : nat -> info_req) (refuse : bool) : M Z :=
  p ← lift (command_line argv);
  match p with
  | Exit ret => mret ret
  | Go o => main (config_of o info) refuse
  end.
