(* ===== verification/OptionsProps.v ===== *)
(** * What the command line means

    The loop over the options ends for every command line, and every list of
    settings, in any order and in either spelling, is read as it is meant. *)

From stdpp Require Import prelude list.
From Stdlib Require Import String Ascii.
From S2P Require Import Prelude Os Driver Plane PlaneProps Main MainProps Options.

Local Open Scope string_scope.
Local Open Scope Z_scope.

(** ** The loop ends *)

Lemma next_word_size argv s rest :
  next_word argv = Some (s, rest) -> (g_size (GState s rest) < g_size (GState "" argv))%nat /\ s <> "".
Proof.
  induction argv as [|a argv IH]; [done|]. cbn [next_word]. destruct (String.eqb a "--"); [done|].
  assert (next_word argv = Some (s, rest) -> (g_size (GState s rest) < g_size (GState "" (a :: argv)))%nat /\ s <> "") as Hskip.
  { intros Hn. destruct (IH Hn) as [Hlt Hs]. split; [|done]. unfold g_size in *. cbn in *. lia. }
  destruct a as [|[[] [] [] [] [] [] [] []] [|c a]]; try exact Hskip.
  intros [= <- <-]. unfold g_size. cbn. split; [lia|done].
Qed.

Lemma getopt_size opts g c arg g' : getopt opts g = Some (c, arg, g') -> (g_size g' < g_size g)%nat.
Proof.
  unfold getopt.
  destruct (match g_nextchar g with "" => next_word (g_argv g) | s => Some (s, g_argv g) end) as [[s argv]|] eqn:E; [|done].
  assert ((g_size (GState s argv) <= g_size g)%nat) as Hle.
  { destruct g as [[|c0 s0] av]; cbn in E; [apply next_word_size in E as [E _]; lia|]. by injection E as <- <-. }
  destruct s as [|d s]; [done|]. unfold g_size in *. cbn in Hle.
  destruct (opt_find opts d); [intros [= <- <- <-]; cbn; lia| |intros [= <- <- <-]; cbn; lia].
  destruct s as [|e s]; [destruct argv as [|a argv]|]; intros [= <- <- <-]; cbn in *; lia.
Qed.

Lemma option_loop_total fuel g o : (g_size g <= fuel)%nat -> exists r, option_loop fuel g o = Some r.
Proof.
  revert g o. induction fuel as [|fuel IH]; intros g o Hg; cbn [option_loop];
    destruct (getopt optstring g) as [[[c arg] g']|] eqn:E; eauto; apply getopt_size in E; [lia|].
  destruct (option_case c arg o) as [ret|o']; [by eexists|]. apply IH. lia.
Qed.

Lemma option_loop_more fuel fuel' g o r :
  option_loop fuel g o = Some r -> (fuel <= fuel')%nat -> option_loop fuel' g o = Some r.
Proof.
  revert fuel' g o. induction fuel as [|fuel IH]; intros [|fuel'] g o; cbn [option_loop];
    destruct (getopt optstring g) as [[[c arg] g']|]; try done; [lia|].
  intros Hr Hle. destruct (option_case c arg o) as [ret|o']; [done|]. apply IH; [done|lia].
Qed.

(** Any fuel that is enough gives the result. *)
Lemma command_line_any fuel argv r :
  option_loop fuel (GState "" argv) default_options = Some r -> command_line argv = Some r.
Proof.
  intros Hr. unfold command_line. cbv zeta. destruct (option_loop_total _ (GState "" argv) default_options (le_n _)) as [r' E].
  rewrite E. destruct (decide (fuel <= g_size (GState "" argv))%nat) as [Hle|Hgt].
  - rewrite <- E. by eapply option_loop_more.
  - rewrite <- Hr. symmetry. eapply option_loop_more; [exact E|lia].
Qed.

(** ** What it can yield *)

(** An unsigned int *)
Definition word (v : Z) : Prop := 0 <= v < 2 ^ 32.

Record options_ok (o : options) : Prop := {
  ok_cores : word (o_num_cores o);
  ok_ports : word (o_num_ports o);
  ok_promisc : o_promisc o = 0 \/ o_promisc o = 1;
  ok_mtu : word (o_mtu_frame o);
  ok_rate : o_intr_rate o = IXGBE_20K_ITR;
  ok_count : word (o_buf_count o)
}.

Lemma sscanf_range s v : sscanf_u s = Some v -> word v.
Proof.
  unfold sscanf_u. assert (forall neg (x : option Z), option_map (fun v => u32 (strtoul neg v)) x = Some v -> word v) as Hm.
  { intros neg [x|]; [|done]. intros [= <-]. apply Z.mod_pos_bound; lia. }
  destruct (skip_spaces s) as [|[[] [] [] [] [] [] [] []] s']; apply Hm.
Qed.

Lemma number_ok f arg o r :
  number f arg o = r -> (forall v, word v -> options_ok (f v o)) ->
  match r with Exit ret => ret = 0 \/ ret = -1 | Go o' => options_ok o' end.
Proof. intros <- Hf. unfold number. destruct (sscanf_u arg) as [v|] eqn:E; [apply Hf; by eapply sscanf_range|by right]. Qed.

Lemma option_case_ok c arg o :
  options_ok o -> match option_case c arg o with Exit ret => ret = 0 \/ ret = -1 | Go o' => options_ok o' end.
Proof.
  intros Ho. destruct c as [[] [] [] [] [] [] [] []]; cbn [option_case]; try (by left); try (by right);
    try (eapply number_ok; [reflexivity|]; intros v Hv; destruct Ho; split; cbn; done).
  destruct Ho. split; cbn; auto.
Qed.

Lemma option_loop_ok fuel g o r :
  options_ok o -> option_loop fuel g o = Some r ->
  match r with Exit ret => ret = 0 \/ ret = -1 | Go o' => options_ok o' /\ o_num_ports o' <> 0 end.
Proof.
  revert g o. induction fuel as [|fuel IH]; intros g o Ho; cbn [option_loop];
    destruct (getopt optstring g) as [[[c arg] g']|];
    try (destruct (Z.eqb_spec (o_num_ports o) 0); intros [= <-]; [by right|by split]); [done|].
  pose proof (option_case_ok c arg o Ho) as Hc. destruct (option_case c arg o) as [ret|o']; [by intros [= <-]|]. by apply IH.
Qed.

(** ** Settings and how they are written *)

Definition digit (d : Z) : ascii := ascii_of_N (Z.to_N (48 + d)).

Fixpoint decimal (fuel : nat) (n : Z) : string :=
  match fuel with
  | O => ""
  | S fuel => (if n <? 10 then "" else decimal fuel (n / 10)) ++ String (digit (n mod 10)) ""
  end.

(** 32 digits are enough for 32 bits. *)
Definition show (n : Z) : string := decimal 32 n.

Inductive setting := SCores (n : Z) | SPorts (n : Z) | SMtu (n : Z) | SCount (n : Z) | SPromisc.

Definition setting_ok (s : setting) : Prop :=
  match s with SCores n | SPorts n | SMtu n | SCount n => word n | SPromisc => True end.

(** As one word or as two. *)
Definition spell (opt : ascii) (n : Z) (one : bool) : list string :=
  if one then [String "-" (String opt (show n))] else [String "-" (String opt ""); show n].

Definition words (s : setting * bool) : list string :=
  match s.1 with
  | SCores n => spell "t" n s.2
  | SPorts n => spell "n" n s.2
  | SMtu n => spell "m" n s.2
  | SCount n => spell "c" n s.2
  | SPromisc => ["-p"]
  end.

Definition apply_setting (o : options) (s : setting * bool) : options :=
  match s.1 with
  | SCores n => set_cores n o
  | SPorts n => set_ports n o
  | SMtu n => set_mtu n o
  | SCount n => set_count n o
  | SPromisc => set_promisc 1 o
  end.

(** *** Numbers *)

Lemma digit_code d : 0 <= d < 10 -> code (digit d) = 48 + d.
Proof. intros Hd. unfold code, digit. rewrite N_ascii_embedding by lia. lia. Qed.

Lemma digit_is d : 0 <= d < 10 -> isdigit (digit d) = true.
Proof. intros Hd. unfold isdigit. rewrite digit_code by done. lia. Qed.

(** Only digits. *)
Fixpoint numeral (s : string) : bool :=
  match s with "" => true | String c s => isdigit c && numeral s end.

Lemma digits_app s1 s2 acc : numeral s1 = true -> digits (s1 ++ s2) acc = digits s2 (digits s1 acc).
Proof.
  revert acc. induction s1 as [|c s1 IH]; intros acc; [done|].
  change (String c s1 ++ s2) with (String c (s1 ++ s2)). cbn. intros [Hc Hs]%andb_prop. rewrite Hc. by apply IH.
Qed.

Lemma numeral_app s1 s2 : numeral (s1 ++ s2) = numeral s1 && numeral s2.
Proof. induction s1 as [|c s1 IH]; [done|]. change (String c s1 ++ s2) with (String c (s1 ++ s2)). cbn. by rewrite IH, andb_assoc. Qed.

Lemma decimal_ok fuel n : 0 <= n < 2 ^ Z.of_nat fuel -> (0 < fuel)%nat ->
  numeral (decimal fuel n) = true /\ digits (decimal fuel n) None = Some n.
Proof.
  revert n. induction fuel as [|fuel IH]; intros n Hn Hf; [lia|]. cbn [decimal].
  assert (0 <= n mod 10 < 10) as Hd by (apply Z.mod_pos_bound; lia).
  rewrite numeral_app. cbn [numeral]. rewrite digit_is by done. destruct (Z.ltb_spec n 10) as [Hlt|Hge].
  - change ("" ++ String (digit (n mod 10)) "") with (String (digit (n mod 10)) ""). cbn [numeral digits].
    rewrite digit_is, digit_code by done. split; [done|]. cbn.
    rewrite Z.mod_small by lia. f_equal. lia.
  - rewrite Nat2Z.inj_succ, Z.pow_succ_r in Hn by lia. destruct (IH (n / 10)) as [Hnum Hval].
    + split; [apply Z.div_pos; lia|]. apply Z.div_lt_upper_bound; lia.
    + destruct fuel; [cbn in Hn; lia|lia].
    + rewrite digits_app by done. rewrite Hnum, Hval. split; [done|]. cbn [digits].
      rewrite digit_is, digit_code by done. cbn. f_equal. pose proof (Z.div_mod n 10). lia.
Qed.

Lemma sscanf_digit c s :
  isdigit c = true ->
  sscanf_u (String c s) = option_map (fun v => u32 (strtoul false v)) (digits (String c s) None).
Proof. intros Hc. destruct c as [[] [] [] [] [] [] [] []]; first [discriminate Hc|reflexivity]. Qed.

Lemma show_ok n : word n -> sscanf_u (show n) = Some n /\ exists c s, show n = String c s.
Proof.
  intros Hn. destruct (decimal_ok 32 n Hn ltac:(lia)) as [Hnum Hval]. unfold show.
  destruct (decimal 32 n) as [|c s]; [done|]. split; [|by eexists _, _].
  cbn in Hnum. apply andb_prop in Hnum as [Hc _]. rewrite sscanf_digit, Hval by done. cbn [option_map]. f_equal.
  unfold strtoul, word in *. rewrite (proj2 (Z.leb_gt _ _)) by lia. unfold u32. by apply Z.mod_small.
Qed.

(** *** A setting is one round of the loop *)

Lemma getopt_spell opt n one rest :
  word n -> opt_find optstring opt = WithArg -> (opt =? "-")%char = false ->
  getopt optstring (GState "" (spell opt n one ++ rest)) = Some (opt, show n, GState "" rest).
Proof.
  intros Hn Ho Hd. destruct (show_ok n Hn) as (_ & c & s & Es). unfold getopt, spell. rewrite Es.
  destruct one; cbn -[opt_find]; rewrite Hd, Ho; done.
Qed.

Lemma setting_round s rest o :
  setting_ok s.1 -> exists opt arg, getopt optstring (GState "" ((words s ++ rest)%list)) = Some (opt, arg, GState "" rest) /\
    option_case opt arg o = Go (apply_setting o s).
Proof.
  destruct s as [[n|n|n|n|] one]; cbn [fst setting_ok words apply_setting]; intros Hs;
    try (eexists _, _; split; [by apply getopt_spell|]; cbn [option_case]; unfold number; by rewrite (proj1 (show_ok n Hs))).
  exists "p"%char, "". by split.
Qed.

Lemma settings_loop l o :
  Forall setting_ok l.*1 ->
  option_loop (List.length l) (GState "" (mjoin (words <$> l))) o =
    Some (let o' := fold_left apply_setting l o in if o_num_ports o' =? 0 then Exit (-1) else Go o').
Proof.
  revert o. induction l as [|s l IH]; intros o Hl; [done|]. cbn in Hl. apply Forall_cons in Hl as [Hs Hl].
  cbn [List.length option_loop]. change (mjoin (words <$> s :: l)) with ((words s ++ mjoin (words <$> l))%list).
  destruct (setting_round s (mjoin (words <$> l)) o Hs) as (opt & arg & E1 & E2). rewrite E1, E2. by apply IH.
Qed.

(** C30: The command line means what it says.  For any words at all the loop over
    the options ends, and [main] either returns 0 or -1 at once or goes on with
    numbers of 32 bits and at least one port; and any settings, in any order, as
    one word or two each, are read back, the last of a kind counting: unless no
    port is asked for, the program is the one with these options. *)
Theorem command_line_correct :
  (forall argv, exists r, command_line argv = Some r /\
     match r with Exit ret => ret = 0 \/ ret = -1 | Go o => options_ok o /\ o_num_ports o <> 0 end) /\
  (forall l info refuse s, Forall setting_ok l.*1 ->
     let o := fold_left apply_setting l default_options in
     program (mjoin (words <$> l)) info refuse s =
       if o_num_ports o =? 0 then Some (-1, s) else main (config_of o info) refuse s).
Proof.
  split.
  - intros argv. destruct (option_loop_total _ (GState "" argv) default_options (le_n _)) as [r E]. exists r. split; [done|].
    eapply option_loop_ok; [|exact E]. split; cbn; unfold word; try lia; by left.
  - intros l info refuse s Hl. cbv zeta. pose proof (command_line_any _ _ _ (settings_loop l default_options Hl)) as E.
    unfold program. rewrite E. cbv zeta. by destruct (o_num_ports _ =? 0).
Qed.

(** Two ports, four cores, promiscuous: [-n 2 -t4 -p]. *)
Definition demo_settings : list (setting * bool) := [(SPorts 2, false); (SCores 4, true); (SPromisc, false)].

Lemma command_line_correct_witness :
  program ["-n"; "2"; "-t4"; "-p"] (fun _ => demo_info) false (Os [] []) =
    main (Config 4 [demo_info; demo_info] 1 0 8192 IXGBE_20K_ITR) false (Os [] []).
Proof.
  apply (proj2 command_line_correct demo_settings (fun _ => demo_info) false (Os [] [])).
  repeat constructor; cbn; lia.
Defined.

(** A negative number is a number, and what follows one does not matter. *)
Example negative_ports : command_line ["-n"; "-1"] = Some (Go (set_ports (2 ^ 32 - 1) default_options)).
Proof. reflexivity. Qed.
Example trailing_garbage : command_line ["-n"; "2x"; "-ph"] = Some (Exit 0) /\ command_line ["-pn"; "2x"] <> Some (Exit (-1)).
Proof. split; [reflexivity|done]. Qed.
